(* ===== verification/_CoqProject ===== *)
-Q . S2P
Prelude.v
StringOps.v
Fmt.v
Bits.v
HeapArray.v
Bus.v
InstrInfo.v
Disasm.v
Cpu.v
Mos6502.v
CpuFacts.v
CpuCycles.v
CpuInv.v
CpuSim.v
CpuAlu.v
CpuStack.v
CpuNext.v
CpuIsa.v
CpuIsaRun.v
FlatMemory.v
CpuProps.v
IsaProps.v
File.v
Stream.v
CmdLine.v
Settings.v
Cartridge.v
Video.v
Random.v
OpenGL.v
OpenGLSpec.v
Pictures.v
Ppu.v
PpuInv.v
PpuSched.v
PpuRegs.v
PpuPicture.v
PpuLine.v
PpuFrame.v
Debugger.v
DebugInv.v
DebugStep.v
CliDbg.v
CliInv.v
CliRepl.v
Emulator.v
EmulatorInv.v
EmulatorRun.v
EmulatorPicture.v
TinyMachine.v
EmulatorDebug.v
DebugProps.v
MachineProps.v
PpuProps.v
Main.v
MainRun.v
MainProps.v
VideoProps.v
PictureProps.v
