(* ===== verification/Prelude.v ===== *)
(** * yanesemu: a verification development of the emulator

    The repository is an emulator of the Nintendo Entertainment System in C++.
    This library models the program in [src/emu] (CPU, PPU, bus, cartridge,
    emulator, debugger and its command line, settings and arguments, the OpenGL
    back end, [main]) and proves what makes its parts correct, or states exactly
    where they are not.
    This file is the prelude: faults, the state-and-fault monad, words and bits,
    and the tactics that the other files share.

    ** How the program is put together

    [main] (emu/main.cpp) parses the arguments (util/cmdline), opens the ROM file
    (util/file), gives it to [Emulator::insert_rom] (core/emulator), which has the
    [Cartridge] parse it and maps its ROM on two [Bus]es, and runs [mainloop]: one
    frame of the emulator and one update of the screen (video/video) per round,
    until SDL or the debugger asks to quit.  A frame is rounds of
    [Emulator::run]: one instruction of the [CPU] (core/cpu, core/instructions),
    then three cycles of the [PPU] (core/ppu, core/ppumain) per CPU cycle, until
    the PPU calls the interrupt callback.  The CPU notifies the [Debugger]
    (core/debugger) of every access; the debugger calls back the command line
    (core/clidbg), which may read and write the machine and set breakpoints.

    ** Files

    - Shared: [Prelude]; [StringOps] (util/stringops), [Fmt] (the interface of the
      formatting library), [Bits] (util/bits, util/unsigned), [HeapArray]
      (util/heaparray), [Bus] (core/bus).
    - Instructions: [InstrInfo] (tables, flags, lengths), [Disasm] (disassembler),
      both of core/instrinfo.
    - CPU: [Cpu] is core/cpu and core/instructions, over the interface [Memory]
      (what is behind the bus) and an optional fetch callback.  [CpuFacts],
      [CpuCycles] (cycle counts), [CpuInv] (invariant, interface [MemoryOk]),
      [CpuSim] (simulations between worlds), [CpuAlu], [CpuStack] (interface
      [RamLaws]; interrupts, calls), [CpuNext] ([nextaddr]); [FlatMemory] is a
      plain memory for runs; the claims are in [CpuProps].
    - The documented processor: [Mos6502] is the specification of the instruction
      set (decoding from the bits of the opcode, operands, effects), [CpuIsa] its
      relation to the state of [Cpu] and the operations on registers, [CpuIsaRun]
      the addressing modes, every case of the switch and runs of several
      instructions; the claims are in [IsaProps].
    - Files and configuration: [File] (util/file as the rest of the program sees
      it, util/debug), [Stream] (util/file over C streams, and that [File] is their
      abstraction), [CmdLine] (util/cmdline), [Settings] (util/settings),
      [Cartridge] (core/cartridge, with the iNES encoding as a specification).
    - Graphics: [Video] (video/video; the graphics library is the interface
      [VideoImpl]; a canvas as a value), [Pictures] (canvases and loaded pictures
      as owners of memory on a heap, claims included), [OpenGL] (video/opengl, an
      implementation of [VideoImpl] over the calls of SDL and OpenGL),
      [OpenGLSpec] (what these calls present); the claims are in [VideoProps].
    - PPU: [Ppu] (core/ppu, core/ppumain), [PpuInv], [PpuSched] (the clock),
      [PpuRegs] (registers, scrolling), [PpuPicture] (the picture that the tables
      of video memory describe), [PpuLine] (the cycles of a line against it),
      [PpuFrame] (of a frame); the claims are in [PpuProps].
    - Random numbers: [Random] (util/easyrandom; the generator of the standard
      library executable, its lock as a step relation; claims included).
    - Debugger: [Debugger] (core/debugger, over the interface [DebugTarget]),
      [DebugInv] (interface [TargetLaws]: the debugger leaves the machine alone),
      [DebugStep] (interface [DebugRam]: stepping), [CliDbg] (core/clidbg, over
      the interface [Terminal]), [CliInv] (interface [TerminalLaws]: every command
      ends), [CliRepl] (its loop, typed commands); the claims are in [DebugProps].
    - The machine: [Emulator] (core/emulator; its record [World] is everything
      behind the CPU's bus and implements [Memory], [DebugTarget], [Terminal]),
      [EmulatorInv] ([World] satisfies [MemoryOk] and [RamLaws]; the constructed
      buses), [EmulatorRun] (the loop of a frame), [EmulatorPicture] (the frames
      of a program that leaves the PPU alone), [TinyMachine] (a machine that
      evaluates), [EmulatorDebug] ([World] satisfies [TargetLaws],
      [TerminalLaws], [DebugRam]); the claims are in [MachineProps] and
      [PictureProps].
    - The program: [Main] (emu/main.cpp), [MainRun] (its loop); the claims are in
      [MainProps].

    ** Conventions

    A w-bit integer is a [Z] with its wrap-around written out ([u8], [u16], [u32],
    [u64], and [s8], [s32] for signed types); undefined behaviour and uncaught
    exceptions are faults ([Err]).  Objects with state are records, passed
    explicitly; the CPU's code is written in the monad [M].  A reference to
    another component is the state of that component in the same world:
    the closures on a bus are values of a handler type ([CHandler], [VHandler]),
    interpreted by their owner.  Uninitialised memory is a parameter ([garbage],
    [fr], [fresh]), so the theorems hold for any content; zero-initialised static
    storage is zero.  A file is the list of its unread bytes ([stream_refines]);
    what is printed is a list of [Output].  Orders of evaluation that C++ leaves
    open (two reads in one expression) are taken from left to right.

    Code outside the repository is a parameter with its documented laws: [fopen]
    and [strerror], the events of SDL ([polls]), the graphics library
    ([VideoImpl], and behind [OpenGL] the calls of SDL and OpenGL, with the
    documented effect of each as the laws of a driver, [GLSpec]), the picture
    loader ([stbi_load]), the random device and the distribution of the standard
    library ([Random]), the formatting library ([Fmt], [FmtLaws]; [Fmt] has an
    implementation that satisfies them), and the result of a shift by a negative
    count, which the PPU computes ([shl_undefined]).  What a program that runs on
    the machine does is a hypothesis where it matters ([QuietProgram]: it leaves
    the PPU alone), which the machine of [TinyMachine] satisfies.

    ** What the theorems show

    - The whole: [main_plays], [run_frame_terminates], [machine_boots],
      [run_keeps_step], [power_and_reset]: a booted machine keeps its invariant and
      shows a frame per round; the only way to fail is an access of the CPU out of
      bounds, whose conditions are [access_faults]; [cycle_counter_overflows].
    - The picture: [background_frame] (fetches, shift registers and scrolling draw
      what the tables of video memory describe), [program_shows_background] (of the
      whole machine, frame after frame), [attributes_unused],
      [frames_presented] (one picture per frame reaches the window, with the bytes
      of the frame), [quad_covers], [canvas_lifetime] and [images_leak] (who frees
      what).
    - CPU: [program_refines_isa] and [run_refines_isa]: as many calls of
      [CPU::run] as the documented instruction set takes steps end in the same
      registers, flags and memory, for all 151 instructions; the conditions
      ([conforms], [unreliable], the address that [BRK] pushes) list where the
      program departs from the documents.
      The invariant for every opcode, cycle counts, [nextaddr] against [run],
      interrupts and calls with their returns.
    - PPU: [ppu_run_refines_clock] (the table-driven scheduler implements a clock),
      the interrupt period, registers, scrolling, mirroring.
    - Debugger: [debugger_transparent], [step_stops_next],
      [interrupt_moves_stop], [repl_ends], [break_sets_breakpoint],
      [disassembly_sweep].
    - Bus, cartridge, files, strings: routing, the iNES round trip, typed settings,
      arguments, splitting and conversion; [stream_refines] (the loops on [getc]
      and [ungetc] are the functions on the list of unread bytes) and
      [write_seek_read]; [random8_serial].

    Several of them state what the code does where that is not what the hardware
    or the code's own comments say ([sbc_misses_overflow], [absx_extra_cycle],
    [bus_map_exhausted], [vertical_copy_takes_column], [status_sticky],
    [nextaddr_rti_shifted] and parts of others).

    ** Bounds and fuel

    [frame_fuel] = 29781 rounds of the loop of [run_frame]: a frame has at most
    89342 ticks and a round advances at least three ([run_frame_terminates]).
    [search_id] of the bus takes 18 rounds, one more than it can use; [fill] one
    more than the array has elements; [strsplit], [getall], [parse_lines] and the
    loop of [repl] one more than there are characters left, of which each round
    takes one; the loops over blocks of memory 65536, one per address
    ([repl_ends], [disassembly_sweep], which also shows the one case that never
    ends).  [mainloop] has the rounds that [polls] asks for ([main_plays]); its
    bound 6 + 7 * 29781 * rounds < 2^31 is where the program's [int] cycle counter
    overflows.

    A stream is read with one more unit of fuel than it has bytes left
    ([stream_refines]).

    ** Not modelled

    The vendored libraries, the tests and the test ROM.  core/palette is commented
    out as a whole.  What a real driver draws is outside: the picture is the last
    one presented.  The buffering of output files
    is not seen (what is printed is written), nor is a second byte of push-back,
    which the C standard does not promise and the program does not use.  The
    debugger's callback sees the CPU's registers but cannot change them, as in the
    code. *)

From Stdlib Require Export ZArith Lia.
From stdpp Require Export prelude gmap.
#[export] Set Default Goal Selector "!".
Open Scope Z_scope.

(** ** Outcomes

    Every operation that can leave the defined behaviour of C++ (or stop the
    process) returns a [Res]: [Ok] with its result, or [Err] with the reason. *)

Inductive Fault :=
| OutOfBounds      (** an array element outside its bounds was read or written *)
| BadFunctionCall  (** an empty std::function was called *)
| AssertFailure    (** an [assert] did not hold *)
| SignedOverflow   (** signed arithmetic left its range *)
| BadShift         (** a shift count was negative or not below the width *)
| Indeterminate    (** a variable was read before its first assignment *)
| Uncaught         (** an exception left the program *)
| BadPointer       (** memory that is not allocated was used or freed *)
| OutOfFuel.       (** the model ran out of the fuel given to a loop *)

#[export] Instance Fault_eq_dec : EqDecision Fault.
Proof. solve_decision. Defined.

Inductive Res (A : Type) :=
| Ok (a : A)
| Err (f : Fault).
Arguments Ok {A} a.
Arguments Err {A} f.

Definition rbind {A B} (r : Res A) (k : A -> Res B) : Res B :=
  match r with Ok a => k a | Err f => Err f end.

(** State passing with faults: a computation over the state [S]. *)
Definition M (S A : Type) : Type := S -> Res (A * S).

Definition retM {S A} (a : A) : M S A := fun s => Ok (a, s).

Definition bindM {S A B} (m : M S A) (k : A -> M S B) : M S B :=
  fun s => match m s with Ok (a, s') => k a s' | Err f => Err f end.

Definition getM {S} : M S S := fun s => Ok (s, s).

Definition modM {S} (f : S -> S) : M S unit := fun s => Ok (tt, f s).

Declare Scope emu_scope.
Delimit Scope emu_scope with emu.
Notation "'let?' x ':=' r 'in' k" := (rbind r (fun x => k))
  (at level 10, x name, r at level 100, k at level 200) : emu_scope.
Notation "'let?' ' x ':=' r 'in' k" := (rbind r (fun x => k))
  (at level 10, x strict pattern, r at level 100, k at level 200) : emu_scope.
Notation "x <- m ;; k" := (bindM m (fun x => k))
  (at level 100, m at next level, k at level 200, right associativity) : emu_scope.
Notation "m ;; k" := (bindM m (fun _ => k)) : emu_scope.
Open Scope emu_scope.

(** [for (i = first; i < first + n; i++) body(i)] over a state with faults. *)
Fixpoint for_upto {S} (n : nat) (first : Z) (body : Z -> S -> Res S) (s : S) : Res S :=
  match n with
  | O => Ok s
  | S n' => let? s' := body first s in for_upto n' (first + 1) body s'
  end.

(** ** Machine integers

    A w-bit unsigned integer is a [Z] in [0, 2^w); assignments wrap. *)

Definition u8 (z : Z) : Z := z mod 2 ^ 8.
Definition u16 (z : Z) : Z := z mod 2 ^ 16.
Definition u32 (z : Z) : Z := z mod 2 ^ 32.
Definition u64 (z : Z) : Z := z mod 2 ^ 64.

(** The conversion of a byte to [int8_t]. *)
Definition s8 (z : Z) : Z := if u8 z <? 128 then u8 z else u8 z - 256.

(** The conversion of a value to [int] (32 bits, two's complement). *)
Definition s32 (z : Z) : Z := if u32 z <? 2 ^ 31 then u32 z else u32 z - 2 ^ 32.

(** The conversion of an integer to [bool]. *)
Definition tobool (z : Z) : bool := negb (z =? 0).

Definition byte (z : Z) : Prop := 0 <= z < 256.
Definition word (z : Z) : Prop := 0 <= z < 65536.

#[export] Instance byte_dec z : Decision (byte z).
Proof. unfold byte. apply _. Defined.
#[export] Instance word_dec z : Decision (word z).
Proof. unfold word. apply _. Defined.

(** ** Automation *)

Create HintDb emu.

(** Linear arithmetic with the defining equations of [/] and [mod]. *)
Ltac dlia := unfold byte, word, u8, u16, u32, u64 in *;
             Z.to_euclidean_division_equations; lia.

(** Case analysis on every integer comparison of the goal. *)
Ltac zcases :=
  repeat (match goal with
    | |- context [?a <=? ?b] => destruct (Z.leb_spec a b)
    | |- context [?a <? ?b] => destruct (Z.ltb_spec a b)
    | |- context [?a =? ?b] => destruct (Z.eqb_spec a b); subst
    end; simpl); try done; try lia.

(** Replace a comparison that linear arithmetic decides. *)
Ltac zdecide_true b := replace b with true by
  (symmetry; first [apply Z.ltb_lt | apply Z.leb_le | apply Z.eqb_eq]; lia).
Ltac zdecide_false b := replace b with false by
  (symmetry; first [apply Z.ltb_ge | apply Z.leb_gt | apply Z.eqb_neq]; lia).

Lemma rbind_Ok {A B} (r : Res A) (k : A -> Res B) b :
  rbind r k = Ok b <-> exists a, r = Ok a /\ k a = Ok b.
Proof.
  destruct r as [a |]; simpl; split.
  - eauto.
  - by intros (? & [= ->] & ?).
  - done.
  - by intros (? & ? & _).
Qed.

Lemma bindM_Ok {S A B} (m : M S A) (k : A -> M S B) s b s2 :
  bindM m k s = Ok (b, s2) <-> exists a s1, m s = Ok (a, s1) /\ k a s1 = Ok (b, s2).
Proof.
  unfold bindM. destruct (m s) as [[a s1] |]; split.
  - eauto.
  - by intros (? & ? & [= -> ->] & ?).
  - done.
  - by intros (? & ? & ? & _).
Qed.

Lemma bindM_run {S A B} (m : M S A) (k : A -> M S B) s a s' :
  m s = Ok (a, s') -> bindM m k s = k a s'.
Proof. unfold bindM. by intros ->. Qed.

Lemma retM_Ok {S A} (a b : A) (s s' : S) : retM a s = Ok (b, s') <-> b = a /\ s' = s.
Proof. unfold retM. split; [by intros [= -> ->] | by intros [-> ->]]. Qed.

Lemma modM_Ok {S} (f : S -> S) s u s' : modM f s = Ok (u, s') <-> s' = f s.
Proof. unfold modM. destruct u. split; [by intros [= ->] | by intros ->]. Qed.

Lemma getM_Ok {S} (s r s' : S) : getM s = Ok (r, s') <-> r = s /\ s' = s.
Proof. unfold getM. split; [by intros [= -> ->] | by intros [-> ->]]. Qed.

(** Invariants of a counted loop. *)
Lemma for_upto_inv {S} (P : Z -> S -> Prop) (body : Z -> S -> Res S) n first s :
  P first s ->
  (forall i s, first <= i < first + Z.of_nat n -> P i s ->
     exists s', body i s = Ok s' /\ P (i + 1) s') ->
  exists s', for_upto n first body s = Ok s' /\ P (first + Z.of_nat n) s'.
Proof.
  revert first s. induction n as [| n IH]; intros first s H0 Hstep.
  - exists s. rewrite Z.add_0_r. done.
  - destruct (Hstep first s ltac:(lia) H0) as (s1 & E & H1).
    simpl. rewrite E. simpl.
    destruct (IH (first + 1) s1 H1) as (s2 & E2 & H2).
    + intros i s' Hi. apply Hstep. lia.
    + exists s2. split; [done |]. by replace (first + Z.of_nat (Datatypes.S n))
        with (first + 1 + Z.of_nat n) by lia.
Qed.

(** ** Integers and bits *)

Lemma u8_byte z : byte (u8 z).
Proof. dlia. Qed.
Lemma u16_word z : word (u16 z).
Proof. dlia. Qed.
Lemma u8_id z : byte z -> u8 z = z.
Proof. dlia. Qed.
Lemma u16_id z : word z -> u16 z = z.
Proof. dlia. Qed.
Lemma byte_word z : byte z -> word z.
Proof. dlia. Qed.
Lemma u64_u64_add a b : u64 (u64 a + b) = u64 (a + b).
Proof. apply Zplus_mod_idemp_l. Qed.
Lemma u64_u64 a : u64 (u64 a) = u64 a.
Proof. apply Zmod_mod. Qed.
Lemma u16_u16_add a b : u16 (u16 a + b) = u16 (a + b).
Proof. apply Zplus_mod_idemp_l. Qed.
Lemma u8_u8_add a b : u8 (u8 a + b) = u8 (a + b).
Proof. apply Zplus_mod_idemp_l. Qed.

#[export] Hint Resolve u8_byte u16_word byte_word : emu.

(** Bring nested wrapped sums to one wrapped sum. *)
Ltac wrap_sums :=
  repeat first [rewrite <- Z.add_assoc | rewrite u16_u16_add | rewrite u8_u8_add].

(** A flag extracted with a one-bit mask is that bit. *)
Lemma tobool_land_pow2 z k : 0 <= k -> tobool (Z.land z (2 ^ k)) = Z.testbit z k.
Proof.
  intros Hk. unfold tobool.
  destruct (Z.testbit z k) eqn:E.
  - apply negb_true_iff, Z.eqb_neq. intros H.
    apply (f_equal (fun n => Z.testbit n k)) in H.
    rewrite Z.land_spec, Z.pow2_bits_true, E, Z.bits_0 in H by lia. done.
  - apply negb_false_iff, Z.eqb_eq. apply Z.bits_inj'. intros i Hi.
    rewrite Z.land_spec, Z.pow2_bits_eqb, Z.bits_0 by lia.
    destruct (Z.eqb_spec k i) as [-> |]; [by rewrite E | apply andb_false_r].
Qed.

Lemma testbit_above z k i : 0 <= z < 2 ^ k -> 0 <= k -> k <= i -> Z.testbit z i = false.
Proof.
  intros Hz Hk Hi. destruct (Z.eq_dec z 0) as [-> | Hn]; [apply Z.bits_0 |].
  apply Z.bits_above_log2; [lia |].
  apply Z.lt_le_trans with k; [apply Z.log2_lt_pow2; lia | done].
Qed.

(** A field below [k] bits and one above do not overlap. *)
Lemma lor_shiftl lo hi k : 0 <= k -> 0 <= lo < 2 ^ k -> Z.lor lo (Z.shiftl hi k) = lo + hi * 2 ^ k.
Proof.
  intros Hk Hlo. rewrite <- Z.shiftl_mul_pow2 by done.
  assert (Hz : Z.land lo (Z.shiftl hi k) = 0).
  { apply Z.bits_inj'. intros i Hi. rewrite Z.land_spec, Z.bits_0.
    destruct (Z.lt_ge_cases i k).
    - rewrite Z.shiftl_spec_low by done. apply andb_false_r.
    - rewrite (testbit_above lo k i) by done. done. }
  by rewrite Z.add_nocarry_lxor, Z.lxor_lor.
Qed.

Lemma testbit7_byte z : byte z -> Z.testbit z 7 = (128 <=? z).
Proof.
  intros Hz. rewrite Z.testbit_eqb by lia. change (2 ^ 7) with 128.
  destruct (Z.leb_spec 128 z).
  - apply Z.eqb_eq. dlia.
  - apply Z.eqb_neq. dlia.
Qed.

Lemma testbit_bounded z n : 0 <= n -> 0 <= z ->
  (forall i, n <= i -> Z.testbit z i = false) -> z < 2 ^ n.
Proof.
  intros Hn Hz H. destruct (Z.eq_dec z 0) as [-> | Hnz].
  - apply Z.pow_pos_nonneg; lia.
  - destruct (Z.lt_ge_cases z (2 ^ n)) as [| Hge]; [done |]. exfalso.
    pose proof (Z.bit_log2 z ltac:(lia)) as Hb.
    rewrite H in Hb; [done |]. apply Z.log2_le_pow2 in Hge; lia.
Qed.

(** A decidable property of a range of integers is checked by running it. *)
Lemma range_forall (n : Z) (f : Z -> bool) :
  forallb f (Z.of_nat <$> seq 0 (Z.to_nat n)) = true -> forall z, 0 <= z < n -> f z = true.
Proof.
  intros H z Hz. rewrite forallb_forall in H. apply H.
  apply list_elem_of_In, list_elem_of_fmap. exists (Z.to_nat z). split; [lia |].
  apply elem_of_seq. lia.
Qed.

Lemma bytes_forall (f : Z -> bool) :
  forallb f (Z.of_nat <$> seq 0 256) = true -> forall z, byte z -> f z = true.
Proof. intros H z Hz. by apply (range_forall 256 f H). Qed.

(** Split a conjunction of boolean tests. *)
Ltac bool_hyps := repeat match goal with
  | H : _ && _ = true |- _ => apply andb_true_iff in H as [? ?]
  | H : negb _ = true |- _ => apply negb_true_iff in H
  | H : eqb _ _ = true |- _ => apply eqb_prop in H
  | H : (_ =? _) = true |- _ => apply Z.eqb_eq in H
  end.
