(* ===== verification/StringOps.v ===== *)
(** * Strings ([emu/util/stringops.hpp], [emu/util/stringops.cpp])

    [strsplit] and [strconv], with the functions of the standard library they
    call: [std::string::find], construction from a pair of iterators, and
    [std::from_chars] for unsigned types.  A reference definition of splitting,
    structural on the string, and the round trips that the command line relies
    on: fields joined by the delimiter are split again, and the digits of a
    number are read back as the number. *)

From Stdlib Require Import Ascii.
From stdpp Require Import strings.
From S2P Require Import Prelude.
Open Scope Z_scope.

(** ** The standard library *)

(** [s.find(c, pos)]: [None] is [npos]. *)
Fixpoint find (c : ascii) (s : string) (pos : nat) : option nat :=
  match s, pos with
  | EmptyString, _ => None
  | String a s', S pos' => S <$> find c s' pos'
  | String a s', O => if decide (a = c) then Some O else S <$> find c s' O
  end.

(** [std::string(s.begin() + i, s.begin() + j)] *)
Fixpoint substr (s : string) (i j : nat) : string :=
  match s, i, j with
  | EmptyString, _, _ => EmptyString
  | String _ s', S i', S j' => substr s' i' j'
  | String a s', O, S j' => String a (substr s' O j')
  | String _ _, _, O => EmptyString
  end.

(** The value of a digit, up to base 36. *)
Definition digit_of (c : ascii) : option Z :=
  let n := Z.of_N (N_of_ascii c) in
  if (48 <=? n) && (n <=? 57) then Some (n - 48)
  else if (65 <=? n) && (n <=? 90) then Some (n - 55)
  else if (97 <=? n) && (n <=? 122) then Some (n - 87)
  else None.

Definition digit_in (base : Z) (c : ascii) : option Z :=
  match digit_of c with
  | Some d => if d <? base then Some d else None
  | None => None
  end.

(** The longest prefix of digits: its value continued from [acc], whether there
    was a digit, and what follows. *)
Fixpoint scan_digits (base : Z) (s : string) (acc : Z) : Z * bool * string :=
  match s with
  | EmptyString => (acc, false, EmptyString)
  | String c s' =>
      match digit_in base c with
      | Some d => let '(v, _, rest) := scan_digits base s' (acc * base + d) in (v, true, rest)
      | None => (acc, false, s)
      end
  end.

(** [std::from_chars] into an unsigned integer below [limit]: an error if there
    is no digit or the value does not fit; what follows the digits is ignored. *)
Definition from_chars (limit base : Z) (s : string) : option Z :=
  let '(v, some_digit, _) := scan_digits base s 0 in
  if some_digit : bool then if v <? limit then Some v else None else None.

(** ** [Util::strsplit] *)

Fixpoint strsplit_loop (fuel : nat) (s : string) (delim : ascii) (i : nat) : Res (list string) :=
  match fuel with
  | O => Err OutOfFuel
  | S n =>
      if decide (i = String.length s) then Ok []
      else match find delim s i with
           | None => Ok [substr s i (String.length s)]
           | Some p => let? res := strsplit_loop n s delim (p + 1) in Ok (substr s i p :: res)
           end
  end.

(** Every round but the last moves [i] forward. *)
Definition strsplit (s : string) (delim : ascii) : Res (list string) :=
  strsplit_loop (S (String.length s)) s delim 0.

(** [Util::strconv<T>], [limit] being one more than the largest [T]. *)
Definition strconv (limit : Z) (str : string) (base : Z) : option Z := from_chars limit base str.

Definition strconv16 (str : string) : option Z := strconv (2 ^ 16) str 16.
Definition strconv8 (str : string) : option Z := strconv (2 ^ 8) str 16.

(** ** A reference definition of splitting *)

(** Fields are separated by the delimiter; an empty last field does not count. *)
Fixpoint split_on (delim : ascii) (s : string) : list string :=
  match s with
  | EmptyString => []
  | String a s' =>
      if decide (a = delim) then EmptyString :: split_on delim s'
      else match split_on delim s' with
           | f :: fs => String a f :: fs
           | [] => [String a EmptyString]
           end
  end.

(** The inverse: fields joined by the delimiter. *)
Fixpoint join (delim : ascii) (fs : list string) : string :=
  match fs with
  | [] => EmptyString
  | [f] => f
  | f :: fs' => f +:+ String delim (join delim fs')
  end.

(** A string without some character. *)
Fixpoint lacks (c : ascii) (s : string) : bool :=
  match s with
  | EmptyString => true
  | String a s' => negb (bool_decide (a = c)) && lacks c s'
  end.

(** ** The loop computes the reference *)

(** What is left of a string after its first [i] characters. *)
Fixpoint sdrop (i : nat) (s : string) : string :=
  match i, s with
  | O, _ => s
  | S i', String _ s' => sdrop i' s'
  | S _, EmptyString => EmptyString
  end.

Lemma sdrop_length i s : String.length (sdrop i s) = (String.length s - i)%nat.
Proof. revert s. induction i as [| i IH]; intros [| a s]; simpl; rewrite ?IH; lia. Qed.

Lemma sdrop_sdrop i j s : sdrop i (sdrop j s) = sdrop (j + i) s.
Proof. revert s. induction j as [| j IH]; intros [| a s]; simpl; [done | done | by destruct i | apply IH]. Qed.

Lemma find_sdrop c s i : find c s i = (fun k => (i + k)%nat) <$> find c (sdrop i s) 0.
Proof.
  revert s. induction i as [| i IH]; intros s.
  - simpl. by destruct (find c s 0).
  - destruct s as [| a s]; simpl; [done |]. rewrite IH. by destruct (find c (sdrop i s) 0).
Qed.

Lemma substr_sdrop s i j : (i <= j)%nat -> substr s i j = substr (sdrop i s) 0 (j - i).
Proof.
  revert s j. induction i as [| i IH]; intros s j Hij.
  - simpl. by rewrite Nat.sub_0_r.
  - destruct j as [| j]; [lia |]. destruct s as [| a s]; simpl; [done |]. apply IH. lia.
Qed.

Lemma substr_all s : substr s 0 (String.length s) = s.
Proof. induction s as [| a s IH]; simpl; congruence. Qed.

Lemma split_find delim s :
  split_on delim s = match find delim s 0 with
                     | None => if decide (s = EmptyString) then [] else [s]
                     | Some p => substr s 0 p :: split_on delim (sdrop (p + 1) s)
                     end.
Proof.
  induction s as [| a s IH]; [done |].
  cbn [split_on find]. destruct (decide (a = delim)); [done |].
  rewrite IH. destruct (find delim s 0) as [p |]; simpl.
  - done.
  - by destruct s.
Qed.

Lemma strsplit_loop_on n s delim i : (String.length s - i < n)%nat -> (i <= String.length s)%nat ->
  strsplit_loop n s delim i = Ok (split_on delim (sdrop i s)).
Proof.
  revert i. induction n as [| n IH]; intros i Hn Hi; [lia |]. cbn [strsplit_loop].
  pose proof (sdrop_length i s) as Hl. rewrite split_find.
  destruct (decide (i = String.length s)) as [-> | Hne].
  { destruct (sdrop (String.length s) s) eqn:E; [done | simpl in Hl; lia]. }
  rewrite find_sdrop. destruct (find delim (sdrop i s) 0) as [k |] eqn:Ef; simpl.
  - assert (Hk : (k < String.length (sdrop i s))%nat).
    { clear -Ef. revert k Ef. induction (sdrop i s) as [| a t IH]; intros k; simpl; [done |].
      case_decide; [intros [= <-]; lia |].
      destruct (find delim t 0) as [j |]; simpl; [| done]. intros [= <-]. specialize (IH j eq_refl). lia. }
    rewrite IH by lia. simpl. rewrite (substr_sdrop s i (i + k)), sdrop_sdrop by lia.
    by replace (i + k - i)%nat with k by lia; replace (i + k + 1)%nat with (i + (k + 1))%nat by lia.
  - rewrite (substr_sdrop s i) by lia. rewrite <- Hl, substr_all.
    destruct (decide (sdrop i s = EmptyString)) as [E | _]; [rewrite E in Hl; simpl in Hl; lia | done].
Qed.

(** The loop always ends, with the fields of the reference. *)
Lemma strsplit_split_on s delim : strsplit s delim = Ok (split_on delim s).
Proof. unfold strsplit. rewrite strsplit_loop_on by lia. done. Qed.

Lemma split_on_plain delim f : lacks delim f = true ->
  split_on delim f = if decide (f = EmptyString) then [] else [f].
Proof.
  induction f as [| a f IH]; [done |]. simpl. intros [H1 H2]%andb_true_iff.
  apply negb_true_iff, bool_decide_eq_false in H1. rewrite decide_False by done.
  rewrite IH by done. by destruct (decide (f = EmptyString)) as [-> |].
Qed.

Lemma split_on_app delim f s : lacks delim f = true ->
  split_on delim (f +:+ String delim s) = f :: split_on delim s.
Proof.
  induction f as [| a f IH]; simpl.
  - intros _. by rewrite decide_True.
  - intros [H1 H2]%andb_true_iff. apply negb_true_iff, bool_decide_eq_false in H1.
    rewrite decide_False by done. by rewrite IH.
Qed.

(** Splitting inverts joining, when no field holds the delimiter and the last is
    not empty. *)
Lemma split_join delim fs : Forall (fun f => lacks delim f = true) fs ->
  last fs <> Some EmptyString -> split_on delim (join delim fs) = fs.
Proof.
  induction fs as [| f fs IH]; intros Hf Hl; [done |]. inversion_clear Hf as [| ? ? Hf0 Hfs].
  destruct fs as [| g fs].
  - simpl. rewrite split_on_plain by done. rewrite decide_False; [done |]. intros ->. by apply Hl.
  - change (join delim (f :: g :: fs)) with (f +:+ String delim (join delim (g :: fs))).
    rewrite split_on_app by done. by rewrite IH.
Qed.

(** ** Digits *)

(** The value of a string of digits. *)
Fixpoint digits_value (base : Z) (s : string) (acc : Z) : option Z :=
  match s with
  | EmptyString => Some acc
  | String c s' => match digit_in base c with
                   | Some d => digits_value base s' (acc * base + d)
                   | None => None
                   end
  end.

Lemma scan_digits_value base s acc v : digits_value base s acc = Some v ->
  exists b, scan_digits base s acc = (v, b, EmptyString) /\ (b = true <-> s <> EmptyString).
Proof.
  revert acc. induction s as [| c s IH]; intros acc; simpl.
  - intros [= ->]. exists false. done.
  - destruct (digit_in base c) as [d |]; [| done]. intros (b & -> & _)%IH. by exists true.
Qed.

Lemma from_chars_value limit base s v : s <> EmptyString -> digits_value base s 0 = Some v ->
  v < limit -> from_chars limit base s = Some v.
Proof.
  intros Hs H Hv. apply scan_digits_value in H as (b & E & Hb). unfold from_chars. rewrite E.
  rewrite (proj2 Hb Hs). by rewrite (proj2 (Z.ltb_lt v limit) Hv).
Qed.

Lemma scan_digits_nonneg base s acc v b rest : 0 < base -> 0 <= acc ->
  scan_digits base s acc = (v, b, rest) -> 0 <= v.
Proof.
  intros Hb. revert acc v b rest. induction s as [| c s IH]; intros acc v b rest Ha; simpl.
  - by intros [= <- _ _].
  - destruct (digit_in base c) as [d |] eqn:Ed; [| by intros [= <- _ _]].
    destruct (scan_digits base s (acc * base + d)) as [[v1 b1] rest1] eqn:E. intros [= <- _ _].
    apply (IH _ _ _ _) in E; [done |].
    unfold digit_in in Ed. destruct (digit_of c) as [d' |] eqn:Ed'; [| done].
    assert (0 <= d').
    { unfold digit_of in Ed'. repeat case_match; bool_hyps; simplify_eq; lia. }
    case_match; simplify_eq. nia.
Qed.

(** What [from_chars] returns fits the type. *)
Lemma from_chars_range limit base s v : 0 < base -> from_chars limit base s = Some v -> 0 <= v < limit.
Proof.
  intros Hb. unfold from_chars. destruct (scan_digits base s 0) as [[v' b] rest] eqn:E.
  destruct b; [| done]. destruct (Z.ltb_spec v' limit); [| done]. intros [= ->].
  split; [| done]. by eapply scan_digits_nonneg in E.
Qed.

Lemma strconv16_word s v : strconv16 s = Some v -> word v.
Proof. intros H%from_chars_range; [exact H | lia]. Qed.

Lemma strconv8_byte s v : strconv8 s = Some v -> byte v.
Proof. intros H%from_chars_range; [exact H | lia]. Qed.
