(* ===== verification/Fmt.v ===== *)
(** * The formatting library

    The program prints through [{fmt}], a library outside the repository.  The
    model has it as a class: the text of an integer under [{:0wX}] and under
    [{}].  A replacement field for a string or a character stands for the text
    itself, so a format string becomes a concatenation.  [FmtLaws] states the
    documented behaviour that theorems rely on; [DigitFmt] is an implementation
    of it, used where a theorem is run. *)

From Stdlib Require Import Ascii.
From stdpp Require Import strings.
From S2P Require Import Prelude StringOps.
Open Scope Z_scope.

Class Fmt := {
  fmt_hex : nat -> Z -> string;    (** [{:0wX}] *)
  fmt_dec : Z -> string;           (** [{}] *)
}.

(** A character of an upper-case hexadecimal number. *)
Definition is_hex (c : ascii) : bool :=
  let n := Z.of_N (N_of_ascii c) in ((48 <=? n) && (n <=? 57)) || ((65 <=? n) && (n <=? 70)).

Fixpoint all_chars (P : ascii -> bool) (s : string) : bool :=
  match s with EmptyString => true | String c s' => P c && all_chars P s' end.

Class FmtLaws `{F : Fmt} := {
  hex_chars : forall w z, 0 <= z -> all_chars is_hex (fmt_hex w z) = true;
  hex_value : forall w z, 0 <= z -> digits_value 16 (fmt_hex w z) 0 = Some z;
  hex_length : forall w z, 0 <= z < 16 ^ Z.of_nat w -> (0 < w)%nat -> String.length (fmt_hex w z) = w;
  hex_nonempty : forall w z, 0 <= z -> fmt_hex w z <> EmptyString;
  dec_inj : forall a b, fmt_dec a = fmt_dec b -> a = b;
  dec_first : forall z, exists c s, fmt_dec z = String c s /\
    (c = "-"%char \/ exists d, digit_of c = Some d /\ d < 10);
}.

(** One character, one line end. *)
Definition char (c : ascii) : string := String c EmptyString.
Definition newline : string := char "010"%char.

(** ** Consequences for parsing *)

Section Laws.
Context `{L : FmtLaws}.

Lemma strconv16_hex w z : word z -> strconv16 (fmt_hex w z) = Some z.
Proof.
  intros Hz. apply from_chars_value; [apply hex_nonempty | apply hex_value | apply Hz]; apply Hz.
Qed.

Lemma strconv8_hex w z : byte z -> strconv8 (fmt_hex w z) = Some z.
Proof.
  intros Hz. apply from_chars_value; [apply hex_nonempty | apply hex_value | apply Hz]; apply Hz.
Qed.

(** Characters that are not digits do not occur. *)
Lemma all_chars_lacks P c s : all_chars P s = true -> P c = false -> lacks c s = true.
Proof.
  intros H Hc. induction s as [| a s IH]; [done |]. simpl in *.
  apply andb_true_iff in H as [Ha Hs]. apply andb_true_iff. split; [| by apply IH].
  apply negb_true_iff, bool_decide_eq_false. intros ->. congruence.
Qed.

Lemma lacks_hex c w z : 0 <= z -> is_hex c = false -> lacks c (fmt_hex w z) = true.
Proof. intros Hz. apply all_chars_lacks. by apply hex_chars. Qed.

Lemma hex_inj w a b : 0 <= a -> 0 <= b -> fmt_hex w a = fmt_hex w b -> a = b.
Proof.
  intros Ha Hb E. pose proof (hex_value w a Ha) as Va. rewrite E, hex_value in Va by done. congruence.
Qed.
End Laws.

(** ** An implementation *)

Definition digit_char (d : Z) : ascii := ascii_of_N (Z.to_N (if d <? 10 then 48 + d else 55 + d)).

(** The [n] last digits of [z]. *)
Fixpoint digits (base : Z) (n : nat) (z : Z) : string :=
  match n with
  | O => EmptyString
  | S n' => digits base n' (z / base) +:+ char (digit_char (z mod base))
  end.

(** The number of digits of [z], at least one; [fuel] bounds it. *)
Fixpoint ndigits (base : Z) (fuel : nat) (z : Z) : nat :=
  match fuel with
  | O => 1
  | S n => if z <? base then 1 else S (ndigits base n (z / base))
  end.

Definition number (base : Z) (w : nat) (z : Z) : string :=
  digits base (Nat.max w (ndigits base (Z.to_nat (Z.log2 z)) z)) z.

#[local] Instance DigitFmt : Fmt := {
  fmt_hex := number 16;
  fmt_dec z := if z <? 0 then String "-" (number 10 0 (- z)) else number 10 0 z;
}.

Lemma digit_char_in base d : 0 <= d < base -> base <= 16 -> digit_in base (digit_char d) = Some d.
Proof.
  intros Hd Hb.
  assert (E : digit_of (digit_char d) = Some d).
  { pose proof (range_forall 16 (fun d => match digit_of (digit_char d) with
      | Some e => e =? d | None => false end) ltac:(vm_compute; reflexivity) d ltac:(lia)) as H.
    simpl in H. destruct (digit_of _); [| done]. f_equal. by apply Z.eqb_eq. }
  unfold digit_in. rewrite E. by rewrite (proj2 (Z.ltb_lt d base) (proj2 Hd)).
Qed.

Lemma digit_char_hex d : 0 <= d < 16 -> is_hex (digit_char d) = true.
Proof. apply (range_forall 16 (fun d => is_hex (digit_char d))). vm_compute. reflexivity. Qed.

Lemma digits_value_app base s t acc :
  digits_value base (s +:+ t) acc =
  match digits_value base s acc with Some v => digits_value base t v | None => None end.
Proof.
  revert acc. induction s as [| c s IH]; intros acc; simpl; [done |]. by case_match.
Qed.

Lemma all_chars_app P s t : all_chars P (s +:+ t) = all_chars P s && all_chars P t.
Proof. induction s as [| c s IH]; simpl; [done |]. by rewrite IH, andb_assoc. Qed.

Lemma string_length_app s t : String.length (s +:+ t) = (String.length s + String.length t)%nat.
Proof. induction s as [| c s IH]; simpl; [done | by f_equal]. Qed.

Lemma digits_length base n z : String.length (digits base n z) = n.
Proof. revert z. induction n as [| n IH]; intros z; simpl; [done |]. rewrite string_length_app, IH. simpl. lia. Qed.

Lemma digits_chars base n z : 0 < base <= 16 -> all_chars is_hex (digits base n z) = true.
Proof.
  intros Hb. revert z. induction n as [| n IH]; intros z; simpl; [done |].
  rewrite all_chars_app, IH. simpl. rewrite digit_char_hex; [done |].
  pose proof (Z.mod_pos_bound z base). lia.
Qed.

Lemma digits_value_digits base n z : 1 < base <= 16 -> 0 <= z < base ^ Z.of_nat n ->
  digits_value base (digits base n z) 0 = Some z.
Proof.
  intros Hb. revert z. induction n as [| n IH]; intros z Hz.
  - simpl in *. f_equal. lia.
  - rewrite Nat2Z.inj_succ, Z.pow_succ_r in Hz by lia. cbn [digits].
    rewrite digits_value_app, IH.
    + simpl. rewrite digit_char_in; [| apply Z.mod_pos_bound; lia | lia]. f_equal.
      pose proof (Z.div_mod z base). lia.
    + split; [apply Z.div_pos; lia | apply Z.div_lt_upper_bound; lia].
Qed.

Lemma ndigits_enough base fuel z : 1 < base -> 0 <= z < base ^ (Z.of_nat fuel + 1) ->
  z < base ^ Z.of_nat (ndigits base fuel z).
Proof.
  intros Hb. revert z. induction fuel as [| n IH]; intros z Hz; simpl.
  - replace (Z.of_nat 0 + 1) with 1 in Hz by lia. lia.
  - destruct (Z.ltb_spec z base); [rewrite Z.pow_1_r; lia |].
    rewrite Nat2Z.inj_succ, Z.pow_succ_r by lia.
    assert (0 <= z / base < base ^ (Z.of_nat n + 1)) as Hd.
    { split; [apply Z.div_pos; lia |]. apply Z.div_lt_upper_bound; [lia |].
      rewrite <- Z.pow_succ_r by lia. replace (Z.succ (Z.of_nat n + 1)) with (Z.of_nat (S n) + 1) by lia. apply Hz. }
    specialize (IH _ Hd). pose proof (Z.div_mod z base). pose proof (Z.mod_pos_bound z base). nia.
Qed.

Lemma ndigits_min base fuel z w : 1 < base -> 0 <= z < base ^ Z.of_nat w -> (0 < w)%nat ->
  (ndigits base fuel z <= w)%nat.
Proof.
  intros Hb. revert z w. induction fuel as [| n IH]; intros z w Hz Hw; simpl; [lia |].
  destruct (Z.ltb_spec z base); [lia |]. destruct w as [| [| w]]; [lia | rewrite Z.pow_1_r in Hz; lia |].
  apply le_n_S, IH; [| lia]. split; [apply Z.div_pos; lia |]. apply Z.div_lt_upper_bound; [lia |].
  rewrite <- Z.pow_succ_r by lia. rewrite <- Nat2Z.inj_succ. apply Hz.
Qed.

Lemma number_fuel base z : 1 < base -> 0 <= z -> z < base ^ (Z.of_nat (Z.to_nat (Z.log2 z)) + 1).
Proof.
  intros Hb Hz. rewrite Z2Nat.id by apply Z.log2_nonneg.
  destruct (Z.eq_dec z 0) as [-> |]; [simpl; lia |].
  pose proof (Z.log2_spec z ltac:(lia)) as [_ H]. apply Z.lt_le_trans with (1 := H).
  apply Z.pow_le_mono_l. lia.
Qed.

Lemma number_value base w z : 1 < base <= 16 -> 0 <= z -> digits_value base (number base w z) 0 = Some z.
Proof.
  intros Hb Hz. apply digits_value_digits; [done |]. split; [done |].
  apply Z.lt_le_trans with (base ^ Z.of_nat (ndigits base (Z.to_nat (Z.log2 z)) z)).
  - apply ndigits_enough; [lia |]. split; [done | apply number_fuel; lia].
  - apply Z.pow_le_mono_r; lia.
Qed.

Lemma number_length base w z : String.length (number base w z) =
  Nat.max w (ndigits base (Z.to_nat (Z.log2 z)) z).
Proof. apply digits_length. Qed.

Lemma ndigits_pos base fuel z : (0 < ndigits base fuel z)%nat.
Proof. destruct fuel; simpl; [| case_match]; lia. Qed.

Lemma number_nonempty base w z : number base w z <> EmptyString.
Proof.
  intros E. pose proof (number_length base w z) as H. rewrite E in H. simpl in H.
  pose proof (ndigits_pos base (Z.to_nat (Z.log2 z)) z). lia.
Qed.

(** A decimal number starts with a digit. *)
Lemma number_first z : 0 <= z -> exists c s, number 10 0 z = String c s /\ exists d, digit_of c = Some d /\ d < 10.
Proof.
  intros Hz. pose proof (number_value 10 0 z ltac:(lia) Hz) as H.
  destruct (number 10 0 z) as [| c s] eqn:E; [by apply number_nonempty in E |].
  exists c, s. split; [done |]. simpl in H. unfold digit_in in H.
  destruct (digit_of c) as [d |]; [| done]. destruct (Z.ltb_spec d 10); [| done]. by exists d.
Qed.

#[local] Instance DigitFmtLaws : FmtLaws.
Proof.
  constructor; simpl.
  - intros w z _. apply digits_chars. lia.
  - intros w z. apply number_value. lia.
  - intros w z Hz Hw. rewrite number_length. pose proof (ndigits_min 16 (Z.to_nat (Z.log2 z)) z w). lia.
  - intros w z _. apply number_nonempty.
  - intros a b.
    destruct (Z.ltb_spec a 0), (Z.ltb_spec b 0); intros E.
    + injection E as E. pose proof (number_value 10 0 (- a)) as Va.
      rewrite E, number_value in Va by lia. assert (- b = - a) by (injection Va; lia || done). lia.
    + destruct (number_first b) as (c & s & E' & d & Hd & _); [done |]. rewrite E' in E.
      injection E as <- _. done.
    + destruct (number_first a) as (c & s & E' & d & Hd & _); [done |]. rewrite E' in E.
      injection E as -> _. done.
    + pose proof (number_value 10 0 a) as Va. rewrite E, number_value in Va by lia.
      assert (b = a) by (injection Va; lia || done). lia.
  - intros z. destruct (Z.ltb_spec z 0).
    + eexists _, _. split; [reflexivity |]. by left.
    + destruct (number_first z) as (c & s & -> & Hd); [done |]. exists c, s. split; [done |]. by right.
Qed.
