(* ===== verification/Bits.v ===== *)
(** * Bit operations ([emu/util/bits.hpp], [emu/util/unsigned.hpp])

    [getbits], [setbits] and their one-bit forms, the rotations, the
    [BitField] template that the PPU's VRAM address is built of, and the
    bounded integer [UInt<Bits>].  All of them work on [uint64_t]; the program
    passes constant shift counts below 64, for which the shifts are defined. *)

From S2P Require Import Prelude.
Open Scope Z_scope.

(** ** Operations *)

Definition getbits (num bitno nbits : Z) : Z :=
  Z.land (Z.shiftr num bitno) nbits.

Definition getbit (num bitno : Z) : Z := getbits num bitno 1.

Definition get_mask_nbits (nbits : Z) : Z := u64 (u64 (Z.shiftl 1 nbits) - 1).

Definition setbits (num bitno nbits data : Z) : Z :=
  let mask := get_mask_nbits nbits in
  Z.lor (Z.land num (u64 (Z.lnot (u64 (Z.shiftl mask bitno)))))
        (u64 (Z.shiftl (Z.land data mask) bitno)).

Definition setbit (num bitno : Z) (data : bool) : Z :=
  setbits num bitno 1 (Z.b2z data).

(** The rotations shift by [k] and by [32 - k]: both counts must be below 32. *)
Definition rotl32 (x k : Z) : Res Z :=
  if (0 <=? k) && (k <? 32) && (32 - k <? 32)
  then Ok (Z.lor (u32 (Z.shiftl x k)) (Z.shiftr x (32 - k)))
  else Err BadShift.

Definition rotr32 (x k : Z) : Res Z :=
  if (0 <=? k) && (k <? 32) && (32 - k <? 32)
  then Ok (Z.lor (Z.shiftr x k) (u32 (Z.shiftl x (32 - k))))
  else Err BadShift.

(** ** [BitField<uint16, Bitno, Nbits>]

    All the bit fields of a union share the same storage [data]; a field is
    read and assigned through its position and width. *)

Definition bf_get (bitno nbits data : Z) : Z :=
  Z.land (Z.shiftr data bitno) (get_mask_nbits nbits).

(** [operator=(const T val)]: [T] is [uint16], so [val] is first narrowed. *)
Definition bf_set (bitno nbits data val : Z) : Z :=
  u16 (setbits data bitno nbits (u16 val)).

(** [operator=(const BitField &oth)]: the whole storage of [oth] is passed. *)
Definition bf_copy (bitno nbits data oth_data : Z) : Z :=
  u16 (setbits data bitno nbits oth_data).

(** [operator+=], [operator-=], [operator*=], [operator&=], [operator|=],
    [operator^=], [operator>>=], [operator<<=]: [*this = *this op val] in
    [uint64_t]. *)
Definition bf_compound (op : Z -> Z -> Z) (bitno nbits data val : Z) : Z :=
  bf_set bitno nbits data (u64 (op (bf_get bitno nbits data) val)).

Definition bf_incr (bitno nbits data : Z) : Z := bf_compound Z.add bitno nbits data 1.
Definition bf_decr (bitno nbits data : Z) : Z := bf_compound Z.sub bitno nbits data 1.

(** ** [UInt<Bits>] *)

(** The width of [inttype], the smallest standard type that holds [Bits] bits. *)
Definition inttype_width (bits : Z) : Z :=
  if bits <=? 8 then 8 else if bits <=? 16 then 16 else if bits <=? 32 then 32 else 64.

Definition UInt_cast (bits val : Z) : Z :=
  Z.land (val mod 2 ^ inttype_width bits) (Z.shiftr (2 ^ 64 - 1) (64 - bits)).

(** [operator=] *)
Definition UInt_assign (bits val : Z) : Z := UInt_cast bits val.

(** [operator+=] and its siblings: only the operand is cast. *)
Definition UInt_compound (op : Z -> Z -> Z) (bits num val : Z) : Z :=
  (op num (UInt_cast bits val)) mod 2 ^ inttype_width bits.

(** [operator++] and [operator--]: the result is cast. *)
Definition UInt_incr (bits num : Z) : Z := UInt_cast bits (num + 1).
Definition UInt_decr (bits num : Z) : Z := UInt_cast bits (num - 1).

(** ** Unit conversions, on 64 bits: each product wraps *)

Definition to_kib (bytes : Z) : Z := u64 (bytes * 1024).
Definition to_mib (bytes : Z) : Z := u64 (u64 (bytes * 1024) * 1024).
Definition to_gib (bytes : Z) : Z := u64 (u64 (u64 (bytes * 1024) * 1024) * 1024).
Definition to_tib (bytes : Z) : Z := u64 (u64 (u64 (u64 (bytes * 1024) * 1024) * 1024) * 1024).
Definition to_kb (bytes : Z) : Z := u64 (bytes * 1000).
Definition to_mb (bytes : Z) : Z := u64 (u64 (bytes * 1000) * 1000).
Definition to_gb (bytes : Z) : Z := u64 (u64 (u64 (bytes * 1000) * 1000) * 1000).
Definition to_tb (bytes : Z) : Z := u64 (u64 (u64 (u64 (bytes * 1000) * 1000) * 1000) * 1000).
Definition to_kibit (bytes : Z) : Z := u64 (bytes * 1024) / 8.
Definition to_mibit (bytes : Z) : Z := u64 (u64 (bytes * 1024) * 1024) / 8.
Definition to_gibit (bytes : Z) : Z := u64 (u64 (u64 (bytes * 1024) * 1024) * 1024) / 8.
Definition to_tibit (bytes : Z) : Z := u64 (u64 (u64 (u64 (bytes * 1024) * 1024) * 1024) * 1024) / 8.

(** ** Lemmas *)

Lemma mask_ones n : 0 <= n < 64 -> get_mask_nbits n = Z.ones n.
Proof.
  intros Hn. unfold get_mask_nbits, u64.
  rewrite Z.shiftl_1_l, Z.ones_equiv, <- Z.sub_1_r.
  assert (0 < 2 ^ n) by (apply Z.pow_pos_nonneg; lia).
  assert (2 ^ n < 2 ^ 64) by (apply Z.pow_lt_mono_r; lia).
  rewrite (Z.mod_small (2 ^ n)) by lia. apply Z.mod_small. lia.
Qed.

Lemma testbit_u16 z i : 0 <= i -> Z.testbit (u16 z) i = (i <? 16) && Z.testbit z i.
Proof.
  intros Hi. unfold u16. destruct (Z.ltb_spec i 16).
  - by rewrite Z.mod_pow2_bits_low by lia.
  - by rewrite Z.mod_pow2_bits_high by lia.
Qed.

Lemma testbit_u64 z i : 0 <= i -> Z.testbit (u64 z) i = (i <? 64) && Z.testbit z i.
Proof.
  intros Hi. unfold u64. destruct (Z.ltb_spec i 64).
  - by rewrite Z.mod_pow2_bits_low by lia.
  - by rewrite Z.mod_pow2_bits_high by lia.
Qed.

(** Whether a bit position lies in a field. *)
Definition in_field (bitno nbits i : Z) : bool := (bitno <=? i) && (i <? bitno + nbits).

Lemma setbits_testbit_gen num bitno nbits data i :
  0 <= bitno -> 0 <= nbits < 64 -> bitno + nbits <= 64 -> 0 <= i < 64 ->
  Z.testbit (setbits num bitno nbits data) i =
    if in_field bitno nbits i then Z.testbit data (i - bitno) else Z.testbit num i.
Proof.
  intros Hb Hn Hbn Hi. unfold setbits, in_field. rewrite mask_ones by done.
  rewrite Z.lor_spec, Z.land_spec, !testbit_u64, Z.lnot_spec, testbit_u64 by lia.
  rewrite !Z.shiftl_spec, Z.land_spec by lia.
  replace (i <? 64) with true by (symmetry; apply Z.ltb_lt; lia). simpl.
  destruct (Z.leb_spec bitno i); simpl.
  - destruct (Z.ltb_spec i (bitno + nbits)).
    + rewrite Z.ones_spec_low by lia. simpl.
      by rewrite andb_false_r, andb_true_r.
    + rewrite Z.ones_spec_high by lia. simpl.
      by rewrite andb_true_r, andb_false_r, orb_false_r.
  - rewrite !(Z.testbit_neg_r _ (i - bitno)) by lia. simpl.
    by rewrite andb_true_r, orb_false_r.
Qed.

Lemma bf_get_testbit bitno nbits data i :
  0 <= bitno -> 0 <= nbits < 64 -> 0 <= i ->
  Z.testbit (bf_get bitno nbits data) i = (i <? nbits) && Z.testbit data (i + bitno).
Proof.
  intros Hb Hn Hi. unfold bf_get. rewrite mask_ones by done.
  rewrite Z.land_spec, Z.shiftr_spec by lia.
  destruct (Z.ltb_spec i nbits).
  - rewrite Z.ones_spec_low by lia. by rewrite andb_true_r.
  - rewrite Z.ones_spec_high by lia. apply andb_false_r.
Qed.

Lemma bf_get_bound bitno nbits data :
  0 <= bitno -> 0 <= nbits < 64 -> 0 <= bf_get bitno nbits data < 2 ^ nbits.
Proof.
  intros Hb Hn. unfold bf_get. rewrite mask_ones by done.
  rewrite Z.land_ones by lia. apply Z.mod_pos_bound, Z.pow_pos_nonneg; lia.
Qed.

Lemma bf_set_testbit bitno nbits data val i :
  0 <= bitno -> 0 <= nbits -> bitno + nbits <= 16 -> 0 <= i ->
  Z.testbit (bf_set bitno nbits data val) i =
    (i <? 16) && (if in_field bitno nbits i then Z.testbit val (i - bitno)
                  else Z.testbit data i).
Proof.
  intros Hb Hn Hbn Hi. unfold bf_set. rewrite testbit_u16 by done.
  destruct (Z.ltb_spec i 16); simpl; [| done].
  rewrite setbits_testbit_gen by lia. unfold in_field.
  destruct (Z.leb_spec bitno i); simpl; [| done].
  destruct (Z.ltb_spec i (bitno + nbits)); simpl; [| done].
  rewrite testbit_u16 by lia. by replace (i - bitno <? 16) with true
    by (symmetry; apply Z.ltb_lt; lia).
Qed.

Lemma bf_set_word bitno nbits data val : word (bf_set bitno nbits data val).
Proof. apply u16_word. Qed.

#[export] Hint Resolve bf_set_word : emu.

(** *** Fields of a union *)

(** A field reads back the value assigned to it, reduced to its width. *)
Lemma bf_get_set bitno nbits data val :
  0 <= bitno -> 0 <= nbits -> bitno + nbits <= 16 ->
  bf_get bitno nbits (bf_set bitno nbits data val) = val mod 2 ^ nbits.
Proof.
  intros Hb Hn Hbn. apply Z.bits_inj'. intros i Hi.
  rewrite bf_get_testbit, bf_set_testbit by lia. unfold in_field.
  destruct (Z.ltb_spec i nbits); simpl.
  - rewrite Z.mod_pow2_bits_low by lia. zdecide_true (i + bitno <? 16).
    zdecide_true (bitno <=? i + bitno). zdecide_true (i + bitno <? bitno + nbits).
    simpl. f_equal. lia.
  - by rewrite Z.mod_pow2_bits_high by lia.
Qed.

(** Assigning one field leaves a disjoint field of the union unchanged. *)
Lemma bf_get_set_disjoint b1 n1 b2 n2 data val :
  0 <= b1 -> 0 <= n1 -> b1 + n1 <= 16 -> 0 <= b2 -> 0 <= n2 -> b2 + n2 <= 16 ->
  b1 + n1 <= b2 \/ b2 + n2 <= b1 ->
  bf_get b1 n1 (bf_set b2 n2 data val) = bf_get b1 n1 data.
Proof.
  intros. apply Z.bits_inj'. intros i Hi.
  rewrite !bf_get_testbit, bf_set_testbit by lia. unfold in_field.
  destruct (Z.ltb_spec i n1); simpl; [| done]. zdecide_true (i + b1 <? 16). simpl.
  destruct (Z.leb_spec b2 (i + b1)); simpl; [| done].
  by zdecide_false (i + b1 <? b2 + n2).
Qed.

(** The copy assignment writes the low bits of the other storage. *)
Lemma bf_copy_set bitno nbits data oth : 0 <= bitno -> 0 <= nbits -> bitno + nbits <= 16 ->
  bf_copy bitno nbits data oth = bf_set bitno nbits data oth.
Proof.
  intros Hb Hn Hbn. unfold bf_copy, bf_set. apply Z.bits_inj'. intros i Hi.
  rewrite !testbit_u16 by lia. destruct (Z.ltb_spec i 16); simpl; [| done].
  rewrite !setbits_testbit_gen by lia. unfold in_field.
  destruct (Z.leb_spec bitno i); simpl; [| done]. destruct (Z.ltb_spec i (bitno + nbits)); [| done].
  rewrite testbit_u16 by lia. by zdecide_true (i - bitno <? 16).
Qed.

(** Bits stay below the end of the field. *)
Lemma setbits_below num bitno nbits data k :
  0 <= num < 2 ^ k -> 0 <= bitno -> 0 <= nbits < 64 -> bitno + nbits <= k -> k <= 64 -> 0 <= data ->
  0 <= setbits num bitno nbits data < 2 ^ k.
Proof.
  intros Hn Hb Hnb Hk Hk64 Hd.
  assert (H0 : 0 <= setbits num bitno nbits data).
  { unfold setbits. apply Z.lor_nonneg. split; [apply Z.land_nonneg; lia |].
    apply Z.mod_pos_bound. lia. }
  split; [done |]. apply testbit_bounded; [lia | done |]. intros i Hi.
  destruct (Z.lt_ge_cases i 64).
  - rewrite setbits_testbit_gen by lia. unfold in_field.
    destruct (Z.leb_spec bitno i); simpl; [| lia]. zdecide_false (i <? bitno + nbits).
    apply (testbit_above num k i); lia.
  - unfold setbits. rewrite Z.lor_spec, Z.land_spec, !testbit_u64 by lia.
    zdecide_false (i <? 64). simpl. by rewrite andb_false_r.
Qed.

Lemma bf_set_below bitno nbits data val k :
  0 <= data < 2 ^ k -> 0 <= bitno -> 0 <= nbits -> bitno + nbits <= k -> k <= 16 ->
  0 <= bf_set bitno nbits data val < 2 ^ k.
Proof.
  intros Hd Hb Hn Hk Hk16. unfold bf_set.
  pose proof (setbits_below data bitno nbits (u16 val) k Hd Hb ltac:(lia) Hk ltac:(lia)
    ltac:(apply u16_word)) as H.
  rewrite u16_id; [done |]. assert (2 ^ k <= 2 ^ 16) by (apply Z.pow_le_mono_r; lia).
  unfold word. lia.
Qed.
