(* ===== verification/HeapArray.v ===== *)
(** * Run-time sized arrays ([emu/util/heaparray.hpp])

    [Util::HeapArray<T>] with its element accesses checked: an access outside
    the bounds, undefined behaviour in C++, is the fault [OutOfBounds].
    [new T[len]] leaves the elements indeterminate: their values are the
    function [fresh], which is a parameter of every allocation.  The same record
    models the C arrays that are members of the emulator, which has static
    storage and therefore starts zeroed ([static_array]). *)

From S2P Require Import Prelude.
Open Scope Z_scope.

Record HeapArray := mkArray {
  len : Z;               (** [len] *)
  cells : gmap Z Z;      (** the elements written so far *)
  fresh : Z -> Z;        (** the values of the elements never written *)
}.

(** ** Operations *)

(** [HeapArray()] *)
Definition empty_array : HeapArray := mkArray 0 ∅ (fun _ => 0).

(** A zero-initialised C array of [n] elements. *)
Definition static_array (n : Z) : HeapArray := mkArray n ∅ (fun _ => 0).

(** [explicit HeapArray(std::size_t l)] and [reset]: a new allocation. *)
Definition reset (fresh : Z -> Z) (newlen : Z) : HeapArray := mkArray newlen ∅ fresh.

Definition in_bounds (a : HeapArray) (i : Z) : bool := (0 <=? i) && (i <? len a).

(** The element [i], whatever the bounds. *)
Definition cell (a : HeapArray) (i : Z) : Z := default (fresh a i) (cells a !! i).

(** [operator[]] read and written. *)
Definition get (a : HeapArray) (i : Z) : Res Z :=
  if in_bounds a i then Ok (cell a i) else Err OutOfBounds.

Definition set (a : HeapArray) (i v : Z) : Res HeapArray :=
  if in_bounds a i then Ok (mkArray (len a) (<[i := v]> (cells a)) (fresh a))
  else Err OutOfBounds.

Definition size (a : HeapArray) : Z := len a.
Definition empty (a : HeapArray) : bool := len a =? 0.

(** [HeapArray(std::initializer_list<T> lst)] *)
Fixpoint init_from (i : Z) (l : list Z) (a : HeapArray) : Res HeapArray :=
  match l with
  | [] => Ok a
  | x :: l' => let? a' := set a i x in init_from (i + 1) l' a'
  end.

Definition of_list (fresh : Z -> Z) (l : list Z) : Res HeapArray :=
  init_from 0 l (reset fresh (Z.of_nat (length l))).

(** [operator=(const HeapArray &arr)], also the copy constructor. *)
Definition assign (fresh : Z -> Z) (arr : HeapArray) : Res HeapArray :=
  for_upto (Z.to_nat (size arr)) 0
    (fun i a => let? v := get arr i in set a i v) (reset fresh (size arr)).

(** [operator==(const HeapArray &arr)]: the loop runs over the size of [arr]. *)
Fixpoint eq_loop (n : nat) (i : Z) (a arr : HeapArray) : Res bool :=
  match n with
  | O => Ok true
  | S n' =>
      let? x := get a i in
      let? y := get arr i in
      if negb (x =? y) then Ok false else eq_loop n' (i + 1) a arr
  end.

Definition equals (a arr : HeapArray) : Res bool := eq_loop (Z.to_nat (size arr)) 0 a arr.

Definition clear (a : HeapArray) : Res HeapArray :=
  for_upto (Z.to_nat (len a)) 0 (fun i a => set a i 0) a.

(** [std::fill(a.begin() + first, a.begin() + last, v)]: assign and advance
    until the iterator equals the last one.  An iterator that has passed the end
    of the array faults on its next assignment, so [len a] steps and one more
    are always enough. *)
Fixpoint fill_loop (fuel : nat) (i last v : Z) (a : HeapArray) : Res HeapArray :=
  if i =? last then Ok a
  else match fuel with
       | O => Err OutOfFuel
       | S n => let? a' := set a i v in fill_loop n (i + 1) last v a'
       end.

Definition fill (a : HeapArray) (first last v : Z) : Res HeapArray :=
  fill_loop (S (Z.to_nat (len a))) first last v a.

(** ** Lemmas *)

Lemma in_bounds_spec a i : in_bounds a i = true <-> 0 <= i < len a.
Proof. unfold in_bounds. rewrite andb_true_iff, Z.leb_le, Z.ltb_lt. done. Qed.

Lemma in_bounds_false a i : in_bounds a i = false <-> ~ (0 <= i < len a).
Proof. rewrite <- not_true_iff_false, in_bounds_spec. done. Qed.

Lemma get_in a i : 0 <= i < len a -> get a i = Ok (cell a i).
Proof. intros H. unfold get. by rewrite (proj2 (in_bounds_spec a i) H). Qed.

Lemma get_out a i : ~ (0 <= i < len a) -> get a i = Err OutOfBounds.
Proof. intros H. unfold get. by rewrite (proj2 (in_bounds_false a i) H). Qed.

Lemma get_Ok a i v : get a i = Ok v <-> 0 <= i < len a /\ v = cell a i.
Proof.
  unfold get. destruct (in_bounds a i) eqn:E.
  - apply in_bounds_spec in E. split; [by intros [= ->] | by intros [_ ->]].
  - apply in_bounds_false in E. split; [done | by intros [? _]].
Qed.

Lemma set_in a i v :
  0 <= i < len a -> set a i v = Ok (mkArray (len a) (<[i := v]> (cells a)) (fresh a)).
Proof. intros H. unfold set. by rewrite (proj2 (in_bounds_spec a i) H). Qed.

Lemma set_out a i v : ~ (0 <= i < len a) -> set a i v = Err OutOfBounds.
Proof. intros H. unfold set. by rewrite (proj2 (in_bounds_false a i) H). Qed.

(** The effect of a successful assignment, as the array seen afterwards. *)
Lemma set_Ok a i v a' :
  set a i v = Ok a' ->
  0 <= i < len a /\ len a' = len a /\ forall j, cell a' j = if j =? i then v else cell a j.
Proof.
  unfold set. destruct (in_bounds a i) eqn:E; [| done]. apply in_bounds_spec in E.
  intros [= <-]. split_and!; [lia | lia | done |]. intros j. unfold cell. simpl.
  destruct (Z.eqb_spec j i) as [-> | Hn].
  - by rewrite lookup_insert_eq.
  - by rewrite lookup_insert_ne.
Qed.

Lemma fill_loop_spec fuel i last v a :
  0 <= i <= last -> last <= len a -> last - i <= Z.of_nat fuel ->
  exists a', fill_loop fuel i last v a = Ok a' /\ len a' = len a /\
    forall j, cell a' j = if (i <=? j) && (j <? last) then v else cell a j.
Proof.
  revert i a. induction fuel as [| n IH]; intros i a Hi Hl Hf; simpl;
    destruct (Z.eqb_spec i last) as [-> | Hne].
  1, 3: exists a; split_and!; [done | done |]; intros j; zcases.
  - lia.
  - destruct (set a i v) as [a1 |] eqn:E; simpl.
    2: { rewrite set_in in E by lia. done. }
    apply set_Ok in E as (_ & Hlen & Hcell).
    destruct (IH (i + 1) a1) as (a2 & E2 & Hlen2 & Hcell2); [lia | lia | lia |].
    exists a2. split_and!; [done | lia |]. intros j. rewrite Hcell2, Hcell.
    zcases.
Qed.

(** A fill over a range of the array assigns exactly that range. *)
Lemma fill_in_range a first last v :
  0 <= first <= last -> last <= len a ->
  exists a', fill a first last v = Ok a' /\ len a' = len a /\
    forall j, cell a' j = if (first <=? j) && (j <? last) then v else cell a j.
Proof. intros. apply fill_loop_spec; lia. Qed.

Lemma fill_loop_oob fuel i last v a :
  0 <= i -> i <> last -> (last < i \/ len a < last) -> len a - i < Z.of_nat fuel ->
  (0 < Z.of_nat fuel) ->
  fill_loop fuel i last v a = Err OutOfBounds.
Proof.
  revert i a. induction fuel as [| n IH]; intros i a Hi Hne Hor Hf Hpos; [lia |].
  simpl. destruct (Z.eqb_spec i last); [done |].
  destruct (decide (i < len a)) as [Hin | Hout].
  - destruct (set a i v) as [a1 |] eqn:E; simpl.
    2: { rewrite set_in in E by lia. done. }
    apply set_Ok in E as (_ & Hlen & _). apply IH; lia.
  - by rewrite set_out by lia.
Qed.

(** A fill whose range is reversed or runs past the end faults. *)
Lemma fill_out_of_range a first last v :
  0 <= len a -> 0 <= first -> (last < first \/ (first < last /\ len a < last)) ->
  fill a first last v = Err OutOfBounds.
Proof. intros. apply fill_loop_oob; lia. Qed.

Lemma for_upto_array n first f a :
  0 <= first -> first + Z.of_nat n <= len a ->
  exists a', for_upto n first (fun i a => set a i (f i)) a = Ok a' /\ len a' = len a /\
    forall j, cell a' j = if (first <=? j) && (j <? first + Z.of_nat n) then f j else cell a j.
Proof.
  intros Hf Hl.
  destruct (for_upto_inv (fun i a' => len a' = len a /\
    forall j, cell a' j = if (first <=? j) && (j <? i) then f j else cell a j)
    (fun i a => set a i (f i)) n first a) as (a' & E & Hlen & Hc).
  - split; [done |]. intros j. zcases.
  - intros i s Hi (Hlen & Hc). destruct (set s i (f i)) as [s' |] eqn:E.
    2: { rewrite set_in in E by lia. done. }
    exists s'. split; [done |]. apply set_Ok in E as (_ & Hlen' & Hc').
    split; [lia |]. intros j. rewrite Hc', Hc.
    zcases.
  - by exists a'.
Qed.

Lemma clear_zero a : 0 <= len a ->
  exists a', clear a = Ok a' /\ len a' = len a /\
    forall j, 0 <= j < len a -> cell a' j = 0.
Proof.
  intros Hl. destruct (for_upto_array (Z.to_nat (len a)) 0 (fun _ => 0) a) as (a' & E & H1 & H2);
    [lia | lia |].
  exists a'. split_and!; [done | done |]. intros j Hj. rewrite H2.
  zcases.
Qed.

(** Writing a list from an index on, as [fread] into an array does. *)
Lemma init_from_spec l : forall i a, 0 <= i -> i + Z.of_nat (length l) <= len a ->
  exists a', init_from i l a = Ok a' /\ len a' = len a /\
    forall j, cell a' j = match (if i <=? j then l !! Z.to_nat (j - i) else None) with
                          | Some v => v | None => cell a j end.
Proof.
  induction l as [| x l IH]; intros i a Hi Hl; simpl in *.
  - exists a. split_and!; [done | done |]. intros j. by destruct (i <=? j).
  - destruct (set a i x) as [a1 |] eqn:E; simpl; [| by rewrite set_in in E by lia].
    apply set_Ok in E as (_ & Hlen & Hc).
    destruct (IH (i + 1) a1) as (a2 & E2 & Hlen2 & Hc2); [lia | lia |].
    exists a2. split_and!; [done | lia |]. intros j. rewrite Hc2, Hc.
    destruct (Z.eqb_spec j i) as [-> | Hne].
    + zdecide_false (i + 1 <=? i). zdecide_true (i <=? i). by rewrite Z.sub_diag.
    + destruct (Z.leb_spec i j).
      * zdecide_true (i + 1 <=? j).
        replace (Z.to_nat (j - i)) with (S (Z.to_nat (j - (i + 1)))) by lia. done.
      * zdecide_false (i + 1 <=? j). done.
Qed.

(** A copy has the same elements. *)
Lemma assign_copies fr arr : 0 <= len arr ->
  exists a', assign fr arr = Ok a' /\ len a' = len arr /\ forall i, 0 <= i < len arr -> cell a' i = cell arr i.
Proof.
  intros Hl. unfold assign, size.
  destruct (for_upto_inv (fun i a => len a = len arr /\ forall j, 0 <= j < i -> cell a j = cell arr j)
    (fun i a => let? v := get arr i in set a i v) (Z.to_nat (len arr)) 0 (reset fr (len arr)))
    as (a' & E & Hl' & Hc).
  - split; [done |]. intros j Hj. lia.
  - intros i a Hi [Ha Hc]. rewrite get_in by lia. cbn [rbind].
    destruct (set a i (cell arr i)) as [a' |] eqn:E; [| by rewrite set_in in E by lia].
    exists a'. split; [done |]. apply set_Ok in E as (_ & El & Hs). split; [lia |].
    intros j Hj. rewrite Hs. destruct (Z.eqb_spec j i) as [-> |]; [done |]. apply Hc. lia.
  - exists a'. split_and!; [done | done |]. intros i Hi. apply Hc. lia.
Qed.
