(* ===== verification/Bus.v ===== *)
(** * The memory bus ([emu/core/bus.hpp], [emu/core/bus.cpp])

    A [Bus] routes each address, through the table [lookup], to one of at most
    [TABSIZ] areas; an area has a reader and a writer.  The C++ tables hold
    [std::function] closures.  Here they hold values of a type [H] that names
    the closures the program creates; the component that owns the closures
    interprets them ([Emulator] for the two buses of the machine). *)

From S2P Require Import Prelude HeapArray.
Open Scope Z_scope.

Definition TABSIZ : Z := 16.

Record Bus (H : Type) := mkBus {
  lookup : HeapArray;
  readtab : list (option H);    (** [None] is an empty [std::function] *)
  writetab : list (option H);
  assigned : list bool;
}.
Arguments mkBus {H}.
Arguments lookup {H}.
Arguments readtab {H}.
Arguments writetab {H}.
Arguments assigned {H}.

Section Bus.
Context {H : Type}.
Implicit Types (b : Bus H) (h rd wr : H).

(** ** Operations *)

(** [Bus()]: no lookup table, empty functions. *)
Definition default_bus : Bus H :=
  mkBus empty_array (replicate 16 None) (replicate 16 None) (replicate 16 false).

(** [Bus::reset]; [fr] is the content of the new allocation. *)
Definition reset (fr : Z -> Z) (newsize : Z) b : Bus H :=
  mkBus (HeapArray.reset fr newsize) (readtab b) (writetab b) (replicate 16 false).

(** [explicit Bus(const uint32 size)] *)
Definition new_bus (fr : Z -> Z) (size : Z) : Bus H := reset fr size default_bus.

(** The element [i] of one of the C arrays of the bus. *)
Definition tab_get {A} (t : list A) (i : Z) : Res A :=
  if i <? 0 then Err OutOfBounds
  else match t !! Z.to_nat i with Some x => Ok x | None => Err OutOfBounds end.

(** The search loop of [Bus::map]: [while (assigned[id]) if (++id > TABSIZ) ...];
    [None] is the return after the error message. *)
Fixpoint search_id (fuel : nat) (asg : list bool) (id : Z) : Res (option Z) :=
  match fuel with
  | O => Err OutOfFuel
  | S n =>
      let? taken := tab_get asg id in
      if taken then
        if TABSIZ <? id + 1 then Ok None else search_id n asg (id + 1)
      else Ok (Some id)
  end.

(** [Bus::map] *)
Definition map b (start end_ : Z) rd wr : Res (Bus H) :=
  let? found := search_id 18 (assigned b) 0 in
  match found with
  | None => Ok b
  | Some id =>
      let? lk := fill (lookup b) start end_ id in
      Ok (mkBus lk (<[Z.to_nat id := Some rd]> (readtab b))
                   (<[Z.to_nat id := Some wr]> (writetab b))
                   (<[Z.to_nat id := true]> (assigned b)))
  end.

(** [Bus::remap]; a refused call returns the bus unchanged. *)
Definition remap b (start end_ : Z) rd wr : Res (Bus H) :=
  let? id := get (lookup b) start in
  let? before := (if start =? 0 then Ok false
                  else let? p := get (lookup b) (start - 1) in Ok (p =? id)) in
  if before : bool then Ok b
  else
    let? last := get (lookup b) (end_ - 1) in
    if negb (last =? id) then Ok b
    else
      let? _ := tab_get (readtab b) id in
      Ok (mkBus (lookup b) (<[Z.to_nat id := Some rd]> (readtab b))
                           (<[Z.to_nat id := Some wr]> (writetab b)) (assigned b)).

(** [Bus::operator=(Bus &&b)] and the move constructor: [HeapArray] has no move
    assignment, so that the lookup table is copied; [fr] is its new allocation. *)
Definition move_assign (fr : Z -> Z) b : Res (Bus H) :=
  let? lk := assign fr (lookup b) in
  Ok (mkBus lk (readtab b) (writetab b) (assigned b)).

(** The closures that [Bus::read] and [Bus::write] call for an address. *)
Definition route (tab : list (option H)) b (addr : Z) : Res H :=
  let? id := get (lookup b) addr in
  let? f := tab_get tab id in
  match f with Some h => Ok h | None => Err BadFunctionCall end.

Definition reader b (addr : Z) : Res H := route (readtab b) b addr.
Definition writer b (addr : Z) : Res H := route (writetab b) b addr.

Definition size b : Z := HeapArray.size (lookup b).

(** ** Lemmas *)

(** The tables have their declared size. *)
Definition wf b : Prop :=
  length (readtab b) = 16%nat /\ length (writetab b) = 16%nat /\ length (assigned b) = 16%nat.

(** The address belongs to an area that was mapped. *)
Definition mapped b (addr : Z) : Prop :=
  0 <= addr < size b /\ tab_get (assigned b) (cell (lookup b) addr) = Ok true.

(** [id] is the lowest area number not yet assigned. *)
Definition first_free b (id : Z) : Prop :=
  tab_get (assigned b) id = Ok false /\ forall j, 0 <= j < id -> tab_get (assigned b) j = Ok true.

Lemma tab_get_bounds {A} (t : list A) i x :
  tab_get t i = Ok x -> 0 <= i < Z.of_nat (length t).
Proof.
  unfold tab_get. destruct (Z.ltb_spec i 0); [done |].
  destruct (t !! Z.to_nat i) eqn:E; [| done]. apply lookup_lt_Some in E. lia.
Qed.

Lemma tab_get_insert {A} (t : list A) i x j :
  0 <= i < Z.of_nat (length t) ->
  tab_get (<[Z.to_nat i := x]> t) j = if j =? i then Ok x else tab_get t j.
Proof.
  intros Hi. unfold tab_get. destruct (Z.eqb_spec j i) as [-> | Hne].
  - zdecide_false (i <? 0). by rewrite list_lookup_insert_eq by lia.
  - destruct (Z.ltb_spec j 0); [done |]. by rewrite list_lookup_insert_ne by lia.
Qed.

Lemma search_id_free fuel asg i id :
  0 <= i <= id -> id <= TABSIZ -> id - i < Z.of_nat fuel ->
  tab_get asg id = Ok false -> (forall j, i <= j < id -> tab_get asg j = Ok true) ->
  search_id fuel asg i = Ok (Some id).
Proof.
  unfold TABSIZ. revert i. induction fuel as [| n IH]; intros i Hi Hid Hf Hfree Htaken; [lia |].
  simpl. destruct (decide (i = id)) as [-> | Hne]; [by rewrite Hfree |].
  rewrite Htaken by lia. simpl. unfold TABSIZ. zdecide_false (16 <? i + 1).
  apply IH; [lia | lia | lia | done |]. intros j Hj. apply Htaken. lia.
Qed.

Lemma search_id_full fuel asg i :
  0 <= i <= TABSIZ -> TABSIZ - i < Z.of_nat fuel -> length asg = 16%nat ->
  (forall j, i <= j < TABSIZ -> tab_get asg j = Ok true) ->
  search_id fuel asg i = Err OutOfBounds.
Proof.
  unfold TABSIZ. revert i. induction fuel as [| n IH]; intros i Hi Hf Hlen Htaken; [lia |].
  simpl. destruct (decide (i = 16)) as [-> | Hne].
  - unfold tab_get. simpl. by rewrite lookup_ge_None_2 by lia.
  - rewrite Htaken by lia. simpl. unfold TABSIZ. zdecide_false (16 <? i + 1).
    apply IH; [lia | lia | done |]. intros j Hj. apply Htaken. lia.
Qed.

(** What a mapping does when an area number is free. *)
Lemma map_result b id start end_ rd wr :
  wf b -> first_free b id -> 0 <= start <= end_ -> end_ <= size b ->
  exists lk,
    map b start end_ rd wr =
      Ok (mkBus lk (<[Z.to_nat id := Some rd]> (readtab b))
                   (<[Z.to_nat id := Some wr]> (writetab b))
                   (<[Z.to_nat id := true]> (assigned b))) /\
    len lk = size b /\
    (forall j, cell lk j = if (start <=? j) && (j <? end_) then id else cell (lookup b) j).
Proof.
  intros (Hr & Hw & Ha) (Hfree & Htaken) Hse He.
  pose proof (tab_get_bounds _ _ _ Hfree) as Hid.
  unfold map. rewrite (search_id_free 18 (assigned b) 0 id); [| unfold TABSIZ; lia .. | done | done].
  simpl. destruct (fill_in_range (lookup b) start end_ id) as (lk & E & Hlen & Hc); [lia | done |].
  rewrite E. simpl. exists lk. done.
Qed.

Lemma map_full b start end_ rd wr :
  wf b -> (forall j, 0 <= j < TABSIZ -> tab_get (assigned b) j = Ok true) ->
  map b start end_ rd wr = Err OutOfBounds.
Proof.
  intros (_ & _ & Ha) Ht. unfold map.
  by rewrite (search_id_full 18 (assigned b) 0) by (unfold TABSIZ; lia || done).
Qed.

(** A mapping routes its own range to the new closures, and keeps every other
    mapped address where it was. *)
Lemma map_routes b b' id start end_ rd wr :
  wf b -> first_free b id -> 0 <= start <= end_ -> end_ <= size b ->
  map b start end_ rd wr = Ok b' ->
  wf b' /\ size b' = size b /\
  (forall a, start <= a < end_ -> reader b' a = Ok rd /\ writer b' a = Ok wr /\ mapped b' a) /\
  (forall a, mapped b a -> ~ (start <= a < end_) ->
     reader b' a = reader b a /\ writer b' a = writer b a /\ mapped b' a).
Proof.
  intros Hwf Hfree Hse He Hmap.
  destruct (map_result b id start end_ rd wr) as (lk & E & Hlen & Hc); try done.
  rewrite E in Hmap. injection Hmap as <-.
  destruct Hwf as (Hr & Hw & Ha). destruct Hfree as (Hfree & Htaken).
  pose proof (tab_get_bounds _ _ _ Hfree) as Hid.
  split_and!; [unfold wf; simpl; by rewrite !length_insert | done | |].
  - intros a Hra. unfold reader, writer, route, mapped, size in *. simpl.
    rewrite get_in by lia. rewrite Hc. zdecide_true (start <=? a). zdecide_true (a <? end_).
    simpl. rewrite !tab_get_insert by lia. rewrite Z.eqb_refl.
    split_and!; [done | done | unfold HeapArray.size; lia | unfold HeapArray.size; lia | done].
  - intros a (Ha1 & Ha2) Hna. unfold reader, writer, route, mapped, size in *. simpl.
    rewrite !get_in by (unfold HeapArray.size in *; lia). simpl. rewrite Hc.
    replace ((start <=? a) && (a <? end_)) with false by (symmetry; zcases).
    assert (cell (lookup b) a <> id) by (intros Heq; rewrite Heq in Ha2; congruence).
    rewrite !tab_get_insert by lia. zdecide_false (cell (lookup b) a =? id).
    split_and!; [done | done | unfold HeapArray.size in *; lia | unfold HeapArray.size in *; lia | done].
Qed.

(** *** Mapping areas one after the other *)

(** The first [n] area numbers are in use. *)
Definition areas b (n : Z) : Prop :=
  wf b /\ forall j, 0 <= j < TABSIZ -> tab_get (assigned b) j = Ok (j <? n).

Lemma areas_new fr sz : areas (new_bus fr sz) 0 /\ size (new_bus fr sz) = sz /\
  forall a, cell (lookup (new_bus fr sz)) a = fr a.
Proof.
  unfold areas, wf. cbn [new_bus reset default_bus readtab writetab assigned lookup].
  split_and!; try done. intros j Hj. unfold tab_get, TABSIZ in *. zdecide_false (j <? 0).
  by rewrite lookup_replicate_2 by lia.
Qed.

Lemma areas_free b n : areas b n -> 0 <= n < TABSIZ -> first_free b n.
Proof.
  intros [_ Ha] Hn. split.
  - rewrite Ha by done. f_equal. lia.
  - intros j Hj. rewrite Ha by lia. f_equal. lia.
Qed.

Lemma map_next b n start end_ rd wr :
  areas b n -> 0 <= n < TABSIZ -> 0 <= start <= end_ -> end_ <= size b ->
  exists b', map b start end_ rd wr = Ok b' /\ areas b' (n + 1) /\ size b' = size b /\
    (forall a, cell (lookup b') a = if (start <=? a) && (a <? end_) then n else cell (lookup b) a) /\
    (forall a, start <= a < end_ -> reader b' a = Ok rd /\ writer b' a = Ok wr /\ mapped b' a) /\
    (forall a, mapped b a -> ~ (start <= a < end_) ->
       reader b' a = reader b a /\ writer b' a = writer b a /\ mapped b' a).
Proof.
  intros Ha Hn Hse He. pose proof (areas_free b n Ha Hn) as Hf. destruct Ha as [Hwf Ha].
  destruct (map_result b n start end_ rd wr Hwf Hf Hse He) as (lk & E & Hlen & Hc).
  eexists. split; [exact E |].
  destruct (map_routes b _ n start end_ rd wr Hwf Hf Hse He E) as (Hwf' & Hs & Hin & Hout).
  split_and!; try done. split; [done |]. intros j Hj. cbn [assigned].
  destruct Hwf as (_ & _ & Hl). rewrite tab_get_insert by (rewrite Hl; unfold TABSIZ in *; lia).
  rewrite Ha by done. zcases.
Qed.

(** What [remap] does to an area it accepts, and to one it refuses. *)
Lemma remap_accepts b id start end_ rd wr :
  wf b -> 0 < start < end_ -> end_ <= size b -> 0 <= id < TABSIZ ->
  (forall a, start <= a < end_ -> cell (lookup b) a = id) -> cell (lookup b) (start - 1) <> id ->
  exists b', remap b start end_ rd wr = Ok b' /\ wf b' /\ size b' = size b /\
    lookup b' = lookup b /\ assigned b' = assigned b /\
    (forall a, 0 <= a < size b -> cell (lookup b) a = id -> reader b' a = Ok rd /\ writer b' a = Ok wr) /\
    (forall a, 0 <= a < size b -> cell (lookup b) a <> id ->
       reader b' a = reader b a /\ writer b' a = writer b a).
Proof.
  intros (Hr & Hw & Ha) Hse He Hid Hin Hbefore. unfold TABSIZ in Hid. unfold size, HeapArray.size in *.
  unfold remap. rewrite !get_in by lia. rewrite (Hin start), (Hin (end_ - 1)) by lia. cbn [rbind].
  zdecide_false (start =? 0). cbn [rbind]. zdecide_false (cell (lookup b) (start - 1) =? id).
  rewrite Z.eqb_refl. cbn [negb].
  assert (E : exists x, tab_get (readtab b) id = Ok x).
  { unfold tab_get. zdecide_false (id <? 0).
    destruct (lookup_lt_is_Some_2 (readtab b) (Z.to_nat id)) as [x ->]; [lia |]. by exists x. }
  destruct E as [x ->]. cbn [rbind]. eexists. split; [done |].
  unfold wf, reader, writer, route. simpl. rewrite !length_insert.
  split_and!; try done; intros a Hra Hca; rewrite !get_in by lia; cbn [rbind];
    rewrite !tab_get_insert by lia.
  - by rewrite Hca, Z.eqb_refl.
  - by zdecide_false (cell (lookup b) a =? id).
Qed.

Lemma remap_refuses b start end_ rd wr :
  0 < start < end_ -> end_ <= size b ->
  cell (lookup b) (start - 1) = cell (lookup b) start -> remap b start end_ rd wr = Ok b.
Proof.
  intros Hse He Hb. unfold size, HeapArray.size in *. unfold remap. rewrite !get_in by lia. cbn [rbind].
  zdecide_false (start =? 0). cbn [rbind]. rewrite Hb, Z.eqb_refl. done.
Qed.
(** A moved bus routes as the original did. *)
Lemma move_routes fr b : 0 <= size b ->
  exists b', move_assign fr b = Ok b' /\ size b' = size b /\
    forall a, reader b' a = reader b a /\ writer b' a = writer b a.
Proof.
  unfold size, HeapArray.size. intros Hs. destruct (assign_copies fr (lookup b) Hs) as (lk & E & Hl & Hc).
  unfold move_assign. rewrite E. cbn [rbind]. eexists. split; [reflexivity |]. split; [exact Hl |].
  intros a. unfold reader, writer, route. cbn [lookup readtab writetab].
  destruct (decide (0 <= a < len (lookup b))).
  - rewrite !get_in by lia. by rewrite Hc.
  - by rewrite !get_out by lia.
Qed.
End Bus.
