(* ===== verification/InstrInfo.v ===== *)
(** * Instruction information ([emu/core/instrinfo.hpp], [emu/core/instrinfo.cpp])

    The 16-bit register union, the processor status, and the table of
    instructions with what is computed from it: the length of an instruction,
    its disassembly, and the predicates on branches and jumps. *)

From stdpp Require Import strings.
From S2P Require Import Prelude.
Open Scope Z_scope.

(** ** [union Reg16]

    The value is [full]; on the little-endian targets of the build [low] and
    [high] are its two bytes. *)

Definition low (full : Z) : Z := full mod 256.
Definition high (full : Z) : Z := full / 256.
Definition set_low (full v : Z) : Z := full / 256 * 256 + v.
Definition set_high (full v : Z) : Z := v * 256 + full mod 256.

(** ** [struct ProcStatus] *)

Record ProcStatus := mkPS {
  carry : bool; zero : bool; intdis : bool; decimal : bool;
  breakf : bool; unused : bool; ov : bool; neg : bool;
}.

#[export] Instance ProcStatus_eq_dec : EqDecision ProcStatus.
Proof. solve_decision. Defined.

(** The member initialisers. *)
Definition default_status : ProcStatus := mkPS false false false false false true false false.

(** [operator uint8() const] *)
Definition byte_of_status (p : ProcStatus) : Z :=
  Z.lor (Z.shiftl (Z.b2z (carry p)) 0) (Z.lor (Z.shiftl (Z.b2z (zero p)) 1)
  (Z.lor (Z.shiftl (Z.b2z (intdis p)) 2) (Z.lor (Z.shiftl (Z.b2z (decimal p)) 3)
  (Z.lor (Z.shiftl (Z.b2z (breakf p)) 4) (Z.lor (Z.shiftl (Z.b2z (unused p)) 5)
  (Z.lor (Z.shiftl (Z.b2z (ov p)) 6) (Z.shiftl (Z.b2z (neg p)) 7))))))).

(** [operator=(const uint8 data)] *)
Definition status_of_byte (data : Z) : ProcStatus :=
  mkPS (tobool (Z.land data 0x01)) (tobool (Z.land data 0x02))
       (tobool (Z.land data 0x04)) (tobool (Z.land data 0x08))
       (tobool (Z.land data 0x10)) (tobool (Z.land data 0x20))
       (tobool (Z.land data 0x40)) (tobool (Z.land data 0x80)).

(** [ProcStatus::reset] *)
Definition reset_status : ProcStatus := mkPS false false false false false true false false.

(** Assignments to one member. *)
Definition set_carry v p := mkPS v (zero p) (intdis p) (decimal p) (breakf p) (unused p) (ov p) (neg p).
Definition set_zero v p := mkPS (carry p) v (intdis p) (decimal p) (breakf p) (unused p) (ov p) (neg p).
Definition set_intdis v p := mkPS (carry p) (zero p) v (decimal p) (breakf p) (unused p) (ov p) (neg p).
Definition set_decimal v p := mkPS (carry p) (zero p) (intdis p) v (breakf p) (unused p) (ov p) (neg p).
Definition set_breakf v p := mkPS (carry p) (zero p) (intdis p) (decimal p) v (unused p) (ov p) (neg p).
Definition set_ov v p := mkPS (carry p) (zero p) (intdis p) (decimal p) (breakf p) (unused p) v (neg p).
Definition set_neg v p := mkPS (carry p) (zero p) (intdis p) (decimal p) (breakf p) (unused p) (ov p) v.

(** ** The instruction table *)

Inductive Mnemonic :=
  ADC | AND | ASL | BCC | BCS | BEQ | BIT | BMI | BNE | BPL | BRK | BVC | BVS | CLC
| CLD | CLI | CLV | CMP | CPX | CPY | DEC | DEX | DEY | EOR | INC | INX | INY | JMP
| JSR | LDA | LDX | LDY | LSR | NOP | ORA | PHA | PHP | PLA | PLP | ROL | ROR | RTI
| RTS | SBC | SEC | SED | SEI | STA | STX | STY | TAX | TAY | TSX | TXA | TXS | TYA.

#[export] Instance Mnemonic_eq_dec : EqDecision Mnemonic.
Proof. solve_decision. Defined.

Inductive Mode :=
  Impld | Accum | Branch | Imm | Zero | Zerox | Zeroy | Indx | Indy
| Abs | Absx | Absy | Ind.

#[export] Instance Mode_eq_dec : EqDecision Mode.
Proof. solve_decision. Defined.

(** [INSTR_MODE(X)]: [None] for an id that has no line in the table. *)
Definition INSTR_MODE (id : Z) : option (Mnemonic * Mode) :=
  match id with
  | 0x00 => Some (BRK, Impld)
  | 0x01 => Some (ORA, Indx)
  | 0x05 => Some (ORA, Zero)
  | 0x06 => Some (ASL, Zero)
  | 0x08 => Some (PHP, Impld)
  | 0x09 => Some (ORA, Imm)
  | 0x0A => Some (ASL, Accum)
  | 0x0D => Some (ORA, Abs)
  | 0x0E => Some (ASL, Abs)
  | 0x10 => Some (BPL, Branch)
  | 0x11 => Some (ORA, Indy)
  | 0x15 => Some (ORA, Zerox)
  | 0x16 => Some (ASL, Zerox)
  | 0x18 => Some (CLC, Impld)
  | 0x19 => Some (ORA, Absy)
  | 0x1D => Some (ORA, Absx)
  | 0x1E => Some (ASL, Absx)
  | 0x20 => Some (JSR, Abs)
  | 0x21 => Some (AND, Indx)
  | 0x24 => Some (BIT, Zero)
  | 0x25 => Some (AND, Zero)
  | 0x26 => Some (ROL, Zero)
  | 0x28 => Some (PLP, Impld)
  | 0x29 => Some (AND, Imm)
  | 0x2A => Some (ROL, Accum)
  | 0x2C => Some (BIT, Abs)
  | 0x2D => Some (AND, Abs)
  | 0x2E => Some (ROL, Abs)
  | 0x30 => Some (BMI, Branch)
  | 0x31 => Some (AND, Indy)
  | 0x35 => Some (AND, Zerox)
  | 0x36 => Some (ROL, Zerox)
  | 0x38 => Some (SEC, Impld)
  | 0x39 => Some (AND, Absy)
  | 0x3D => Some (AND, Absx)
  | 0x3E => Some (ROL, Absx)
  | 0x40 => Some (RTI, Impld)
  | 0x41 => Some (EOR, Indx)
  | 0x45 => Some (EOR, Zero)
  | 0x46 => Some (LSR, Zero)
  | 0x48 => Some (PHA, Impld)
  | 0x49 => Some (EOR, Imm)
  | 0x4A => Some (LSR, Accum)
  | 0x4C => Some (JMP, Abs)
  | 0x4D => Some (EOR, Abs)
  | 0x4E => Some (LSR, Abs)
  | 0x50 => Some (BVC, Branch)
  | 0x51 => Some (EOR, Indy)
  | 0x55 => Some (EOR, Zerox)
  | 0x56 => Some (LSR, Zerox)
  | 0x58 => Some (CLI, Impld)
  | 0x59 => Some (EOR, Absy)
  | 0x5D => Some (EOR, Absx)
  | 0x5E => Some (LSR, Absx)
  | 0x60 => Some (RTS, Impld)
  | 0x61 => Some (ADC, Indx)
  | 0x65 => Some (ADC, Zero)
  | 0x66 => Some (ROR, Zero)
  | 0x68 => Some (PLA, Impld)
  | 0x69 => Some (ADC, Imm)
  | 0x6A => Some (ROR, Accum)
  | 0x6C => Some (JMP, Ind)
  | 0x6D => Some (ADC, Abs)
  | 0x6E => Some (ROR, Abs)
  | 0x70 => Some (BVS, Branch)
  | 0x71 => Some (ADC, Indy)
  | 0x75 => Some (ADC, Zerox)
  | 0x76 => Some (ROR, Zerox)
  | 0x78 => Some (SEI, Impld)
  | 0x79 => Some (ADC, Absy)
  | 0x7D => Some (ADC, Absx)
  | 0x7E => Some (ROR, Absx)
  | 0x81 => Some (STA, Indx)
  | 0x84 => Some (STY, Zero)
  | 0x85 => Some (STA, Zero)
  | 0x86 => Some (STX, Zero)
  | 0x88 => Some (DEY, Impld)
  | 0x8A => Some (TXA, Impld)
  | 0x8C => Some (STY, Abs)
  | 0x8D => Some (STA, Abs)
  | 0x8E => Some (STX, Abs)
  | 0x90 => Some (BCC, Branch)
  | 0x91 => Some (STA, Indy)
  | 0x94 => Some (STA, Zerox)
  | 0x95 => Some (STA, Zerox)
  | 0x96 => Some (STX, Zeroy)
  | 0x98 => Some (TYA, Impld)
  | 0x99 => Some (STA, Absy)
  | 0x9A => Some (TXS, Impld)
  | 0x9D => Some (STA, Absx)
  | 0xA0 => Some (LDY, Imm)
  | 0xA1 => Some (LDA, Indx)
  | 0xA2 => Some (LDX, Imm)
  | 0xA4 => Some (LDY, Zero)
  | 0xA5 => Some (LDA, Zero)
  | 0xA6 => Some (LDX, Zero)
  | 0xA8 => Some (TAY, Impld)
  | 0xA9 => Some (LDA, Imm)
  | 0xAA => Some (TAX, Impld)
  | 0xAC => Some (LDY, Abs)
  | 0xAD => Some (LDA, Abs)
  | 0xAE => Some (LDX, Abs)
  | 0xB0 => Some (BCS, Branch)
  | 0xB1 => Some (LDA, Indy)
  | 0xB4 => Some (LDY, Zerox)
  | 0xB5 => Some (LDA, Zerox)
  | 0xB6 => Some (LDX, Zeroy)
  | 0xB8 => Some (CLV, Impld)
  | 0xB9 => Some (LDA, Absy)
  | 0xBA => Some (TSX, Impld)
  | 0xBC => Some (LDY, Absx)
  | 0xBD => Some (LDA, Absx)
  | 0xBE => Some (LDX, Absy)
  | 0xC0 => Some (CPY, Imm)
  | 0xC1 => Some (CMP, Indx)
  | 0xC4 => Some (CPY, Zero)
  | 0xC5 => Some (CMP, Zero)
  | 0xC6 => Some (DEC, Zero)
  | 0xC8 => Some (INY, Impld)
  | 0xC9 => Some (CMP, Imm)
  | 0xCA => Some (DEX, Impld)
  | 0xCC => Some (CPY, Abs)
  | 0xCD => Some (CMP, Abs)
  | 0xCE => Some (DEC, Abs)
  | 0xD0 => Some (BNE, Branch)
  | 0xD1 => Some (CMP, Indy)
  | 0xD5 => Some (CMP, Zerox)
  | 0xD6 => Some (DEC, Zerox)
  | 0xD8 => Some (CLD, Impld)
  | 0xD9 => Some (CMP, Absy)
  | 0xDD => Some (CMP, Absx)
  | 0xDE => Some (DEC, Absx)
  | 0xE0 => Some (CPX, Imm)
  | 0xE1 => Some (SBC, Indx)
  | 0xE4 => Some (CPX, Zero)
  | 0xE5 => Some (SBC, Zero)
  | 0xE6 => Some (INC, Zero)
  | 0xE8 => Some (INX, Impld)
  | 0xE9 => Some (SBC, Imm)
  | 0xEA => Some (NOP, Impld)
  | 0xEC => Some (CPX, Abs)
  | 0xED => Some (SBC, Abs)
  | 0xEE => Some (INC, Abs)
  | 0xF0 => Some (BEQ, Branch)
  | 0xF1 => Some (SBC, Indy)
  | 0xF5 => Some (SBC, Zerox)
  | 0xF6 => Some (INC, Zerox)
  | 0xF9 => Some (SBC, Absy)
  | 0xFD => Some (SBC, Absx)
  | 0xFE => Some (INC, Absx)
  | _ => None
  end.

(** The constants [nb_##mode] of [num_bytes]. *)
Definition nb_mode (m : Mode) : Z :=
  match m with
  | Impld => 1 | Accum => 1 | Branch => 2 | Imm => 2 | Zero => 2 | Zerox => 2
  | Zeroy => 2 | Indx => 2 | Indy => 2 | Abs => 3 | Absx => 3 | Absy => 3 | Ind => 3
  end.

Definition num_bytes (id : Z) : Z :=
  match INSTR_MODE id with
  | Some (_, mode) => nb_mode mode
  | None => 1
  end.

(** ** Branches and jumps *)

Definition is_branch (instr : Z) : bool := Z.land instr 0x1F =? 0x10.

Definition took_branch (instr : Z) (ps : ProcStatus) : bool :=
  match instr with
  | 0x10 => negb (neg ps)
  | 0x30 => neg ps
  | 0x50 => negb (ov ps)
  | 0x70 => ov ps
  | 0x90 => negb (carry ps)
  | 0xB0 => carry ps
  | 0xD0 => negb (zero ps)
  | 0xF0 => zero ps
  | _ => false
  end.

Definition branch_pointer (branch_arg pc : Z) : Z := u16 (pc + 2 + s8 branch_arg).

Definition is_jump (instr : Z) : bool :=
  (instr =? 0x20) || (instr =? 0x4C) || (instr =? 0x6C).
