(* ===== verification/Disasm.v ===== *)
(** * The disassembler ([emu/core/instrinfo.hpp], [emu/core/instrinfo.cpp])

    The text of instructions and flags, and the sweep over a block of memory.
    The sweep counts in [uint16]: it is a loop with fuel, and the lemmas below say
    when it ends (with which addresses) and when it cannot. *)

From Stdlib Require Import Ascii.
From stdpp Require Import strings.
From S2P Require Import Prelude StringOps Fmt InstrInfo.
Open Scope Z_scope.

(** The text of a mnemonic: [#name] in the macro. *)
Definition mnemonic_name (m : Mnemonic) : string :=
  match m with
  | ADC => "adc" | AND => "and" | ASL => "asl" | BCC => "bcc" | BCS => "bcs" | BEQ => "beq"
  | BIT => "bit" | BMI => "bmi" | BNE => "bne" | BPL => "bpl" | BRK => "brk" | BVC => "bvc"
  | BVS => "bvs" | CLC => "clc" | CLD => "cld" | CLI => "cli" | CLV => "clv" | CMP => "cmp"
  | CPX => "cpx" | CPY => "cpy" | DEC => "dec" | DEX => "dex" | DEY => "dey" | EOR => "eor"
  | INC => "inc" | INX => "inx" | INY => "iny" | JMP => "jmp" | JSR => "jsr" | LDA => "lda"
  | LDX => "ldx" | LDY => "ldy" | LSR => "lsr" | NOP => "nop" | ORA => "ora" | PHA => "pha"
  | PHP => "php" | PLA => "pla" | PLP => "plp" | ROL => "rol" | ROR => "ror" | RTI => "rti"
  | RTS => "rts" | SBC => "sbc" | SEC => "sec" | SED => "sed" | SEI => "sei" | STA => "sta"
  | STX => "stx" | STY => "sty" | TAX => "tax" | TAY => "tay" | TSX => "tsx" | TXA => "txa"
  | TXS => "txs" | TYA => "tya"
  end.

Section Text.
Context `{F : Fmt}.

(** The lambdas [disass_##mode]. *)
Definition disass_mode (m : Mode) (name : string) (oplow ophigh : Z) : string :=
  match m with
  | Impld => name
  | Accum => name +:+ " A"
  | Branch => name +:+ " " +:+ fmt_dec (s8 oplow)
  | Imm => name +:+ " #$" +:+ fmt_hex 2 oplow
  | Zero => name +:+ " $" +:+ fmt_hex 2 oplow
  | Zerox => name +:+ " $" +:+ fmt_hex 2 oplow +:+ ",x"
  | Zeroy => name +:+ " $" +:+ fmt_hex 2 oplow +:+ ",y"
  | Indx => name +:+ " ($" +:+ fmt_hex 2 oplow +:+ ",x)"
  | Indy => name +:+ " ($" +:+ fmt_hex 2 oplow +:+ "),y"
  | Abs => name +:+ " $" +:+ fmt_hex 2 ophigh +:+ fmt_hex 2 oplow
  | Absx => name +:+ " $" +:+ fmt_hex 2 ophigh +:+ fmt_hex 2 oplow +:+ ",x"
  | Absy => name +:+ " $" +:+ fmt_hex 2 ophigh +:+ fmt_hex 2 oplow +:+ ",y"
  | Ind => name +:+ " ($" +:+ fmt_hex 2 ophigh +:+ fmt_hex 2 oplow +:+ ")"
  end.

Definition disassemble (instr oplow ophigh : Z) : string :=
  match INSTR_MODE instr with
  | Some (name, mode) => disass_mode mode (mnemonic_name name) oplow ophigh
  | None => "[Unknown]"
  end.

(** One letter of [format_flags]. *)
Definition flag_char (b : bool) (yes no : ascii) : string := char (if b then yes else no).

Definition format_flags (fl : ProcStatus) : string :=
  flag_char (neg fl) "N" "n" +:+ flag_char (ov fl) "V" "v" +:+
  flag_char (unused fl) "U" "u" +:+ flag_char (breakf fl) "B" "b" +:+
  flag_char (decimal fl) "D" "d" +:+ flag_char (intdis fl) "I" "i" +:+
  flag_char (zero fl) "Z" "z" +:+ flag_char (carry fl) "C" "c".

Definition format_instr (id low high pc : Z) (fl : ProcStatus) : string :=
  let instr_str := disassemble id low high in
  let instr_str :=
    if is_branch id then
      instr_str +:+ " [" +:+ fmt_hex 2 (branch_pointer low pc) +:+ "] [" +:+
        (if took_branch id fl then "Branch taken" else "Branch not taken") +:+ "]"
    else instr_str in
  "[$" +:+ fmt_hex 2 id +:+ "] " +:+ instr_str.

(** [disassemble_block]: [readval] and [process] are the two callables, over a
    state of their owner; [start] wraps at 16 bits. *)
Section Block.
Context {S : Type}.
Variable readval : Z -> S -> Res (Z * S).
Variable process : Z -> string -> S -> Res S.

Fixpoint disassemble_block (fuel : nat) (start end_ : Z) (s : S) : Res S :=
  if start <=? end_ then
    match fuel with
    | O => Err OutOfFuel
    | Datatypes.S n =>
        let? '(id, s) := readval start s in
        let? '(low, s) := readval (u16 (start + 1)) s in
        let? '(high, s) := readval (u16 (start + 2)) s in
        let? s := process start (disassemble id low high) s in
        disassemble_block n (u16 (start + num_bytes id)) end_ s
    end
  else Ok s.
End Block.
End Text.

(** ** Lengths *)

Lemma num_bytes_range id : 1 <= num_bytes id <= 3.
Proof. unfold num_bytes. destruct (INSTR_MODE id) as [[m []] |]; simpl; lia. Qed.

Lemma mnemonic_name_length m : String.length (mnemonic_name m) = 3%nat.
Proof. by destruct m. Qed.

Lemma mnemonic_name_inj m n : mnemonic_name m = mnemonic_name n -> m = n.
Proof. destruct m, n; try done; intros [=]. Qed.

(** ** The end of the sweep *)

Section Sweep.
Context `{F : Fmt} {S : Type}.
Variable readval : Z -> S -> Res (Z * S).
Variable process : Z -> string -> S -> Res S.

(** Up to $FFFC no step wraps past the end: one round per address is enough. *)
Lemma disassemble_block_ends n start end_ s : 0 <= start -> end_ <= 0xFFFC ->
  end_ - start + 1 <= Z.of_nat n ->
  (forall a s, readval a s <> Err OutOfFuel) -> (forall a t s, process a t s <> Err OutOfFuel) ->
  disassemble_block readval process n start end_ s <> Err OutOfFuel.
Proof.
  intros Hs He Hn Hr Hp. revert start s Hs Hn. induction n as [| n IH]; intros start s Hs Hn;
    simpl; destruct (Z.leb_spec start end_); try done; try lia.
  destruct (readval start s) as [[id s1] |] eqn:E1; simpl; [| intros [= ->]; by eapply Hr].
  destruct (readval (u16 (start + 1)) s1) as [[lo s2] |] eqn:E2; simpl; [| intros [= ->]; by eapply Hr].
  destruct (readval (u16 (start + 2)) s2) as [[hi s3] |] eqn:E3; simpl; [| intros [= ->]; by eapply Hr].
  destruct (process start _ s3) as [s4 |] eqn:E4; simpl; [| intros [= ->]; by eapply Hp].
  pose proof (num_bytes_range id). rewrite (u16_id (start + num_bytes id)) by (unfold word; lia).
  apply IH; lia.
Qed.

(** Up to $FFFF the condition always holds: nothing but a fault stops the loop. *)
Lemma disassemble_block_loops n start s s' : word start ->
  disassemble_block readval process n start 0xFFFF s <> Ok s'.
Proof.
  revert start s. induction n as [| n IH]; intros start s Hs; simpl.
  - rewrite (proj2 (Z.leb_le start 65535)) by dlia. done.
  - rewrite (proj2 (Z.leb_le start 65535)) by dlia.
    destruct (readval start s) as [[id s1] |]; simpl; [| done].
    destruct (readval (u16 (start + 1)) s1) as [[lo s2] |]; simpl; [| done].
    destruct (readval (u16 (start + 2)) s2) as [[hi s3] |]; simpl; [| done].
    destruct (process start _ s3) as [s4 |]; simpl; [| done]. apply IH, u16_word.
Qed.
End Sweep.

(** *** The listing of a memory that does not change *)

Section Listing.
Context `{F : Fmt}.
Variable mem : Z -> Z.

(** The specification: consecutive instructions from [start] up to [end_]. *)
Inductive listing (end_ : Z) : Z -> list (Z * string) -> Prop :=
| listing_end start : end_ < start -> listing end_ start []
| listing_next start l : start <= end_ ->
    listing end_ (start + num_bytes (mem start)) l ->
    listing end_ start ((start, disassemble (mem start) (mem (start + 1)) (mem (start + 2))) :: l).

(** The callables of the listing: reading has no effect, lines are collected. *)
Definition collect (a : Z) (t : string) (l : list (Z * string)) : Res (list (Z * string)) := Ok (l ++ [(a, t)]).
Definition peek_at (a : Z) (l : list (Z * string)) : Res (Z * list (Z * string)) := Ok (mem a, l).

Lemma disassemble_block_listing n start end_ l : 0 <= start -> end_ <= 0xFFFC ->
  end_ - start + 1 <= Z.of_nat n ->
  exists l', disassemble_block peek_at collect n start end_ l = Ok (l ++ l') /\ listing end_ start l'.
Proof.
  revert start l. induction n as [| n IH]; intros start l Hs He Hn; simpl;
    destruct (Z.leb_spec start end_); try lia.
  - exists []. rewrite app_nil_r. split; [done | by constructor].
  - pose proof (num_bytes_range (mem start)).
    rewrite !u16_id by (unfold word; lia).
    destruct (IH (start + num_bytes (mem start)) (l ++ [(start, disassemble (mem start) (mem (start + 1)) (mem (start + 2)))])
      ltac:(lia) He ltac:(lia)) as (l' & -> & Hl).
    eexists. rewrite <- app_assoc. split; [reflexivity |]. by constructor.
  - exists []. rewrite app_nil_r. split; [done | by constructor].
Qed.
End Listing.
