(* ===== verification/Cpu.v ===== *)
(** * The CPU ([emu/core/cpu.hpp], [emu/core/cpu.cpp], [emu/core/instructions.cpp])

    The state of the processor, its memory accesses, every addressing mode and
    every instruction, the interrupt sequence, [run], [power] and [reset], and
    the debugger's [status] and [nextaddr].

    The processor reaches memory through its bus only.  The interface is the
    class [Memory]: a read returns a byte and may change the world [W] on the
    other side of the bus (PPU registers do), a write changes it.  [rammem] is
    behind the bus too: no code of the CPU touches it except the two closures
    that [attach_bus] puts on the bus.  [fetch_callback] is a parameter: it is
    given the processor's status and may change the world, not the registers. *)

From S2P Require Import Prelude InstrInfo.
Open Scope Z_scope.

(** ** Constants ([emu/core/const.hpp]) *)

Definition NMI_VEC : Z := 0xFFFA.
Definition RESET_VEC : Z := 0xFFFC.
Definition IRQ_BRK_VEC : Z := 0xFFFE.
Definition STACK_BASE : Z := 0x0100.
Definition CARTRIDGE_START : Z := 0x4020.

(** ** State *)

Record Regs := mkRegs {
  pc : Z; acc : Z; rx : Z; ry : Z; sp : Z;
  flags : ProcStatus;
  cycles : Z;
}.

Record CPU := mkCPU {
  r : Regs;
  nmipending : bool; irqpending : bool; resetpending : bool;
  execnmi : bool; execirq : bool;
  opargs : Z;
}.

(** The member initialisers of the two structures. *)
Definition init_cpu : CPU :=
  mkCPU (mkRegs 0 0 0 0 0 default_status 0) false false false false false 0.

(** Assignments to one member. *)
Definition set_r f c := mkCPU (f (r c)) (nmipending c) (irqpending c) (resetpending c)
                              (execnmi c) (execirq c) (opargs c).
Definition set_pc v := set_r (fun r => mkRegs v (acc r) (rx r) (ry r) (sp r) (flags r) (cycles r)).
Definition set_acc v := set_r (fun r => mkRegs (pc r) v (rx r) (ry r) (sp r) (flags r) (cycles r)).
Definition set_rx v := set_r (fun r => mkRegs (pc r) (acc r) v (ry r) (sp r) (flags r) (cycles r)).
Definition set_ry v := set_r (fun r => mkRegs (pc r) (acc r) (rx r) v (sp r) (flags r) (cycles r)).
Definition set_sp v := set_r (fun r => mkRegs (pc r) (acc r) (rx r) (ry r) v (flags r) (cycles r)).
Definition set_flags f := set_r (fun r => mkRegs (pc r) (acc r) (rx r) (ry r) (sp r) (f (flags r)) (cycles r)).
Definition set_cycles v := set_r (fun r => mkRegs (pc r) (acc r) (rx r) (ry r) (sp r) (flags r) v).
Definition set_nmipending v c := mkCPU (r c) v (irqpending c) (resetpending c) (execnmi c) (execirq c) (opargs c).
Definition set_irqpending v c := mkCPU (r c) (nmipending c) v (resetpending c) (execnmi c) (execirq c) (opargs c).
Definition set_resetpending v c := mkCPU (r c) (nmipending c) (irqpending c) v (execnmi c) (execirq c) (opargs c).
Definition set_execnmi v c := mkCPU (r c) (nmipending c) (irqpending c) (resetpending c) v (execirq c) (opargs c).
Definition set_execirq v c := mkCPU (r c) (nmipending c) (irqpending c) (resetpending c) (execnmi c) v (opargs c).
Definition set_opargs v c := mkCPU (r c) (nmipending c) (irqpending c) (resetpending c) (execnmi c) (execirq c) v.

(** [struct CPU::Status] *)
Record Status := mkStatus { st_regs : Regs; st_id : Z; st_op : Z }.

(** The third argument of a fetch callback: ['x'], ['r'] or ['w']. *)
Inductive AccessMode := AccX | AccR | AccW.

#[export] Instance AccessMode_eq_dec : EqDecision AccessMode.
Proof. solve_decision. Defined.

(** ** The bus, as the CPU sees it *)

Class Memory (W : Type) := {
  mread : Z -> W -> Res (Z * W);
  mwrite : Z -> Z -> W -> Res W;
}.

(** ** Operations on the registers alone *)

(** [CPU::cycle] *)
Definition cycle (c : CPU) : CPU := set_cycles (u64 (cycles (r c) + 1)) c.

(** [CPU::irqpoll] *)
Definition irqpoll (c : CPU) : CPU :=
  if negb (execirq c) && negb (intdis (flags (r c))) && irqpending c
  then set_execirq true c else c.

(** [CPU::nmipoll] *)
Definition nmipoll (c : CPU) : CPU :=
  if negb (execnmi c) && nmipending c then set_execnmi true c else c.

(** [CPU::last_cycle] *)
Definition last_cycle (c : CPU) : CPU := irqpoll (nmipoll c).

(** [CPU::fire_irq], [CPU::fire_nmi] *)
Definition fire_irq (c : CPU) : CPU := set_irqpending true c.
Definition fire_nmi (c : CPU) : CPU := set_nmipending true c.

(** The two assignments [zero = (v == 0)] and [neg = (v & 0x80)], in the order
    the instruction has them: the order cannot be observed. *)
Definition set_zn (v : Z) : CPU -> CPU :=
  set_flags (fun p => set_neg (tobool (Z.land v 0x80)) (set_zero (v =? 0) p)).

(** Instruction functions that take the operand's value ([InstrFuncRead]). *)

Definition instr_lda (val : Z) (c : CPU) : CPU := set_zn val (set_acc val c).
Definition instr_ldx (val : Z) (c : CPU) : CPU := set_zn val (set_rx val c).
Definition instr_ldy (val : Z) (c : CPU) : CPU := set_zn val (set_ry val c).

(** The three flags of a comparison of [reg] with [val]: [int res = reg - val]. *)
Definition compare_flags (reg val : Z) : CPU -> CPU :=
  let res := reg - val in
  set_flags (fun p => set_carry (0 <=? res)
                     (set_neg (tobool (Z.land res 0x80)) (set_zero (res =? 0) p))).

Definition instr_cmp (val : Z) (c : CPU) : CPU := compare_flags (acc (r c)) val c.
Definition instr_cpx (val : Z) (c : CPU) : CPU := compare_flags (rx (r c)) val c.
Definition instr_cpy (val : Z) (c : CPU) : CPU := compare_flags (ry (r c)) val c.

Definition instr_adc (val : Z) (c : CPU) : CPU :=
  let a := acc (r c) in
  let sum := a + val + Z.b2z (carry (flags (r c))) in
  set_acc (u8 sum)
    (set_flags (fun p =>
       set_ov (tobool (Z.land (Z.land (Z.lxor a sum) (Z.lnot (Z.lxor a val))) 0x80))
      (set_carry (0xFF <? sum)
      (set_neg (tobool (Z.land sum 0x80))
      (set_zero (u8 sum =? 0) p)))) c).

Definition instr_sbc (val : Z) (c : CPU) : CPU :=
  let a := acc (r c) in
  let tmp := u8 (Z.lnot val) in
  let sum := a + tmp + Z.b2z (carry (flags (r c))) in
  set_acc (u8 sum)
    (set_flags (fun p =>
       set_ov (tobool (Z.land (Z.land (Z.lxor a sum) (Z.lnot (Z.lxor a val))) 0x80))
      (set_carry (0xFF <? sum)
      (set_neg (tobool (Z.land sum 0x80))
      (set_zero (u8 sum =? 0) p)))) c).

Definition instr_ora (val : Z) (c : CPU) : CPU :=
  let v := Z.lor (acc (r c)) val in set_zn v (set_acc v c).
Definition instr_and (val : Z) (c : CPU) : CPU :=
  let v := Z.land (acc (r c)) val in set_zn v (set_acc v c).
Definition instr_eor (val : Z) (c : CPU) : CPU :=
  let v := Z.lxor (acc (r c)) val in set_zn v (set_acc v c).

Definition instr_bit (val : Z) (c : CPU) : CPU :=
  set_flags (fun p => set_ov (tobool (Z.land val 0x40))
                     (set_zero (val =? 0)
                     (set_neg (Z.land (acc (r c)) val =? 0) p))) c.

(** Instruction functions that return the modified value ([InstrFuncMod]). *)

Definition instr_inc (val : Z) (c : CPU) : Z * CPU := let v := u8 (val + 1) in (v, set_zn v c).
Definition instr_dec (val : Z) (c : CPU) : Z * CPU := let v := u8 (val - 1) in (v, set_zn v c).

Definition instr_asl (val : Z) (c : CPU) : Z * CPU :=
  let c1 := set_flags (set_carry (tobool (Z.land val 0x80))) c in
  let v := u8 (Z.shiftl val 1) in (v, set_zn v c1).

Definition instr_lsr (val : Z) (c : CPU) : Z * CPU :=
  let c1 := set_flags (set_carry (tobool (Z.land val 1))) c in
  let v := Z.shiftr val 1 in (v, set_zn v c1).

Definition instr_rol (val : Z) (c : CPU) : Z * CPU :=
  let cc := carry (flags (r c)) in
  let c1 := set_flags (set_carry (tobool (Z.land val 0x80))) c in
  let v := u8 (Z.lor (Z.shiftl val 1) (Z.b2z cc)) in (v, set_zn v c1).

Definition instr_ror (val : Z) (c : CPU) : Z * CPU :=
  let cc := carry (flags (r c)) in
  let c1 := set_flags (set_carry (tobool (Z.land val 1))) c in
  let v := u8 (Z.lor (Z.shiftr val 1) (Z.shiftl (Z.b2z cc) 7)) in (v, set_zn v c1).

(** ** The switch of [CPU::execute]

    The constructors are the four macros that generate the cases; their
    arguments are the names the macros are given. *)

Inductive ReadFn :=
  Fn_ora | Fn_and | Fn_eor | Fn_adc | Fn_sbc | Fn_cmp | Fn_cpx | Fn_cpy
| Fn_lda | Fn_ldx | Fn_ldy | Fn_bit.
Inductive ModFn := Fn_asl | Fn_lsr | Fn_rol | Fn_ror | Fn_inc | Fn_dec.
Inductive ImpldFn :=
  Fn_brk | Fn_php | Fn_pha | Fn_plp | Fn_pla | Fn_jsr | Fn_jmp | Fn_jmp_ind
| Fn_rts | Fn_rti | Fn_inx | Fn_iny | Fn_dex | Fn_dey | Fn_nop.
Inductive ReadMode := RImm | RZero | RZerox | RZeroy | RAbs | RAbsx | RAbsy | RIndx | RIndy.
Inductive ModMode := MAccum | MZero | MZerox | MAbs | MAbsx.
Inductive WriteMode := WZero | WZerox | WZeroy | WAbs | WAbsx | WAbsy | WIndx | WIndy.
Inductive FlagName := FCarry | FZero | FIntdis | FDecimal | FOv | FNeg.
Inductive RegName := RegAcc | RegX | RegY | RegSp.

Inductive InstrCase :=
| INSTR_IMPLD (f : ImpldFn)
| INSTR_READ (f : ReadFn) (m : ReadMode)        (** [INSTR_AMODE(id, f, m, read)] *)
| INSTR_MODIFY (f : ModFn) (m : ModMode)        (** [INSTR_AMODE(id, f, m, modify)] *)
| INSTR_WRITE (m : WriteMode) (v : RegName)
| INSTR_BRANCH (fl : FlagName) (b : bool)       (** [INSTR_OTHER(id, branch, fl == b)] *)
| INSTR_FLAG (fl : FlagName) (b : bool)         (** [INSTR_OTHER(id, flag, fl, b)] *)
| INSTR_TRANSFER (from to : RegName).           (** [INSTR_OTHER(id, transfer, from, to)] *)

#[export] Instance ReadFn_eq_dec : EqDecision ReadFn.
Proof. solve_decision. Defined.
#[export] Instance ModFn_eq_dec : EqDecision ModFn.
Proof. solve_decision. Defined.
#[export] Instance ImpldFn_eq_dec : EqDecision ImpldFn.
Proof. solve_decision. Defined.
#[export] Instance ReadMode_eq_dec : EqDecision ReadMode.
Proof. solve_decision. Defined.
#[export] Instance ModMode_eq_dec : EqDecision ModMode.
Proof. solve_decision. Defined.
#[export] Instance WriteMode_eq_dec : EqDecision WriteMode.
Proof. solve_decision. Defined.
#[export] Instance FlagName_eq_dec : EqDecision FlagName.
Proof. solve_decision. Defined.
#[export] Instance RegName_eq_dec : EqDecision RegName.
Proof. solve_decision. Defined.
#[export] Instance InstrCase_eq_dec : EqDecision InstrCase.
Proof. solve_decision. Defined.

(** [None] is the [default] case. *)
Definition switch (instr : Z) : option InstrCase :=
  match instr with
  | 0x00 => Some (INSTR_IMPLD Fn_brk)
  | 0x01 => Some (INSTR_READ Fn_ora RIndx)
  | 0x05 => Some (INSTR_READ Fn_ora RZero)
  | 0x06 => Some (INSTR_MODIFY Fn_asl MZero)
  | 0x08 => Some (INSTR_IMPLD Fn_php)
  | 0x09 => Some (INSTR_READ Fn_ora RImm)
  | 0x0A => Some (INSTR_MODIFY Fn_asl MAccum)
  | 0x0D => Some (INSTR_READ Fn_ora RAbs)
  | 0x0E => Some (INSTR_MODIFY Fn_asl MAbs)
  | 0x10 => Some (INSTR_BRANCH FNeg false)
  | 0x11 => Some (INSTR_READ Fn_ora RIndy)
  | 0x15 => Some (INSTR_READ Fn_ora RZerox)
  | 0x16 => Some (INSTR_MODIFY Fn_asl MZerox)
  | 0x18 => Some (INSTR_FLAG FCarry false)
  | 0x19 => Some (INSTR_READ Fn_ora RAbsy)
  | 0x1D => Some (INSTR_READ Fn_ora RAbsx)
  | 0x1E => Some (INSTR_MODIFY Fn_asl MAbsx)
  | 0x20 => Some (INSTR_IMPLD Fn_jsr)
  | 0x21 => Some (INSTR_READ Fn_and RIndx)
  | 0x24 => Some (INSTR_READ Fn_bit RZero)
  | 0x25 => Some (INSTR_READ Fn_and RZero)
  | 0x26 => Some (INSTR_MODIFY Fn_rol MZero)
  | 0x28 => Some (INSTR_IMPLD Fn_plp)
  | 0x29 => Some (INSTR_READ Fn_and RImm)
  | 0x2A => Some (INSTR_MODIFY Fn_rol MAccum)
  | 0x2C => Some (INSTR_READ Fn_bit RAbs)
  | 0x2D => Some (INSTR_READ Fn_and RAbs)
  | 0x2E => Some (INSTR_MODIFY Fn_rol MAbs)
  | 0x30 => Some (INSTR_BRANCH FNeg true)
  | 0x31 => Some (INSTR_READ Fn_and RIndy)
  | 0x35 => Some (INSTR_READ Fn_and RZerox)
  | 0x36 => Some (INSTR_MODIFY Fn_rol MZerox)
  | 0x38 => Some (INSTR_FLAG FCarry true)
  | 0x39 => Some (INSTR_READ Fn_and RAbsy)
  | 0x3D => Some (INSTR_READ Fn_and RAbsx)
  | 0x3E => Some (INSTR_MODIFY Fn_rol MAbsx)
  | 0x40 => Some (INSTR_IMPLD Fn_rti)
  | 0x41 => Some (INSTR_READ Fn_eor RIndx)
  | 0x45 => Some (INSTR_READ Fn_eor RZero)
  | 0x46 => Some (INSTR_MODIFY Fn_lsr MZero)
  | 0x48 => Some (INSTR_IMPLD Fn_pha)
  | 0x49 => Some (INSTR_READ Fn_eor RImm)
  | 0x4A => Some (INSTR_MODIFY Fn_lsr MAccum)
  | 0x4C => Some (INSTR_IMPLD Fn_jmp)
  | 0x4D => Some (INSTR_READ Fn_eor RAbs)
  | 0x4E => Some (INSTR_MODIFY Fn_lsr MAbs)
  | 0x50 => Some (INSTR_BRANCH FOv false)
  | 0x51 => Some (INSTR_READ Fn_eor RIndy)
  | 0x55 => Some (INSTR_READ Fn_eor RZerox)
  | 0x56 => Some (INSTR_MODIFY Fn_lsr MZerox)
  | 0x58 => Some (INSTR_FLAG FIntdis false)
  | 0x59 => Some (INSTR_READ Fn_eor RAbsy)
  | 0x5D => Some (INSTR_READ Fn_eor RAbsx)
  | 0x5E => Some (INSTR_MODIFY Fn_lsr MAbsx)
  | 0x60 => Some (INSTR_IMPLD Fn_rts)
  | 0x61 => Some (INSTR_READ Fn_adc RIndx)
  | 0x65 => Some (INSTR_READ Fn_adc RZero)
  | 0x66 => Some (INSTR_MODIFY Fn_ror MZero)
  | 0x68 => Some (INSTR_IMPLD Fn_pla)
  | 0x69 => Some (INSTR_READ Fn_adc RImm)
  | 0x6A => Some (INSTR_MODIFY Fn_ror MAccum)
  | 0x6C => Some (INSTR_IMPLD Fn_jmp_ind)
  | 0x6D => Some (INSTR_READ Fn_adc RAbs)
  | 0x6E => Some (INSTR_MODIFY Fn_ror MAbs)
  | 0x70 => Some (INSTR_BRANCH FOv true)
  | 0x71 => Some (INSTR_READ Fn_adc RIndy)
  | 0x75 => Some (INSTR_READ Fn_adc RZerox)
  | 0x76 => Some (INSTR_MODIFY Fn_ror MZerox)
  | 0x78 => Some (INSTR_FLAG FIntdis true)
  | 0x79 => Some (INSTR_READ Fn_adc RAbsy)
  | 0x7D => Some (INSTR_READ Fn_adc RAbsx)
  | 0x7E => Some (INSTR_MODIFY Fn_ror MAbsx)
  | 0x81 => Some (INSTR_WRITE WIndx RegAcc)
  | 0x84 => Some (INSTR_WRITE WZero RegY)
  | 0x85 => Some (INSTR_WRITE WZero RegAcc)
  | 0x86 => Some (INSTR_WRITE WZero RegX)
  | 0x88 => Some (INSTR_IMPLD Fn_dey)
  | 0x8A => Some (INSTR_TRANSFER RegX RegAcc)
  | 0x8C => Some (INSTR_WRITE WAbs RegY)
  | 0x8D => Some (INSTR_WRITE WAbs RegAcc)
  | 0x8E => Some (INSTR_WRITE WAbs RegX)
  | 0x90 => Some (INSTR_BRANCH FCarry false)
  | 0x91 => Some (INSTR_WRITE WIndy RegAcc)
  | 0x94 => Some (INSTR_WRITE WZerox RegY)
  | 0x95 => Some (INSTR_WRITE WZerox RegAcc)
  | 0x96 => Some (INSTR_WRITE WZeroy RegX)
  | 0x98 => Some (INSTR_TRANSFER RegY RegAcc)
  | 0x99 => Some (INSTR_WRITE WAbsy RegAcc)
  | 0x9A => Some (INSTR_TRANSFER RegX RegSp)
  | 0x9D => Some (INSTR_WRITE WAbsx RegAcc)
  | 0xA0 => Some (INSTR_READ Fn_ldy RImm)
  | 0xA1 => Some (INSTR_READ Fn_lda RIndx)
  | 0xA2 => Some (INSTR_READ Fn_ldx RImm)
  | 0xA4 => Some (INSTR_READ Fn_ldy RZero)
  | 0xA5 => Some (INSTR_READ Fn_lda RZero)
  | 0xA6 => Some (INSTR_READ Fn_ldx RZero)
  | 0xA8 => Some (INSTR_TRANSFER RegAcc RegY)
  | 0xA9 => Some (INSTR_READ Fn_lda RImm)
  | 0xAA => Some (INSTR_TRANSFER RegAcc RegX)
  | 0xAC => Some (INSTR_READ Fn_ldy RAbs)
  | 0xAD => Some (INSTR_READ Fn_lda RAbs)
  | 0xAE => Some (INSTR_READ Fn_ldx RAbs)
  | 0xB0 => Some (INSTR_BRANCH FCarry true)
  | 0xB1 => Some (INSTR_READ Fn_lda RIndy)
  | 0xB4 => Some (INSTR_READ Fn_ldy RZerox)
  | 0xB5 => Some (INSTR_READ Fn_lda RZerox)
  | 0xB6 => Some (INSTR_READ Fn_ldx RZeroy)
  | 0xB8 => Some (INSTR_FLAG FOv false)
  | 0xB9 => Some (INSTR_READ Fn_lda RAbsy)
  | 0xBA => Some (INSTR_TRANSFER RegSp RegX)
  | 0xBC => Some (INSTR_READ Fn_ldy RAbsx)
  | 0xBD => Some (INSTR_READ Fn_lda RAbsx)
  | 0xBE => Some (INSTR_READ Fn_ldx RAbsy)
  | 0xC0 => Some (INSTR_READ Fn_cpy RImm)
  | 0xC1 => Some (INSTR_READ Fn_cmp RIndx)
  | 0xC4 => Some (INSTR_READ Fn_cpy RZero)
  | 0xC5 => Some (INSTR_READ Fn_cmp RZero)
  | 0xC6 => Some (INSTR_MODIFY Fn_dec MZero)
  | 0xC8 => Some (INSTR_IMPLD Fn_iny)
  | 0xC9 => Some (INSTR_READ Fn_cmp RImm)
  | 0xCA => Some (INSTR_IMPLD Fn_dex)
  | 0xCC => Some (INSTR_READ Fn_cpy RAbs)
  | 0xCD => Some (INSTR_READ Fn_cmp RAbs)
  | 0xCE => Some (INSTR_MODIFY Fn_dec MAbs)
  | 0xD0 => Some (INSTR_BRANCH FZero false)
  | 0xD1 => Some (INSTR_READ Fn_cmp RIndy)
  | 0xD5 => Some (INSTR_READ Fn_cmp RZerox)
  | 0xD6 => Some (INSTR_MODIFY Fn_dec MZerox)
  | 0xD8 => Some (INSTR_FLAG FDecimal false)
  | 0xD9 => Some (INSTR_READ Fn_cmp RAbsy)
  | 0xDD => Some (INSTR_READ Fn_cmp RAbsx)
  | 0xDE => Some (INSTR_MODIFY Fn_dec MAbsx)
  | 0xE0 => Some (INSTR_READ Fn_cpx RImm)
  | 0xE1 => Some (INSTR_READ Fn_sbc RIndx)
  | 0xE4 => Some (INSTR_READ Fn_cpx RZero)
  | 0xE5 => Some (INSTR_READ Fn_sbc RZero)
  | 0xE6 => Some (INSTR_MODIFY Fn_inc MZero)
  | 0xE8 => Some (INSTR_IMPLD Fn_inx)
  | 0xE9 => Some (INSTR_READ Fn_sbc RImm)
  | 0xEA => Some (INSTR_IMPLD Fn_nop)
  | 0xEC => Some (INSTR_READ Fn_cpx RAbs)
  | 0xED => Some (INSTR_READ Fn_sbc RAbs)
  | 0xEE => Some (INSTR_MODIFY Fn_inc MAbs)
  | 0xF0 => Some (INSTR_BRANCH FZero true)
  | 0xF1 => Some (INSTR_READ Fn_sbc RIndy)
  | 0xF5 => Some (INSTR_READ Fn_sbc RZerox)
  | 0xF6 => Some (INSTR_MODIFY Fn_inc MZerox)
  | 0xF8 => Some (INSTR_FLAG FDecimal true)
  | 0xF9 => Some (INSTR_READ Fn_sbc RAbsy)
  | 0xFD => Some (INSTR_READ Fn_sbc RAbsx)
  | 0xFE => Some (INSTR_MODIFY Fn_inc MAbsx)
  | _ => None
  end.

Definition read_fn (f : ReadFn) : Z -> CPU -> CPU :=
  match f with
  | Fn_ora => instr_ora | Fn_and => instr_and | Fn_eor => instr_eor | Fn_adc => instr_adc
  | Fn_sbc => instr_sbc | Fn_cmp => instr_cmp | Fn_cpx => instr_cpx | Fn_cpy => instr_cpy
  | Fn_lda => instr_lda | Fn_ldx => instr_ldx | Fn_ldy => instr_ldy | Fn_bit => instr_bit
  end.

Definition mod_fn (f : ModFn) : Z -> CPU -> Z * CPU :=
  match f with
  | Fn_asl => instr_asl | Fn_lsr => instr_lsr | Fn_rol => instr_rol | Fn_ror => instr_ror
  | Fn_inc => instr_inc | Fn_dec => instr_dec
  end.

Definition get_flag (fl : FlagName) (p : ProcStatus) : bool :=
  match fl with
  | FCarry => carry p | FZero => zero p | FIntdis => intdis p
  | FDecimal => decimal p | FOv => ov p | FNeg => neg p
  end.

Definition set_flag (fl : FlagName) (v : bool) : ProcStatus -> ProcStatus :=
  match fl with
  | FCarry => set_carry v | FZero => set_zero v | FIntdis => set_intdis v
  | FDecimal => set_decimal v | FOv => set_ov v | FNeg => set_neg v
  end.

Definition get_reg (n : RegName) (c : CPU) : Z :=
  match n with
  | RegAcc => acc (r c) | RegX => rx (r c) | RegY => ry (r c) | RegSp => sp (r c)
  end.

Definition set_reg (n : RegName) (v : Z) : CPU -> CPU :=
  match n with
  | RegAcc => set_acc v | RegX => set_rx v | RegY => set_ry v | RegSp => set_sp v
  end.

(** ** Operations that use the bus *)

Section Cpu.
Context {W : Type} `{MemW : Memory W}.
Variable fetch_callback : option (CPU -> Status -> Z -> AccessMode -> W -> Res W).

Definition upd (f : CPU -> CPU) : M (CPU * W) unit := fun '(c, w) => Ok (tt, (f c, w)).
Definition cpu_of {A} (f : CPU -> A) : M (CPU * W) A := fun '(c, w) => Ok (f c, (c, w)).

(** [bus->read(addr)], [bus->write(addr, data)] *)
Definition bus_read (addr : Z) : M (CPU * W) Z :=
  fun '(c, w) => let? '(v, w') := mread addr w in Ok (v, (c, w')).
Definition bus_write (addr data : Z) : M (CPU * W) unit :=
  fun '(c, w) => let? w' := mwrite addr data w in Ok (tt, (c, w')).

Definition status : M (CPU * W) Status :=
  p <- cpu_of (fun c => pc (r c)) ;;
  regs <- cpu_of r ;;
  id <- bus_read p ;;
  lo <- bus_read (u16 (p + 1)) ;;
  hi <- bus_read (u16 (p + 2)) ;;
  retM (mkStatus regs id (set_high (set_low 0 lo) hi)).

(** [if (fetch_callback) fetch_callback(status(), addr, mode);] *)
Definition notify (addr : Z) (mode : AccessMode) : M (CPU * W) unit :=
  match fetch_callback with
  | None => retM tt
  | Some f =>
      st <- status ;;
      (fun '(c, w) => let? w' := f c st addr mode w in Ok (tt, (c, w')))
  end.

Definition readmem (addr : Z) : M (CPU * W) Z :=
  notify addr AccR ;; upd cycle ;; bus_read addr.

Definition writemem (addr data : Z) : M (CPU * W) unit :=
  notify addr AccW ;; upd cycle ;; bus_write addr data.

(** [bus->read(r.pc.full++)] *)
Definition read_at_pc : M (CPU * W) Z :=
  p <- cpu_of (fun c => pc (r c)) ;;
  upd (set_pc (u16 (p + 1))) ;;
  bus_read p.

Definition fetch : M (CPU * W) Z :=
  p <- cpu_of (fun c => pc (r c)) ;;
  notify p AccX ;; upd cycle ;; read_at_pc.

Definition fetchop : M (CPU * W) Z := upd cycle ;; read_at_pc.

Definition push (val : Z) : M (CPU * W) unit :=
  s <- cpu_of (fun c => sp (r c)) ;;
  writemem (u16 (s + STACK_BASE)) val ;;
  upd (fun c => set_sp (u8 (sp (r c) - 1)) c).

Definition pull : M (CPU * W) Z :=
  upd (fun c => set_sp (u8 (sp (r c) + 1)) c) ;;
  s <- cpu_of (fun c => sp (r c)) ;;
  readmem (u16 (s + STACK_BASE)).

(** The vector chosen by [CPU::interrupt], with the signal it consumes. *)
Definition interrupt_vector (c : CPU) : Z * CPU :=
  if resetpending c then (RESET_VEC, set_resetpending false c)
  else if nmipending c then (NMI_VEC, set_nmipending false c)
  else if irqpending c then (IRQ_BRK_VEC, set_irqpending false c)
  else (IRQ_BRK_VEC, c).

Definition interrupt : M (CPU * W) unit :=
  upd cycle ;;
  p <- cpu_of (fun c => pc (r c)) ;;
  push (high p) ;;
  push (low p) ;;
  fl <- cpu_of (fun c => byte_of_status (flags (r c))) ;;
  push fl ;;
  upd (set_flags (fun p => set_intdis true (set_breakf false p))) ;;
  vec <- cpu_of (fun c => fst (interrupt_vector c)) ;;
  upd (fun c => snd (interrupt_vector c)) ;;
  lo <- readmem vec ;;
  upd (fun c => set_pc (set_low (pc (r c)) lo) c) ;;
  hi <- readmem (u16 (vec + 1)) ;;
  upd (fun c => set_pc (set_high (pc (r c)) hi) c).

(** *** Addressing modes *)

(** [opargs.low = fetchop();] and [opargs.high = fetchop();] *)
Definition fetch_oplow : M (CPU * W) unit :=
  v <- fetchop ;; upd (fun c => set_opargs (set_low (opargs c) v) c).
Definition fetch_ophigh : M (CPU * W) unit :=
  v <- fetchop ;; upd (fun c => set_opargs (set_high (opargs c) v) c).

Definition oplow : M (CPU * W) Z := cpu_of (fun c => low (opargs c)).
Definition opfull : M (CPU * W) Z := cpu_of opargs.
Definition xreg : M (CPU * W) Z := cpu_of (fun c => rx (r c)).
Definition yreg : M (CPU * W) Z := cpu_of (fun c => ry (r c)).

(** [if (opargs.high != res.high) cycle();] *)
Definition cycle_if_page_differs (res : Z) : M (CPU * W) unit :=
  upd (fun c => if negb (high (opargs c) =? high res) then cycle c else c).

Definition addrmode_imm_read (f : Z -> CPU -> CPU) : M (CPU * W) unit :=
  fetch_oplow ;;
  v <- oplow ;; upd (f v) ;;
  upd last_cycle.

Definition addrmode_zero_read (f : Z -> CPU -> CPU) : M (CPU * W) unit :=
  fetch_oplow ;;
  a <- oplow ;; v <- readmem a ;; upd (f v) ;;
  upd last_cycle.

Definition addrmode_zerox_read (f : Z -> CPU -> CPU) : M (CPU * W) unit :=
  fetch_oplow ;;
  a <- oplow ;; i <- xreg ;; v <- readmem (u16 (a + i)) ;; upd (f v) ;;
  upd cycle ;;
  upd last_cycle.

Definition addrmode_zeroy_read (f : Z -> CPU -> CPU) : M (CPU * W) unit :=
  fetch_oplow ;;
  a <- oplow ;; i <- yreg ;; v <- readmem (u16 (a + i)) ;; upd (f v) ;;
  upd cycle ;;
  upd last_cycle.

Definition addrmode_abs_read (f : Z -> CPU -> CPU) : M (CPU * W) unit :=
  fetch_oplow ;;
  fetch_ophigh ;;
  a <- opfull ;; v <- readmem a ;; upd (f v) ;;
  upd last_cycle.

(** [res] is a [Reg16] that is assigned the byte read. *)
Definition addrmode_absx_read (f : Z -> CPU -> CPU) : M (CPU * W) unit :=
  fetch_oplow ;;
  fetch_ophigh ;;
  a <- opfull ;; i <- xreg ;; res <- readmem (u16 (a + i)) ;;
  upd (f (u8 res)) ;;
  cycle_if_page_differs res ;;
  upd last_cycle.

Definition addrmode_absy_read (f : Z -> CPU -> CPU) : M (CPU * W) unit :=
  fetch_oplow ;;
  fetch_ophigh ;;
  a <- opfull ;; i <- yreg ;; res <- readmem (u16 (a + i)) ;;
  upd (f (u8 res)) ;;
  cycle_if_page_differs res ;;
  upd last_cycle.

Definition addrmode_indx_read (f : Z -> CPU -> CPU) : M (CPU * W) unit :=
  fetch_oplow ;;
  upd cycle ;;
  a <- oplow ;; i <- xreg ;;
  lo <- readmem (u16 (a + i)) ;;
  hi <- readmem (u16 (a + i + 1)) ;;
  v <- readmem (set_high (set_low 0 lo) hi) ;; upd (f v) ;;
  upd last_cycle.

Definition addrmode_indy_read (f : Z -> CPU -> CPU) : M (CPU * W) unit :=
  fetch_oplow ;;
  a <- oplow ;;
  lo <- readmem a ;;
  hi <- readmem (u16 (a + 1)) ;;
  i <- yreg ;;
  let res := u16 (set_high (set_low 0 lo) hi + i) in
  v <- readmem res ;; upd (f v) ;;
  cycle_if_page_differs res ;;
  upd last_cycle.

(** [(this->*f)(val)] for a function that returns a value. *)
Definition apply_mod (f : Z -> CPU -> Z * CPU) (val : Z) : M (CPU * W) Z :=
  fun '(c, w) => let '(v, c') := f val c in Ok (v, (c', w)).

Definition addrmode_accum_modify (f : Z -> CPU -> Z * CPU) : M (CPU * W) unit :=
  upd cycle ;;
  a <- cpu_of (fun c => acc (r c)) ;;
  res <- apply_mod f a ;;
  upd (set_acc res) ;;
  upd last_cycle.

Definition addrmode_zero_modify (f : Z -> CPU -> Z * CPU) : M (CPU * W) unit :=
  fetch_oplow ;;
  a <- oplow ;; v <- readmem a ;; res <- apply_mod f v ;;
  upd cycle ;;
  writemem a (u8 res) ;;
  upd last_cycle.

Definition addrmode_zerox_modify (f : Z -> CPU -> Z * CPU) : M (CPU * W) unit :=
  fetch_oplow ;;
  upd cycle ;;
  a <- oplow ;; i <- xreg ;; v <- readmem (u16 (a + i)) ;; res <- apply_mod f v ;;
  upd cycle ;;
  writemem (u16 (a + i)) (u8 res) ;;
  upd last_cycle.

Definition addrmode_abs_modify (f : Z -> CPU -> Z * CPU) : M (CPU * W) unit :=
  fetch_oplow ;;
  fetch_ophigh ;;
  a <- opfull ;; v <- readmem a ;; res <- apply_mod f v ;;
  upd cycle ;;
  writemem a (u8 res) ;;
  upd last_cycle.

Definition addrmode_absx_modify (f : Z -> CPU -> Z * CPU) : M (CPU * W) unit :=
  fetch_oplow ;;
  fetch_ophigh ;;
  a <- opfull ;; i <- xreg ;; v <- readmem (u16 (a + i)) ;; res <- apply_mod f v ;;
  upd cycle ;;
  upd cycle ;;
  writemem (u16 (a + i)) (u8 res) ;;
  upd last_cycle.

Definition addrmode_zero_write (val : Z) : M (CPU * W) unit :=
  fetch_oplow ;;
  a <- oplow ;; writemem a val ;;
  upd last_cycle.

Definition addrmode_zerox_write (val : Z) : M (CPU * W) unit :=
  fetch_oplow ;;
  upd cycle ;;
  a <- oplow ;; i <- xreg ;; writemem (u16 (a + i)) val ;;
  upd last_cycle.

Definition addrmode_zeroy_write (val : Z) : M (CPU * W) unit :=
  fetch_oplow ;;
  upd cycle ;;
  a <- oplow ;; i <- yreg ;; writemem (u16 (a + i)) val ;;
  upd last_cycle.

Definition addrmode_abs_write (val : Z) : M (CPU * W) unit :=
  fetch_oplow ;;
  fetch_ophigh ;;
  a <- opfull ;; writemem a val ;;
  upd last_cycle.

Definition addrmode_absx_write (val : Z) : M (CPU * W) unit :=
  fetch_oplow ;;
  fetch_ophigh ;;
  upd cycle ;;
  a <- opfull ;; i <- xreg ;; writemem (u16 (a + i)) val ;;
  upd last_cycle.

Definition addrmode_absy_write (val : Z) : M (CPU * W) unit :=
  fetch_oplow ;;
  fetch_ophigh ;;
  upd cycle ;;
  a <- opfull ;; i <- yreg ;; writemem (u16 (a + i)) val ;;
  upd last_cycle.

Definition addrmode_indx_write (val : Z) : M (CPU * W) unit :=
  fetch_oplow ;;
  upd cycle ;;
  a <- oplow ;; i <- xreg ;;
  lo <- readmem (u16 (a + i)) ;;
  hi <- readmem (u16 (a + i + 1)) ;;
  writemem (set_high (set_low 0 lo) hi) val ;;
  upd last_cycle.

Definition addrmode_indy_write (val : Z) : M (CPU * W) unit :=
  fetch_oplow ;;
  a <- oplow ;;
  lo <- readmem a ;;
  hi <- readmem (u16 (a + 1)) ;;
  i <- yreg ;;
  upd cycle ;;
  writemem (u16 (set_high (set_low 0 lo) hi + i)) val ;;
  upd last_cycle.

(** *** Instructions called directly *)

Definition instr_branch (take : bool) : M (CPU * W) unit :=
  upd last_cycle ;;
  fetch_oplow ;;
  tmp <- cpu_of (fun c => pc (r c)) ;;
  if negb take then retM tt
  else
    upd cycle ;;
    o <- oplow ;;
    upd (fun c => set_pc (u16 (pc (r c) + s8 o)) c) ;;
    upd last_cycle ;;
    upd (fun c => if negb (high tmp =? high (pc (r c))) then cycle c else c).

Definition instr_flag (fl : FlagName) (v : bool) : M (CPU * W) unit :=
  upd last_cycle ;;
  upd cycle ;;
  upd (set_flags (set_flag fl v)).

Definition instr_transfer (from : Z) (to : RegName) : M (CPU * W) unit :=
  upd last_cycle ;;
  upd cycle ;;
  upd (set_reg to from) ;;
  upd (set_zn from).

Definition instr_inx : M (CPU * W) unit :=
  upd cycle ;; v <- xreg ;;
  upd (set_rx (u8 (v + 1))) ;; upd (set_zn (u8 (v + 1))) ;; upd last_cycle.

Definition instr_iny : M (CPU * W) unit :=
  upd cycle ;; v <- yreg ;;
  upd (set_ry (u8 (v + 1))) ;; upd (set_zn (u8 (v + 1))) ;; upd last_cycle.

Definition instr_dex : M (CPU * W) unit :=
  upd cycle ;; v <- xreg ;;
  upd (set_rx (u8 (v - 1))) ;; upd (set_zn (u8 (v - 1))) ;; upd last_cycle.

Definition instr_dey : M (CPU * W) unit :=
  upd cycle ;; v <- yreg ;;
  upd (set_ry (u8 (v - 1))) ;; upd (set_zn (u8 (v - 1))) ;; upd last_cycle.

Definition instr_php : M (CPU * W) unit :=
  upd cycle ;;
  upd (set_flags (set_breakf true)) ;;
  fl <- cpu_of (fun c => byte_of_status (flags (r c))) ;;
  push fl ;;
  upd (set_flags (set_breakf false)) ;;
  upd last_cycle.

Definition instr_pha : M (CPU * W) unit :=
  upd cycle ;;
  a <- cpu_of (fun c => acc (r c)) ;;
  push a ;;
  upd last_cycle.

Definition instr_plp : M (CPU * W) unit :=
  upd cycle ;;
  upd cycle ;;
  upd last_cycle ;;
  v <- pull ;;
  upd (set_flags (fun _ => status_of_byte v)) ;;
  upd (set_flags (set_breakf false)).

Definition instr_pla : M (CPU * W) unit :=
  upd cycle ;;
  upd cycle ;;
  v <- pull ;;
  upd (set_acc v) ;;
  upd (set_zn v) ;;
  upd last_cycle.

Definition instr_jsr : M (CPU * W) unit :=
  fetch_oplow ;;
  fetch_ophigh ;;
  upd (fun c => set_pc (u16 (pc (r c) - 1)) c) ;;
  upd cycle ;;
  p <- cpu_of (fun c => pc (r c)) ;;
  push (high p) ;;
  push (low p) ;;
  upd (fun c => set_pc (set_low (pc (r c)) (low (opargs c))) c) ;;
  upd (fun c => set_pc (set_high (pc (r c)) (high (opargs c))) c) ;;
  upd last_cycle.

Definition instr_jmp : M (CPU * W) unit :=
  fetch_oplow ;;
  fetch_ophigh ;;
  upd (fun c => set_pc (opargs c) c) ;;
  upd last_cycle.

Definition instr_jmp_ind : M (CPU * W) unit :=
  fetch_oplow ;;
  fetch_ophigh ;;
  a <- opfull ;;
  lo <- readmem a ;;
  upd (fun c => set_pc (set_low (pc (r c)) lo) c) ;;
  hi <- readmem (if low a =? 0xFF then Z.land a 0xFF00 else u16 (a + 1)) ;;
  upd (fun c => set_pc (set_high (pc (r c)) hi) c) ;;
  upd last_cycle.

Definition instr_rts : M (CPU * W) unit :=
  upd cycle ;;
  upd cycle ;;
  lo <- pull ;;
  upd (fun c => set_pc (set_low (pc (r c)) lo) c) ;;
  hi <- pull ;;
  upd (fun c => set_pc (set_high (pc (r c)) hi) c) ;;
  upd (fun c => set_pc (u16 (pc (r c) + 1)) c) ;;
  upd cycle ;;
  upd last_cycle.

Definition instr_brk : M (CPU * W) unit :=
  upd (set_flags (set_breakf true)) ;;
  interrupt.

Definition instr_rti : M (CPU * W) unit :=
  upd cycle ;;
  upd cycle ;;
  v <- pull ;;
  upd (set_flags (fun _ => status_of_byte v)) ;;
  upd (set_flags (set_breakf false)) ;;
  lo <- pull ;;
  upd (fun c => set_pc (set_low (pc (r c)) lo) c) ;;
  hi <- pull ;;
  upd (fun c => set_pc (set_high (pc (r c)) hi) c) ;;
  upd last_cycle.

Definition instr_nop : M (CPU * W) unit := upd cycle ;; upd last_cycle.

(** *** [CPU::execute] *)

Definition addrmode_read (m : ReadMode) : (Z -> CPU -> CPU) -> M (CPU * W) unit :=
  match m with
  | RImm => addrmode_imm_read | RZero => addrmode_zero_read | RZerox => addrmode_zerox_read
  | RZeroy => addrmode_zeroy_read | RAbs => addrmode_abs_read | RAbsx => addrmode_absx_read
  | RAbsy => addrmode_absy_read | RIndx => addrmode_indx_read | RIndy => addrmode_indy_read
  end.

Definition addrmode_modify (m : ModMode) : (Z -> CPU -> Z * CPU) -> M (CPU * W) unit :=
  match m with
  | MAccum => addrmode_accum_modify | MZero => addrmode_zero_modify
  | MZerox => addrmode_zerox_modify | MAbs => addrmode_abs_modify | MAbsx => addrmode_absx_modify
  end.

Definition addrmode_write (m : WriteMode) : Z -> M (CPU * W) unit :=
  match m with
  | WZero => addrmode_zero_write | WZerox => addrmode_zerox_write | WZeroy => addrmode_zeroy_write
  | WAbs => addrmode_abs_write | WAbsx => addrmode_absx_write | WAbsy => addrmode_absy_write
  | WIndx => addrmode_indx_write | WIndy => addrmode_indy_write
  end.

Definition instr_impld (f : ImpldFn) : M (CPU * W) unit :=
  match f with
  | Fn_brk => instr_brk | Fn_php => instr_php | Fn_pha => instr_pha | Fn_plp => instr_plp
  | Fn_pla => instr_pla | Fn_jsr => instr_jsr | Fn_jmp => instr_jmp | Fn_jmp_ind => instr_jmp_ind
  | Fn_rts => instr_rts | Fn_rti => instr_rti | Fn_inx => instr_inx | Fn_iny => instr_iny
  | Fn_dex => instr_dex | Fn_dey => instr_dey | Fn_nop => instr_nop
  end.

(** The statement of one case of the switch. *)
Definition exec_case (k : InstrCase) : M (CPU * W) unit :=
  match k with
  | INSTR_IMPLD f => instr_impld f
  | INSTR_READ f m => addrmode_read m (read_fn f)
  | INSTR_MODIFY f m => addrmode_modify m (mod_fn f)
  | INSTR_WRITE m n => v <- cpu_of (get_reg n) ;; addrmode_write m v
  | INSTR_BRANCH fl b =>
      take <- cpu_of (fun c => eqb (get_flag fl (flags (r c))) b) ;; instr_branch take
  | INSTR_FLAG fl b => instr_flag fl b
  | INSTR_TRANSFER from to => v <- cpu_of (get_reg from) ;; instr_transfer v to
  end.

Definition execute (instr : Z) : M (CPU * W) unit :=
  match switch instr with
  | Some k => exec_case k
  | None => retM tt
  end.

(** *** [CPU::run], [CPU::power], [CPU::reset], [CPU::nextaddr] *)

Definition run : M (CPU * W) unit :=
  en <- cpu_of execnmi ;;
  if en : bool then upd cycle ;; interrupt ;; upd (set_execnmi false)
  else
    ei <- cpu_of execirq ;;
    if ei : bool then upd cycle ;; interrupt ;; upd (set_execirq false)
    else instr <- fetch ;; execute instr.

(** [for (uint16 i = first; i < first + n; i++) bus->write(i, 0);] *)
Definition zero_range (n : nat) (first : Z) : M (CPU * W) unit :=
  fun s => let? s' := for_upto n first (fun i '(c, w) => let? w' := mwrite i 0 w in Ok (c, w')) s
           in Ok (tt, s').

Definition power : M (CPU * W) unit :=
  upd (fun c => set_acc 0 (set_rx 0 (set_ry 0 c))) ;;
  zero_range 2048 0 ;;
  upd (set_flags (fun _ => reset_status)) ;;
  bus_write 0x4017 0 ;;
  bus_write 0x4015 0 ;;
  zero_range 19 0x4000 ;;
  upd (set_sp 0) ;;
  upd (set_resetpending true) ;;
  interrupt.

Definition reset : M (CPU * W) unit :=
  bus_write 0x4015 0 ;;
  upd (set_resetpending true) ;;
  interrupt.

Definition nextaddr : M (CPU * W) Z :=
  p <- cpu_of (fun c => pc (r c)) ;;
  s <- cpu_of (fun c => sp (r c)) ;;
  c <- cpu_of (fun c => c) ;;
  id <- bus_read p ;;
  oplo <- bus_read (u16 (p + 1)) ;;
  ophi <- bus_read (u16 (p + 2)) ;;
  let op := set_high (set_low 0 oplo) ophi in
  match id with
  | 0x00 => retM (if resetpending c then RESET_VEC
                  else if nmipending c then NMI_VEC else IRQ_BRK_VEC)
  | 0x20 | 0x4C => retM op
  | 0x6C =>
      lo <- bus_read op ;;
      hi <- bus_read (if low op =? 0xFF then Z.land op 0xFF00 else u16 (op + 1)) ;;
      retM (u16 (Z.lor lo (Z.shiftl hi 8)))
  | 0x60 =>
      lo <- bus_read (u16 (s + 1 + STACK_BASE)) ;;
      hi <- bus_read (u16 (s + 2 + STACK_BASE)) ;;
      retM (u16 (1 + Z.lor lo (Z.shiftl hi 8)))
  | 0x40 =>
      lo <- bus_read (u16 (s + 1 + STACK_BASE)) ;;
      hi <- bus_read (u16 (s + 2 + STACK_BASE)) ;;
      retM (u16 (Z.lor lo (Z.shiftl hi 8)))
  | _ => retM (if took_branch id (flags (r c)) then branch_pointer oplo p
               else u16 (p + num_bytes id))
  end.
End Cpu.
