(* ===== verification/Mos6502.v ===== *)
(** * The instruction set of the processor, as documented

    A reference for [Cpu]: the 151 documented instructions of the MOS 6502, decoded
    from the bits of the opcode, with what each does to the registers, the flags
    and the memory in plain arithmetic.  There are no cycles, no bus and no
    interrupts here, and nothing is taken from the code but the names of its
    registers and flags.  [CpuIsa] relates the two. *)

From S2P Require Import Prelude InstrInfo Cpu.
Open Scope Z_scope.

(** ** State *)

Record Isa := mkIsa { iA : Z; iX : Z; iY : Z; iS : Z; iPC : Z; iP : ProcStatus; iM : Z -> Z }.

Definition with_A v s := mkIsa v (iX s) (iY s) (iS s) (iPC s) (iP s) (iM s).
Definition with_S v s := mkIsa (iA s) (iX s) (iY s) v (iPC s) (iP s) (iM s).
Definition with_PC v s := mkIsa (iA s) (iX s) (iY s) (iS s) v (iP s) (iM s).
Definition with_P f s := mkIsa (iA s) (iX s) (iY s) (iS s) (iPC s) (f (iP s)) (iM s).
Definition with_M f s := mkIsa (iA s) (iX s) (iY s) (iS s) (iPC s) (iP s) (f (iM s)).

Definition reg (n : RegName) (s : Isa) : Z :=
  match n with RegAcc => iA s | RegX => iX s | RegY => iY s | RegSp => iS s end.
Definition with_reg (n : RegName) (v : Z) (s : Isa) : Isa :=
  match n with
  | RegAcc => with_A v s
  | RegX => mkIsa (iA s) v (iY s) (iS s) (iPC s) (iP s) (iM s)
  | RegY => mkIsa (iA s) (iX s) v (iS s) (iPC s) (iP s) (iM s)
  | RegSp => with_S v s
  end.

(** A store into the 2 KiB of RAM, which is seen four times below $2000. *)
Definition poke (a v : Z) (m : Z -> Z) : Z -> Z :=
  fun b => if (b <? 0x2000) && (b mod 0x800 =? a mod 0x800) then v else m b.

(** ** Instructions *)

(** Operations on an operand. *)
Inductive Op :=
| LOAD (n : RegName) | STORE (n : RegName) | COMPARE (n : RegName)
| ORA | AND | EOR | ADC | SBC | BIT
| ASL | LSR | ROL | ROR | INC | DEC.

Inductive Mode := Imm | Zp | ZpX | ZpY | Abs | AbsX | AbsY | IndX | IndY | Accu.

Inductive Instr :=
| OnOperand (o : Op) (m : Mode)
| Branch (fl : FlagName) (b : bool)
| SetFlag (fl : FlagName) (b : bool)
| Transfer (from to : RegName)
| Step (n : RegName) (d : Z)
| Jump | JumpIndirect | Call | Return | ReturnInterrupt | Break
| PushFlags | PullFlags | PushA | PullA | Nothing.

(** ** Decoding

    An opcode is [aaabbbcc]: [cc] the group, [aaa] the operation in it and [bbb]
    the addressing mode. *)

Definition mode1 (b : Z) : Mode :=
  match b with 0 => IndX | 1 => Zp | 2 => Imm | 3 => Abs | 4 => IndY | 5 => ZpX | 6 => AbsY | _ => AbsX end.

Definition op1 (a : Z) : Op :=
  match a with
  | 0 => ORA | 1 => AND | 2 => EOR | 3 => ADC | 4 => STORE RegAcc | 5 => LOAD RegAcc | 6 => COMPARE RegAcc | _ => SBC
  end.

Definition op2 (a : Z) : Op :=
  match a with
  | 0 => ASL | 1 => ROL | 2 => LSR | 3 => ROR | 4 => STORE RegX | 5 => LOAD RegX | 6 => DEC | _ => INC
  end.

Definition op0 (a : Z) : option Op :=
  match a with
  | 1 => Some BIT | 4 => Some (STORE RegY) | 5 => Some (LOAD RegY) | 6 => Some (COMPARE RegY) | 7 => Some (COMPARE RegX)
  | _ => None
  end.

Definition branch_flag (a : Z) : FlagName :=
  match a / 2 with 0 => FNeg | 1 => FOv | 2 => FCarry | _ => FZero end.

(** Group 1: arithmetic on the accumulator, in all modes; there is no store to an
    immediate operand. *)
Definition decode1 (a b : Z) : option Instr :=
  if (a =? 4) && (b =? 2) then None else Some (OnOperand (op1 a) (mode1 b)).

(** Group 2: shifts, and the index register X; indexing X uses Y. *)
Definition decode2 (a b : Z) : option Instr :=
  let about_x := (a =? 4) || (a =? 5) in
  match b with
  | 0 => if a =? 5 then Some (OnOperand (LOAD RegX) Imm) else None
  | 1 => Some (OnOperand (op2 a) Zp)
  | 2 => match a with
         | 4 => Some (Transfer RegX RegAcc) | 5 => Some (Transfer RegAcc RegX)
         | 6 => Some (Step RegX (-1)) | 7 => Some Nothing
         | _ => Some (OnOperand (op2 a) Accu)
         end
  | 3 => Some (OnOperand (op2 a) Abs)
  | 5 => Some (OnOperand (op2 a) (if about_x then ZpY else ZpX))
  | 6 => match a with 4 => Some (Transfer RegX RegSp) | 5 => Some (Transfer RegSp RegX) | _ => None end
  | 7 => if a =? 4 then None else Some (OnOperand (op2 a) (if about_x then AbsY else AbsX))
  | _ => None
  end.

(** Group 0: control, the stack, the flags, and the index register Y. *)
Definition decode0 (a b : Z) : option Instr :=
  let on m := (fun o => OnOperand o m) <$> op0 a in
  match b with
  | 0 => match a with
         | 0 => Some Break | 1 => Some Call | 2 => Some ReturnInterrupt | 3 => Some Return
         | 4 => None | _ => on Imm
         end
  | 1 => on Zp
  | 2 => match a with
         | 0 => Some PushFlags | 1 => Some PullFlags | 2 => Some PushA | 3 => Some PullA
         | 4 => Some (Step RegY (-1)) | 5 => Some (Transfer RegAcc RegY) | 6 => Some (Step RegY 1) | _ => Some (Step RegX 1)
         end
  | 3 => match a with 2 => Some Jump | 3 => Some JumpIndirect | _ => on Abs end
  | 4 => Some (Branch (branch_flag a) (Z.odd a))
  | 5 => if (a =? 4) || (a =? 5) then on ZpX else None
  | 6 => match a with
         | 0 => Some (SetFlag FCarry false) | 1 => Some (SetFlag FCarry true)
         | 2 => Some (SetFlag FIntdis false) | 3 => Some (SetFlag FIntdis true)
         | 4 => Some (Transfer RegY RegAcc) | 5 => Some (SetFlag FOv false)
         | 6 => Some (SetFlag FDecimal false) | _ => Some (SetFlag FDecimal true)
         end
  | _ => if a =? 5 then on AbsX else None
  end.

Definition decode (id : Z) : option Instr :=
  let a := id / 32 in let b := (id / 4) mod 8 in
  match id mod 4 with 0 => decode0 a b | 1 => decode1 a b | 2 => decode2 a b | _ => None end.

(** ** Operands *)

(** The two bytes after the opcode, and the word that they make. *)
Definition arg1 (s : Isa) : Z := iM s (u16 (iPC s + 1)).
Definition arg2 (s : Isa) : Z := iM s (u16 (iPC s + 2)).
Definition arg16 (s : Isa) : Z := arg1 s + 256 * arg2 s.

(** The pointer in page zero at [z]: its second byte does not leave the page. *)
Definition pointer (z : Z) (s : Isa) : Z := iM s z + 256 * iM s (u8 (z + 1)).

(** Where the operand is. *)
Definition address (m : Mode) (s : Isa) : Z :=
  match m with
  | Imm => u16 (iPC s + 1)
  | Zp => arg1 s
  | ZpX => u8 (arg1 s + iX s)
  | ZpY => u8 (arg1 s + iY s)
  | Abs => arg16 s
  | AbsX => u16 (arg16 s + iX s)
  | AbsY => u16 (arg16 s + iY s)
  | IndX => pointer (u8 (arg1 s + iX s)) s
  | IndY => u16 (pointer (arg1 s) s + iY s)
  | Accu => 0
  end.

Definition length_of (m : Mode) : Z := match m with Accu => 1 | Abs | AbsX | AbsY => 3 | _ => 2 end.

(** ** Semantics *)

Definition flags_nz (v : Z) (p : ProcStatus) : ProcStatus := set_neg (128 <=? v) (set_zero (v =? 0) p).

(** A byte read as a signed number, and whether a number is one. *)
Definition signed (v : Z) : Z := if v <? 128 then v else v - 256.
Definition fits (z : Z) : bool := (-128 <=? z) && (z <? 128).

(** Operations that read the operand [v]. *)
Definition operate (o : Op) (v : Z) (s : Isa) : Isa :=
  let c := Z.b2z (carry (iP s)) in
  match o with
  | LOAD n => with_P (flags_nz v) (with_reg n v s)
  | COMPARE n => with_P (fun p => set_carry (v <=? reg n s) (flags_nz ((reg n s - v) mod 256) p)) s
  | ORA => let v := Z.lor (iA s) v in with_P (flags_nz v) (with_A v s)
  | AND => let v := Z.land (iA s) v in with_P (flags_nz v) (with_A v s)
  | EOR => let v := Z.lxor (iA s) v in with_P (flags_nz v) (with_A v s)
  | ADC =>
      let sum := iA s + v + c in
      with_P (fun p => set_ov (negb (fits (signed (iA s) + signed v + c)))
        (set_carry (256 <=? sum) (flags_nz (sum mod 256) p))) (with_A (sum mod 256) s)
  | SBC =>
      let diff := iA s - v - (1 - c) in
      with_P (fun p => set_ov (negb (fits (signed (iA s) - signed v - (1 - c))))
        (set_carry (0 <=? diff) (flags_nz (diff mod 256) p))) (with_A (diff mod 256) s)
  | BIT => with_P (fun p => set_ov (Z.testbit v 6) (set_neg (Z.testbit v 7) (set_zero (Z.land (iA s) v =? 0) p))) s
  | _ => s
  end.

(** Operations that change the operand: its new value, and the flags. *)
Definition shift (o : Op) (v : Z) (p : ProcStatus) : Z * ProcStatus :=
  let c := Z.b2z (carry p) in
  let shifted out v := (v, flags_nz v (set_carry out p)) in
  match o with
  | ASL => shifted (128 <=? v) ((2 * v) mod 256)
  | LSR => shifted (Z.odd v) (v / 2)
  | ROL => shifted (128 <=? v) ((2 * v + c) mod 256)
  | ROR => shifted (Z.odd v) (v / 2 + 128 * c)
  | INC => let v := (v + 1) mod 256 in (v, flags_nz v p)
  | DEC => let v := (v - 1) mod 256 in (v, flags_nz v p)
  | _ => (v, p)
  end.

Definition modifies (o : Op) : bool :=
  match o with ASL | LSR | ROL | ROR | INC | DEC => true | _ => false end.

Definition on_operand (o : Op) (m : Mode) (s : Isa) : Isa :=
  let a := address m s in
  let s' := with_PC (u16 (iPC s + length_of m)) s in
  match o with
  | STORE n => with_M (poke a (reg n s)) s'
  | _ =>
      if modifies o then
        match m with
        | Accu => let '(v, p) := shift o (iA s) (iP s) in with_A v (with_P (fun _ => p) s')
        | _ => let '(v, p) := shift o (iM s a) (iP s) in with_M (poke a v) (with_P (fun _ => p) s')
        end
      else operate o (iM s a) s'
  end.

(** The stack. *)
Definition push (v : Z) (s : Isa) : Isa := with_S (u8 (iS s - 1)) (with_M (poke (0x100 + iS s) v) s).
Definition pulled (n : Z) (s : Isa) : Z := iM s (0x100 + u8 (iS s + n)).

(** The flags on the stack: bit 4 is set by instructions, bit 5 always; when they
    are pulled, neither has a flag to go to. *)
Definition saved (p : ProcStatus) : Z :=
  byte_of_status (mkPS (carry p) (zero p) (intdis p) (decimal p) true true (ov p) (neg p)).
Definition restored (v : Z) : ProcStatus := set_breakf false (status_of_byte (Z.lor v 0x20)).

(** [BRK] with the address that is pushed. *)
Definition break_to (back : Z) (s : Isa) : Isa :=
  with_PC (iM s 0xFFFE + 256 * iM s 0xFFFF)
    (with_P (set_intdis true) (push (saved (iP s)) (push (back mod 256) (push (back / 256) s)))).

Definition exec (i : Instr) (s : Isa) : Isa :=
  let skip n := with_PC (u16 (iPC s + n)) s in
  match i with
  | OnOperand o m => on_operand o m s
  | Branch fl b =>
      if eqb (get_flag fl (iP s)) b then skip (2 + signed (arg1 s)) else skip 2
  | SetFlag fl b => with_P (set_flag fl b) (skip 1)
  | Transfer from RegSp => with_S (reg from s) (skip 1)
  | Transfer from to => with_P (flags_nz (reg from s)) (with_reg to (reg from s) (skip 1))
  | Step n d => let v := (reg n s + d) mod 256 in with_P (flags_nz v) (with_reg n v (skip 1))
  | Jump => with_PC (arg16 s) s
  | JumpIndirect =>
      let a := arg16 s in with_PC (iM s a + 256 * iM s (256 * (a / 256) + (a + 1) mod 256)) s
  | Call =>
      let back := u16 (iPC s + 2) in
      with_PC (arg16 s) (push (back mod 256) (push (back / 256) s))
  | Return => with_PC (u16 (pulled 1 s + 256 * pulled 2 s + 1)) (with_S (u8 (iS s + 2)) s)
  | ReturnInterrupt =>
      with_P (fun _ => restored (pulled 1 s)) (with_PC (pulled 2 s + 256 * pulled 3 s) (with_S (u8 (iS s + 3)) s))
  | PushFlags => push (saved (iP s)) (skip 1)
  | PullFlags => with_P (fun _ => restored (pulled 1 s)) (with_S (u8 (iS s + 1)) (skip 1))
  | PushA => push (iA s) (skip 1)
  | PullA => let v := pulled 1 s in with_P (flags_nz v) (with_A v (with_S (u8 (iS s + 1)) (skip 1)))
  | Nothing => skip 1
  | Break => break_to (u16 (iPC s + 2)) s
  end.

(** One instruction, and several. *)
Definition isa_step (s : Isa) : option Isa := (fun i => exec i s) <$> decode (iM s (iPC s)).

Fixpoint isa_steps (n : nat) (s : Isa) : option Isa :=
  match n with O => Some s | S n => isa_step s ≫= isa_steps n end.

(** There are 151 documented opcodes. *)
Example documented_opcodes : length (filter (fun id => is_Some (decode id)) (Z.of_nat <$> seq 0 256)) = 151%nat.
Proof. vm_compute. reflexivity. Qed.
