(* ===== verification/CpuFacts.v ===== *)
(** * Facts about the CPU shared by its theorems

    What each operation on the registers leaves alone, what a successful
    computation of the monad did (inversion), and the tactic [minv] that runs
    an instruction symbolically with them. *)

From S2P Require Import Prelude InstrInfo Cpu.
Open Scope Z_scope.

(** ** Frames of the register operations *)

Lemma last_cycle_r c : r (last_cycle c) = r c.
Proof. unfold last_cycle, irqpoll, nmipoll. by repeat case_match. Qed.

Lemma last_cycle_opargs c : opargs (last_cycle c) = opargs c.
Proof. unfold last_cycle, irqpoll, nmipoll. by repeat case_match. Qed.

Lemma last_cycle_pending c :
  nmipending (last_cycle c) = nmipending c /\ irqpending (last_cycle c) = irqpending c /\
  resetpending (last_cycle c) = resetpending c.
Proof. unfold last_cycle, irqpoll, nmipoll. by repeat case_match. Qed.

(** Everything of the state that an instruction function cannot change. *)
Definition same_frame (c c' : CPU) : Prop :=
  pc (r c') = pc (r c) /\ sp (r c') = sp (r c) /\ cycles (r c') = cycles (r c) /\
  opargs c' = opargs c /\ nmipending c' = nmipending c /\ irqpending c' = irqpending c /\
  resetpending c' = resetpending c /\ execnmi c' = execnmi c /\ execirq c' = execirq c /\
  intdis (flags (r c')) = intdis (flags (r c)).

Lemma read_fn_frame f v c : same_frame c (read_fn f v c).
Proof. by destruct f. Qed.

Lemma mod_fn_frame f v c : same_frame c (snd (mod_fn f v c)).
Proof. by destruct f. Qed.

Lemma interrupt_vector_r c : r (snd (interrupt_vector c)) = r c.
Proof. unfold interrupt_vector. by repeat case_match. Qed.

Lemma interrupt_vector_opargs c : opargs (snd (interrupt_vector c)) = opargs c.
Proof. unfold interrupt_vector. by repeat case_match. Qed.

Lemma interrupt_vector_word c : word (fst (interrupt_vector c)).
Proof.
  unfold interrupt_vector, word, RESET_VEC, NMI_VEC, IRQ_BRK_VEC. repeat case_match; simpl; lia.
Qed.

(** ** Inversion of successful computations *)

Section Inversion.
Context {W : Type} `{MemW : Memory W}.
Variable cb : option (CPU -> Status -> Z -> AccessMode -> W -> Res W).

Lemma upd_inv f (c : CPU) (w : W) u s : upd f (c, w) = Ok (u, s) -> s = (f c, w).
Proof. by intros [= _ <-]. Qed.

Lemma cpu_of_inv {A} (f : CPU -> A) (c : CPU) (w : W) a s :
  cpu_of f (c, w) = Ok (a, s) -> a = f c /\ s = (c, w).
Proof. by intros [= <- <-]. Qed.

Lemma bus_read_inv a (c : CPU) (w : W) v s :
  bus_read a (c, w) = Ok (v, s) -> exists w', s = (c, w') /\ mread a w = Ok (v, w').
Proof.
  unfold bus_read. intros ([v0 w'] & E & [= <- <-])%rbind_Ok. by exists w'.
Qed.

Lemma bus_write_inv a d (c : CPU) (w : W) u s :
  bus_write a d (c, w) = Ok (u, s) -> exists w', s = (c, w') /\ mwrite a d w = Ok w'.
Proof. unfold bus_write. intros (w' & E & [= _ <-])%rbind_Ok. by exists w'. Qed.

Lemma notify_inv a m (c : CPU) (w : W) u s :
  notify cb a m (c, w) = Ok (u, s) -> exists w', s = (c, w').
Proof.
  unfold notify. destruct cb as [f |]; [| intros [= _ <-]; eauto].
  unfold status. intros (st & s1 & Hst & Hf)%bindM_Ok.
  repeat (apply bindM_Ok in Hst as (? & ? & ? & Hst)).
  repeat match goal with
    | E : cpu_of _ (_, _) = Ok _ |- _ => apply cpu_of_inv in E as [-> ->]
    | E : bus_read _ (_, _) = Ok _ |- _ => apply bus_read_inv in E as (? & -> & ?)
    end.
  injection Hst as <- <-. apply rbind_Ok in Hf as (w' & _ & [= <-]). eauto.
Qed.

Lemma readmem_inv a (c : CPU) (w : W) v s :
  readmem cb a (c, w) = Ok (v, s) ->
  exists w0 w', s = (cycle c, w') /\ notify cb a AccR (c, w) = Ok (tt, (c, w0)) /\
    mread a w0 = Ok (v, w').
Proof.
  unfold readmem. intros ([] & s1 & Hn & H)%bindM_Ok.
  pose proof (notify_inv _ _ _ _ _ _ Hn) as (w0 & ->).
  apply bindM_Ok in H as (? & ? & ->%upd_inv & H).
  apply bus_read_inv in H as (w' & -> & ?). eauto.
Qed.

Lemma writemem_inv a d (c : CPU) (w : W) u s :
  writemem cb a d (c, w) = Ok (u, s) ->
  exists w0 w', s = (cycle c, w') /\ notify cb a AccW (c, w) = Ok (tt, (c, w0)) /\
    mwrite a d w0 = Ok w'.
Proof.
  unfold writemem. intros ([] & s1 & Hn & H)%bindM_Ok.
  pose proof (notify_inv _ _ _ _ _ _ Hn) as (w0 & ->).
  apply bindM_Ok in H as (? & ? & ->%upd_inv & H).
  apply bus_write_inv in H as (w' & -> & ?). eauto.
Qed.

Lemma bindM_upd {B} f (k : unit -> M (CPU * W) B) c w : bindM (upd f) k (c, w) = k tt (f c, w).
Proof. done. Qed.

Lemma bindM_cpu_of {A B} (f : CPU -> A) (k : A -> M (CPU * W) B) c w :
  bindM (cpu_of f) k (c, w) = k (f c) (c, w).
Proof. done. Qed.

(** The processor after fetching the byte at [pc]. *)
Definition fetched (c : CPU) : CPU := set_pc (u16 (pc (r c) + 1)) (cycle c).

Lemma fetchop_inv (c : CPU) (w : W) v s :
  fetchop (c, w) = Ok (v, s) -> exists w', s = (fetched c, w') /\ mread (pc (r c)) w = Ok (v, w').
Proof.
  unfold fetchop, read_at_pc. intros (? & ? & ->%upd_inv & H)%bindM_Ok.
  apply bindM_Ok in H as (? & ? & [-> ->]%cpu_of_inv & H).
  apply bindM_Ok in H as (? & ? & ->%upd_inv & H).
  apply bus_read_inv in H as (w' & -> & ?). by exists w'.
Qed.

Lemma fetch_inv (c : CPU) (w : W) v s :
  fetch cb (c, w) = Ok (v, s) ->
  exists w0 w', s = (fetched c, w') /\ notify cb (pc (r c)) AccX (c, w) = Ok (tt, (c, w0)) /\
    mread (pc (r c)) w0 = Ok (v, w').
Proof.
  unfold fetch, read_at_pc. intros (? & ? & [-> ->]%cpu_of_inv & H)%bindM_Ok.
  apply bindM_Ok in H as ([] & s1 & Hn & H).
  pose proof (notify_inv _ _ _ _ _ _ Hn) as (w0 & ->).
  apply bindM_Ok in H as (? & ? & ->%upd_inv & H).
  apply bindM_Ok in H as (? & ? & [-> ->]%cpu_of_inv & H).
  apply bindM_Ok in H as (? & ? & ->%upd_inv & H).
  apply bus_read_inv in H as (w' & -> & ?). eauto.
Qed.

Lemma fetch_oplow_inv (c : CPU) (w : W) u s :
  fetch_oplow (c, w) = Ok (u, s) ->
  exists v w', s = (set_opargs (set_low (opargs c) v) (fetched c), w') /\
    mread (pc (r c)) w = Ok (v, w').
Proof.
  unfold fetch_oplow. intros (v & ? & (w' & -> & E)%fetchop_inv & H)%bindM_Ok.
  apply upd_inv in H as ->. eauto.
Qed.

Lemma fetch_ophigh_inv (c : CPU) (w : W) u s :
  fetch_ophigh (c, w) = Ok (u, s) ->
  exists v w', s = (set_opargs (set_high (opargs c) v) (fetched c), w') /\
    mread (pc (r c)) w = Ok (v, w').
Proof.
  unfold fetch_ophigh. intros (v & ? & (w' & -> & E)%fetchop_inv & H)%bindM_Ok.
  apply upd_inv in H as ->. eauto.
Qed.

(** The processor after a push and after a pull. *)
Definition pushed (c : CPU) : CPU := set_sp (u8 (sp (r c) - 1)) (cycle c).
Definition pulled (c : CPU) : CPU := cycle (set_sp (u8 (sp (r c) + 1)) c).

Lemma push_inv v (c : CPU) (w : W) u s :
  push cb v (c, w) = Ok (u, s) ->
  exists w0 w', s = (pushed c, w') /\
    notify cb (u16 (sp (r c) + STACK_BASE)) AccW (c, w) = Ok (tt, (c, w0)) /\
    mwrite (u16 (sp (r c) + STACK_BASE)) v w0 = Ok w'.
Proof.
  unfold push. intros (? & ? & [-> ->]%cpu_of_inv & H)%bindM_Ok.
  apply bindM_Ok in H as (? & ? & (w0 & w' & -> & Hn & Hw)%writemem_inv & H).
  apply upd_inv in H as ->. eauto.
Qed.

Lemma pull_inv (c : CPU) (w : W) v s :
  pull cb (c, w) = Ok (v, s) ->
  exists w0 w', s = (pulled c, w') /\
    mread (u16 (u8 (sp (r c) + 1) + STACK_BASE)) w0 = Ok (v, w').
Proof.
  unfold pull. intros (? & ? & ->%upd_inv & H)%bindM_Ok.
  apply bindM_Ok in H as (? & ? & [-> ->]%cpu_of_inv & H).
  apply readmem_inv in H as (w0 & w' & -> & _ & ?). eauto.
Qed.

Lemma apply_mod_inv f v (c : CPU) (w : W) a s :
  apply_mod f v (c, w) = Ok (a, s) -> a = fst (f v c) /\ s = (snd (f v c), w).
Proof. unfold apply_mod. destruct (f v c). by intros [= <- <-]. Qed.
End Inversion.

(** Run a successful computation: every step becomes an equation on the state. *)
Ltac minv1 :=
  match goal with
  | H : bindM _ _ _ = Ok (_, _) |- _ => apply bindM_Ok in H; destruct H as (? & ? & ? & ?)
  | H : upd _ (_, _) = Ok _ |- _ => apply upd_inv in H as ->
  | H : upd _ (_, _) = Ok (_, (_, _)) |- _ => apply upd_inv in H as [= -> ->]
  | H : cpu_of _ (_, _) = Ok _ |- _ => apply cpu_of_inv in H as [-> ->]
  | H : oplow (_, _) = Ok _ |- _ => apply cpu_of_inv in H as [-> ->]
  | H : opfull (_, _) = Ok _ |- _ => apply cpu_of_inv in H as [-> ->]
  | H : xreg (_, _) = Ok _ |- _ => apply cpu_of_inv in H as [-> ->]
  | H : yreg (_, _) = Ok _ |- _ => apply cpu_of_inv in H as [-> ->]
  | H : readmem _ _ (_, _) = Ok _ |- _ => apply readmem_inv in H as (? & ? & -> & ? & ?)
  | H : writemem _ _ _ (_, _) = Ok _ |- _ => apply writemem_inv in H as (? & ? & -> & ? & ?)
  | H : fetchop (_, _) = Ok _ |- _ => apply fetchop_inv in H as (? & -> & ?)
  | H : fetch_oplow (_, _) = Ok _ |- _ => apply fetch_oplow_inv in H as (? & ? & -> & ?)
  | H : fetch_ophigh (_, _) = Ok _ |- _ => apply fetch_ophigh_inv in H as (? & ? & -> & ?)
  | H : push _ _ (_, _) = Ok _ |- _ => apply push_inv in H as (? & ? & -> & ? & ?)
  | H : pull _ (_, _) = Ok _ |- _ => apply pull_inv in H as (? & ? & -> & ?)
  | H : apply_mod _ _ (_, _) = Ok _ |- _ => apply apply_mod_inv in H as [-> ->]
  | H : cycle_if_page_differs _ (_, _) = Ok _ |- _ => apply upd_inv in H as ->
  | H : retM _ (_, _) = Ok _ |- _ => apply retM_Ok in H; destruct H as [? ?]
  | H : (_, _) = (_, _) |- _ => injection H as -> ->
  | H : ?s = (_, _) |- _ => is_var s; subst s
  end.
Ltac minv := repeat minv1.

Ltac unfold_instr :=
  unfold addrmode_imm_read, addrmode_zero_read, addrmode_zerox_read, addrmode_zeroy_read,
    addrmode_abs_read, addrmode_absx_read, addrmode_absy_read, addrmode_indx_read,
    addrmode_indy_read, addrmode_accum_modify, addrmode_zero_modify, addrmode_zerox_modify,
    addrmode_abs_modify, addrmode_absx_modify, addrmode_zero_write, addrmode_zerox_write,
    addrmode_zeroy_write, addrmode_abs_write, addrmode_absx_write, addrmode_absy_write,
    addrmode_indx_write, addrmode_indy_write, instr_branch, instr_flag, instr_transfer,
    instr_inx, instr_iny, instr_dex, instr_dey, instr_php, instr_pha, instr_plp, instr_pla,
    instr_jsr, instr_jmp, instr_jmp_ind, instr_rts, instr_brk, instr_rti, instr_nop in *.

(** ** Normal forms of the registers after an instruction *)

Lemma read_fn_pc f v c : pc (r (read_fn f v c)) = pc (r c).
Proof. apply read_fn_frame. Qed.
Lemma read_fn_sp f v c : sp (r (read_fn f v c)) = sp (r c).
Proof. apply read_fn_frame. Qed.
Lemma read_fn_cycles f v c : cycles (r (read_fn f v c)) = cycles (r c).
Proof. apply read_fn_frame. Qed.
Lemma read_fn_opargs f v c : opargs (read_fn f v c) = opargs c.
Proof. apply read_fn_frame. Qed.
Lemma mod_fn_pc f v c : pc (r (snd (mod_fn f v c))) = pc (r c).
Proof. apply mod_fn_frame. Qed.
Lemma mod_fn_sp f v c : sp (r (snd (mod_fn f v c))) = sp (r c).
Proof. apply mod_fn_frame. Qed.
Lemma mod_fn_cycles f v c : cycles (r (snd (mod_fn f v c))) = cycles (r c).
Proof. apply mod_fn_frame. Qed.
Lemma mod_fn_opargs f v c : opargs (snd (mod_fn f v c)) = opargs c.
Proof. apply mod_fn_frame. Qed.
Lemma set_reg_pc n v c : pc (r (set_reg n v c)) = pc (r c).
Proof. by destruct n. Qed.
Lemma set_reg_cycles n v c : cycles (r (set_reg n v c)) = cycles (r c).
Proof. by destruct n. Qed.
Lemma set_reg_opargs n v c : opargs (set_reg n v c) = opargs c.
Proof. by destruct n. Qed.

Create Rewrite HintDb cpu_frame.
#[export] Hint Rewrite last_cycle_r last_cycle_opargs interrupt_vector_r interrupt_vector_opargs
  read_fn_pc read_fn_sp read_fn_cycles read_fn_opargs
  mod_fn_pc mod_fn_sp mod_fn_cycles mod_fn_opargs
  set_reg_pc set_reg_cycles set_reg_opargs : cpu_frame.

(** Compute the registers of a state built by the register operations. *)
Ltac cpu_simpl :=
  repeat (progress (
    cbn [r pc acc rx ry sp flags cycles opargs nmipending irqpending resetpending execnmi
         execirq set_r set_pc set_acc set_rx set_ry set_sp set_flags set_cycles set_nmipending
         set_irqpending set_resetpending set_execnmi set_execirq set_opargs set_zn
         cycle fetched pushed pulled fst snd];
    autorewrite with cpu_frame)).

(** Run a computation forward: steps on the registers, and memory accesses whose
    outcome a hypothesis gives. *)
Ltac mrun :=
  repeat first
    [ rewrite bindM_upd | rewrite bindM_cpu_of
    | erewrite bindM_run by first [eassumption | reflexivity] ]; cbv beta.
