(* ===== verification/CpuCycles.v ===== *)
(** * Cycle counts of the CPU

    The cycles each instruction adds to the counter, against the table that the
    comments of [instructions.cpp] give. *)

From S2P Require Import Prelude InstrInfo Cpu CpuFacts.
Open Scope Z_scope.

(** ** The counts the comments of [instructions.cpp] document

    Base count and the number of cycles that may be added; both include the
    cycle of fetching the instruction.  For the functions without a comment the
    count of the 6502 is taken. *)

Definition read_cycles (m : ReadMode) : Z * Z :=
  match m with
  | RImm => (2, 0) | RZero => (3, 0) | RZerox => (4, 0) | RZeroy => (4, 0) | RAbs => (4, 0)
  | RAbsx => (4, 1) | RAbsy => (4, 1) | RIndx => (6, 0) | RIndy => (5, 1)
  end.

Definition modify_cycles (m : ModMode) : Z * Z :=
  match m with
  | MAccum => (2, 0) | MZero => (5, 0) | MZerox => (6, 0) | MAbs => (6, 0) | MAbsx => (7, 0)
  end.

Definition write_cycles (m : WriteMode) : Z * Z :=
  match m with
  | WZero => (3, 0) | WZerox => (4, 0) | WZeroy => (4, 0) | WAbs => (4, 0)
  | WAbsx => (5, 0) | WAbsy => (5, 0) | WIndx => (6, 0) | WIndy => (6, 0)
  end.

Definition impld_cycles (f : ImpldFn) : Z * Z :=
  match f with
  | Fn_brk => (7, 0) | Fn_php => (3, 0) | Fn_pha => (3, 0) | Fn_plp => (4, 0) | Fn_pla => (4, 0)
  | Fn_jsr => (6, 0) | Fn_jmp => (3, 0) | Fn_jmp_ind => (5, 0) | Fn_rts => (6, 0)
  | Fn_rti => (6, 0) | Fn_inx => (2, 0) | Fn_iny => (2, 0) | Fn_dex => (2, 0)
  | Fn_dey => (2, 0) | Fn_nop => (2, 0)
  end.

Definition case_cycles (k : InstrCase) : Z * Z :=
  match k with
  | INSTR_IMPLD f => impld_cycles f
  | INSTR_READ _ m => read_cycles m
  | INSTR_MODIFY _ m => modify_cycles m
  | INSTR_WRITE m _ => write_cycles m
  | INSTR_BRANCH _ _ => (2, 2)
  | INSTR_FLAG _ _ => (2, 0)
  | INSTR_TRANSFER _ _ => (2, 0)
  end.

(** An id that the switch does not know costs its fetch only. *)
Definition documented_cycles (id : Z) : Z * Z :=
  match switch id with Some k => case_cycles k | None => (1, 0) end.

Create HintDb cycles_db.

Section Cycles.
Context {W : Type} `{MemW : Memory W}.
Variable cb : option (CPU -> Status -> Z -> AccessMode -> W -> Res W).

(** [n] cycles were counted between [c] and [c']; [cycles] is 64 bits wide. *)
Definition elapsed (n : Z) (c c' : CPU) : Prop :=
  u64 (cycles (r c')) = u64 (cycles (r c) + n).

(** Compute the count of a state reached symbolically. *)
Ltac elapsed_tac := unfold elapsed; cpu_simpl;
  repeat first [rewrite u64_u64_add | rewrite <- Z.add_assoc | rewrite u64_u64];
  first [reflexivity | f_equal; lia].
Ltac cycles_tac :=
  cbv beta;
  repeat match goal with |- context [if ?b then _ else _] => destruct b end;
  (eexists; split; [| elapsed_tac]; simpl; lia).

(** The cycles an operation takes after the fetch, against a documented count. *)
Definition within (d : Z * Z) (m : M (CPU * W) unit) : Prop :=
  forall c w u c' w', m (c, w) = Ok (u, (c', w')) ->
    exists n, fst d <= n + 1 <= fst d + snd d /\ elapsed n c c'.

Lemma read_within m f : within (read_cycles m) (addrmode_read cb m (read_fn f)).
Proof. intros c w u c' w' H. destruct m; simpl in *; unfold_instr; minv; cycles_tac. Qed.

Lemma modify_within m f : within (modify_cycles m) (addrmode_modify cb m (mod_fn f)).
Proof. intros c w u c' w' H. destruct m; simpl in *; unfold_instr; minv; cycles_tac. Qed.

Lemma write_within m v : within (write_cycles m) (addrmode_write cb m v).
Proof. intros c w u c' w' H. destruct m; simpl in *; unfold_instr; minv; cycles_tac. Qed.

Lemma elapsed_trans n m c1 c2 c3 : elapsed n c1 c2 -> elapsed m c2 c3 -> elapsed (n + m) c1 c3.
Proof.
  unfold elapsed. intros H1 H2. rewrite H2, <- u64_u64_add, H1, u64_u64_add. f_equal. lia.
Qed.

(** Sequences without a conditional cycle: the counts of the parts add up. *)
Definition takes {A} (n : Z) (m : M (CPU * W) A) : Prop :=
  forall c w a c' w', m (c, w) = Ok (a, (c', w')) -> elapsed n c c'.

Lemma takes_bind {A B} n1 n2 (m : M (CPU * W) A) (k : A -> M (CPU * W) B) :
  takes n1 m -> (forall a, takes n2 (k a)) -> takes (n1 + n2) (bindM m k).
Proof.
  intros Hm Hk c w b c' w' (a & [c1 w1] & H1 & H2)%bindM_Ok.
  eapply elapsed_trans; [by eapply Hm | by eapply Hk].
Qed.

Lemma takes_upd f : (forall c, cycles (r (f c)) = cycles (r c)) -> takes 0 (upd f).
Proof. intros Hf c w a c' w' [= -> ->]%upd_inv. unfold elapsed. by rewrite Hf, Z.add_0_r. Qed.
Lemma takes_cycle : takes 1 (upd cycle).
Proof. intros c w a c' w' [= -> ->]%upd_inv. elapsed_tac. Qed.
Lemma takes_last_cycle : takes 0 (upd last_cycle).
Proof. apply takes_upd. intros c. by rewrite last_cycle_r. Qed.
Lemma takes_cpu_of {A} (f : CPU -> A) : takes 0 (cpu_of f).
Proof. intros c w a c' w' [-> [= -> ->]]%cpu_of_inv. unfold elapsed. by rewrite Z.add_0_r. Qed.
Lemma takes_readmem a : takes 1 (readmem cb a).
Proof. intros c w v c' w' (? & ? & [= -> ->] & _)%readmem_inv. elapsed_tac. Qed.
Lemma takes_fetchop : takes 1 fetchop.
Proof. intros c w v c' w' (? & [= -> ->] & _)%fetchop_inv. elapsed_tac. Qed.
Lemma takes_fetch_oplow : takes 1 fetch_oplow.
Proof. intros c w v c' w' (? & ? & [= -> ->] & _)%fetch_oplow_inv. elapsed_tac. Qed.
Lemma takes_fetch_ophigh : takes 1 fetch_ophigh.
Proof. intros c w v c' w' (? & ? & [= -> ->] & _)%fetch_ophigh_inv. elapsed_tac. Qed.
Lemma takes_push v : takes 1 (push cb v).
Proof. intros c w u c' w' (? & ? & [= -> ->] & _)%push_inv. elapsed_tac. Qed.
Lemma takes_pull : takes 1 (pull cb).
Proof. intros c w u c' w' (? & ? & [= -> ->] & _)%pull_inv. elapsed_tac. Qed.

Ltac takes_tac :=
  lazymatch goal with
  | |- takes _ (bindM _ _) => eapply takes_bind; [takes_tac | intros ?; takes_tac]
  | |- takes _ (upd cycle) => apply takes_cycle
  | |- takes _ (upd last_cycle) => apply takes_last_cycle
  | |- takes _ (upd _) => apply takes_upd; intros ?; cpu_simpl; done
  | |- takes _ (readmem _ _) => apply takes_readmem
  | |- takes _ fetch_oplow => apply takes_fetch_oplow
  | |- takes _ fetch_ophigh => apply takes_fetch_ophigh
  | |- takes _ (push _ _) => apply takes_push
  | |- takes _ (pull _) => apply takes_pull
  | |- takes _ (interrupt _) => solve [eauto with cycles_db]
  | |- takes _ _ => apply takes_cpu_of
  end.

Lemma takes_within n d m : takes n m -> fst d <= n + 1 <= fst d + snd d -> within d m.
Proof. intros Ht Hn c w u c' w' H. exists n. split; [done | by eapply Ht]. Qed.

Lemma takes_eq {A} n n' (m : M (CPU * W) A) : takes n m -> n = n' -> takes n' m.
Proof. by intros ? <-. Qed.

Lemma takes_interrupt : takes 6 (interrupt cb).
Proof. unfold interrupt. eapply takes_eq; [takes_tac |]. lia. Qed.
#[local] Hint Resolve takes_interrupt : cycles_db.

Lemma impld_within f : within (impld_cycles f) (instr_impld cb f).
Proof.
  destruct f; simpl; unfold_instr;
    (eapply takes_within;
      [takes_tac | simpl; lia]).
Qed.

Lemma branch_within t : within (2, 2) (instr_branch t).
Proof. intros c w u c' w' H. destruct t; simpl in *; unfold_instr; simpl in *; minv; cycles_tac. Qed.

Lemma case_within k : within (case_cycles k) (exec_case cb k).
Proof.
  destruct k as [f | f m | f m | m n | fl b | fl b | fr to]; simpl.
  - apply impld_within.
  - apply read_within.
  - apply modify_within.
  - intros c w u c' w' H. minv. eapply write_within; eauto.
  - intros c w u c' w' H. minv. eapply branch_within; eauto.
  - intros c w u c' w' H. unfold_instr. minv. cycles_tac.
  - intros c w u c' w' H. unfold_instr. minv. cycles_tac.
Qed.

Lemma execute_within c w id s c' w' :
  fetch cb (c, w) = Ok (id, s) -> execute cb id s = Ok (tt, (c', w')) ->
  exists n, fst (documented_cycles id) <= n <= fst (documented_cycles id) + snd (documented_cycles id)
            /\ elapsed n c c'.
Proof.
  intros (w0 & w1 & -> & _ & _)%fetch_inv H. unfold execute, documented_cycles in *.
  assert (Hf : elapsed 1 c (fetched c)) by elapsed_tac.
  destruct (switch id) as [k |].
  - apply case_within in H as (n & Hn & He). exists (1 + n). split; [lia |].
    eapply elapsed_trans; eauto.
  - minv. exists 1. split; [simpl; lia | done].
Qed.

Lemma documented_bounds id :
  1 <= fst (documented_cycles id) /\ fst (documented_cycles id) + snd (documented_cycles id) <= 7.
Proof.
  unfold documented_cycles. destruct (switch id) as [k |]; [| simpl; lia].
  destruct k as [[] | ? [] | ? [] | [] ? | ? ? | ? ? | ? ?]; simpl; lia.
Qed.

Lemma run_elapsed c w c' w' :
  run cb (c, w) = Ok (tt, (c', w')) -> exists n, 1 <= n <= 7 /\ elapsed n c c'.
Proof.
  unfold run. intros (? & ? & [-> ->]%cpu_of_inv & H)%bindM_Ok.
  destruct (execnmi c).
  { exists 7. split; [lia |]. eapply takes_eq; [| | exact H]; [takes_tac | done]. }
  apply bindM_Ok in H as (? & ? & [-> ->]%cpu_of_inv & H). destruct (execirq c).
  { exists 7. split; [lia |]. eapply takes_eq; [| | exact H]; [takes_tac | done]. }
  apply bindM_Ok in H as (id & s & Hf & He).
  destruct (execute_within _ _ _ _ _ _ Hf He) as (n & Hn & Hel).
  exists n. split; [| done]. pose proof (documented_bounds id). lia.
Qed.
End Cycles.
