(* ===== verification/CpuInv.v ===== *)
(** * Invariants of the CPU

    Every register stays within its width, and an interrupt marked for
    execution has its signal pending. *)

From S2P Require Import Prelude InstrInfo Cpu CpuFacts.
Open Scope Z_scope.

(** ** What the CPU relies on from its bus *)

Class MemoryOk (W : Type) {MemW : Memory W} := {
  winv : W -> Prop;
  mread_ok : forall a w v w', word a -> winv w -> mread a w = Ok (v, w') -> byte v /\ winv w';
  mwrite_ok : forall a v w w', word a -> byte v -> winv w -> mwrite a v w = Ok w' -> winv w';
}.

(** ** The invariants *)

Record cpu_ok (c : CPU) : Prop := {
  ok_pc : word (pc (r c));
  ok_acc : byte (acc (r c));
  ok_rx : byte (rx (r c));
  ok_ry : byte (ry (r c));
  ok_sp : byte (sp (r c));
  ok_cycles : 0 <= cycles (r c) < 2 ^ 64;
  ok_opargs : word (opargs c);
}.

#[export] Instance cpu_ok_dec c : Decision (cpu_ok c).
Proof.
  refine (cast_if (decide (word (pc (r c)) /\ byte (acc (r c)) /\ byte (rx (r c)) /\
    byte (ry (r c)) /\ byte (sp (r c)) /\ 0 <= cycles (r c) < 2 ^ 64 /\ word (opargs c))));
    [abstract (constructor; tauto) | abstract (intros []; tauto)].
Defined.

Definition signals_ok (c : CPU) : Prop :=
  (execnmi c = true -> nmipending c = true) /\ (execirq c = true -> irqpending c = true).

(** ** Bytes *)

Lemma byte_testbit z : 0 <= z -> (forall i, 8 <= i -> Z.testbit z i = false) -> byte z.
Proof. intros H0 H. split; [done |]. apply (testbit_bounded z 8); done || lia. Qed.

Lemma byte_high z i : byte z -> 8 <= i -> Z.testbit z i = false.
Proof. intros [H0 H1] Hi. apply (testbit_above z 8); lia. Qed.

Lemma byte_lor a b : byte a -> byte b -> byte (Z.lor a b).
Proof.
  intros Ha Hb. apply byte_testbit; [apply Z.lor_nonneg; dlia |].
  intros i Hi. rewrite Z.lor_spec, !byte_high by done. done.
Qed.

Lemma byte_lxor a b : byte a -> byte b -> byte (Z.lxor a b).
Proof.
  intros Ha Hb. apply byte_testbit; [apply Z.lxor_nonneg; dlia |].
  intros i Hi. rewrite Z.lxor_spec, !byte_high by done. done.
Qed.

Lemma byte_land_l a b : byte a -> byte (Z.land a b).
Proof.
  intros Ha. apply byte_testbit; [apply Z.land_nonneg; dlia |].
  intros i Hi. rewrite Z.land_spec, byte_high by done. done.
Qed.

Lemma byte_shiftr1 z : byte z -> byte (Z.shiftr z 1).
Proof. intros H. rewrite Z.shiftr_div_pow2 by lia. change (2 ^ 1) with 2. dlia. Qed.

Lemma byte_status p : byte (byte_of_status p).
Proof. destruct p as [[] [] [] [] [] [] [] []]; unfold byte; vm_compute; by split. Qed.

Lemma byte_low z : byte (low z).
Proof. unfold low. dlia. Qed.
Lemma byte_hi z : word z -> byte (high z).
Proof. unfold high. dlia. Qed.
Lemma word_set_low z v : word z -> byte v -> word (set_low z v).
Proof. unfold set_low. dlia. Qed.
Lemma word_set_high z v : byte v -> word (set_high z v).
Proof. unfold set_high. dlia. Qed.
Lemma word_0 : word 0.
Proof. dlia. Qed.
Lemma byte_0 : byte 0.
Proof. dlia. Qed.
Lemma u64_range z : 0 <= u64 z < 2 ^ 64.
Proof. apply Z.mod_pos_bound. lia. Qed.
Lemma word_land_ff00 z : word z -> word (Z.land z 0xFF00).
Proof.
  intros Hz. change 0xFF00 with (Z.shiftl (Z.ones 8) 8).
  assert (Hn : 0 <= Z.land z (Z.shiftl (Z.ones 8) 8)) by (apply Z.land_nonneg; dlia).
  split; [done |]. apply (testbit_bounded _ 16); [lia | done |].
  intros i Hi. rewrite Z.land_spec, (testbit_above z 16) by (unfold word in Hz; lia). done.
Qed.

#[export] Hint Resolve byte_lor byte_lxor byte_land_l byte_shiftr1 byte_status byte_low byte_hi
  word_set_low word_set_high word_0 byte_0 u64_range word_land_ff00 ok_pc ok_acc ok_rx ok_ry ok_sp
  ok_cycles ok_opargs interrupt_vector_word : emu.

(** ** The registers stay within their widths *)

Lemma ok_last_cycle c : cpu_ok c -> cpu_ok (last_cycle c).
Proof. intros []. constructor; by rewrite ?last_cycle_r, ?last_cycle_opargs. Qed.

Lemma ok_cycle c : cpu_ok c -> cpu_ok (cycle c).
Proof. intros []. constructor; simpl; auto with emu. Qed.

Lemma ok_interrupt_vector c : cpu_ok c -> cpu_ok (snd (interrupt_vector c)).
Proof. intros []. constructor; by rewrite ?interrupt_vector_r, ?interrupt_vector_opargs. Qed.

Lemma ok_read_fn f v c : byte v -> cpu_ok c -> cpu_ok (read_fn f v c).
Proof. intros Hv []. destruct f; constructor; simpl; auto with emu. Qed.

Lemma ok_mod_fn f v c :
  byte v -> cpu_ok c -> byte (fst (mod_fn f v c)) /\ cpu_ok (snd (mod_fn f v c)).
Proof. intros Hv []. destruct f; (split; [| constructor]; simpl; auto with emu). Qed.

Lemma ok_set_reg n v c : byte v -> cpu_ok c -> cpu_ok (set_reg n v c).
Proof. intros Hv []. destruct n; by constructor. Qed.

Lemma ok_get_reg n c : cpu_ok c -> byte (get_reg n c).
Proof. intros []. by destruct n. Qed.

#[export] Hint Resolve ok_last_cycle ok_cycle ok_interrupt_vector ok_read_fn ok_set_reg
  ok_get_reg : emu.

Section Preserves.
Context {W : Type} `{MemOk : MemoryOk W}.
Variable cb : option (CPU -> Status -> Z -> AccessMode -> W -> Res W).
Hypothesis cb_ok : forall f c st a m w w', cb = Some f -> winv w -> f c st a m w = Ok w' -> winv w'.

(** A computation keeps the invariant and returns a value satisfying [Q]. *)
Definition preserves {A} (Q : A -> Prop) (m : M (CPU * W) A) : Prop :=
  forall c w a c' w', cpu_ok c -> winv w -> m (c, w) = Ok (a, (c', w')) ->
    cpu_ok c' /\ winv w' /\ Q a.

(** A fault of the memory or of the debugger's callback, at an address within 16
    bits and with the memory in its invariant. *)
Inductive outer_fault (f : Fault) : Prop :=
  | fault_read a w : word a -> winv w -> mread a w = Err f -> outer_fault f
  | fault_write a d w : word a -> byte d -> winv w -> mwrite a d w = Err f -> outer_fault f
  | fault_callback g c st a m w : cb = Some g -> winv w -> g c st a m w = Err f -> outer_fault f.

(** All faults of a computation are of this kind. *)
Definition faults_outside {A} (m : M (CPU * W) A) : Prop :=
  forall c w f, cpu_ok c -> winv w -> m (c, w) = Err f -> outer_fault f.

Definition sound {A} (Q : A -> Prop) (m : M (CPU * W) A) : Prop :=
  preserves Q m /\ faults_outside m.

Abbreviation always := (fun _ => True).

Lemma sound_bind {A B} (P : A -> Prop) (Q : B -> Prop) (m : M (CPU * W) A) (k : A -> M (CPU * W) B) :
  sound P m -> (forall a, P a -> sound Q (k a)) -> sound Q (bindM m k).
Proof.
  intros [Hm Fm] Hk. split.
  - intros c w b c' w' Hc Hw (a & [c1 w1] & H1 & H2)%bindM_Ok.
    apply Hm in H1 as (? & ? & ?); [| done | done]. by eapply Hk in H2.
  - intros c w f Hc Hw H. unfold bindM in H. destruct (m (c, w)) as [[a [c1 w1]] | g] eqn:E.
    + apply Hm in E as (? & ? & ?); [| done | done]. by eapply Hk in H.
    + injection H as ->. by eapply Fm.
Qed.

Lemma sound_upd f : (forall c, cpu_ok c -> cpu_ok (f c)) -> sound always (upd f).
Proof. intros Hf. split; [| done]. intros c w a c' w' Hc Hw [= -> ->]%upd_inv. auto. Qed.

(** The value read off the registers comes from some valid processor. *)
Definition of_cpu {A} (f : CPU -> A) (a : A) : Prop := exists c, cpu_ok c /\ a = f c.

Lemma sound_cpu_of {A} (f : CPU -> A) : sound (of_cpu f) (cpu_of f).
Proof.
  split; [| done]. intros c w a c' w' Hc Hw [-> [= -> ->]]%cpu_of_inv. split_and!; try done. by exists c.
Qed.

Lemma sound_ret {A} (Q : A -> Prop) a : Q a -> sound Q (retM a).
Proof. intros HQ. split; [| done]. intros c w b c' w' Hc Hw [= <- <- <-]. done. Qed.

Lemma sound_bus_read a : word a -> sound byte (bus_read a).
Proof.
  intros Ha. split.
  - intros c w v c' w' Hc Hw (? & [= -> ->] & H)%bus_read_inv. apply mread_ok in H as []; done.
  - intros c w f Hc Hw H. unfold bus_read in H.
    destruct (mread a w) as [[] |] eqn:E; [done |]. injection H as ->. by eapply fault_read.
Qed.

Lemma sound_bus_write a d : word a -> byte d -> sound always (bus_write a d).
Proof.
  intros Ha Hd. split.
  - intros c w v c' w' Hc Hw (? & [= -> ->] & H)%bus_write_inv. apply mwrite_ok in H; done.
  - intros c w f Hc Hw H. unfold bus_write in H.
    destruct (mwrite a d w) as [|] eqn:E; [done |]. injection H as ->. by eapply fault_write.
Qed.

Lemma sound_status : sound always status.
Proof.
  unfold status. eapply sound_bind; [apply sound_cpu_of | intros p (c & Hc & ->)].
  eapply sound_bind; [apply sound_cpu_of | intros ? _].
  repeat (eapply sound_bind; [apply sound_bus_read; auto with emu | intros ? _]).
  by apply sound_ret.
Qed.

Lemma sound_notify a m : sound always (notify cb a m).
Proof.
  unfold notify. destruct cb as [f |] eqn:Ecb; [| by apply sound_ret].
  eapply sound_bind; [apply sound_status |]. intros st _. split.
  - intros c w u c' w' Hc Hw (w1 & H & [= _ <- <-])%rbind_Ok. by eapply cb_ok in H.
  - intros c w g Hc Hw H. destruct (f c st a m w) as [|] eqn:E; [done |]. injection H as ->.
    by eapply fault_callback.
Qed.

Lemma sound_readmem a : word a -> sound byte (readmem cb a).
Proof.
  intros Ha. unfold readmem.
  eapply sound_bind; [apply sound_notify | intros ? _].
  eapply sound_bind; [apply sound_upd; auto with emu | intros ? _]. by apply sound_bus_read.
Qed.

Lemma sound_writemem a d : word a -> byte d -> sound always (writemem cb a d).
Proof.
  intros Ha Hd. unfold writemem.
  eapply sound_bind; [apply sound_notify | intros ? _].
  eapply sound_bind; [apply sound_upd; auto with emu | intros ? _]. by apply sound_bus_write.
Qed.

Lemma sound_read_at_pc : sound byte read_at_pc.
Proof.
  unfold read_at_pc. eapply sound_bind; [apply sound_cpu_of | intros p (c & Hc & ->)].
  eapply sound_bind; [apply sound_upd; intros ? []; constructor; simpl; auto with emu | intros ? _].
  apply sound_bus_read. auto with emu.
Qed.

Lemma sound_fetchop : sound byte fetchop.
Proof.
  eapply sound_bind; [apply sound_upd; auto with emu | intros ? _]. apply sound_read_at_pc.
Qed.

Lemma sound_fetch : sound byte (fetch cb).
Proof.
  unfold fetch. eapply sound_bind; [apply sound_cpu_of | intros p (c & Hc & ->)].
  eapply sound_bind; [apply sound_notify | intros ? _]. apply sound_fetchop.
Qed.

(** One step of a proof that a composite operation keeps the invariant. *)
Ltac ok_upd := apply sound_upd; intros ? ?;
  first [solve [auto with emu]
        | constructor; simpl; solve [auto 6 with emu]
        | destruct (negb _); solve [auto with emu]].
Ltac sound_tac :=
  repeat match goal with H : of_cpu _ _ |- _ => destruct H as (? & ? & ->) end;
  lazymatch goal with
  | |- sound _ (bindM _ _) => eapply sound_bind; [sound_tac | intros ? ?; sound_tac]
  | |- sound _ (upd _) => ok_upd
  | |- sound _ (retM _) => apply sound_ret; done
  | |- sound _ (readmem _ _) => apply sound_readmem
  | |- sound _ (writemem _ _ _) => apply sound_writemem
  | |- sound _ (bus_write _ _) => apply sound_bus_write
  | |- sound _ fetchop => apply sound_fetchop
  | |- sound _ (cpu_of _) => apply sound_cpu_of
  | |- _ => idtac
  end;
  auto with emu.

Lemma sound_push v : byte v -> sound always (push cb v).
Proof. intros Hv. unfold push. sound_tac. Qed.

Lemma sound_pull : sound byte (pull cb).
Proof. unfold pull. sound_tac. Qed.

Lemma sound_page res : sound always (cycle_if_page_differs res).
Proof. apply sound_upd. intros c Hc. destruct (negb _); auto with emu. Qed.

Lemma sound_apply_mod f v : byte v -> sound byte (apply_mod (mod_fn f) v).
Proof.
  intros Hv. split.
  - intros c w a c' w' Hc Hw [-> [= -> ->]]%apply_mod_inv. destruct (ok_mod_fn f v c Hv Hc). done.
  - intros c w g Hc Hw H. unfold apply_mod in H. by destruct (mod_fn f v c).
Qed.

Ltac sound_instr :=
  repeat match goal with H : of_cpu _ _ |- _ => destruct H as (? & ? & ->) end;
  lazymatch goal with
  | |- sound _ (bindM _ _) => eapply sound_bind; [sound_instr | intros ? ?; sound_instr]
  | |- sound _ (push _ _) => apply sound_push
  | |- sound _ (pull _) => apply sound_pull
  | |- sound _ (apply_mod _ _) => apply sound_apply_mod
  | |- sound _ (cycle_if_page_differs _) => apply sound_page
  | |- sound _ (if ?b then _ else _) => destruct b; sound_instr
  | |- _ => sound_tac
  end;
  auto with emu.
Ltac unfold_reads := unfold fetch_oplow, fetch_ophigh, oplow, opfull, xreg, yreg.

Lemma sound_interrupt : sound always (interrupt cb).
Proof. unfold interrupt. sound_instr. Qed.

Lemma sound_read m f : sound always (addrmode_read cb m (read_fn f)).
Proof. destruct m; simpl; unfold_instr; unfold_reads; sound_instr. Qed.

Lemma sound_modify m f : sound always (addrmode_modify cb m (mod_fn f)).
Proof. destruct m; simpl; unfold_instr; unfold_reads; sound_instr. Qed.

Lemma sound_write m v : byte v -> sound always (addrmode_write cb m v).
Proof. intros Hv. destruct m; simpl; unfold_instr; unfold_reads; sound_instr. Qed.

Lemma sound_impld f : sound always (instr_impld cb f).
Proof.
  destruct f; simpl; unfold_instr; unfold_reads; sound_instr;
    first [apply sound_interrupt | destruct (_ =? _); auto with emu].
Qed.

Lemma sound_case k : sound always (exec_case cb k).
Proof.
  destruct k as [f | f m | f m | m n | fl b | fl b | fr to]; simpl.
  - apply sound_impld.
  - apply sound_read.
  - apply sound_modify.
  - eapply sound_bind; [apply sound_cpu_of | intros v (c & Hc & ->)].
    apply sound_write. auto with emu.
  - eapply sound_bind; [apply sound_cpu_of | intros v _]. unfold_instr; unfold_reads; sound_instr.
  - unfold_instr. sound_instr.
  - eapply sound_bind; [apply sound_cpu_of | intros v (c & Hc & ->)]. unfold_instr. sound_instr.
Qed.

Lemma sound_execute id : sound always (execute cb id).
Proof. unfold execute. destruct (switch id); [apply sound_case | by apply sound_ret]. Qed.

Lemma sound_run : sound always (run cb).
Proof.
  unfold run. eapply sound_bind; [apply sound_cpu_of | intros [] _].
  { eapply sound_bind; [sound_tac | intros ? _].
    eapply sound_bind; [apply sound_interrupt | intros ? _]. sound_tac. }
  eapply sound_bind; [apply sound_cpu_of | intros [] _].
  { eapply sound_bind; [sound_tac | intros ? _].
    eapply sound_bind; [apply sound_interrupt | intros ? _]. sound_tac. }
  eapply sound_bind; [apply sound_fetch | intros id _]. apply sound_execute.
Qed.

Lemma sound_zero_range n first : 0 <= first -> first + Z.of_nat n <= 65536 ->
  sound always (zero_range n first).
Proof.
  intros H0 Hn. unfold zero_range. split.
  - intros c w u c' w' Hc Hw ([c1 w1] & H & [= <- <- <-])%rbind_Ok. revert first w H0 Hn Hw H.
    induction n as [| n IH]; intros first w H0 Hn Hw H; simpl in H; [by injection H as <- <- |].
    apply rbind_Ok in H as ([c2 w2] & (w3 & E & [= <- <-])%rbind_Ok & H).
    apply mwrite_ok in E; [| unfold word; lia | auto with emu | done].
    eapply IH; [| | | exact H]; [lia | lia | done].
  - intros c w f Hc Hw. revert first w H0 Hn Hw.
    induction n as [| n IH]; intros first w H0 Hn Hw H; simpl in H; [done |].
    destruct (mwrite first 0 w) as [w1 |] eqn:E; cbn [rbind] in H.
    + eapply IH; [| | | exact H]; [lia | lia |].
      apply mwrite_ok in E; [done | unfold word; lia | auto with emu | done].
    + injection H as ->. eapply fault_write; [| | exact Hw | exact E]; [unfold word; lia | auto with emu].
Qed.

Lemma sound_power : sound always (power cb).
Proof.
  unfold power. eapply sound_bind; [sound_tac | intros ? _].
  eapply sound_bind; [apply sound_zero_range; lia | intros ? _].
  eapply sound_bind; [sound_tac | intros ? _].
  eapply sound_bind; [apply sound_bus_write; dlia | intros ? _].
  eapply sound_bind; [apply sound_bus_write; dlia | intros ? _].
  eapply sound_bind; [apply sound_zero_range; lia | intros ? _].
  eapply sound_bind; [sound_tac | intros ? _].
  eapply sound_bind; [sound_tac | intros ? _]. apply sound_interrupt.
Qed.

Lemma sound_reset : sound always (reset cb).
Proof.
  unfold reset. eapply sound_bind; [apply sound_bus_write; dlia | intros ? _].
  eapply sound_bind; [sound_tac | intros ? _]. apply sound_interrupt.
Qed.

(** The parts of these facts that later files use. *)
Lemma pres_interrupt : preserves always (interrupt cb).
Proof. apply sound_interrupt. Qed.
Lemma pres_impld f : preserves always (instr_impld cb f).
Proof. apply sound_impld. Qed.
Lemma pres_run : preserves always (run cb).
Proof. apply sound_run. Qed.
Lemma run_faults : faults_outside (run cb).
Proof. apply sound_run. Qed.
End Preserves.

(** ** Interrupt signals *)

Section Signals.
Context {W : Type} `{MemW : Memory W}.
Variable cb : option (CPU -> Status -> Z -> AccessMode -> W -> Res W).

(** The interrupt lines of the processor: pending NMI, IRQ and reset, and the
    two interrupts marked for execution. *)
Definition sigs (c : CPU) : bool * bool * bool * bool * bool :=
  (nmipending c, irqpending c, resetpending c, execnmi c, execirq c).

Definition hoareS {A} (P Q : bool * bool * bool * bool * bool -> Prop) (m : M (CPU * W) A) : Prop :=
  forall c w a c' w', P (sigs c) -> m (c, w) = Ok (a, (c', w')) -> Q (sigs c').

Lemma hoareS_bind {A B} P R Q (m : M (CPU * W) A) (k : A -> M (CPU * W) B) :
  hoareS P R m -> (forall a, hoareS R Q (k a)) -> hoareS P Q (bindM m k).
Proof.
  intros Hm Hk c w b c' w' HP (a & [c1 w1] & H1 & H2)%bindM_Ok.
  eapply Hk; [| exact H2]. by eapply Hm.
Qed.

Lemma hoareS_upd P f : (forall c, sigs (f c) = sigs c) -> hoareS P P (upd f).
Proof. intros Hf c w a c' w' HP [= -> ->]%upd_inv. by rewrite Hf. Qed.

Lemma hoareS_upd_to P Q f : (forall c, P (sigs c) -> Q (sigs (f c))) -> hoareS P Q (upd f).
Proof. intros Hf c w a c' w' HP [= -> ->]%upd_inv. by apply Hf. Qed.

Lemma hoareS_cpu_of {A} P (f : CPU -> A) : hoareS P P (cpu_of f).
Proof. by intros c w a c' w' HP [-> [= -> ->]]%cpu_of_inv. Qed.
Lemma hoareS_ret {A} P (a : A) : hoareS P P (retM a).
Proof. by intros c w b c' w' HP [= _ <- _]. Qed.
Lemma hoareS_readmem P a : hoareS P P (readmem cb a).
Proof. by intros c w v c' w' HP (? & ? & [= -> ->] & _)%readmem_inv. Qed.
Lemma hoareS_writemem P a d : hoareS P P (writemem cb a d).
Proof. by intros c w v c' w' HP (? & ? & [= -> ->] & _)%writemem_inv. Qed.
Lemma hoareS_fetch P : hoareS P P (fetch cb).
Proof. by intros c w v c' w' HP (? & ? & [= -> ->] & _)%fetch_inv. Qed.
Lemma hoareS_fetch_oplow P : hoareS P P fetch_oplow.
Proof. by intros c w v c' w' HP (? & ? & [= -> ->] & _)%fetch_oplow_inv. Qed.
Lemma hoareS_fetch_ophigh P : hoareS P P fetch_ophigh.
Proof. by intros c w v c' w' HP (? & ? & [= -> ->] & _)%fetch_ophigh_inv. Qed.
Lemma hoareS_push P v : hoareS P P (push cb v).
Proof. by intros c w u c' w' HP (? & ? & [= -> ->] & _)%push_inv. Qed.
Lemma hoareS_pull P : hoareS P P (pull cb).
Proof. by intros c w u c' w' HP (? & ? & [= -> ->] & _)%pull_inv. Qed.

Lemma sigs_read_fn f v c : sigs (read_fn f v c) = sigs c.
Proof. by destruct f. Qed.
Lemma sigs_mod_fn f v c : sigs (snd (mod_fn f v c)) = sigs c.
Proof. by destruct f. Qed.
Lemma sigs_set_reg n v c : sigs (set_reg n v c) = sigs c.
Proof. by destruct n. Qed.

Lemma hoareS_apply_mod P f v : hoareS P P (apply_mod (mod_fn f) v).
Proof.
  intros c w a c' w' HP [-> [= -> ->]]%apply_mod_inv. by rewrite sigs_mod_fn.
Qed.

Ltac silent := intros ?; rewrite ?sigs_read_fn, ?sigs_set_reg;
  first [done | (destruct (negb _); done)].

(** The signal pairs of the invariant. *)
Definition sig_ok (s : bool * bool * bool * bool * bool) : Prop :=
  let '(n, i, _, en, ei) := s in (en = true -> n = true) /\ (ei = true -> i = true).

Lemma sig_ok_last_cycle c : sig_ok (sigs c) -> sig_ok (sigs (last_cycle c)).
Proof.
  destruct c as [rg n i rs en ei op]. unfold last_cycle, irqpoll, nmipoll, sig_ok. simpl.
  intros [H1 H2]. destruct en, n, ei, i; simpl in *; try destruct (intdis (flags rg)); simpl;
    auto; first [by specialize (H1 eq_refl) | by specialize (H2 eq_refl)].
Qed.

Ltac hoareS_tac :=
  lazymatch goal with
  | |- hoareS _ _ (bindM _ _) => eapply hoareS_bind; [hoareS_tac | intros ?; hoareS_tac]
  | |- hoareS sig_ok _ (upd last_cycle) => apply hoareS_upd_to; exact sig_ok_last_cycle
  | |- hoareS _ _ (upd _) => apply hoareS_upd; silent
  | |- hoareS _ _ (cycle_if_page_differs _) => apply hoareS_upd; silent
  | |- hoareS _ _ (retM _) => apply hoareS_ret
  | |- hoareS _ _ (readmem _ _) => apply hoareS_readmem
  | |- hoareS _ _ (writemem _ _ _) => apply hoareS_writemem
  | |- hoareS _ _ (push _ _) => apply hoareS_push
  | |- hoareS _ _ (pull _) => apply hoareS_pull
  | |- hoareS _ _ fetch_oplow => apply hoareS_fetch_oplow
  | |- hoareS _ _ fetch_ophigh => apply hoareS_fetch_ophigh
  | |- hoareS _ _ (apply_mod _ _) => apply hoareS_apply_mod
  | |- hoareS _ _ (if ?b then _ else _) => destruct b; hoareS_tac
  | |- hoareS _ _ _ => apply hoareS_cpu_of
  end.

(** The interrupt sequence changes the signals at one point only. *)
Lemma hoareS_interrupt P Q :
  (forall c, P (sigs c) -> Q (sigs (snd (interrupt_vector c)))) -> hoareS P Q (interrupt cb).
Proof.
  intros Hv. unfold interrupt.
  do 7 (eapply hoareS_bind; [hoareS_tac | intros ?]).
  eapply hoareS_bind; [hoareS_tac | intros ?].
  eapply hoareS_bind; [apply hoareS_upd_to; exact Hv | intros ?]. hoareS_tac.
Qed.

Lemma sig_case k : k <> INSTR_IMPLD Fn_brk -> hoareS sig_ok sig_ok (exec_case cb k).
Proof.
  intros Hk. destruct k as [f | f m | f m | m n | fl b | fl b | fr to]; simpl.
  - destruct f; simpl; unfold_instr; [done | hoareS_tac ..].
  - destruct m; simpl; unfold_instr; hoareS_tac.
  - destruct m; simpl; unfold_instr; hoareS_tac.
  - eapply hoareS_bind; [hoareS_tac | intros v]. destruct m; simpl; unfold_instr; hoareS_tac.
  - eapply hoareS_bind; [hoareS_tac | intros v]. unfold_instr; hoareS_tac.
  - unfold_instr; hoareS_tac.
  - eapply hoareS_bind; [hoareS_tac | intros v]. unfold_instr; hoareS_tac.
Qed.

Definition no_exec (s : bool * bool * bool * bool * bool) : Prop :=
  let '(_, _, _, en, ei) := s in en = false /\ ei = false.

Lemma no_exec_ok s : no_exec s -> sig_ok s.
Proof. destruct s as [[[[n i] rs] en] ei]. simpl. intros [-> ->]. done. Qed.

Lemma interrupt_vector_exec c :
  execnmi (snd (interrupt_vector c)) = execnmi c /\ execirq (snd (interrupt_vector c)) = execirq c.
Proof. unfold interrupt_vector. by repeat case_match. Qed.

Lemma sig_weaken {A} (P P' Q Q' : bool * bool * bool * bool * bool -> Prop) (m : M (CPU * W) A) :
  (forall s, P s -> P' s) -> (forall s, Q' s -> Q s) -> hoareS P' Q' m -> hoareS P Q m.
Proof. intros HP HQ Hm c w a c' w' H0 H. apply HQ. eapply Hm; [| exact H]. by apply HP. Qed.

Lemma sig_execute id : hoareS no_exec sig_ok (execute cb id).
Proof.
  unfold execute. destruct (switch id) as [k |].
  2: { intros c w a c' w' HP [= _ <- _]. by apply no_exec_ok. }
  destruct (decide (k = INSTR_IMPLD Fn_brk)) as [-> | Hne].
  - simpl. unfold_instr. eapply hoareS_bind; [hoareS_tac | intros ?].
    apply hoareS_interrupt. intros c Hc. apply no_exec_ok. unfold no_exec, sigs in *.
    by destruct (interrupt_vector_exec c) as [-> ->].
  - eapply sig_weaken; [exact no_exec_ok | done | by apply sig_case].
Qed.

Lemma sig_run : hoareS sig_ok sig_ok (run cb).
Proof.
  intros c w a c' w' HP. unfold run. intros (? & ? & [-> ->]%cpu_of_inv & H)%bindM_Ok.
  destruct (execnmi c) eqn:En.
  { revert HP H. assert (Hn : sig_ok (sigs c) -> nmipending c = true /\
      (execirq c = true -> irqpending c = true)) by (unfold sig_ok, sigs; tauto).
    intros HP%Hn H. revert H.
    eapply (hoareS_bind (fun '(n, i, _, _, ei) => n = true /\ (ei = true -> i = true))
      (fun '(n, i, _, _, ei) => n = true /\ (ei = true -> i = true))); [hoareS_tac | | exact HP].
    intros ?. eapply hoareS_bind with (R := fun '(_, i, _, _, ei) => ei = true -> i = true).
    - apply hoareS_interrupt. intros [rg n i rs en ei op]. unfold sigs, interrupt_vector. simpl.
      intros [-> ?]. by destruct rs.
    - intros ?. apply hoareS_upd_to. intros c0 H0. by split. }
  apply bindM_Ok in H as (? & ? & [-> ->]%cpu_of_inv & H). destruct (execirq c) eqn:Ei.
  { revert H. eapply (hoareS_bind (fun '(_, _, _, en, _) => en = false)
      (fun '(_, _, _, en, _) => en = false)); [hoareS_tac | | exact En].
    intros ?. eapply hoareS_bind with (R := fun '(_, _, _, en, _) => en = false).
    - apply hoareS_interrupt. intros c0. unfold sigs.
      by destruct (interrupt_vector_exec c0) as [-> _].
    - intros ?. apply hoareS_upd_to. intros c0 H0. unfold sig_ok, sigs in *. simpl.
      by rewrite H0. }
  revert H. eapply (hoareS_bind no_exec no_exec); [apply hoareS_fetch | | by split].
  intros id. apply sig_execute.
Qed.
End Signals.

(** ** The extra cycle of the indexed modes *)

(** [addrmode_absx_read] compares the high byte of the operand with the high byte
    of the value it has read, which is zero. *)
Lemma absx_read_elapsed {W} `{MemOk : MemoryOk W} f c w c' w' :
  cpu_ok c -> winv w -> addrmode_absx_read None (read_fn f) (c, w) = Ok (tt, (c', w')) ->
  u64 (cycles (r c')) = u64 (cycles (r c) + (if high (opargs c') =? 0 then 3 else 4)).
Proof.
  intros Hc Hw H. unfold addrmode_absx_read in H. pose proof (ok_pc c Hc) as Hp.
  apply bindM_Ok in H as (? & ? & (lo & w1 & -> & R1)%fetch_oplow_inv & H).
  apply bindM_Ok in H as (? & ? & (hi & w2 & -> & R2)%fetch_ophigh_inv & H).
  apply bindM_Ok in H as (? & ? & [-> ->]%cpu_of_inv & H).
  apply bindM_Ok in H as (? & ? & [-> ->]%cpu_of_inv & H).
  apply bindM_Ok in H as (v & ? & (w3 & w4 & -> & N & R3)%readmem_inv & H).
  injection N as <-. minv.
  apply mread_ok in R1 as [_ Hw1]; [| done | done].
  apply mread_ok in R2 as [_ Hw2]; [| simpl; auto with emu | done].
  apply mread_ok in R3 as [Hv _]; [| auto with emu | done].
  assert (Eh : high v = 0) by (unfold high; dlia).
  cbv beta. rewrite Eh, last_cycle_r, last_cycle_opargs, read_fn_opargs.
  set (o := opargs _). destruct (high o =? 0) eqn:Eo; cbn [negb].
  - rewrite read_fn_opargs. fold o. rewrite Eo, read_fn_cycles. cpu_simpl.
    repeat first [rewrite u64_u64_add | rewrite <- Z.add_assoc | rewrite u64_u64]. done.
  - change (opargs (cycle ?z)) with (opargs z). rewrite read_fn_opargs. fold o. rewrite Eo. cpu_simpl.
    repeat first [rewrite u64_u64_add | rewrite <- Z.add_assoc | rewrite u64_u64]. done.
Qed.
