(* ===== verification/CpuSim.v ===== *)
(** * Simulation between two runs of the CPU

    The CPU treats its memory and its fetch callback uniformly: if a relation
    between two worlds is kept by every read, every write and every notification
    of the callback, it is kept by every instruction, by interrupts, and by
    power-on and reset, with the same registers and results on both sides.  The
    lemmas below are the congruence rules of that simulation, one per construct. *)

From S2P Require Import Prelude InstrInfo Cpu CpuFacts.
Open Scope Z_scope.

Section Sim.
Context {W : Type} `{MemW : Memory W}.
Variable R : W -> W -> Prop.
Variables cb1 cb2 : option (CPU -> Status -> Z -> AccessMode -> W -> Res W).

(** If the first run succeeds, so does the second, alike but for the worlds. *)
Definition sim {A} (m1 m2 : M (CPU * W) A) : Prop :=
  forall c w1 w2 a c' w1', R w1 w2 -> m1 (c, w1) = Ok (a, (c', w1')) ->
    exists w2', m2 (c, w2) = Ok (a, (c', w2')) /\ R w1' w2'.

Hypothesis R_read : forall a w1 w2 v w1', R w1 w2 -> mread a w1 = Ok (v, w1') ->
  exists w2', mread a w2 = Ok (v, w2') /\ R w1' w2'.
Hypothesis R_write : forall a d w1 w2 w1', R w1 w2 -> mwrite a d w1 = Ok w1' ->
  exists w2', mwrite a d w2 = Ok w2' /\ R w1' w2'.
Hypothesis R_notify : forall a m, sim (notify cb1 a m) (notify cb2 a m).

Lemma sim_bind {A B} (m1 m2 : M (CPU * W) A) (k1 k2 : A -> M (CPU * W) B) :
  sim m1 m2 -> (forall a, sim (k1 a) (k2 a)) -> sim (bindM m1 k1) (bindM m2 k2).
Proof.
  intros Hm Hk c w1 w2 b c' w1' HR (a & [c1 w3] & H1 & H2)%bindM_Ok.
  destruct (Hm _ _ _ _ _ _ HR H1) as (w4 & E & HR'). rewrite (bindM_run _ _ _ _ _ E).
  by eapply Hk.
Qed.

Lemma sim_upd f : sim (upd f) (upd f).
Proof. intros c w1 w2 a c' w1' HR [= <- <- <-]. by exists w2. Qed.
Lemma sim_cpu_of {A} (f : CPU -> A) : sim (cpu_of f) (cpu_of f).
Proof. intros c w1 w2 a c' w1' HR [= <- <- <-]. by exists w2. Qed.
Lemma sim_ret {A} (a : A) : sim (retM a) (retM a).
Proof. intros c w1 w2 b c' w1' HR [= <- <- <-]. by exists w2. Qed.
Lemma sim_apply_mod f v : sim (apply_mod f v) (apply_mod f v).
Proof.
  intros c w1 w2 b c' w1' HR. unfold apply_mod. destruct (f v c) as [x c1].
  intros [= <- <- <-]. by exists w2.
Qed.

Lemma sim_bus_read a : sim (bus_read a) (bus_read a).
Proof.
  intros c w1 w2 v c' w1' HR (w3 & [= -> ->] & H)%bus_read_inv.
  destruct (R_read _ _ _ _ _ HR H) as (w4 & E & HR'). exists w4. unfold bus_read. by rewrite E.
Qed.
Lemma sim_bus_write a d : sim (bus_write a d) (bus_write a d).
Proof.
  intros c w1 w2 v c' w1' HR (w3 & [= -> ->] & H)%bus_write_inv.
  destruct (R_write _ _ _ _ _ HR H) as (w4 & E & HR'). exists w4. unfold bus_write. rewrite E. by destruct v.
Qed.

(** One congruence step. *)
Ltac sim_tac :=
  lazymatch goal with
  | |- sim (bindM _ _) (bindM _ _) => eapply sim_bind; [sim_tac | intros ?; sim_tac]
  | |- sim (upd _) _ => apply sim_upd
  | |- sim (cpu_of _) _ => apply sim_cpu_of
  | |- sim (retM _) _ => apply sim_ret
  | |- sim (apply_mod _ _) _ => apply sim_apply_mod
  | |- sim (bus_read _) _ => apply sim_bus_read
  | |- sim (bus_write _ _) _ => apply sim_bus_write
  | |- sim (notify _ _ _) _ => apply R_notify
  | |- sim (cycle_if_page_differs _) _ => apply sim_upd
  | |- sim (if ?b then _ else _) _ => destruct b; sim_tac
  | |- sim (readmem _ _) _ => unfold readmem; sim_tac
  | |- sim (writemem _ _ _) _ => unfold writemem; sim_tac
  | |- sim (push _ _) _ => unfold push; sim_tac
  | |- sim (pull _) _ => unfold pull; sim_tac
  | |- sim fetchop _ => unfold fetchop; sim_tac
  | |- sim read_at_pc _ => unfold read_at_pc; sim_tac
  | |- sim (fetch _) _ => unfold fetch; sim_tac
  | |- sim (interrupt _) _ => unfold interrupt; sim_tac
  | |- _ => idtac
  end.
Ltac sim_instr := simpl; unfold_instr; unfold fetch_oplow, fetch_ophigh, oplow, opfull, xreg, yreg; sim_tac.

Lemma sim_status : sim status status.
Proof. unfold status. sim_tac. Qed.

Lemma sim_interrupt : sim (interrupt cb1) (interrupt cb2).
Proof. sim_tac. Qed.
Lemma sim_read m f : sim (addrmode_read cb1 m f) (addrmode_read cb2 m f).
Proof. destruct m; sim_instr. Qed.
Lemma sim_modify m f : sim (addrmode_modify cb1 m f) (addrmode_modify cb2 m f).
Proof. destruct m; sim_instr. Qed.
Lemma sim_write m v : sim (addrmode_write cb1 m v) (addrmode_write cb2 m v).
Proof. destruct m; sim_instr. Qed.
Lemma sim_impld f : sim (instr_impld cb1 f) (instr_impld cb2 f).
Proof. destruct f; sim_instr. Qed.

Lemma sim_case k : sim (exec_case cb1 k) (exec_case cb2 k).
Proof.
  destruct k as [f | f m | f m | m n | fl b | fl b | fr to]; simpl.
  - apply sim_impld.
  - apply sim_read.
  - apply sim_modify.
  - eapply sim_bind; [apply sim_cpu_of | intros v; apply sim_write].
  - eapply sim_bind; [apply sim_cpu_of | intros v; sim_instr].
  - sim_instr.
  - eapply sim_bind; [apply sim_cpu_of | intros v; sim_instr].
Qed.

Lemma sim_execute id : sim (execute cb1 id) (execute cb2 id).
Proof. unfold execute. destruct (switch id); [apply sim_case | apply sim_ret]. Qed.

Lemma sim_run : sim (run cb1) (run cb2).
Proof.
  unfold run. eapply sim_bind; [apply sim_cpu_of | intros []].
  { eapply sim_bind; [apply sim_upd | intros ?].
    eapply sim_bind; [apply sim_interrupt | intros ?; apply sim_upd]. }
  eapply sim_bind; [apply sim_cpu_of | intros []].
  { eapply sim_bind; [apply sim_upd | intros ?].
    eapply sim_bind; [apply sim_interrupt | intros ?; apply sim_upd]. }
  eapply sim_bind; [sim_tac | intros id; apply sim_execute].
Qed.

(** [nextaddr] reads the bus only. *)
Lemma sim_nextaddr : sim nextaddr nextaddr.
Proof.
  unfold nextaddr. do 6 (eapply sim_bind; [sim_tac | intros ?]).
  repeat lazymatch goal with |- sim (match ?x with _ => _ end) _ => destruct x end; sim_tac.
Qed.
End Sim.
