(* ===== verification/CpuAlu.v ===== *)
(** * Arithmetic of the CPU

    The instruction functions of [instructions.cpp] against plain arithmetic
    on bytes: what the accumulator and each flag are afterwards. *)

From S2P Require Import Prelude InstrInfo Cpu CpuFacts CpuInv.
Open Scope Z_scope.

(** ** Bits and arithmetic *)

Lemma flag80 z : tobool (Z.land z 0x80) = Z.testbit z 7.
Proof. apply (tobool_land_pow2 z 7). lia. Qed.

Lemma flag80_byte z : byte z -> tobool (Z.land z 0x80) = (128 <=? z).
Proof. intros Hz. by rewrite flag80, testbit7_byte. Qed.

Lemma testbit7_u8 z : Z.testbit (u8 z) 7 = Z.testbit z 7.
Proof. unfold u8. by rewrite Z.mod_pow2_bits_low by lia. Qed.

Lemma flag80_u8 z : tobool (Z.land z 0x80) = (128 <=? u8 z).
Proof. rewrite flag80, <- testbit7_u8. apply testbit7_byte. auto with emu. Qed.

(** The overflow expression of [instr_adc] and [instr_sbc]. *)
Lemma overflow_bit a sum v :
  tobool (Z.land (Z.land (Z.lxor a sum) (Z.lnot (Z.lxor a v))) 0x80) =
    xorb (Z.testbit a 7) (Z.testbit sum 7) && negb (xorb (Z.testbit a 7) (Z.testbit v 7)).
Proof.
  rewrite flag80, Z.land_spec, Z.lxor_spec, Z.lnot_spec, Z.lxor_spec by lia. done.
Qed.

Lemma lnot_u8 v : byte v -> u8 (Z.lnot v) = 255 - v.
Proof. intros Hv. unfold Z.lnot. dlia. Qed.

Lemma s8_cases z : byte z -> s8 z = if 128 <=? z then z - 256 else z.
Proof. intros Hz. unfold s8. rewrite u8_id by done. zcases. Qed.

(** ** Signed reading of a byte, for the overflow flag *)

Definition in_s8 (z : Z) : bool := (-128 <=? z) && (z <? 128).

(** ** Addition *)

Lemma adc_spec v c : byte (acc (r c)) -> byte v ->
  let a := acc (r c) in let cin := Z.b2z (carry (flags (r c))) in
  let c' := instr_adc v c in let f' := flags (r c') in
  acc (r c') = (a + v + cin) mod 256 /\
  carry f' = (256 <=? a + v + cin) /\
  zero f' = (acc (r c') =? 0) /\
  neg f' = (128 <=? acc (r c')) /\
  ov f' = negb (in_s8 (s8 a + s8 v + cin)).
Proof.
  intros Ha Hv a cin c' f'. subst c' f'. simpl. fold a cin.
  assert (Hcin : 0 <= cin <= 1) by (unfold cin; destruct (carry _); simpl; lia).
  split_and!; [done | zcases | done | apply flag80_u8 |].
  rewrite overflow_bit, <- (testbit7_u8 (a + v + cin)), !testbit7_byte by auto with emu.
  rewrite !s8_cases by done. unfold in_s8, a in *.
  destruct (Z.leb_spec 128 (acc (r c))), (Z.leb_spec 128 v); simpl; zcases; dlia.
Qed.

(** ** Subtraction *)

Lemma sbc_spec v c : byte (acc (r c)) -> byte v ->
  let a := acc (r c) in let borrow := 1 - Z.b2z (carry (flags (r c))) in
  let c' := instr_sbc v c in let f' := flags (r c') in
  acc (r c') = (a - v - borrow) mod 256 /\
  carry f' = (0 <=? a - v - borrow) /\
  zero f' = (acc (r c') =? 0) /\
  neg f' = (128 <=? acc (r c')).
Proof.
  intros Ha Hv a borrow c' f'. subst c' f'. simpl. fold a. rewrite lnot_u8 by done.
  assert (Hb : Z.b2z (carry (flags (r c))) = 1 - borrow) by (unfold borrow; lia).
  rewrite Hb. unfold a in *.
  assert (E : u8 (acc (r c) + (255 - v) + (1 - borrow)) = (acc (r c) - v - borrow) mod 256) by dlia.
  split_and!; [done | zcases | by rewrite E | by rewrite flag80_u8].
Qed.

Lemma sbc_ov_spec v c : byte (acc (r c)) -> byte v ->
  let a := acc (r c) in let borrow := 1 - Z.b2z (carry (flags (r c))) in
  ov (flags (r (instr_sbc v c))) = true -> in_s8 (s8 a - s8 v - borrow) = true.
Proof.
  intros Ha Hv a borrow. simpl. fold a. rewrite lnot_u8 by done.
  assert (Hb : Z.b2z (carry (flags (r c))) = 1 - borrow) by (unfold borrow; lia).
  assert (Hcin : 0 <= borrow <= 1) by (unfold borrow; destruct (carry _); simpl; lia).
  rewrite overflow_bit, <- (testbit7_u8 (_ + _)), !testbit7_byte, Hb by auto with emu.
  rewrite !s8_cases by done. unfold in_s8, a in *.
  destruct (Z.leb_spec 128 (acc (r c))), (Z.leb_spec 128 v); simpl; zcases; dlia.
Qed.

Lemma sbc_never_flags_overflow v c : byte (acc (r c)) -> byte v ->
  in_s8 (s8 (acc (r c)) - s8 v - (1 - Z.b2z (carry (flags (r c))))) = false ->
  ov (flags (r (instr_sbc v c))) = false.
Proof.
  intros Ha Hv H. destruct (ov _) eqn:E; [| done].
  by rewrite (sbc_ov_spec v c Ha Hv E) in H.
Qed.

(** ** Comparison *)

Lemma compare_spec reg v c : byte reg -> byte v ->
  let f' := flags (r (compare_flags reg v c)) in
  carry f' = (v <=? reg) /\ zero f' = (reg =? v) /\ neg f' = (128 <=? (reg - v) mod 256).
Proof.
  intros Hr Hv f'. subst f'. simpl. split_and!; [zcases | zcases | apply flag80_u8].
Qed.

(** ** Shifts and rotations *)

Lemma flag1 z : tobool (Z.land z 1) = Z.odd z.
Proof. rewrite <- Z.bit0_odd. apply (tobool_land_pow2 z 0). lia. Qed.

Lemma lor_b2z_even z b : 0 <= z -> Z.lor (2 * z) (Z.b2z b) = 2 * z + Z.b2z b.
Proof. intros Hz. destruct b, z; done || lia. Qed.

Lemma shl1 z : Z.shiftl z 1 = 2 * z.
Proof. rewrite Z.shiftl_mul_pow2 by lia. lia. Qed.
Lemma shr1 z : Z.shiftr z 1 = z / 2.
Proof. by rewrite Z.shiftr_div_pow2 by lia. Qed.

(** Setting bit 7 of a value below 128. *)
Lemma lor_bit7 z b : 0 <= z < 128 -> Z.lor z (Z.shiftl (Z.b2z b) 7) = z + 128 * Z.b2z b.
Proof.
  intros Hz. destruct b; simpl Z.b2z; [| by rewrite Z.shiftl_0_l, Z.lor_0_r, Z.mul_0_r, Z.add_0_r].
  change (Z.shiftl 1 7) with (2 ^ 7). rewrite Z.add_nocarry_lxor, Z.lxor_lor; [done | |].
  all: apply Z.bits_inj'; intros i Hi; rewrite Z.land_spec, Z.bits_0.
  all: change (128 * 1) with (2 ^ 7); rewrite ?Z.pow2_bits_eqb by lia.
  all: destruct (Z.eqb_spec 7 i) as [<- |]; [| apply andb_false_r].
  all: by rewrite (testbit_above z 7) by lia.
Qed.

Lemma shift_spec v c : byte v ->
  let cin := carry (flags (r c)) in
  (fst (instr_asl v c) = (2 * v) mod 256 /\ carry (flags (r (snd (instr_asl v c)))) = (128 <=? v)) /\
  (fst (instr_lsr v c) = v / 2 /\ carry (flags (r (snd (instr_lsr v c)))) = Z.odd v) /\
  (fst (instr_rol v c) = (2 * v + Z.b2z cin) mod 256 /\
     carry (flags (r (snd (instr_rol v c)))) = (128 <=? v)) /\
  (fst (instr_ror v c) = v / 2 + 128 * Z.b2z cin /\
     carry (flags (r (snd (instr_ror v c)))) = Z.odd v).
Proof.
  intros Hv cin. simpl. fold cin.
  rewrite !flag80_byte, !flag1, !shl1, !shr1 by done.
  assert (0 <= v / 2 < 128) by dlia.
  rewrite lor_b2z_even, lor_bit7 by dlia.
  assert (0 <= Z.b2z cin <= 1) by (destruct cin; simpl; lia).
  split_and!; try done. dlia.
Qed.

(** A rotation is undone by the opposite one. *)
Lemma rol_ror v c : byte v ->
  let '(v1, c1) := instr_rol v c in let '(v2, c2) := instr_ror v1 c1 in
  v2 = v /\ carry (flags (r c2)) = carry (flags (r c)).
Proof.
  intros Hv. destruct (instr_rol v c) as [v1 c1] eqn:E1.
  destruct (instr_ror v1 c1) as [v2 c2] eqn:E2.
  destruct (shift_spec v c Hv) as (_ & _ & [H1 H2] & _). rewrite E1 in H1, H2. simpl in H1, H2.
  assert (Hv1 : byte v1) by dlia.
  destruct (shift_spec v1 c1 Hv1) as (_ & _ & _ & [H3 H4]). rewrite E2 in H3, H4.
  simpl in H3, H4. rewrite H2 in H3.
  assert (E : v1 = 2 * (v mod 128) + Z.b2z (carry (flags (r c)))).
  { destruct (carry (flags (r c))); simpl in *; dlia. }
  split.
  - rewrite H3, E. destruct (carry (flags (r c))), (Z.leb_spec 128 v); simpl; dlia.
  - rewrite H4, E. rewrite Z.add_comm, Z.odd_add_mul_2. by destruct (carry _).
Qed.
