(* ===== verification/CpuStack.v ===== *)
(** * The stack of the CPU

    What is pushed is pulled back: accumulator, flags, return addresses and
    interrupted programs.  The stack page is ordinary RAM, mirrored every 2 KiB;
    [RamLaws] states what the CPU relies on from the bus in that region. *)

From S2P Require Import Prelude InstrInfo Cpu CpuFacts CpuCycles CpuInv.
Open Scope Z_scope.

Class RamLaws (W : Type) {MemW : Memory W} {MemOk : MemoryOk W} := {
  quiet : Z -> Prop;    (** addresses of memory: RAM and ROM, not registers *)
  peek : W -> Z -> Z;   (** the byte at such an address *)
  quiet_ram : forall a, 0 <= a < 0x2000 -> quiet a;
  quiet_vectors : forall a, NMI_VEC <= a <= IRQ_BRK_VEC + 1 -> quiet a;
  quiet_read : forall a w, winv w -> quiet a -> mread a w = Ok (peek w a, w);
  ram_write : forall a v w, winv w -> 0 <= a < 0x2000 -> byte v ->
    exists w', mwrite a v w = Ok w' /\ winv w' /\
      (forall b, 0 <= b < 0x2000 -> peek w' b = if b mod 0x800 =? a mod 0x800 then v else peek w b) /\
      (forall b, quiet b -> 0x2000 <= b -> peek w' b = peek w b);
  io_write : forall a v w, winv w -> 0x4000 <= a < 0x4018 -> byte v ->
    exists w', mwrite a v w = Ok w' /\ winv w' /\ forall b, quiet b -> peek w' b = peek w b;
  quiet_stable : forall a w v w', winv w -> word a -> mread a w = Ok (v, w') ->
    forall b, quiet b -> peek w' b = peek w b;
}.

(** The two worlds have the same ROM. *)
Definition same_rom {W} `{RamLaws W} (w w' : W) : Prop :=
  forall b, quiet b -> 0x2000 <= b -> peek w' b = peek w b.

(** ** Pushing and pulling *)

Section Stack.
Context {W : Type} `{Ram : RamLaws W}.
Implicit Types (c : CPU) (w : W).

(** The stack byte at pointer [s]. *)
Definition stack w (s : Z) : Z := peek w (s + STACK_BASE).

Lemma stack_addr s : byte s -> 0 <= s + STACK_BASE < 0x2000 /\ u16 (s + STACK_BASE) = s + STACK_BASE.
Proof. unfold STACK_BASE. dlia. Qed.

Lemma push_run v c w : cpu_ok c -> winv w -> byte v ->
  exists w', push None v (c, w) = Ok (tt, (pushed c, w')) /\ winv w' /\ same_rom w w' /\
    forall s, byte s -> stack w' s = if s =? sp (r c) then v else stack w s.
Proof.
  intros Hc Hw Hv. pose proof (ok_sp c Hc) as Hs.
  destruct (stack_addr _ Hs) as [Ha E].
  destruct (ram_write (sp (r c) + STACK_BASE) v w Hw Ha Hv) as (w' & Ew & Hw' & Hp & Hr).
  exists w'. split_and!; [| done | done |].
  - unfold push, writemem, bindM, cpu_of, notify, upd, bus_write, retM. rewrite E, Ew. done.
  - intros s Hsb. unfold stack. rewrite Hp by (unfold STACK_BASE in *; dlia).
    unfold STACK_BASE. rewrite !Z.mod_small by dlia. zcases.
Qed.

Lemma pull_run c w : cpu_ok c -> winv w ->
  pull None (c, w) = Ok (stack w (u8 (sp (r c) + 1)), (pulled c, w)).
Proof.
  intros Hc Hw. destruct (stack_addr (u8 (sp (r c) + 1))) as [Ha E]; [auto with emu |].
  unfold pull, readmem, bindM, cpu_of, notify, upd, bus_read, retM. simpl r. simpl sp.
  rewrite E, (quiet_read _ _ Hw (quiet_ram _ Ha)). done.
Qed.

Lemma stack_byte w s : winv w -> byte s -> byte (stack w s).
Proof.
  intros Hw Hs. destruct (stack_addr s Hs) as [Ha _].
  eapply mread_ok; [| done | by apply quiet_read, quiet_ram]. dlia.
Qed.

Lemma ok_pushed c : cpu_ok c -> cpu_ok (pushed c).
Proof. intros []. constructor; simpl; auto with emu. Qed.
Lemma ok_pulled c : cpu_ok c -> cpu_ok (pulled c).
Proof. intros []. constructor; simpl; auto with emu. Qed.

(** ** Status byte *)

Lemma status_roundtrip p : status_of_byte (byte_of_status p) = p.
Proof. by destruct p as [[] [] [] [] [] [] [] []]. Qed.

Lemma status_bit z k : 0 <= k -> Z.testbit (Z.shiftl (Z.b2z z) k) k = z.
Proof. intros Hk. rewrite Z.shiftl_spec, Z.sub_diag by lia. by destruct z. Qed.

(** ** [PHA]/[PLA] and [PHP]/[PLP] *)

Lemma pha_run c w : cpu_ok c -> winv w ->
  exists c1 w1, instr_pha None (c, w) = Ok (tt, (c1, w1)) /\ winv w1 /\
    sp (r c1) = u8 (sp (r c) - 1) /\ stack w1 (sp (r c)) = acc (r c).
Proof.
  intros Hc Hw.
  destruct (push_run (acc (r c)) (cycle c) w) as (w1 & E & Hw1 & _ & Hst); [auto with emu .. |].
  exists (last_cycle (pushed (cycle c))), w1. split_and!; [| done | by rewrite last_cycle_r |].
  - unfold instr_pha. mrun. done.
  - rewrite Hst by auto with emu. cbn. by rewrite Z.eqb_refl.
Qed.

Lemma pla_run c w : cpu_ok c -> winv w ->
  exists c1, instr_pla None (c, w) = Ok (tt, (c1, w)) /\
    sp (r c1) = u8 (sp (r c) + 1) /\ acc (r c1) = stack w (u8 (sp (r c) + 1)) /\
    zero (flags (r c1)) = (acc (r c1) =? 0) /\ neg (flags (r c1)) = tobool (Z.land (acc (r c1)) 0x80).
Proof.
  intros Hc Hw. pose proof (pull_run (cycle (cycle c)) w) as E.
  specialize (E ltac:(auto with emu) Hw). eexists. split.
  - unfold instr_pla. mrun. reflexivity.
  - cpu_simpl. done.
Qed.

Lemma php_run c w : cpu_ok c -> winv w ->
  exists c1 w1, instr_php None (c, w) = Ok (tt, (c1, w1)) /\ winv w1 /\
    sp (r c1) = u8 (sp (r c) - 1) /\ flags (r c1) = set_breakf false (flags (r c)) /\
    stack w1 (sp (r c)) = byte_of_status (set_breakf true (flags (r c))).
Proof.
  intros Hc Hw. set (c0 := set_flags (set_breakf true) (cycle c)).
  assert (Hc0 : cpu_ok c0) by (destruct Hc; constructor; simpl; auto with emu).
  destruct (push_run (byte_of_status (set_breakf true (flags (r c)))) c0 w)
    as (w1 & E & Hw1 & _ & Hst); [auto with emu .. |].
  eexists _, w1. split_and!; [unfold instr_php; mrun; reflexivity | done | | |].
  1, 2: cpu_simpl; done.
  rewrite Hst by auto with emu. cbn. by rewrite Z.eqb_refl.
Qed.

Lemma plp_run c w : cpu_ok c -> winv w ->
  exists c1, instr_plp None (c, w) = Ok (tt, (c1, w)) /\
    sp (r c1) = u8 (sp (r c) + 1) /\
    flags (r c1) = set_breakf false (status_of_byte (stack w (u8 (sp (r c) + 1)))).
Proof.
  intros Hc Hw. pose proof (pull_run (last_cycle (cycle (cycle c))) w) as E.
  specialize (E ltac:(auto with emu) Hw). eexists. split.
  - unfold instr_plp. mrun. reflexivity.
  - cpu_simpl. done.
Qed.

(** ** [JSR]/[RTS] and interrupts/[RTI] *)

Lemma u8_succ_pred s : byte s -> u8 (u8 (s - 1) + 1) = s.
Proof. dlia. Qed.

Lemma set_low_high z v1 v2 : byte v1 -> set_high (set_low z v1) v2 = v2 * 256 + v1.
Proof. unfold set_high, set_low. dlia. Qed.

Lemma high_low z : high z * 256 + low z = z.
Proof. unfold high, low. dlia. Qed.

(** Two pushes in a row: the return address. *)
Lemma push2_run v1 v2 c w : cpu_ok c -> winv w -> byte v1 -> byte v2 ->
  exists w1 w2, push None v1 (c, w) = Ok (tt, (pushed c, w1)) /\
    push None v2 (pushed c, w1) = Ok (tt, (pushed (pushed c), w2)) /\ winv w2 /\
    same_rom w w2 /\ stack w2 (sp (r c)) = v1 /\ stack w2 (u8 (sp (r c) - 1)) = v2.
Proof.
  intros Hc Hw H1 H2.
  destruct (push_run v1 c w) as (w1 & E1 & Hw1 & R1 & S1); [done .. |].
  destruct (push_run v2 (pushed c) w1) as (w2 & E2 & Hw2 & R2 & S2); [by apply ok_pushed | done .. |].
  exists w1, w2. split_and!; [done .. | | |].
  - intros b Hq Hb. by rewrite R2, R1.
  - rewrite S2, S1 by auto with emu. cbn. pose proof (ok_sp c Hc).
    rewrite Z.eqb_refl. zcases. dlia.
  - rewrite S2 by auto with emu. cbn. by rewrite Z.eqb_refl.
Qed.

Lemma rts_run c w : cpu_ok c -> winv w ->
  exists c1, instr_rts None (c, w) = Ok (tt, (c1, w)) /\
    sp (r c1) = u8 (sp (r c) + 2) /\
    pc (r c1) = u16 (stack w (u8 (sp (r c) + 2)) * 256 + stack w (u8 (sp (r c) + 1)) + 1).
Proof.
  intros Hc Hw. pose proof (pull_run (cycle (cycle c)) w) as E1.
  specialize (E1 ltac:(auto with emu) Hw).
  set (lo := stack w (u8 (sp (r (cycle (cycle c))) + 1))) in *.
  set (c1 := set_pc (set_low (pc (r c)) lo) (pulled (cycle (cycle c)))).
  assert (Hlo : byte lo) by (apply stack_byte; auto with emu).
  assert (Hc1 : cpu_ok c1) by (destruct Hc; constructor; simpl; auto with emu).
  pose proof (pull_run c1 w Hc1 Hw) as E2.
  eexists. split.
  - unfold instr_rts. mrun. change (set_pc _ (pulled (cycle (cycle c)))) with c1. mrun. reflexivity.
  - cpu_simpl. unfold c1. cpu_simpl. rewrite set_low_high, !u8_u8_add by done.
    replace (sp (r c) + 1 + 1) with (sp (r c) + 2) by lia. done.
Qed.

Lemma fetch_oplow_run v c w w1 : mread (pc (r c)) w = Ok (v, w1) ->
  fetch_oplow (c, w) = Ok (tt, (set_opargs (set_low (opargs c) v) (fetched c), w1)).
Proof.
  intros E. unfold fetch_oplow, fetchop, read_at_pc. mrun.
  unfold bindM, bus_read. cbn. by rewrite E.
Qed.

Lemma fetch_ophigh_run v c w w1 : mread (pc (r c)) w = Ok (v, w1) ->
  fetch_ophigh (c, w) = Ok (tt, (set_opargs (set_high (opargs c) v) (fetched c), w1)).
Proof.
  intros E. unfold fetch_ophigh, fetchop, read_at_pc. mrun.
  unfold bindM, bus_read. cbn. by rewrite E.
Qed.

(** [JSR] whose operand bytes can be read: it jumps to the operand and leaves
    the address of its own last byte on the stack. *)
Lemma jsr_run lo hi c w wa wb : cpu_ok c -> winv w ->
  mread (pc (r c)) w = Ok (lo, wa) -> mread (u16 (pc (r c) + 1)) wa = Ok (hi, wb) ->
  exists c1 w1, instr_jsr None (c, w) = Ok (tt, (c1, w1)) /\ cpu_ok c1 /\ winv w1 /\
    sp (r c1) = u8 (sp (r c) - 2) /\ pc (r c1) = hi * 256 + lo /\
    stack w1 (sp (r c)) = high (u16 (pc (r c) + 1)) /\
    stack w1 (u8 (sp (r c) - 1)) = low (u16 (pc (r c) + 1)).
Proof.
  intros Hc Hw E1 E2. pose proof (ok_pc c Hc) as Hp.
  destruct (mread_ok _ _ _ _ Hp Hw E1) as [Hlo Hwa].
  destruct (mread_ok (u16 (pc (r c) + 1)) _ _ _ ltac:(auto with emu) Hwa E2) as [Hhi Hwb].
  pose proof (fetch_oplow_run lo c w wa E1) as F1.
  set (c1 := set_opargs (set_low (opargs c) lo) (fetched c)) in *.
  pose proof (fetch_ophigh_run hi c1 wa wb E2) as F2.
  set (c2 := cycle (set_pc (u16 (u16 (pc (r c1) + 1) - 1))
                     (set_opargs (set_high (opargs c1) hi) (fetched c1)))).
  assert (Hc2 : cpu_ok c2) by (destruct Hc; constructor; simpl; auto with emu).
  destruct (push2_run (high (pc (r c2))) (low (pc (r c2))) c2 wb)
    as (wc & wd & P1 & P2 & Hwd & _ & S1 & S2); [auto with emu .. |].
  assert (Epc : pc (r c2) = u16 (pc (r c) + 1)) by (simpl; dlia).
  eexists _, wd. split_and!.
  - unfold instr_jsr. mrun.
    change (cycle (set_pc _ (set_opargs (set_high (opargs c1) hi) (fetched c1)))) with c2.
    mrun. reflexivity.
  - apply ok_last_cycle. destruct Hc. constructor; unfold c2, c1; cpu_simpl; auto with emu.
  - done.
  - unfold c2, c1. cpu_simpl. dlia.
  - unfold c2, c1. cpu_simpl. unfold set_high, set_low, high, low. dlia.
  - by rewrite <- Epc.
  - by rewrite <- Epc.
Qed.
(** The word stored at a vector. *)
Definition vector_word w (vec : Z) : Z := peek w (vec + 1) * 256 + peek w vec.

Lemma readmem_quiet a c w : winv w -> quiet a ->
  readmem None a (c, w) = Ok (peek w a, (cycle c, w)).
Proof.
  intros Hw Hq. unfold readmem, notify, bus_read. mrun. unfold retM, bindM, upd.
  by rewrite (quiet_read _ _ Hw Hq).
Qed.

Lemma vector_quiet c : let vec := fst (interrupt_vector c) in
  quiet vec /\ quiet (vec + 1) /\ 0x2000 <= vec /\ u16 (vec + 1) = vec + 1.
Proof.
  unfold interrupt_vector. repeat case_match; simpl; unfold RESET_VEC, NMI_VEC, IRQ_BRK_VEC;
    (split_and!; [apply quiet_vectors .. | |]; unfold NMI_VEC, IRQ_BRK_VEC; dlia).
Qed.

Lemma interrupt_vector_mono c c' :
  resetpending c' = resetpending c -> nmipending c' = nmipending c -> irqpending c' = irqpending c ->
  fst (interrupt_vector c') = fst (interrupt_vector c).
Proof. unfold interrupt_vector. intros -> -> ->. by repeat case_match. Qed.

Lemma quiet_byte a w : word a -> winv w -> quiet a -> byte (peek w a).
Proof. intros Ha Hw Hq. by eapply mread_ok; [| | apply quiet_read]. Qed.

(** Load the program counter from a vector. *)
Lemma load_pc_run c w vec : winv w -> quiet vec -> quiet (vec + 1) -> word vec ->
  u16 (vec + 1) = vec + 1 ->
  exists c1, (lo <- readmem None vec ;; upd (fun c => set_pc (set_low (pc (r c)) lo) c) ;;
    hi <- readmem None (u16 (vec + 1)) ;; upd (fun c => set_pc (set_high (pc (r c)) hi) c)) (c, w)
    = Ok (tt, (c1, w)) /\ pc (r c1) = vector_word w vec /\
    sp (r c1) = sp (r c) /\ flags (r c1) = flags (r c).
Proof.
  intros Hw Q1 Q2 Hv Ev. eexists. split.
  - mrun. erewrite bindM_run by (apply readmem_quiet; done). mrun. rewrite Ev.
    erewrite bindM_run by (apply readmem_quiet; done). reflexivity.
  - unfold vector_word. cpu_simpl. by rewrite set_low_high by (apply quiet_byte; done).
Qed.

(** The interrupt sequence: program counter and flags on the stack, interrupts
    disabled, program counter from the vector. *)
Lemma interrupt_run c w : cpu_ok c -> winv w ->
  exists c1 w1, interrupt None (c, w) = Ok (tt, (c1, w1)) /\ cpu_ok c1 /\ winv w1 /\
    sp (r c1) = u8 (sp (r c) - 3) /\ pc (r c1) = vector_word w (fst (interrupt_vector c)) /\
    flags (r c1) = set_intdis true (set_breakf false (flags (r c))) /\
    stack w1 (sp (r c)) = high (pc (r c)) /\ stack w1 (u8 (sp (r c) - 1)) = low (pc (r c)) /\
    stack w1 (u8 (sp (r c) - 2)) = byte_of_status (flags (r c)).
Proof.
  intros Hc Hw. pose proof (ok_cycle c Hc) as Hc0. pose proof (ok_sp c Hc) as Hs.
  destruct (push2_run (high (pc (r c))) (low (pc (r c))) (cycle c) w)
    as (wa & wb & P1 & P2 & Hwb & R2 & S1 & S2); [auto with emu .. |].
  set (c2 := pushed (pushed (cycle c))) in *.
  destruct (push_run (byte_of_status (flags (r c))) c2 wb) as (wc & P3 & Hwc & R3 & S3);
    [by apply ok_pushed, ok_pushed | done | auto with emu |].
  set (c3 := set_flags (fun p => set_intdis true (set_breakf false p)) (pushed c2)).
  destruct (vector_quiet c3) as (Q1 & Q2 & Hv & Ev).
  destruct (load_pc_run (snd (interrupt_vector c3)) wc (fst (interrupt_vector c3)))
    as (c4 & L & Epc & Esp & Efl); [auto with emu .. |].
  exists c4, wc.
  assert (E : interrupt None (c, w) = Ok (tt, (c4, wc))).
  { unfold interrupt. mrun. exact L. }
  rewrite interrupt_vector_r in Esp, Efl.
  split_and!; [done | by eapply (pres_interrupt None); [done | | | exact E] | done | | | done | | |].
  - rewrite Esp. simpl. dlia.
  - rewrite Epc. unfold vector_word. rewrite (interrupt_vector_mono c c3) in * by done.
    by rewrite !R3, !R2 by (done || lia).
  - rewrite S3 by auto with emu. unfold c2. cbn. zcases. dlia.
  - rewrite S3 by auto with emu. unfold c2. cbn. zcases. dlia.
  - rewrite S3 by auto with emu. unfold c2. cbn. zcases. dlia.
Qed.

Lemma rti_run c w : cpu_ok c -> winv w ->
  exists c1, instr_rti None (c, w) = Ok (tt, (c1, w)) /\
    sp (r c1) = u8 (sp (r c) + 3) /\
    flags (r c1) = set_breakf false (status_of_byte (stack w (u8 (sp (r c) + 1)))) /\
    pc (r c1) = stack w (u8 (sp (r c) + 3)) * 256 + stack w (u8 (sp (r c) + 2)).
Proof.
  intros Hc Hw. pose proof (pull_run (cycle (cycle c)) w) as E0.
  specialize (E0 ltac:(auto with emu) Hw).
  set (p := stack w (u8 (sp (r (cycle (cycle c))) + 1))) in *.
  set (c0 := set_flags (set_breakf false) (set_flags (fun _ => status_of_byte p)
               (pulled (cycle (cycle c))))).
  assert (Hc0 : cpu_ok c0) by (destruct Hc; constructor; simpl; auto with emu).
  pose proof (pull_run c0 w Hc0 Hw) as E1.
  set (lo := stack w (u8 (sp (r c0) + 1))) in *.
  assert (Hlo : byte lo) by (apply stack_byte; auto with emu).
  set (c1 := set_pc (set_low (pc (r c)) lo) (pulled c0)).
  assert (Hc1 : cpu_ok c1) by (destruct Hc; constructor; simpl; auto with emu).
  pose proof (pull_run c1 w Hc1 Hw) as E2.
  eexists. split.
  - unfold instr_rti. mrun. change (set_flags (set_breakf false) _) with c0. mrun.
    change (set_pc _ (pulled c0)) with c1. mrun. reflexivity.
  - unfold c1. cpu_simpl. rewrite set_low_high by done. unfold lo, p, c0. cpu_simpl.
    wrap_sums. split_and!; reflexivity.
Qed.

(** ** [power] *)

(** A range of RAM is cleared, a range of sound registers written to. *)
Lemma zero_ram_run n c w : winv w -> Z.of_nat n <= 0x2000 ->
  exists w', zero_range n 0 (c, w) = Ok (tt, (c, w')) /\ winv w' /\ same_rom w w' /\
    forall b, 0 <= b < Z.of_nat n -> peek w' b = 0.
Proof.
  intros Hw Hn. unfold zero_range.
  destruct (for_upto_inv (fun i '(c', w') => c' = c /\ winv w' /\ same_rom w w' /\
      forall b, 0 <= b < i -> peek w' b = 0)
    (fun i '(c, w) => let? w' := mwrite i 0 w in Ok (c, w')) n 0 (c, w)) as ([c' w'] & E & -> & H1 & H2 & H3).
  - split_and!; [done | done | done |]. intros b Hb. lia.
  - intros i [c1 w1] Hi (-> & Hw1 & Hr1 & Hz1).
    destruct (ram_write i 0 w1 Hw1) as (w2 & -> & Hw2 & Hp & Hr2); [lia | auto with emu |].
    exists (c, w2). split; [done |]. split_and!; [done | done | |].
    + intros b Hq Hb. by rewrite Hr2, Hr1.
    + intros b Hb. rewrite Hp by lia. case_match; [done |]. apply Hz1.
      apply Z.eqb_neq in H. assert (b <> i) by congruence. lia.
  - rewrite E. cbn [rbind]. exists w'. by split_and!.
Qed.

Lemma zero_io_run n c w : winv w -> Z.of_nat n <= 0x18 ->
  exists w', zero_range n 0x4000 (c, w) = Ok (tt, (c, w')) /\ winv w' /\
    forall b, quiet b -> peek w' b = peek w b.
Proof.
  intros Hw Hn. unfold zero_range.
  destruct (for_upto_inv (fun i '(c', w') => c' = c /\ winv w' /\ forall b, quiet b -> peek w' b = peek w b)
    (fun i '(c, w) => let? w' := mwrite i 0 w in Ok (c, w')) n 0x4000 (c, w)) as ([c' w'] & E & -> & H1 & H2).
  - done.
  - intros i [c1 w1] Hi (-> & Hw1 & Hp1).
    destruct (io_write i 0 w1 Hw1) as (w2 & -> & Hw2 & Hp); [lia | auto with emu |].
    exists (c, w2). split_and!; [done .. |]. intros b Hq. by rewrite Hp, Hp1.
  - rewrite E. by exists w'.
Qed.

Lemma bus_write_io a v c w : winv w -> 0x4000 <= a < 0x4018 -> byte v ->
  exists w', bus_write a v (c, w) = Ok (tt, (c, w')) /\ winv w' /\ forall b, quiet b -> peek w' b = peek w b.
Proof.
  intros Hw Ha Hv. destruct (io_write a v w Hw Ha Hv) as (w' & E & H). exists w'.
  unfold bus_write. by rewrite E.
Qed.

(** The interrupt sequence that serves a reset: six cycles, and the other
    interrupts stay as they were. *)
Lemma reset_sequence c w c1 w1 : resetpending c = true -> interrupt None (c, w) = Ok (tt, (c1, w1)) ->
  elapsed 6 c c1 /\ (signals_ok c -> signals_ok c1).
Proof.
  intros Hr E. split; [by eapply takes_interrupt |]. intros Hs.
  refine (hoareS_interrupt None (fun s => sig_ok s /\ s.1.1.2 = true) sig_ok _ c w tt c1 w1 (conj Hs Hr) E).
  intros c0 [H0 H1]. unfold interrupt_vector, sigs in *. simpl in H1. by rewrite H1.
Qed.

(** Power-on: registers cleared, interrupts off, the program counter from the
    reset vector, the stack pointer three below zero. *)
Lemma power_run c w : cpu_ok c -> winv w ->
  exists c1 w1, power None (c, w) = Ok (tt, (c1, w1)) /\ cpu_ok c1 /\ winv w1 /\
    sp (r c1) = 0xFD /\ pc (r c1) = vector_word w RESET_VEC /\
    flags (r c1) = set_intdis true (set_breakf false reset_status) /\
    elapsed 6 c c1 /\ (signals_ok c -> signals_ok c1).
Proof.
  intros Hc Hw. unfold power. rewrite bindM_upd.
  set (c0 := set_acc 0 (set_rx 0 (set_ry 0 c))).
  destruct (zero_ram_run 2048 c0 w Hw ltac:(lia)) as (w1 & E1 & Hw1 & R1 & _).
  rewrite (bindM_run _ _ _ _ _ E1), bindM_upd. set (c2 := set_flags _ c0).
  destruct (bus_write_io 0x4017 0 c2 w1 Hw1 ltac:(lia) byte_0) as (w2 & E2 & Hw2 & P2).
  rewrite (bindM_run _ _ _ _ _ E2).
  destruct (bus_write_io 0x4015 0 c2 w2 Hw2 ltac:(lia) byte_0) as (w3 & E3 & Hw3 & P3).
  rewrite (bindM_run _ _ _ _ _ E3).
  destruct (zero_io_run 19 c2 w3 Hw3 ltac:(lia)) as (w4 & E4 & Hw4 & P4).
  rewrite (bindM_run _ _ _ _ _ E4), !bindM_upd.
  set (c5 := set_resetpending true (set_sp 0 c2)).
  assert (Hc5 : cpu_ok c5) by (destruct Hc; constructor; simpl; auto with emu).
  destruct (interrupt_run c5 w4 Hc5 Hw4) as (c6 & w6 & E6 & Hc6 & Hw6 & Hsp & Hpc & Hfl & _).
  destruct (reset_sequence c5 w4 c6 w6 eq_refl E6) as [T6 S6].
  exists c6, w6. split_and!; try done. rewrite Hpc. unfold vector_word. simpl fst.
  assert (Q : forall a, RESET_VEC <= a <= RESET_VEC + 1 -> peek w4 a = peek w a).
  { intros a Ha. assert (quiet a) by (apply quiet_vectors; unfold RESET_VEC, NMI_VEC, IRQ_BRK_VEC in *; lia).
    rewrite P4, P3, P2 by done. apply R1; [done | unfold RESET_VEC in *; lia]. }
  by rewrite !Q by (unfold RESET_VEC; lia).
Qed.

(** A reset keeps the registers, but for the program counter and the stack
    pointer, which the interrupt sequence moves as if it pushed. *)
Lemma reset_run c w : cpu_ok c -> winv w ->
  exists c1 w1, reset None (c, w) = Ok (tt, (c1, w1)) /\ cpu_ok c1 /\ winv w1 /\
    sp (r c1) = u8 (sp (r c) - 3) /\ pc (r c1) = vector_word w RESET_VEC /\
    flags (r c1) = set_intdis true (set_breakf false (flags (r c))) /\
    elapsed 6 c c1 /\ (signals_ok c -> signals_ok c1).
Proof.
  intros Hc Hw. unfold reset.
  destruct (bus_write_io 0x4015 0 c w Hw ltac:(lia) byte_0) as (w1 & E1 & Hw1 & P1).
  rewrite (bindM_run _ _ _ _ _ E1), bindM_upd. set (c1 := set_resetpending true c).
  assert (Hc1 : cpu_ok c1) by (destruct Hc; by constructor).
  destruct (interrupt_run c1 w1 Hc1 Hw1) as (c2 & w2 & E2 & Hc2 & Hw2 & Hsp & Hpc & Hfl & _).
  destruct (reset_sequence c1 w1 c2 w2 eq_refl E2) as [T S].
  exists c2, w2. split_and!; try done. rewrite Hpc. unfold vector_word. simpl fst.
  assert (Q : forall a, RESET_VEC <= a <= RESET_VEC + 1 -> peek w1 a = peek w a).
  { intros a Ha. apply P1, quiet_vectors. unfold RESET_VEC, NMI_VEC, IRQ_BRK_VEC in *. lia. }
  by rewrite !Q by (unfold RESET_VEC; lia).
Qed.
End Stack.
