(* ===== verification/CpuNext.v ===== *)
(** * Instruction lengths and the next address

    How far every instruction moves the program counter, that the table of the
    disassembler agrees with it, and that [CPU::nextaddr], the prediction the
    debugger steps with, is where [CPU::run] really goes. *)

From S2P Require Import Prelude InstrInfo Cpu CpuFacts CpuInv CpuStack.
Open Scope Z_scope.

(** ** Bytes consumed by each case of the switch *)

Definition read_bytes (m : ReadMode) : Z :=
  match m with RAbs | RAbsx | RAbsy => 2 | _ => 1 end.
Definition modify_bytes (m : ModMode) : Z :=
  match m with MAccum => 0 | MAbs | MAbsx => 2 | _ => 1 end.
Definition write_bytes (m : WriteMode) : Z :=
  match m with WAbs | WAbsx | WAbsy => 2 | _ => 1 end.

(** [None]: the case assigns the program counter. *)
Definition operand_bytes (k : InstrCase) : option Z :=
  match k with
  | INSTR_IMPLD (Fn_brk | Fn_jsr | Fn_jmp | Fn_jmp_ind | Fn_rts | Fn_rti) => None
  | INSTR_IMPLD _ => Some 0
  | INSTR_READ _ m => Some (read_bytes m)
  | INSTR_MODIFY _ m => Some (modify_bytes m)
  | INSTR_WRITE m _ => Some (write_bytes m)
  | INSTR_BRANCH _ _ => None
  | INSTR_FLAG _ _ => Some 0
  | INSTR_TRANSFER _ _ => Some 0
  end.

Section Advance.
Context {W : Type} `{MemW : Memory W}.
Variable cb : option (CPU -> Status -> Z -> AccessMode -> W -> Res W).

(** The computation moves the program counter by [n]. *)
Definition advances {A} (n : Z) (m : M (CPU * W) A) : Prop :=
  forall c w a c' w', m (c, w) = Ok (a, (c', w')) -> u16 (pc (r c')) = u16 (pc (r c) + n).

Lemma adv_bind {A B} n1 n2 (m : M (CPU * W) A) (k : A -> M (CPU * W) B) :
  advances n1 m -> (forall a, advances n2 (k a)) -> advances (n1 + n2) (bindM m k).
Proof.
  intros Hm Hk c w b c' w' (a & [c1 w1] & H1 & H2)%bindM_Ok.
  apply Hm in H1. apply Hk in H2.
  rewrite H2, <- u16_u16_add, H1, u16_u16_add, Z.add_assoc. done.
Qed.

Lemma adv_upd f : (forall c, pc (r (f c)) = pc (r c)) -> advances 0 (upd f).
Proof. intros Hf c w a c' w' [= -> ->]%upd_inv. by rewrite Hf, Z.add_0_r. Qed.
Lemma adv_cpu_of {A} (f : CPU -> A) : advances 0 (cpu_of f).
Proof. intros c w a c' w' [-> [= -> ->]]%cpu_of_inv. by rewrite Z.add_0_r. Qed.
Lemma adv_readmem a : advances 0 (readmem cb a).
Proof. intros c w v c' w' (? & ? & [= -> ->] & _)%readmem_inv. simpl. by rewrite Z.add_0_r. Qed.
Lemma adv_writemem a d : advances 0 (writemem cb a d).
Proof. intros c w v c' w' (? & ? & [= -> ->] & _)%writemem_inv. simpl. by rewrite Z.add_0_r. Qed.
Lemma adv_fetch_oplow : advances 1 fetch_oplow.
Proof. intros c w v c' w' (? & ? & [= -> ->] & _)%fetch_oplow_inv. simpl. dlia. Qed.
Lemma adv_fetch_ophigh : advances 1 fetch_ophigh.
Proof. intros c w v c' w' (? & ? & [= -> ->] & _)%fetch_ophigh_inv. simpl. dlia. Qed.
Lemma adv_push v : advances 0 (push cb v).
Proof. intros c w u c' w' (? & ? & [= -> ->] & _)%push_inv. simpl. by rewrite Z.add_0_r. Qed.
Lemma adv_pull : advances 0 (pull cb).
Proof. intros c w u c' w' (? & ? & [= -> ->] & _)%pull_inv. simpl. by rewrite Z.add_0_r. Qed.
Lemma adv_apply_mod f v : advances 0 (apply_mod (mod_fn f) v).
Proof. intros c w u c' w' [_ [= -> ->]]%apply_mod_inv. by rewrite mod_fn_pc, Z.add_0_r. Qed.
Lemma adv_page res : advances 0 (cycle_if_page_differs res).
Proof. apply adv_upd. intros c. by case_match. Qed.

Lemma adv_eq {A} n n' (m : M (CPU * W) A) : advances n m -> n = n' -> advances n' m.
Proof. by intros ? <-. Qed.

Ltac adv_tac :=
  lazymatch goal with
  | |- advances _ (bindM _ _) => eapply adv_bind; [adv_tac | intros ?; adv_tac]
  | |- advances _ (upd _) => apply adv_upd; intros ?; cpu_simpl; done
  | |- advances _ (readmem _ _) => apply adv_readmem
  | |- advances _ (writemem _ _ _) => apply adv_writemem
  | |- advances _ fetch_oplow => apply adv_fetch_oplow
  | |- advances _ fetch_ophigh => apply adv_fetch_ophigh
  | |- advances _ (push _ _) => apply adv_push
  | |- advances _ (pull _) => apply adv_pull
  | |- advances _ (apply_mod _ _) => apply adv_apply_mod
  | |- advances _ (cycle_if_page_differs _) => apply adv_page
  | |- advances _ _ => apply adv_cpu_of
  end.
Ltac adv := unfold_instr; (eapply adv_eq; [adv_tac | simpl; lia]).

Lemma adv_read m f : advances (read_bytes m) (addrmode_read cb m (read_fn f)).
Proof. destruct m; simpl; adv. Qed.
Lemma adv_modify m f : advances (modify_bytes m) (addrmode_modify cb m (mod_fn f)).
Proof. destruct m; simpl; adv. Qed.
Lemma adv_write m v : advances (write_bytes m) (addrmode_write cb m v).
Proof. destruct m; simpl; adv. Qed.

Lemma adv_case k n : operand_bytes k = Some n -> advances n (exec_case cb k).
Proof.
  destruct k as [f | f m | f m | m g | fl b | fl b | fr to]; simpl; try intros [= <-].
  - destruct f; simpl; try done; intros [= <-]; adv.
  - apply adv_read.
  - apply adv_modify.
  - apply (adv_bind 0); [apply adv_cpu_of | intros; apply adv_write].
  - adv.
  - apply (adv_bind 0); [apply adv_cpu_of | intros; adv].
Qed.
End Advance.

(** ** The disassembler's table against the switch *)

(** The length that [num_bytes] gives is the opcode and the operand bytes. *)
Lemma num_bytes_switch id : byte id ->
  match switch id ≫= operand_bytes with
  | Some n => num_bytes id = 1 + n
  | None => switch id = None -> num_bytes id = 1
  end.
Proof.
  intros Hid. set (f := fun id => match switch id ≫= operand_bytes with
    | Some n => num_bytes id =? 1 + n
    | None => match switch id with None => num_bytes id =? 1 | _ => true end end).
  assert (Hf : forallb f (Z.of_nat <$> seq 0 256) = true) by (vm_compute; reflexivity).
  pose proof (bytes_forall f Hf id Hid) as H. unfold f in H.
  destruct (switch id) as [k |]; simpl in *; [| intros _; lia].
  destruct (operand_bytes k); [lia | done].
Qed.

(** The two tables describe the same branches. *)
Lemma branch_tables id ps : byte id ->
  match switch id with
  | Some (INSTR_BRANCH fl b) => took_branch id ps = eqb (get_flag fl ps) b /\ num_bytes id = 2
  | _ => took_branch id ps = false
  end.
Proof.
  intros Hid. set (f := fun id => match switch id with
    | Some (INSTR_BRANCH fl b) => eqb (took_branch id ps) (eqb (get_flag fl ps) b) && (num_bytes id =? 2)
    | _ => negb (took_branch id ps) end).
  assert (Hf : forallb f (Z.of_nat <$> seq 0 256) = true)
    by (destruct ps as [[] [] [] [] [] [] [] []]; vm_compute; reflexivity).
  pose proof (bytes_forall f Hf id Hid) as H. unfold f in H.
  destruct (switch id) as [[] |]; try by apply negb_true_iff.
  apply andb_true_iff in H as [->%eqb_prop ->%Z.eqb_eq]. done.
Qed.

(** The cases of the switch that assign the program counter. *)
Lemma control_flow id k : byte id -> switch id = Some k -> operand_bytes k = None ->
  (exists fl b, k = INSTR_BRANCH fl b) \/
  (id, k) ∈ [(0x00, INSTR_IMPLD Fn_brk); (0x20, INSTR_IMPLD Fn_jsr); (0x40, INSTR_IMPLD Fn_rti);
             (0x4C, INSTR_IMPLD Fn_jmp); (0x60, INSTR_IMPLD Fn_rts); (0x6C, INSTR_IMPLD Fn_jmp_ind)].
Proof.
  intros Hid Hk Ho.
  set (l := [(0x00, INSTR_IMPLD Fn_brk); (0x20, INSTR_IMPLD Fn_jsr); (0x40, INSTR_IMPLD Fn_rti);
             (0x4C, INSTR_IMPLD Fn_jmp); (0x60, INSTR_IMPLD Fn_rts); (0x6C, INSTR_IMPLD Fn_jmp_ind)]).
  set (f := fun id => match switch id with
    | Some (INSTR_BRANCH fl b) => true
    | Some k => match operand_bytes k with None => bool_decide ((id, k) ∈ l) | _ => true end
    | _ => true end).
  assert (Hf : forallb f (Z.of_nat <$> seq 0 256) = true) by (vm_compute; reflexivity).
  pose proof (bytes_forall f Hf id Hid) as H. unfold f in H. rewrite Hk in H.
  destruct k; try (by left; eauto); right; rewrite Ho in H; by apply bool_decide_eq_true in H.
Qed.

Section Next.
Context {W : Type} `{Ram : RamLaws W}.
Implicit Types (c : CPU) (w : W).

(** The instruction at the program counter and its operand. *)
Definition opcode c w : Z := peek w (pc (r c)).
Definition oplo c w : Z := peek w (u16 (pc (r c) + 1)).
Definition ophi c w : Z := peek w (u16 (pc (r c) + 2)).
Definition operand c w : Z := set_high (set_low 0 (oplo c w)) (ophi c w).

(** Where the second byte of an indirect jump is read. *)
Definition ind_high_addr (op : Z) : Z := if low op =? 0xFF then Z.land op 0xFF00 else u16 (op + 1).

(** The instruction is read from memory, not from a register. *)
Definition in_memory c : Prop :=
  quiet (pc (r c)) /\ quiet (u16 (pc (r c) + 1)) /\ quiet (u16 (pc (r c) + 2)).

Lemma fetch_run c w : winv w -> quiet (pc (r c)) ->
  fetch None (c, w) = Ok (opcode c w, (fetched c, w)).
Proof.
  intros Hw Hq. unfold fetch, notify, read_at_pc, bus_read. mrun. unfold retM. mrun.
  unfold upd, bindM. cbn. by rewrite (quiet_read _ _ Hw Hq).
Qed.

Lemma run_fetches c w : winv w -> quiet (pc (r c)) -> execnmi c = false -> execirq c = false ->
  run None (c, w) = execute None (opcode c w) (fetched c, w).
Proof.
  intros Hw Hq E1 E2. unfold run. mrun. rewrite E1. mrun. rewrite E2.
  by rewrite (bindM_run _ _ _ _ _ (fetch_run c w Hw Hq)).
Qed.

Lemma bus_read_quiet a c w : winv w -> quiet a -> bus_read a (c, w) = Ok (peek w a, (c, w)).
Proof. intros Hw Hq. unfold bus_read. by rewrite (quiet_read _ _ Hw Hq). Qed.

(** [nextaddr] reads the instruction and leaves the rest of its body to do. *)
Ltac next_reads :=
  unfold nextaddr; mrun; rewrite ?(bindM_run _ _ _ _ _ (bus_read_quiet _ _ _ _ _));
  repeat (erewrite bindM_run by (apply bus_read_quiet; done)).

Lemma next_default c w : winv w -> in_memory c ->
  opcode c w ∉ [0x00; 0x20; 0x4C; 0x6C; 0x60; 0x40] ->
  nextaddr (c, w) = Ok (if took_branch (opcode c w) (flags (r c)) then branch_pointer (oplo c w) (pc (r c))
                        else u16 (pc (r c) + num_bytes (opcode c w)), (c, w)).
Proof.
  intros Hw (Q0 & Q1 & Q2) Hid. next_reads. cbv zeta. fold (opcode c w) (oplo c w) (ophi c w).
  set (id := opcode c w) in *. clearbody id. unfold retM.
  repeat case_match; try done; exfalso; apply Hid; subst; set_solver.
Qed.

(** Instructions that do not assign the program counter. *)
Lemma next_advance c w c' w' n : cpu_ok c -> winv w -> in_memory c ->
  execnmi c = false -> execirq c = false ->
  num_bytes (opcode c w) = 1 + n -> advances n (execute None (opcode c w)) ->
  run None (c, w) = Ok (tt, (c', w')) -> pc (r c') = u16 (pc (r c) + num_bytes (opcode c w)).
Proof.
  intros Hc Hw Hm E1 E2 Hn Ha Hr.
  assert (Hc' : cpu_ok c') by (eapply (pres_run None); [done | exact Hc | exact Hw | exact Hr]).
  rewrite run_fetches in Hr by (done || apply Hm). apply Ha in Hr. simpl in Hr.
  rewrite u16_id in Hr by auto with emu. rewrite Hr, u16_u16_add, Hn. f_equal. lia.
Qed.
Lemma low_set_low z v : byte v -> low (set_low z v) = v.
Proof. unfold low, set_low. dlia. Qed.

Lemma switch_of c w k : winv w -> quiet (pc (r c)) -> execnmi c = false -> execirq c = false ->
  switch (opcode c w) = Some k -> run None (c, w) = exec_case None k (fetched c, w).
Proof. intros Hw Q E1 E2 Ek. rewrite run_fetches by done. unfold execute. by rewrite Ek. Qed.

Lemma branch_run take v c w : byte v -> mread (pc (r c)) w = Ok (v, w) ->
  exists c', instr_branch take (c, w) = Ok (tt, (c', w)) /\
    pc (r c') = if take then u16 (pc (r c) + 1 + s8 v) else u16 (pc (r c) + 1).
Proof.
  intros Hv E. unfold instr_branch.
  assert (F : fetch_oplow (last_cycle c, w) = Ok (tt,
    (set_opargs (set_low (opargs (last_cycle c)) v) (fetched (last_cycle c)), w)))
    by (apply fetch_oplow_run; by rewrite last_cycle_r).
  set (c1 := set_opargs _ _) in F.
  assert (Ep : pc (r c1) = u16 (pc (r c) + 1)) by (unfold c1; cpu_simpl; done).
  assert (El : low (opargs c1) = v) by (apply low_set_low; done).
  clearbody c1. destruct take; simpl.
  - eexists. split; [unfold oplow; mrun; reflexivity |].
    case_match; cpu_simpl; rewrite El, Ep, u16_u16_add; done.
  - eexists. split; [mrun; reflexivity | done].
Qed.

Lemma next_branch c w c' w' fl b : cpu_ok c -> winv w -> in_memory c ->
  execnmi c = false -> execirq c = false -> switch (opcode c w) = Some (INSTR_BRANCH fl b) ->
  run None (c, w) = Ok (tt, (c', w')) ->
  pc (r c') = if eqb (get_flag fl (flags (r c))) b then branch_pointer (oplo c w) (pc (r c))
              else u16 (pc (r c) + 2).
Proof.
  intros Hc Hw (Q0 & Q1 & Q2) E1 E2 Ek Hr. unfold branch_pointer.
  assert (Hb : byte (oplo c w)) by (apply quiet_byte; auto with emu).
  rewrite (switch_of c w _ Hw Q0 E1 E2 Ek) in Hr.
  destruct (branch_run (eqb (get_flag fl (flags (r c))) b) (oplo c w) (fetched c) w Hb)
    as (c1 & E & Hp); [by apply quiet_read |].
  unfold exec_case in Hr. rewrite bindM_cpu_of in Hr.
  change (flags (r (fetched c))) with (flags (r c)) in Hr. rewrite E in Hr.
  injection Hr as <- _. rewrite Hp. cbn [pc r fetched set_pc set_r].
  rewrite !u16_u16_add, <- Z.add_assoc. wrap_sums. destruct (eqb _ _); f_equal; lia.
Qed.

(** The two operand bytes of an absolute instruction. *)
Lemma operand_run {B} c w (k : M (CPU * W) B) : winv w -> in_memory c ->
  (fetch_oplow ;; fetch_ophigh ;; k) (fetched c, w) =
  k (set_opargs (operand c w) (fetched (fetched (fetched c))), w).
Proof.
  intros Hw (Q0 & Q1 & Q2).
  pose proof (fetch_oplow_run (oplo c w) (fetched c) w w (quiet_read _ _ Hw Q1)) as F1.
  set (c1 := set_opargs (set_low (opargs (fetched c)) (oplo c w)) (fetched (fetched c))) in *.
  assert (Ep : pc (r c1) = u16 (pc (r c) + 2)) by (simpl; wrap_sums; done).
  pose proof (fetch_ophigh_run (ophi c w) c1 w w) as F2. rewrite Ep in F2.
  specialize (F2 (quiet_read _ _ Hw Q2)).
  rewrite (bindM_run _ _ _ _ _ F1), (bindM_run _ _ _ _ _ F2). f_equal. f_equal.
  assert (Eo : set_high (opargs c1) (ophi c w) = operand c w).
  { simpl. unfold operand, set_high, set_low.
    assert (byte (oplo c w)) by (apply quiet_byte; auto with emu). dlia. }
  by rewrite Eo.
Qed.

Lemma operand_word c w : cpu_ok c -> winv w -> in_memory c -> word (operand c w).
Proof.
  intros Hc Hw (_ & _ & Q2). unfold operand. apply word_set_high, quiet_byte; auto with emu.
Qed.

Lemma next_jmp c w : cpu_ok c -> winv w -> in_memory c ->
  execnmi c = false -> execirq c = false -> opcode c w = 0x4C ->
  exists c', run None (c, w) = Ok (tt, (c', w)) /\ pc (r c') = operand c w.
Proof.
  intros Hc Hw Hm E1 E2 Eo. eexists. split.
  - rewrite (switch_of c w (INSTR_IMPLD Fn_jmp)) by (done || apply Hm || by rewrite Eo).
    simpl. unfold instr_jmp. rewrite operand_run by done. mrun. reflexivity.
  - cpu_simpl. done.
Qed.

Lemma next_jmp_ind c w : cpu_ok c -> winv w -> in_memory c ->
  execnmi c = false -> execirq c = false -> opcode c w = 0x6C ->
  quiet (operand c w) -> quiet (ind_high_addr (operand c w)) ->
  exists c', run None (c, w) = Ok (tt, (c', w)) /\
    pc (r c') = peek w (ind_high_addr (operand c w)) * 256 + peek w (operand c w).
Proof.
  intros Hc Hw Hm E1 E2 Eo Q3 Q4. eexists. split.
  - rewrite (switch_of c w (INSTR_IMPLD Fn_jmp_ind)) by (done || apply Hm || by rewrite Eo).
    simpl. unfold instr_jmp_ind, opfull. rewrite operand_run by done. mrun. cbn [opargs set_opargs].
    erewrite bindM_run by (apply readmem_quiet; done). mrun.
    erewrite bindM_run by (apply readmem_quiet; done). mrun. reflexivity.
  - cpu_simpl. apply set_low_high, quiet_byte; [by apply operand_word | done ..].
Qed.

Lemma next_jsr c w c' w' : cpu_ok c -> winv w -> in_memory c ->
  execnmi c = false -> execirq c = false -> opcode c w = 0x20 ->
  run None (c, w) = Ok (tt, (c', w')) -> pc (r c') = operand c w.
Proof.
  intros Hc Hw Hm E1 E2 Eo Hr. destruct Hm as (Q0 & Q1 & Q2).
  rewrite (switch_of c w (INSTR_IMPLD Fn_jsr)) in Hr by (done || by rewrite Eo). simpl in Hr.
  destruct (jsr_run (oplo c w) (ophi c w) (fetched c) w w w) as (c1 & w1 & E & _ & _ & _ & Hp & _).
  - destruct Hc. constructor; simpl; auto with emu.
  - done.
  - by apply quiet_read.
  - simpl. wrap_sums. by apply quiet_read.
  - rewrite E in Hr. injection Hr as <- _. rewrite Hp. unfold operand. symmetry.
    apply set_low_high, quiet_byte; auto with emu.
Qed.

Lemma next_rts c w : cpu_ok c -> winv w -> in_memory c ->
  execnmi c = false -> execirq c = false -> opcode c w = 0x60 ->
  exists c', run None (c, w) = Ok (tt, (c', w)) /\
    pc (r c') = u16 (stack w (u8 (sp (r c) + 2)) * 256 + stack w (u8 (sp (r c) + 1)) + 1).
Proof.
  intros Hc Hw (Q0 & _) E1 E2 Eo. destruct (rts_run (fetched c) w) as (c' & E & _ & Hp).
  - destruct Hc. constructor; simpl; auto with emu.
  - done.
  - exists c'. split; [| done].
    by rewrite (switch_of c w (INSTR_IMPLD Fn_rts)) by (done || by rewrite Eo).
Qed.

(** *** The prediction *)

Lemma bytes_word lo hi : byte lo -> byte hi ->
  Z.lor lo (Z.shiftl hi 8) = hi * 256 + lo /\ word (hi * 256 + lo).
Proof.
  intros Hlo Hhi. rewrite lor_shiftl by dlia. change (2 ^ 8) with 256. dlia.
Qed.

Lemma nextaddr_jump c w : winv w -> in_memory c -> opcode c w = 0x20 \/ opcode c w = 0x4C ->
  nextaddr (c, w) = Ok (operand c w, (c, w)).
Proof.
  intros Hw (Q0 & Q1 & Q2) Hid. next_reads. cbv zeta. fold (opcode c w) (oplo c w) (ophi c w).
  by destruct Hid as [-> | ->].
Qed.

Lemma nextaddr_jmp_ind c w : cpu_ok c -> winv w -> in_memory c -> opcode c w = 0x6C ->
  quiet (operand c w) -> quiet (ind_high_addr (operand c w)) ->
  nextaddr (c, w) = Ok (peek w (ind_high_addr (operand c w)) * 256 + peek w (operand c w), (c, w)).
Proof.
  intros Hc Hw (Q0 & Q1 & Q2) Hid Q3 Q4. pose proof (operand_word c w Hc Hw ltac:(done)) as Ho.
  next_reads. cbv zeta. fold (opcode c w) (oplo c w) (ophi c w). rewrite Hid.
  fold (operand c w). unfold ind_high_addr in *.
  repeat (erewrite bindM_run by (apply bus_read_quiet; done)). unfold retM.
  destruct (bytes_word (peek w (operand c w)) (peek w (ind_high_addr (operand c w)))) as [E Hword].
  1, 2: apply quiet_byte; try done. { unfold ind_high_addr. case_match; auto with emu. }
  unfold ind_high_addr in *. by rewrite E, u16_id.
Qed.

Lemma nextaddr_rts c w : cpu_ok c -> winv w -> in_memory c -> opcode c w = 0x60 ->
  sp (r c) <= 0xFD ->
  nextaddr (c, w) = Ok (u16 (stack w (u8 (sp (r c) + 2)) * 256 + stack w (u8 (sp (r c) + 1)) + 1), (c, w)).
Proof.
  intros Hc Hw (Q0 & Q1 & Q2) Hid Hs. pose proof (ok_sp c Hc) as Hsp.
  next_reads. cbv zeta. fold (opcode c w). rewrite Hid.
  unfold stack. rewrite !(u8_id (sp (r c) + _)), !(u16_id (sp (r c) + _ + STACK_BASE))
    by (unfold STACK_BASE; dlia).
  assert (Hq : forall i, 1 <= i <= 2 -> quiet (sp (r c) + i + STACK_BASE))
    by (intros i Hi; apply quiet_ram; unfold STACK_BASE; dlia).
  repeat (erewrite bindM_run by (apply bus_read_quiet; [done | apply Hq; lia])). unfold retM.
  destruct (bytes_word (peek w (sp (r c) + 1 + STACK_BASE)) (peek w (sp (r c) + 2 + STACK_BASE)))
    as [E _]; [apply quiet_byte; try apply Hq; try done; unfold STACK_BASE; dlia .. |].
  rewrite E. do 3 f_equal. lia.
Qed.

(** Instructions outside the control-flow cases, and branches. *)
Lemma nextaddr_plain c w c' w' : cpu_ok c -> winv w -> in_memory c ->
  execnmi c = false -> execirq c = false ->
  opcode c w ∉ [0x00; 0x20; 0x4C; 0x6C; 0x60; 0x40] ->
  run None (c, w) = Ok (tt, (c', w')) -> nextaddr (c, w) = Ok (pc (r c'), (c, w)).
Proof.
  intros Hc Hw Hm E1 E2 Hid Hr.
  assert (Hb : byte (opcode c w)) by (apply quiet_byte; auto with emu; apply Hm).
  pose proof (branch_tables (opcode c w) (flags (r c)) Hb) as Ht.
  pose proof (num_bytes_switch (opcode c w) Hb) as Hn.
  rewrite next_default by done. do 2 f_equal. symmetry.
  destruct (switch (opcode c w)) as [k |] eqn:Ek; simpl in *.
  - destruct (operand_bytes k) as [n |] eqn:Eb.
    + destruct k; try done; rewrite Ht;
        (eapply next_advance; [done .. | unfold execute; rewrite Ek; by apply adv_case | done]).
    + destruct (control_flow _ _ Hb Ek Eb) as [(fl & b & ->) | Hin].
      * destruct Ht as [-> ->]. by eapply next_branch.
      * exfalso. apply Hid. clear -Hin. set_unfold. destruct_or! Hin; injection Hin as -> _; tauto.
  - rewrite Ht. eapply (next_advance _ _ _ _ 0); try done; [auto |].
    unfold execute. rewrite Ek. intros ????? [= _ <- _]. by rewrite Z.add_0_r.
Qed.

Lemma nextaddr_correct c w c' w' : cpu_ok c -> winv w -> in_memory c ->
  execnmi c = false -> execirq c = false ->
  opcode c w <> 0x00 -> opcode c w <> 0x40 -> (opcode c w = 0x60 -> sp (r c) <= 0xFD) ->
  (opcode c w = 0x6C -> quiet (operand c w) /\ quiet (ind_high_addr (operand c w))) ->
  run None (c, w) = Ok (tt, (c', w')) -> nextaddr (c, w) = Ok (pc (r c'), (c, w)).
Proof.
  intros Hc Hw Hm E1 E2 N0 N1 Hsp Hind Hr.
  destruct (decide (opcode c w ∈ [0x20; 0x4C; 0x6C; 0x60])) as [Hin | Hnin].
  - rewrite !elem_of_cons, elem_of_nil in Hin. destruct Hin as [Eo | [Eo | [Eo | [Eo | []]]]].
    + rewrite (next_jsr c w c' w') by done. apply nextaddr_jump; auto.
    + destruct (next_jmp c w) as (c1 & E & Hp); [done .. |]. rewrite E in Hr. simplify_eq.
      rewrite Hp. apply nextaddr_jump; auto.
    + destruct (Hind Eo) as [Q3 Q4].
      destruct (next_jmp_ind c w) as (c1 & E & Hp); [done .. |]. rewrite E in Hr. simplify_eq.
      rewrite Hp. by apply nextaddr_jmp_ind.
    + destruct (next_rts c w) as (c1 & E & Hp); [done .. |]. rewrite E in Hr. simplify_eq.
      rewrite Hp. by apply nextaddr_rts; auto.
  - apply (nextaddr_plain c w c' w'); try done. clear -Hnin N0 N1. set_unfold. tauto.
Qed.

(** [RTI]: what the prediction reads, and where the instruction goes. *)
Lemma nextaddr_rti c w : cpu_ok c -> winv w -> in_memory c ->
  execnmi c = false -> execirq c = false -> opcode c w = 0x40 -> sp (r c) <= 0xFC ->
  nextaddr (c, w) = Ok (stack w (sp (r c) + 2) * 256 + stack w (sp (r c) + 1), (c, w)) /\
  exists c', run None (c, w) = Ok (tt, (c', w)) /\
    pc (r c') = stack w (sp (r c) + 3) * 256 + stack w (sp (r c) + 2).
Proof.
  intros Hc Hw (Q0 & Q1 & Q2) E1 E2 Hid Hs. pose proof (ok_sp c Hc) as Hsp. split.
  - next_reads. cbv zeta. fold (opcode c w). rewrite Hid.
    rewrite !(u16_id (sp (r c) + _ + STACK_BASE)) by (unfold STACK_BASE; dlia).
    assert (Hq : forall i, 1 <= i <= 2 -> quiet (sp (r c) + i + STACK_BASE))
      by (intros i Hi; apply quiet_ram; unfold STACK_BASE; dlia).
    repeat (erewrite bindM_run by (apply bus_read_quiet; [done | apply Hq; lia])). unfold retM, stack.
    destruct (bytes_word (peek w (sp (r c) + 1 + STACK_BASE)) (peek w (sp (r c) + 2 + STACK_BASE)))
      as [E Hword]; [apply quiet_byte; try apply Hq; try done; unfold STACK_BASE; dlia .. |].
    by rewrite E, u16_id.
  - assert (Hf : cpu_ok (fetched c)) by (destruct Hc; constructor; simpl; auto with emu).
    destruct (rti_run (fetched c) w Hf Hw) as (c' & E & _ & _ & Hp). exists c'. split.
    + by rewrite (switch_of c w (INSTR_IMPLD Fn_rti)) by (done || by rewrite Hid).
    + rewrite Hp. change (sp (r (fetched c))) with (sp (r c)).
      by rewrite !(u8_id (sp (r c) + _)) by dlia.
Qed.
End Next.
