(* ===== verification/CpuIsa.v ===== *)
(** * The processor and the documented instruction set

    What the reference [Mos6502] and [CPU] have to do with each other: the switch of
    [execute] decodes the documented opcodes ([decode_switch]), the state of the
    processor is a state of the reference ([view]), and the operations on registers
    and flags are the documented ones, with the exceptions that [unreliable] lists.
    [CpuIsaRun] goes on to the operations on the bus. *)

From S2P Require Import Prelude InstrInfo Cpu CpuFacts CpuInv CpuAlu CpuStack CpuNext Mos6502.
Open Scope Z_scope.

(** ** The switch decodes as documented *)

#[export] Instance Op_eq_dec : EqDecision Op.
Proof. solve_decision. Defined.
#[export] Instance Mode_eq_dec : EqDecision Mode.
Proof. solve_decision. Defined.
#[export] Instance Instr_eq_dec : EqDecision Instr.
Proof. solve_decision. Defined.

Definition read_op (f : ReadFn) : Op :=
  match f with
  | Fn_ora => ORA | Fn_and => AND | Fn_eor => EOR | Fn_adc => ADC | Fn_sbc => SBC | Fn_bit => BIT
  | Fn_cmp => COMPARE RegAcc | Fn_cpx => COMPARE RegX | Fn_cpy => COMPARE RegY
  | Fn_lda => LOAD RegAcc | Fn_ldx => LOAD RegX | Fn_ldy => LOAD RegY
  end.
Definition mod_op (f : ModFn) : Op :=
  match f with
  | Fn_asl => ASL | Fn_lsr => LSR | Fn_rol => ROL | Fn_ror => ROR | Fn_inc => INC | Fn_dec => DEC
  end.
Definition read_mode (m : ReadMode) : Mode :=
  match m with
  | RImm => Imm | RZero => Zp | RZerox => ZpX | RZeroy => ZpY | RAbs => Abs | RAbsx => AbsX | RAbsy => AbsY
  | RIndx => IndX | RIndy => IndY
  end.
Definition mod_mode (m : ModMode) : Mode :=
  match m with MAccum => Accu | MZero => Zp | MZerox => ZpX | MAbs => Abs | MAbsx => AbsX end.
Definition write_mode (m : WriteMode) : Mode :=
  match m with
  | WZero => Zp | WZerox => ZpX | WZeroy => ZpY | WAbs => Abs | WAbsx => AbsX | WAbsy => AbsY
  | WIndx => IndX | WIndy => IndY
  end.

Definition instr_of (k : InstrCase) : Instr :=
  match k with
  | INSTR_READ f m => OnOperand (read_op f) (read_mode m)
  | INSTR_MODIFY f m => OnOperand (mod_op f) (mod_mode m)
  | INSTR_WRITE m n => OnOperand (STORE n) (write_mode m)
  | INSTR_BRANCH fl b => Branch fl b
  | INSTR_FLAG fl b => SetFlag fl b
  | INSTR_TRANSFER from to => Transfer from to
  | INSTR_IMPLD f =>
      match f with
      | Fn_brk => Break | Fn_php => PushFlags | Fn_plp => PullFlags | Fn_pha => PushA | Fn_pla => PullA
      | Fn_jsr => Call | Fn_jmp => Jump | Fn_jmp_ind => JumpIndirect | Fn_rts => Return | Fn_rti => ReturnInterrupt
      | Fn_inx => Step RegX 1 | Fn_iny => Step RegY 1 | Fn_dex => Step RegX (-1) | Fn_dey => Step RegY (-1)
      | Fn_nop => Nothing
      end
  end.

Lemma decode_switch id : byte id -> decode id = instr_of <$> switch id.
Proof.
  intros Hid. set (f := fun id => bool_decide (decode id = instr_of <$> switch id)).
  assert (Hf : forallb f (Z.of_nat <$> seq 0 256) = true) by (vm_compute; reflexivity).
  apply (bool_decide_eq_true_1 _ (bytes_forall f Hf id Hid)).
Qed.

(** ** The state that the reference sees *)

Definition view (c : CPU) (m : Z -> Z) : Isa :=
  mkIsa (acc (r c)) (rx (r c)) (ry (r c)) (sp (r c)) (pc (r c)) (flags (r c)) m.

(** The processor without what the reference does not have: the cycle count and
    the operand latch. *)
Definition strip (c : CPU) : CPU := set_cycles 0 (set_opargs 0 c).

Lemma view_strip c m : view (strip c) m = view c m.
Proof. done. Qed.

(** No interrupt is pending or about to be served. *)
Definition calm (c : CPU) : Prop :=
  nmipending c = false /\ irqpending c = false /\ execnmi c = false /\ execirq c = false.

Lemma calm_last_cycle c : calm c -> last_cycle c = c.
Proof.
  intros (E1 & E2 & E3 & E4). unfold last_cycle, nmipoll, irqpoll.
  rewrite E1, andb_false_r, E2, andb_false_r. done.
Qed.

Lemma calm_strip c : calm (strip c) <-> calm c.
Proof. done. Qed.

Lemma strip_cycle c : strip (cycle c) = strip c.
Proof. done. Qed.
Lemma strip_opargs v c : strip (set_opargs v c) = strip c.
Proof. done. Qed.
Lemma strip_fetched c : strip (fetched c) = set_pc (u16 (pc (r c) + 1)) (strip c).
Proof. done. Qed.
Lemma strip_last_cycle c : strip (last_cycle c) = last_cycle (strip c).
Proof. unfold last_cycle, nmipoll, irqpoll. destruct c as [rg [] [] [] [] [] o], rg as [? ? ? ? ? [] ?]; simpl; by repeat case_match. Qed.
Lemma strip_read_fn f v c : strip (read_fn f v c) = read_fn f v (strip c).
Proof. by destruct f. Qed.
Lemma strip_mod_fn f v c : strip (snd (mod_fn f v c)) = snd (mod_fn f v (strip c)).
Proof. by destruct f. Qed.
Lemma fst_mod_fn f v c : fst (mod_fn f v (strip c)) = fst (mod_fn f v c).
Proof. by destruct f. Qed.
Lemma strip_pc v c : strip (set_pc v c) = set_pc v (strip c).
Proof. done. Qed.
Lemma strip_page (res : Z) c :
  strip (if negb (high (opargs c) =? high res) then cycle c else c) = strip c.
Proof. by case_match. Qed.

Lemma pc_set_pc v c : pc (r (set_pc v c)) = v.
Proof. done. Qed.
Lemma opargs_set_pc v c : opargs (set_pc v c) = opargs c.
Proof. done. Qed.
Lemma pc_cycle c : pc (r (cycle c)) = pc (r c).
Proof. done. Qed.

Create Rewrite HintDb strip_db.
Lemma strip_set_acc v c : strip (set_acc v c) = set_acc v (strip c).
Proof. done. Qed.
Lemma strip_set_flags f c : strip (set_flags f c) = set_flags f (strip c).
Proof. done. Qed.
Lemma strip_pulled c : strip (CpuFacts.pulled c) = set_sp (u8 (sp (r c) + 1)) (strip c).
Proof. done. Qed.
Lemma strip_pushed c : strip (CpuFacts.pushed c) = set_sp (u8 (sp (r c) - 1)) (strip c).
Proof. done. Qed.
#[export] Hint Rewrite strip_pulled strip_pushed strip_set_acc strip_set_flags : strip_db.
#[export] Hint Rewrite strip_cycle strip_opargs strip_fetched strip_last_cycle strip_read_fn strip_mod_fn
  strip_pc strip_page : strip_db.

Lemma calm_read_fn f v c : calm (read_fn f v c) <-> calm c.
Proof. by destruct f. Qed.
Lemma calm_mod_fn f v c : calm (snd (mod_fn f v c)) <-> calm c.
Proof. by destruct f. Qed.
Lemma calm_pc v c : calm (set_pc v c) <-> calm c.
Proof. done. Qed.

(** ** Operations on the registers *)

(** The flags that an instruction does not set as documented: [SBC] computes its
    overflow with the operand where the complement belongs, [BIT] exchanges the
    conditions of two flags and forgets bit 7, [TXS] sets flags. *)
Definition unreliable (i : Instr) : list FlagName :=
  match i with
  | OnOperand SBC _ => [FOv]
  | OnOperand BIT _ => [FZero; FNeg]
  | Transfer _ RegSp => [FZero; FNeg]
  | _ => []
  end.

Lemma ps_ext p p' : carry p = carry p' -> zero p = zero p' -> intdis p = intdis p' -> decimal p = decimal p' ->
  breakf p = breakf p' -> unused p = unused p' -> ov p = ov p' -> neg p = neg p' -> p = p'.
Proof. destruct p, p'. cbn. congruence. Qed.

Definition same_flags (ex : list FlagName) (p p' : ProcStatus) : Prop :=
  (forall fl, fl ∉ ex -> get_flag fl p = get_flag fl p') /\ breakf p = breakf p' /\ unused p = unused p'.

Lemma same_flags_nil p p' : same_flags [] p p' <-> p = p'.
Proof.
  split; [| by intros ->]. intros (H & Hb & Hu). destruct p, p'; simpl in *.
  pose proof (H FCarry (not_elem_of_nil _)). pose proof (H FZero (not_elem_of_nil _)).
  pose proof (H FIntdis (not_elem_of_nil _)). pose proof (H FDecimal (not_elem_of_nil _)).
  pose proof (H FOv (not_elem_of_nil _)). pose proof (H FNeg (not_elem_of_nil _)). simpl in *. congruence.
Qed.

(** Equal but for some flags; the memory is compared where [P] holds. *)
Record agrees (P : Z -> Prop) (ex : list FlagName) (s s' : Isa) : Prop := {
  ag_A : iA s = iA s'; ag_X : iX s = iX s'; ag_Y : iY s = iY s'; ag_S : iS s = iS s'; ag_PC : iPC s = iPC s';
  ag_P : same_flags ex (iP s) (iP s');
  ag_M : forall a, P a -> iM s a = iM s' a;
}.

Lemma agrees_refl P ex s : agrees P ex s s.
Proof. by constructor. Qed.

Lemma agrees_eq P ex s s' : s = s' -> agrees P ex s s'.
Proof. intros ->. apply agrees_refl. Qed.

Lemma agrees_trans P ex s1 s2 s3 : agrees P ex s1 s2 -> agrees P ex s2 s3 -> agrees P ex s1 s3.
Proof.
  intros [] [] . constructor; try congruence.
  - destruct ag_P0 as (H1 & ? & ?), ag_P1 as (H2 & ? & ?). split; [| split; congruence].
    intros fl Hfl. rewrite H1 by done. by apply H2.
  - intros a Ha. rewrite ag_M0 by done. by apply ag_M1.
Qed.

#[export] Instance agrees_preorder P ex : PreOrder (agrees P ex).
Proof. split; [exact (agrees_refl P ex) | exact (agrees_trans P ex)]. Qed.

#[export] Instance with_PC_proper P ex n : Proper (agrees P ex ==> agrees P ex) (with_PC n).
Proof. intros s1 s2 []. by constructor. Qed.
#[export] Instance with_S_proper P ex n : Proper (agrees P ex ==> agrees P ex) (with_S n).
Proof. intros s1 s2 []. by constructor. Qed.
#[export] Instance with_A_proper P ex n : Proper (agrees P ex ==> agrees P ex) (with_A n).
Proof. intros s1 s2 []. by constructor. Qed.
#[export] Instance with_P_proper P f : Proper (agrees P [] ==> agrees P []) (with_P f).
Proof. intros s1 s2 [????? E%same_flags_nil ?]. constructor; try done. cbn. by rewrite E. Qed.
#[export] Instance push_proper P ex v : Proper (agrees P ex ==> agrees P ex) (push v).
Proof.
  intros s1 s2 []. constructor; cbn; try congruence; try done.
  intros a Ha. unfold poke. rewrite ag_S0. case_match; [done | by apply ag_M0].
Qed.

Lemma agrees_weaken P ex s s' : agrees P [] s s' -> agrees P ex s s'.
Proof. intros []. apply same_flags_nil in ag_P0. constructor; try done. by rewrite ag_P0. Qed.

Lemma view_zn v c m : byte v -> view (set_zn v c) m = with_P (flags_nz v) (view c m).
Proof. intros Hv. unfold view, with_P, flags_nz. cbn. by rewrite flag80_byte. Qed.

Lemma signed_s8 v : byte v -> signed v = s8 v.
Proof. intros Hv. rewrite s8_cases by done. unfold signed. zcases. Qed.

Lemma view_compare reg v c m : byte reg -> byte v ->
  view (compare_flags reg v c) m =
  with_P (fun p => set_carry (v <=? reg) (flags_nz ((reg - v) mod 256) p)) (view c m).
Proof.
  intros Hr Hv. unfold view, with_P, flags_nz, compare_flags. cbn. rewrite flag80_u8.
  replace (0 <=? reg - v) with (v <=? reg) by zcases.
  assert (E : (reg - v =? 0) = ((reg - v) mod 256 =? 0)) by (zcases; dlia). by rewrite E.
Qed.

(** [ADC], [SBC] and [BIT] field by field. *)
Lemma view_fields c c' m P ex s : strip c' = strip (set_acc (acc (r c')) (set_flags (fun _ => flags (r c')) c)) ->
  iA s = acc (r c') -> iX s = rx (r c) -> iY s = ry (r c) -> iS s = sp (r c) -> iPC s = pc (r c) -> iM s = m ->
  same_flags ex (flags (r c')) (iP s) -> agrees P ex (view c' m) s.
Proof.
  intros E EA EX EY ES EP EM Hf. destruct c as [[] ? ? ? ? ? ?], c' as [[] ? ? ? ? ? ?]. cbn in *.
  injection E as -> -> -> -> _ _ _ _ _. constructor; cbn; congruence || done || by rewrite EM.
Qed.

Lemma view_adc v c m P : byte (acc (r c)) -> byte v -> agrees P [] (view (instr_adc v c) m) (operate ADC v (view c m)).
Proof.
  intros Ha Hv. destruct (adc_spec v c Ha Hv) as (Ea & Ec & Ez & En & Eo).
  apply (view_fields c); try done.
  - apply same_flags_nil, ps_ext; try done.
    etrans; [exact Eo |]. cbn [operate with_P iP with_A iA set_ov ov view]. by rewrite !signed_s8.
Qed.

Lemma view_sbc v c m P : byte (acc (r c)) -> byte v -> agrees P [FOv] (view (instr_sbc v c) m) (operate SBC v (view c m)).
Proof.
  intros Ha Hv. destruct (sbc_spec v c Ha Hv) as (Ea & Ec & Ez & En).
  apply (view_fields c); try done.
  - split; [| done]. intros [] Hfl; try done.
    + etrans; [exact Ez |]. by rewrite Ea.
    + destruct Hfl. by left.
    + etrans; [exact En |]. by rewrite Ea.
Qed.

Lemma view_bit v c m P : agrees P [FZero; FNeg] (view (instr_bit v c) m) (operate BIT v (view c m)).
Proof.
  apply (view_fields c); try done. split; [| done]. intros [] Hfl; try done; cbn.
  - destruct Hfl. by left.
  - apply (tobool_land_pow2 v 6). lia.
  - destruct Hfl. right. by left.
Qed.

(** The functions that read an operand. *)
Lemma view_read_fn f v c m P : cpu_ok c -> byte v ->
  agrees P (unreliable (OnOperand (read_op f) Imm)) (view (read_fn f v c) m) (operate (read_op f) v (view c m)).
Proof.
  intros Hc Hv. pose proof (ok_acc c Hc). pose proof (ok_rx c Hc). pose proof (ok_ry c Hc).
  assert (Heq : forall ex s s', s = s' -> agrees P ex s s') by (intros ex s s' ->; apply agrees_refl).
  destruct f; cbn [read_op read_fn unreliable].
  - apply Heq. by apply view_zn, byte_lor.
  - apply Heq. by apply view_zn, byte_land_l.
  - apply Heq. by apply view_zn, byte_lxor.
  - by apply view_adc.
  - by apply view_sbc.
  - apply Heq. by apply view_compare.
  - apply Heq. by apply view_compare.
  - apply Heq. by apply view_compare.
  - apply Heq. by apply view_zn.
  - apply Heq. by apply view_zn.
  - apply Heq. by apply view_zn.
  - apply view_bit.
Qed.

(** The functions that change an operand. *)
Lemma view_mod_fn f v c m : byte v ->
  let '(v1, p1) := shift (mod_op f) v (flags (r c)) in
  fst (mod_fn f v c) = v1 /\ byte v1 /\ view (snd (mod_fn f v c)) m = with_P (fun _ => p1) (view c m).
Proof.
  intros Hv. destruct (shift_spec v c Hv) as ([Ea Ca] & [El Cl] & [Eo Co] & [Er Cr]).
  assert (Hb : forall w, byte w -> forall c0, view (set_zn w c0) m = with_P (fun _ => flags_nz w (flags (r c0))) (view c0 m))
    by (intros w Hw c0; by rewrite view_zn).
  assert (0 <= Z.b2z (carry (flags (r c))) <= 1) by (destruct (carry (flags (r c))); simpl; lia).
  destruct f; cbn [mod_op mod_fn shift].
  - split; [exact Ea |]. split; [dlia |]. cbn [mod_fn instr_asl snd fst] in *. rewrite Ea, Hb by dlia.
    unfold view, with_P. cbn in *. by rewrite Ca.
  - split; [exact El |]. split; [dlia |]. cbn [mod_fn instr_lsr snd fst] in *. rewrite El, Hb by dlia.
    unfold view, with_P. cbn in *. by rewrite Cl.
  - split; [exact Eo |]. split; [dlia |]. cbn [mod_fn instr_rol snd fst] in *. rewrite Eo, Hb by dlia.
    unfold view, with_P. cbn in *. by rewrite Co.
  - split; [exact Er |]. split; [dlia |]. cbn [mod_fn instr_ror snd fst] in *. rewrite Er, Hb by dlia.
    unfold view, with_P. cbn in *. by rewrite Cr.
  - split; [done |]. split; [dlia |]. cbn [instr_inc snd]. by apply Hb; dlia.
  - split; [done |]. split; [dlia |]. cbn [instr_dec snd]. by apply Hb; dlia.
Qed.
