(* ===== verification/CpuIsaRun.v ===== *)
(** * Every instruction runs as documented

    The operations on the bus against the reference [Mos6502]: the addressing modes
    find the documented address, each case of the switch implements its instruction
    ([implements_case]), and a run of the program follows the reference, which sees
    nothing but visible memory ([runs_ordinary]). *)

From S2P Require Import Prelude InstrInfo Cpu CpuFacts CpuInv CpuAlu CpuStack CpuNext Mos6502 CpuIsa.
Open Scope Z_scope.

(** ** Running an addressing mode *)

(** Indexing and pointers that stay in page zero.  The code computes these
    addresses on sixteen bits, where the processor wraps around in the page. *)
Definition in_page (m : Mode) (s : Isa) : bool :=
  match m with
  | ZpX => arg1 s + iX s <? 256
  | ZpY => arg1 s + iY s <? 256
  | IndX => arg1 s + iX s <? 255
  | IndY => arg1 s <? 255
  | _ => true
  end.

Lemma ok_set_pc v c : word v -> cpu_ok c -> cpu_ok (set_pc v c).
Proof. intros Hv []. by constructor. Qed.
Lemma ok_set_flags f c : cpu_ok c -> cpu_ok (set_flags f c).
Proof. intros []. by constructor. Qed.
Lemma ok_set_opargs v c : word v -> cpu_ok c -> cpu_ok (set_opargs v c).
Proof. intros Hv []. by constructor. Qed.
Lemma ok_fetched c : cpu_ok c -> cpu_ok (fetched c).
Proof. intros H. apply ok_set_pc; auto with emu. Qed.
#[local] Hint Resolve ok_set_pc ok_set_flags ok_set_opargs ok_fetched ok_pulled ok_pushed : emu.

Section Modes.
Context {W : Type} `{Ram : RamLaws W}.
Implicit Types (c : CPU) (w : W).
Context (c : CPU) (w : W).
Hypothesis Hc : cpu_ok c.
Hypothesis Hw : winv w.
Hypothesis Hm : in_memory c.
Hypothesis Hcalm : calm c.

Local Abbreviation s := (view c (peek w)).

Lemma arg1_byte : byte (arg1 s) /\ byte (arg2 s).
Proof. destruct Hm as (_ & Q1 & Q2). split; apply quiet_byte; auto with emu. Qed.

Lemma arg16_operand : arg16 s = operand c w.
Proof.
  destruct arg1_byte as [H1 H2]. unfold operand. symmetry. rewrite set_low_high by apply H1.
  unfold arg16, arg1, arg2, oplo, ophi. cbn [view iM iPC]. lia.
Qed.

(** The processor with the first operand byte, and with both. *)
Definition latched1 : CPU := set_opargs (set_low (opargs c) (arg1 s)) (fetched (fetched c)).
Definition latched2 : CPU := set_opargs (arg16 s) (fetched (fetched (fetched c))).

Lemma fetch1_run {B} (k : M (CPU * W) B) : (fetch_oplow ;; k) (fetched c, w) = k (latched1, w).
Proof.
  destruct Hm as (_ & Q1 & _).
  by rewrite (bindM_run _ _ _ _ _ (fetch_oplow_run (oplo c w) (fetched c) w w (quiet_read _ _ Hw Q1))).
Qed.

Lemma fetch2_run {B} (k : M (CPU * W) B) :
  (fetch_oplow ;; fetch_ophigh ;; k) (fetched c, w) = k (latched2, w).
Proof. rewrite (operand_run c w k Hw Hm). unfold latched2. by rewrite arg16_operand. Qed.

Lemma low_latched1 : low (opargs latched1) = arg1 s.
Proof. apply low_set_low, arg1_byte. Qed.

Lemma strip_latched1 : strip latched1 = set_pc (u16 (pc (r c) + 2)) (strip c).
Proof. unfold latched1. autorewrite with strip_db. cbn [pc r fetched set_pc set_r]. wrap_sums. done. Qed.

Lemma strip_latched2 : strip latched2 = set_pc (u16 (pc (r c) + 3)) (strip c).
Proof. unfold latched2. autorewrite with strip_db. cbn [pc r fetched set_pc set_r]. wrap_sums. done. Qed.

(** Reading at an address of memory, from a processor that was latched. *)
Lemma read_quiet {B} a c0 (k : Z -> M (CPU * W) B) : quiet a ->
  (v <- readmem None a ;; k v) (c0, w) = k (peek w a) (cycle c0, w).
Proof. intros Hq. by rewrite (bindM_run _ _ _ _ _ (readmem_quiet a c0 w Hw Hq)). Qed.

Lemma zero_page_quiet a : byte a -> quiet a.
Proof. intros Ha. apply quiet_ram. unfold byte in Ha. lia. Qed.

Lemma rx_cycle c0 : rx (r (cycle c0)) = rx (r c0).
Proof. done. Qed.
Lemma ry_cycle c0 : ry (r (cycle c0)) = ry (r c0).
Proof. done. Qed.
Lemma opargs_cycle c0 : opargs (cycle c0) = opargs c0.
Proof. done. Qed.
Lemma rx_latched1 : rx (r latched1) = rx (r c).
Proof. done. Qed.
Lemma ry_latched1 : ry (r latched1) = ry (r c).
Proof. done. Qed.
Lemma rx_latched2 : rx (r latched2) = rx (r c).
Proof. done. Qed.
Lemma ry_latched2 : ry (r latched2) = ry (r c).
Proof. done. Qed.
Lemma opargs_latched2 : opargs latched2 = arg16 s.
Proof. done. Qed.

(** The address as the code computes it. *)
Lemma indexed_in_page i : arg1 s + i < 256 -> byte i -> u16 (arg1 s + i) = u8 (arg1 s + i) /\ byte (u8 (arg1 s + i)).
Proof. intros Hi Hb. destruct arg1_byte as [H1 _]. dlia. Qed.

Lemma pointer_word z : byte z -> z < 255 ->
  set_high (set_low 0 (peek w z)) (peek w (z + 1)) = pointer z s /\ quiet z /\ quiet (z + 1).
Proof.
  intros Hz Hl. assert (Q1 : quiet z) by (by apply zero_page_quiet).
  assert (Q2 : quiet (z + 1)) by (apply zero_page_quiet; unfold byte in *; lia).
  assert (B1 : byte (peek w z)) by (apply quiet_byte; try done; unfold byte, word in *; lia).
  assert (B2 : byte (peek w (z + 1))) by (apply quiet_byte; try done; unfold byte, word in *; lia).
  split; [| done]. rewrite set_low_high by done. unfold pointer. cbn [view iM].
  replace (u8 (z + 1)) with (z + 1) by dlia. lia.
Qed.

Ltac strip_tac :=
  autorewrite with strip_db; rewrite ?strip_latched1, ?strip_latched2;
  rewrite ?calm_last_cycle by (rewrite ?calm_read_fn, ?calm_mod_fn; exact Hcalm); try reflexivity.

Lemma byte_at a : word a -> quiet a -> u8 (peek w a) = peek w a.
Proof. intros Ha Hq. by apply u8_id, quiet_byte. Qed.

Lemma address_word m : word (address m s).
Proof.
  destruct arg1_byte as [H1 H2].
  assert (Hz : forall z, byte z -> word (pointer z s)).
  { intros z Hz. unfold pointer. cbn [view iM].
    assert (B1 : byte (peek w z)) by (apply quiet_byte; [| done | by apply zero_page_quiet]; unfold byte, word in *; lia).
    assert (Hu : byte (u8 (z + 1))) by auto with emu.
    assert (B2 : byte (peek w (u8 (z + 1)))) by (apply quiet_byte; [| done | by apply zero_page_quiet]; unfold byte, word in *; lia).
    unfold byte, word in *. lia. }
  assert (Hb : forall z, word (u8 z)) by (intros z; dlia).
  destruct m; cbn [address]; auto using u16_word with emu; unfold arg16, byte, word in *; lia.
Qed.

(** The addressing modes up to the access: what the registers are when the address
    is known, and that address. *)
Lemma zerox_address : in_page ZpX s = true -> u16 (low (opargs latched1) + rx (r c)) = address ZpX s.
Proof.
  intros Hp%Z.ltb_lt. rewrite low_latched1. by apply (indexed_in_page (rx (r c))); [| apply ok_rx].
Qed.

Lemma zeroy_address : in_page ZpY s = true -> u16 (low (opargs latched1) + ry (r c)) = address ZpY s.
Proof.
  intros Hp%Z.ltb_lt. rewrite low_latched1. by apply (indexed_in_page (ry (r c))); [| apply ok_ry].
Qed.

Lemma indx_run : in_page IndX s = true -> exists lo hi, set_high (set_low 0 lo) hi = address IndX s /\
  forall (B : Type) (k : Z -> Z -> M (CPU * W) B),
    (lo <- readmem None (u16 (low (opargs latched1) + rx (r c))) ;;
     hi <- readmem None (u16 (low (opargs latched1) + rx (r c) + 1)) ;; k lo hi) (cycle latched1, w) =
    k lo hi (cycle (cycle (cycle latched1)), w).
Proof.
  intros Hp%Z.ltb_lt. pose proof (ok_rx c Hc) as Hx. destruct arg1_byte as [Ha _]. cbn [view iX] in Hp.
  destruct (pointer_word (arg1 s + rx (r c))) as (Ep & Q1 & Q2); [unfold byte in *; lia | lia |].
  eexists _, _. split.
  - cbn [address view iX]. rewrite u8_id by (unfold byte in *; lia). exact Ep.
  - intros B k. rewrite low_latched1, (u16_id (arg1 s + rx (r c))), (u16_id (arg1 s + rx (r c) + 1))
      by (unfold byte, word in *; lia).
    by rewrite read_quiet, read_quiet.
Qed.

Lemma indy_run : in_page IndY s = true -> exists lo hi, u16 (set_high (set_low 0 lo) hi + ry (r c)) = address IndY s /\
  forall (B : Type) (k : Z -> Z -> M (CPU * W) B),
    (lo <- readmem None (low (opargs latched1)) ;;
     hi <- readmem None (u16 (low (opargs latched1) + 1)) ;; k lo hi) (latched1, w) =
    k lo hi (cycle (cycle latched1), w).
Proof.
  intros Hp%Z.ltb_lt. destruct arg1_byte as [Ha _].
  destruct (pointer_word (arg1 s)) as (Ep & Q1 & Q2); [done .. |].
  eexists _, _. split.
  - cbn [address view iY]. by rewrite <- Ep.
  - intros B k. rewrite low_latched1, (u16_id (arg1 s + 1)) by (unfold byte, word in *; lia).
    by rewrite read_quiet, read_quiet.
Qed.

(** Show the resulting processor. *)
Ltac finish_mode := eexists; split; [reflexivity |]; strip_tac.

(** Start an addressing mode and bring the registers in its addresses to those of [c]. *)
Ltac mode_run :=
  rewrite ?fetch2_run, ?fetch1_run; unfold oplow, opfull, xreg, yreg, cycle_if_page_differs; mrun;
  rewrite ?rx_cycle, ?ry_cycle, ?opargs_cycle, ?rx_latched1, ?ry_latched1, ?rx_latched2, ?ry_latched2, ?opargs_latched2.

Lemma read_run m f : quiet (address (read_mode m) s) -> in_page (read_mode m) s = true ->
  exists c', addrmode_read None m (read_fn f) (fetched c, w) = Ok (tt, (c', w)) /\
    strip c' = read_fn f (peek w (address (read_mode m) s))
                 (set_pc (u16 (pc (r c) + length_of (read_mode m))) (strip c)).
Proof.
  intros Hq Hp. destruct m; cbn [read_mode length_of addrmode_read] in *; unfold_instr; mode_run.
  - rewrite low_latched1. finish_mode.
  - rewrite low_latched1, read_quiet by done. mrun. finish_mode.
  - rewrite zerox_address by exact Hp. rewrite read_quiet by done. mrun. finish_mode.
  - rewrite zeroy_address by exact Hp. rewrite read_quiet by done. mrun. finish_mode.
  - rewrite read_quiet by done. mrun. finish_mode.
  - rewrite read_quiet by done. mrun. rewrite byte_at by (done || apply u16_word).
    finish_mode.
  - rewrite read_quiet by done. mrun. rewrite byte_at by (done || apply u16_word).
    finish_mode.
  - destruct (indx_run Hp) as (lo & hi & Ea & E). rewrite E, Ea, read_quiet by done. mrun.
    finish_mode.
  - destruct (indy_run Hp) as (lo & hi & Ea & E). rewrite E. cbv zeta. mrun.
    rewrite !ry_cycle, ry_latched1. rewrite Ea, read_quiet by done. mrun.
    finish_mode.
Qed.

(** *** Stores *)

(** The second world has [v] stored at [a], for what the reference compares. *)
Definition pokes (a v : Z) (w w' : W) : Prop :=
  forall b, quiet b -> 0 <= b -> peek w' b = poke a v (peek w) b.

Lemma write_ram a v w0 : winv w0 -> 0 <= a < 0x2000 -> byte v ->
  exists w', winv w' /\ pokes a v w0 w' /\
    forall (B : Type) c0 (k : unit -> M (CPU * W) B), bindM (writemem None a v) k (c0, w0) = k tt (cycle c0, w').
Proof.
  intros Hw0 Ha Hv. destruct (ram_write a v w0 Hw0 Ha Hv) as (w' & E & Hw' & Hp & Hr).
  exists w'. split_and!; [done | |].
  - intros b Hq Hb. unfold poke. destruct (Z.ltb_spec b 0x2000); simpl; [apply Hp; lia | by apply Hr].
  - intros B c0 k. unfold writemem, notify, bus_write, bindM, retM, upd. by rewrite E.
Qed.

Lemma bindM_apply_mod {B} f v c0 (w0 : W) (k : Z -> M (CPU * W) B) :
  bindM (apply_mod f v) k (c0, w0) = k (fst (f v c0)) (snd (f v c0), w0).
Proof. unfold bindM, apply_mod. by destruct (f v c0). Qed.

Lemma byte_mod_fn f v c0 : byte v -> byte (fst (mod_fn f v c0)).
Proof. intros Hv. pose proof (view_mod_fn f v c0 (peek w) Hv). by destruct (shift _ _ _) as [? ?]; destruct H as (-> & ? & _). Qed.

Definition stored_at (m : Mode) : Prop :=
  0 <= address m s < 0x2000 /\ in_page m s = true.

Lemma write_run m v : byte v -> stored_at (write_mode m) ->
  exists c' w', addrmode_write None m v (fetched c, w) = Ok (tt, (c', w')) /\ winv w' /\
    pokes (address (write_mode m) s) v w w' /\
    strip c' = set_pc (u16 (pc (r c) + length_of (write_mode m))) (strip c).
Proof.
  intros Hv [Hq Hp]. destruct (write_ram _ v w Hw Hq Hv) as (w' & Hw' & Hpk & E).
  enough (H : exists c', addrmode_write None m v (fetched c, w) = Ok (tt, (c', w')) /\
    strip c' = set_pc (u16 (pc (r c) + length_of (write_mode m))) (strip c)) by (destruct H as (c' & ? & ?); exists c', w'; done).
  clear Hw' Hpk.
  destruct m; cbn [write_mode length_of addrmode_write] in *; unfold_instr; mode_run.
  - rewrite low_latched1, E. mrun. finish_mode.
  - rewrite zerox_address, E by exact Hp. mrun. finish_mode.
  - rewrite zeroy_address, E by exact Hp. mrun. finish_mode.
  - rewrite E. mrun. finish_mode.
  - rewrite E. mrun. finish_mode.
  - rewrite E. mrun. finish_mode.
  - destruct (indx_run Hp) as (lo & hi & Ea & E'). rewrite E', Ea, E. mrun.
    finish_mode.
  - destruct (indy_run Hp) as (lo & hi & Ea & E'). rewrite E'. mrun.
    rewrite !ry_cycle, ry_latched1. rewrite Ea, E. mrun.
    finish_mode.
Qed.

(** An operation on the operand, in place. *)
Lemma modify_run m f : m <> MAccum -> stored_at (mod_mode m) ->
  let v := peek w (address (mod_mode m) s) in
  let c1 := set_pc (u16 (pc (r c) + length_of (mod_mode m))) (strip c) in
  exists c' w', addrmode_modify None m (mod_fn f) (fetched c, w) = Ok (tt, (c', w')) /\ winv w' /\
    pokes (address (mod_mode m) s) (fst (mod_fn f v c1)) w w' /\ strip c' = snd (mod_fn f v c1).
Proof.
  intros Hm' [Hq Hp] v c1. pose proof (quiet_ram _ Hq) as Hr.
  assert (Hv : byte v) by (apply quiet_byte; [unfold word; lia | done ..]).
  destruct (write_ram _ (fst (mod_fn f v c1)) w Hw Hq (byte_mod_fn f v c1 Hv)) as (w' & Hw' & Hpk & E).
  enough (H : exists c', addrmode_modify None m (mod_fn f) (fetched c, w) = Ok (tt, (c', w')) /\
    strip c' = snd (mod_fn f v c1)) by (destruct H as (c' & ? & ?); exists c', w'; done).
  clear Hw' Hpk.
  assert (H1 : strip latched1 = set_pc (u16 (pc (r c) + 2)) (strip c)) by apply strip_latched1.
  assert (H2 : strip latched2 = set_pc (u16 (pc (r c) + 3)) (strip c)) by apply strip_latched2.
  assert (Hf : forall c0, strip c0 = c1 -> u8 (fst (mod_fn f v c0)) = fst (mod_fn f v c1)).
  { intros c0 <-. rewrite fst_mod_fn. by apply u8_id, byte_mod_fn. }
  destruct m; try done; cbn [mod_mode length_of addrmode_modify] in *; unfold_instr; mode_run.
  - rewrite low_latched1, read_quiet by done. rewrite bindM_apply_mod. mrun. rewrite Hf by (autorewrite with strip_db; first [exact H1 | exact H2]). rewrite E. mrun. finish_mode.
  - rewrite zerox_address by exact Hp. rewrite read_quiet by done. rewrite bindM_apply_mod. mrun. rewrite Hf by (autorewrite with strip_db; first [exact H1 | exact H2]). rewrite E. mrun. finish_mode.
  - rewrite read_quiet by done. rewrite bindM_apply_mod. mrun. rewrite Hf by (autorewrite with strip_db; first [exact H1 | exact H2]). rewrite E. mrun. finish_mode.
  - rewrite read_quiet by done. rewrite bindM_apply_mod. mrun. rewrite Hf by (autorewrite with strip_db; first [exact H1 | exact H2]). rewrite E. mrun. finish_mode.
Qed.

Lemma calm_set_acc v c0 : calm (set_acc v c0) <-> calm c0.
Proof. done. Qed.

Lemma accum_run f :
  exists c', addrmode_modify None MAccum (mod_fn f) (fetched c, w) = Ok (tt, (c', w)) /\
    let c1 := set_pc (u16 (pc (r c) + 1)) (strip c) in
    strip c' = set_acc (fst (mod_fn f (acc (r c)) c1)) (snd (mod_fn f (acc (r c)) c1)).
Proof.
  cbn [addrmode_modify]. unfold_instr. mrun. rewrite bindM_apply_mod. mrun.
  eexists. split; [reflexivity |]. cbv zeta. autorewrite with strip_db.
  rewrite <- fst_mod_fn. autorewrite with strip_db.
  rewrite calm_last_cycle; [reflexivity |]. by apply calm_set_acc, calm_mod_fn.
Qed.

(** ** Every instruction *)

(** What the reference is compared on. *)
Definition visible (a : Z) : Prop := quiet a /\ 0 <= a.

Definition reaches (i : Instr) (c' : CPU) (w' : W) : Prop :=
  winv w' /\ calm c' /\ agrees visible (unreliable i) (view c' (peek w')) (exec i s).

Definition implements (k : InstrCase) : Prop :=
  exists c' w', exec_case None k (fetched c, w) = Ok (tt, (c', w')) /\ reaches (instr_of k) c' w'.

Lemma reach i c' c2 w' : winv w' -> strip c' = strip c2 -> calm c2 ->
  agrees visible (unreliable i) (view c2 (peek w')) (exec i s) -> reaches i c' w'.
Proof.
  intros Hw' E H Ha. split_and!; [done | |].
  - by rewrite <- calm_strip, E.
  - by rewrite <- view_strip, E, view_strip.
Qed.

Lemma same_view i c2 m : view c2 m = exec i s -> agrees visible (unreliable i) (view c2 m) (exec i s).
Proof. intros ->. apply agrees_refl. Qed.

Lemma agrees_stored ex s1 s2 a v w' : s2 = with_M (poke a v) s1 -> iM s1 = peek w -> pokes a v w w' ->
  agrees visible ex (mkIsa (iA s1) (iX s1) (iY s1) (iS s1) (iPC s1) (iP s1) (peek w')) s2.
Proof. intros -> E Hp. constructor; try done. intros b [Hq Hb]. cbn. rewrite E. by apply Hp. Qed.

Lemma implements_read f m : quiet (address (read_mode m) s) -> in_page (read_mode m) s = true ->
  implements (INSTR_READ f m).
Proof.
  intros Hq Hp. destruct (read_run m f Hq Hp) as (c' & E & Es). exists c', w. split; [exact E |].
  set (c1 := set_pc (u16 (pc (r c) + length_of (read_mode m))) c).
  assert (Hv : byte (peek w (address (read_mode m) s))) by (apply quiet_byte; try done; by apply address_word).
  apply (reach _ _ (read_fn f (peek w (address (read_mode m) s)) c1)); [done | | by apply calm_read_fn |].
  - by rewrite strip_read_fn.
  - pose proof (view_read_fn f _ c1 (peek w) visible (ok_set_pc _ _ (u16_word _) Hc) Hv) as H.
    by destruct f.
Qed.

Lemma implements_write m n : stored_at (write_mode m) -> implements (INSTR_WRITE m n).
Proof.
  intros Hs. destruct (write_run m (get_reg n c) (ok_get_reg n c Hc) Hs) as (c' & w' & E & Hw' & Hp & Es).
  exists c', w'. split; [by destruct n |].
  apply (reach _ _ (set_pc (u16 (pc (r c) + length_of (write_mode m))) c)); [done .. |].
  by eapply (agrees_stored _ (with_PC (u16 (pc (r c) + length_of (write_mode m))) s)); [| | exact Hp]; [destruct n |].
Qed.

Lemma implements_modify f m : m <> MAccum -> stored_at (mod_mode m) -> implements (INSTR_MODIFY f m).
Proof.
  intros Hm' Hs. destruct (modify_run m f Hm' Hs) as (c' & w' & E & Hw' & Hp & Es).
  exists c', w'. split; [exact E |]. set (v := peek w (address (mod_mode m) s)) in *.
  set (c1 := set_pc (u16 (pc (r c) + length_of (mod_mode m))) c).
  assert (Hv : byte v) by (apply quiet_byte; [apply address_word | done | apply quiet_ram, Hs]; done).
  change (set_pc _ (strip c)) with (strip c1) in Hp, Es. rewrite fst_mod_fn in Hp.
  pose proof (view_mod_fn f v c1 (peek w') Hv) as H.
  destruct (shift (mod_op f) v (flags (r c1))) as [v1 p1] eqn:Esh. destruct H as (E1 & _ & Ev).
  apply (reach _ _ (snd (mod_fn f v c1))); [done | by rewrite strip_mod_fn | by apply calm_mod_fn |].
  rewrite Ev. rewrite E1 in Hp.
  apply (agrees_stored _ (with_P (fun _ => p1) (with_PC (u16 (pc (r c) + length_of (mod_mode m))) s)) _
    (address (mod_mode m) s) v1); [| done | exact Hp].
  change (flags (r c1)) with (iP s) in Esh. change v with (iM s (address (mod_mode m) s)) in Esh.
  destruct m; [done | ..]; destruct f; cbn [instr_of exec on_operand mod_op mod_mode modifies] in *; rewrite Esh; done.
Qed.

Lemma implements_accum f : implements (INSTR_MODIFY f MAccum).
Proof.
  destruct (accum_run f) as (c' & E & Es). exists c', w. split; [exact E |].
  set (c1 := set_pc (u16 (pc (r c) + 1)) c). cbv zeta in Es. change (set_pc _ (strip c)) with (strip c1) in Es.
  rewrite fst_mod_fn, <- strip_mod_fn, <- strip_set_acc in Es.
  pose proof (view_mod_fn f (acc (r c)) c1 (peek w) (ok_acc c Hc)) as H.
  destruct (shift (mod_op f) (acc (r c)) (flags (r c1))) as [v1 p1] eqn:Esh. destruct H as (E1 & _ & Ev).
  apply (reach _ _ _ _ Hw Es); [by apply calm_set_acc, calm_mod_fn |]. apply same_view.
  change (view (set_acc ?v ?c0) ?m) with (with_A v (view c0 m)). rewrite E1, Ev.
  change (flags (r c1)) with (iP s) in Esh. change (acc (r c)) with (iA s) in Esh.
  destruct f; cbn [instr_of exec on_operand mod_op mod_mode modifies] in *; rewrite Esh; done.
Qed.

(** Instructions without an operand in memory. *)
Lemma calm_fetched : last_cycle (fetched c) = fetched c.
Proof. by apply calm_last_cycle. Qed.

Lemma implements_flag fl b : implements (INSTR_FLAG fl b).
Proof.
  eexists _, w. split; [cbn [exec_case]; unfold_instr; mrun; reflexivity |]. rewrite calm_fetched.
  apply (reach _ _ (set_flags (set_flag fl b) (set_pc (u16 (pc (r c) + 1)) c))); [done .. |]. by apply same_view.
Qed.

Lemma implements_transfer from to : implements (INSTR_TRANSFER from to).
Proof.
  pose proof (ok_get_reg from c Hc) as Hv.
  eexists _, w. split; [cbn [exec_case]; unfold_instr; mrun; reflexivity |]. rewrite calm_fetched.
  replace (get_reg from (fetched c)) with (get_reg from c) by (by destruct from).
  apply (reach _ _ (set_zn (get_reg from c) (set_reg to (get_reg from c) (set_pc (u16 (pc (r c) + 1)) c))));
    [done | by destruct to | by destruct to |]. rewrite view_zn by done.
  destruct to; [by apply agrees_eq; destruct from .. |].
  constructor; try (by destruct from). split; [| done]. intros [] Hfl; try done; destruct Hfl; [left | right; left].
Qed.

Lemma implements_branch fl b : implements (INSTR_BRANCH fl b).
Proof.
  destruct arg1_byte as [Ha _]. unfold implements. cbn [exec_case instr_of]. unfold_instr. mrun.
  rewrite calm_fetched, fetch1_run. mrun. change (get_flag fl (flags (r (fetched c)))) with (get_flag fl (iP s)).
  destruct (eqb (get_flag fl (iP s)) b) eqn:Eb; simpl negb; cbv iota.
  - unfold oplow. mrun. eexists _, w. split; [reflexivity |].
    apply (reach _ _ (set_pc (u16 (pc (r c) + (2 + signed (arg1 s)))) c)); [done | | done |].
    + set (c3 := set_pc _ (cycle latched1)).
      assert (E3 : strip c3 = set_pc (u16 (pc (r c) + (2 + signed (arg1 s)))) (strip c)).
      { unfold c3. rewrite strip_pc, strip_cycle, strip_latched1, opargs_cycle, low_latched1, <- signed_s8 by done.
        unfold latched1. cbn [pc r fetched set_pc set_r cycle set_cycles set_opargs]. wrap_sums.
        by replace (1 + (1 + signed (arg1 s))) with (2 + signed (arg1 s)) by lia. }
      rewrite calm_last_cycle by (rewrite <- calm_strip, E3; exact Hcalm). by case_match.
    + apply same_view. unfold exec. by rewrite Eb.
  - eexists _, w. split; [reflexivity |].
    apply (reach _ _ (set_pc (u16 (pc (r c) + 2)) c)); [done | apply strip_latched1 | done |].
    apply same_view. unfold exec. by rewrite Eb.
Qed.

(** The instructions of one byte that change a register. *)
Lemma implements_step f n d : instr_of (INSTR_IMPLD f) = Step n d ->
  instr_impld None f (fetched c, w) =
    Ok (tt, (last_cycle (set_zn (u8 (get_reg n c + d)) (set_reg n (u8 (get_reg n c + d)) (cycle (fetched c)))), w)) ->
  n <> RegSp -> implements (INSTR_IMPLD f).
Proof.
  intros Ei E Hn. eexists _, w. split; [exact E |].
  set (v := u8 (get_reg n c + d)). assert (Hv : byte v) by apply u8_byte.
  set (c2 := set_zn v (set_reg n v (set_pc (u16 (pc (r c) + 1)) c))).
  apply (reach _ _ c2); [done | | by destruct n |].
  - rewrite strip_last_cycle, calm_last_cycle by (by destruct n). by destruct n.
  - apply agrees_eq. rewrite Ei. unfold c2. rewrite view_zn by done. by destruct n.
Qed.

(** Pulling and pushing, on states that are [c] but for the cycles and a few registers. *)
Lemma stack_pulled n : stack w (u8 (sp (r c) + n)) = Mos6502.pulled n s.
Proof. unfold stack, Mos6502.pulled, STACK_BASE. cbn [view iM iS]. by rewrite Z.add_comm. Qed.

Lemma pull_bind {B} c0 (k : Z -> M (CPU * W) B) : cpu_ok c0 ->
  bindM (pull None) k (c0, w) = k (stack w (u8 (sp (r c0) + 1))) (CpuFacts.pulled c0, w).
Proof. intros H0. by rewrite (bindM_run _ _ _ _ _ (pull_run c0 w H0 Hw)). Qed.

Lemma bindM_assoc {A B C} (m : M (CPU * W) A) (k : A -> M (CPU * W) B) (h : B -> M (CPU * W) C) x :
  bindM (bindM m k) h x = bindM m (fun a => bindM (k a) h) x.
Proof. unfold bindM. by destruct (m x) as [[] |]. Qed.

Lemma push_poke v c0 w0 : cpu_ok c0 -> winv w0 -> byte v ->
  exists w', winv w' /\ pokes (0x100 + sp (r c0)) v w0 w' /\
    forall (B : Type) (k : unit -> M (CPU * W) B), bindM (Cpu.push None v) k (c0, w0) = k tt (pushed c0, w').
Proof.
  intros H0 Hw0 Hv. pose proof (ok_sp c0 H0) as Hs. destruct (stack_addr _ Hs) as [Ha E].
  destruct (write_ram (sp (r c0) + STACK_BASE) v w0 Hw0 Ha Hv) as (w' & Hw' & Hp & Ew).
  exists w'. split_and!; [done | |].
  - unfold STACK_BASE in Hp. by rewrite Z.add_comm.
  - intros B k. unfold Cpu.push. rewrite bindM_assoc, bindM_cpu_of, bindM_assoc, E, Ew. done.
Qed.

(** [PLP] and [RTI] with bit 5 set. *)
Lemma restored_status v : byte v -> Z.testbit v 5 = true -> restored v = set_breakf false (status_of_byte v).
Proof.
  intros Hv H5. unfold restored. do 2 f_equal. apply Z.bits_inj'. intros i Hi. rewrite Z.lor_spec.
  destruct (decide (i = 5)) as [-> | Hne]; [by rewrite H5 |].
  change 0x20 with (2 ^ 5). rewrite Z.pow2_bits_false by lia. apply orb_false_r.
Qed.

Lemma pulled_byte n : byte (Mos6502.pulled n s).
Proof. rewrite <- stack_pulled. apply stack_byte; auto with emu. Qed.

Lemma implements_nop : implements (INSTR_IMPLD Fn_nop).
Proof.
  eexists _, w. split; [reflexivity |].
  apply (reach _ _ (set_pc (u16 (pc (r c) + 1)) c)); [done | | done | by apply same_view].
  by rewrite strip_last_cycle, calm_last_cycle.
Qed.

Lemma implements_jmp : implements (INSTR_IMPLD Fn_jmp).
Proof.
  eexists _, w. cbn [exec_case instr_impld]. unfold instr_jmp. rewrite fetch2_run. mrun. split; [reflexivity |].
  apply (reach _ _ (set_pc (arg16 s) c)); [done | | done | by apply same_view].
  rewrite strip_last_cycle, calm_last_cycle by done. rewrite strip_pc, strip_latched2, opargs_latched2. done.
Qed.

(** The second byte of the pointer of an indirect jump. *)
Definition high_addr (a : Z) : Z := 256 * (a / 256) + (a + 1) mod 256.

Lemma land_ff00 a : word a -> Z.land a 0xFF00 = 256 * (a / 256).
Proof.
  intros Ha. replace (256 * (a / 256)) with (Z.shiftl (Z.land (Z.shiftr a 8) (Z.ones 8)) 8).
  - change 0xFF00 with (Z.shiftl (Z.ones 8) 8). rewrite Z.shiftl_land. apply Z.bits_inj'. intros i Hi.
    rewrite !Z.land_spec, !Z.shiftl_spec by done. destruct (decide (i < 8)).
    + rewrite (Z.testbit_neg_r (Z.ones 8)) by lia. by rewrite !andb_false_r.
    + rewrite Z.shiftr_spec by lia. by replace (i - 8 + 8) with i by lia.
  - rewrite Z.land_ones, Z.shiftl_mul_pow2, Z.shiftr_div_pow2 by lia. dlia.
Qed.

Lemma high_addr_eq a : word a -> (if low a =? 0xFF then Z.land a 0xFF00 else u16 (a + 1)) = high_addr a.
Proof.
  intros Ha. unfold high_addr, low. destruct (Z.eqb_spec (a mod 256) 0xFF).
  - rewrite land_ff00 by done. dlia.
  - dlia.
Qed.

Lemma implements_jmp_ind : quiet (arg16 s) -> quiet (high_addr (arg16 s)) -> implements (INSTR_IMPLD Fn_jmp_ind).
Proof.
  intros Q1 Q2. pose proof (address_word Abs) as Ha. cbn [address] in Ha.
  assert (B1 : byte (peek w (arg16 s))) by (by apply quiet_byte).
  assert (B2 : byte (peek w (high_addr (arg16 s)))).
  { apply quiet_byte; try done. unfold high_addr. dlia. }
  eexists _, w. cbn [exec_case instr_impld]. unfold instr_jmp_ind. rewrite fetch2_run. unfold opfull. mrun.
  rewrite opargs_latched2, read_quiet by done. mrun. rewrite high_addr_eq, read_quiet by done. mrun.
  split; [reflexivity |].
  set (c2 := set_pc (peek w (high_addr (arg16 s)) * 256 + peek w (arg16 s)) c).
  apply (reach _ _ c2); [done | | done |].
  - rewrite strip_last_cycle, calm_last_cycle by done. rewrite !pc_cycle, !pc_set_pc, set_low_high by done. autorewrite with strip_db. rewrite strip_latched2. reflexivity.
  - apply agrees_eq. change (exec _ s) with (with_PC (peek w (arg16 s) + 256 * peek w (high_addr (arg16 s))) s).
    by rewrite (Z.add_comm (peek w (arg16 s))), (Z.mul_comm 256).
Qed.

Lemma implements_pla : implements (INSTR_IMPLD Fn_pla).
Proof.
  pose proof (pulled_byte 1) as Hv. eexists _, w. cbn [exec_case instr_impld]. unfold instr_pla. mrun.
  rewrite pull_bind by auto with emu. mrun. split; [reflexivity |].
  change (sp (r (cycle (cycle (fetched c))))) with (sp (r c)). rewrite stack_pulled. set (v := Mos6502.pulled 1 s) in *.
  set (c2 := set_zn v (set_acc v (set_sp (u8 (sp (r c) + 1)) (set_pc (u16 (pc (r c) + 1)) c)))).
  apply (reach _ _ c2); [done | by rewrite strip_last_cycle, calm_last_cycle | done |].
  apply agrees_eq. unfold c2. by rewrite view_zn.
Qed.

Lemma implements_plp : Z.testbit (Mos6502.pulled 1 s) 5 = true -> implements (INSTR_IMPLD Fn_plp).
Proof.
  intros H5. pose proof (pulled_byte 1) as Hv. eexists _, w. cbn [exec_case instr_impld]. unfold instr_plp. mrun.
  rewrite calm_last_cycle by done. rewrite pull_bind by auto with emu. mrun. split; [reflexivity |].
  change (sp (r (cycle (cycle (fetched c))))) with (sp (r c)). rewrite stack_pulled.
  set (v := Mos6502.pulled 1 s) in *.
  apply (reach _ _ (set_flags (fun _ => restored v) (set_sp (u8 (sp (r c) + 1)) (set_pc (u16 (pc (r c) + 1)) c))));
    [done | by rewrite restored_status | done | by apply same_view].
Qed.

Lemma pull_next n m c0 {B} (k : Z -> M (CPU * W) B) : cpu_ok c0 -> sp (r c0) = u8 (sp (r c) + n) -> m = n + 1 ->
  bindM (pull None) k (c0, w) = k (Mos6502.pulled m s) (CpuFacts.pulled c0, w).
Proof. intros H0 E ->. by rewrite pull_bind, E, u8_u8_add, <- Z.add_assoc, stack_pulled. Qed.

Lemma u8_next z n m : m = n + 1 -> u8 (u8 (z + n) + 1) = u8 (z + m).
Proof. intros ->. by rewrite u8_u8_add, Z.add_assoc. Qed.

Lemma pull_first c0 {B} (k : Z -> M (CPU * W) B) : cpu_ok c0 -> sp (r c0) = sp (r c) ->
  bindM (pull None) k (c0, w) = k (Mos6502.pulled 1 s) (CpuFacts.pulled c0, w).
Proof. intros H0 E. by rewrite pull_bind, E, (stack_pulled 1). Qed.

Lemma implements_rts : implements (INSTR_IMPLD Fn_rts).
Proof.
  pose proof (pulled_byte 1) as H1. pose proof (pulled_byte 2) as H2.
  eexists _, w. cbn [exec_case instr_impld]. unfold instr_rts. mrun.
  rewrite pull_first by (reflexivity || auto with emu). mrun.
  rewrite (pull_next 1 2) by (reflexivity || auto 12 with emu). mrun. split; [reflexivity |].
  set (lo := Mos6502.pulled 1 s) in *. set (hi := Mos6502.pulled 2 s) in *.
  apply (reach _ _ (set_pc (u16 (lo + 256 * hi + 1)) (set_sp (u8 (sp (r c) + 2)) c))); [done | | done | by apply same_view].
  rewrite strip_last_cycle, calm_last_cycle by done.
  cbn [pc sp r set_pc set_r set_sp cycle set_cycles CpuFacts.pulled fetched].
  rewrite set_low_high by done. autorewrite with strip_db. cbn [sp r cycle set_cycles set_pc set_r fetched CpuFacts.pulled set_sp].
  rewrite (u8_next _ 1 2) by done. by replace (hi * 256 + lo) with (lo + 256 * hi) by lia.
Qed.

Lemma implements_rti : Z.testbit (Mos6502.pulled 1 s) 5 = true -> implements (INSTR_IMPLD Fn_rti).
Proof.
  intros H5. pose proof (pulled_byte 1) as H1. pose proof (pulled_byte 2) as H2. pose proof (pulled_byte 3) as H3.
  eexists _, w. cbn [exec_case instr_impld]. unfold instr_rti. mrun.
  rewrite pull_first by (reflexivity || auto with emu). mrun.
  rewrite (pull_next 1 2) by (reflexivity || auto 12 with emu). mrun.
  rewrite (pull_next 2 3); [| auto 30 with emu | | done].
  2: { cbn [sp r cycle set_cycles set_pc set_r fetched CpuFacts.pulled set_sp set_flags]. by apply u8_next. }
  mrun. split; [reflexivity |].
  set (p := Mos6502.pulled 1 s) in *. set (lo := Mos6502.pulled 2 s) in *. set (hi := Mos6502.pulled 3 s) in *.
  apply (reach _ _ (set_flags (fun _ => restored p) (set_pc (lo + 256 * hi) (set_sp (u8 (sp (r c) + 3)) c))));
    [done | | done | by apply same_view].
  rewrite strip_last_cycle, calm_last_cycle by done.
  cbn [pc sp r set_pc set_r set_sp set_flags cycle set_cycles CpuFacts.pulled fetched].
  rewrite set_low_high, restored_status by done. autorewrite with strip_db.
  cbn [sp r cycle set_cycles set_pc set_r fetched CpuFacts.pulled set_sp set_flags].
  rewrite (u8_next (sp (r c)) 1 2), (u8_next (sp (r c)) 2 3) by done. by replace (hi * 256 + lo) with (lo + 256 * hi) by lia.
Qed.

(** *** Pushes *)

Lemma implements_pha : implements (INSTR_IMPLD Fn_pha).
Proof.
  destruct (push_poke (acc (r c)) (cycle (fetched c)) w) as (w' & Hw' & Hp & E); [auto with emu .. |].
  eexists _, w'. cbn [exec_case instr_impld]. unfold instr_pha. mrun. rewrite E. mrun. split; [reflexivity |].
  apply (reach _ _ (set_sp (u8 (sp (r c) - 1)) (set_pc (u16 (pc (r c) + 1)) c))); [done | | done |].
  - by rewrite strip_last_cycle, calm_last_cycle.
  - by eapply (agrees_stored _ (with_S (u8 (iS s - 1)) (with_PC (u16 (iPC s + 1)) s))).
Qed.

Lemma saved_plain p : breakf p = false -> unused p = true -> byte_of_status (set_breakf true p) = saved p.
Proof. intros Hb Hu. unfold saved, set_breakf. by rewrite Hu. Qed.

Lemma implements_php : breakf (flags (r c)) = false -> unused (flags (r c)) = true -> implements (INSTR_IMPLD Fn_php).
Proof.
  intros Hb Hu.
  assert (Es : byte_of_status (set_breakf true (flags (r c))) = saved (iP s)) by (by apply saved_plain).
  destruct (push_poke (saved (iP s)) (set_flags (set_breakf true) (cycle (fetched c))) w) as (w' & Hw' & Hp & E);
    [auto 10 with emu | done | apply byte_status |].
  eexists _, w'. cbn [exec_case instr_impld]. unfold instr_php. mrun.
  change (byte_of_status (flags (r (set_flags (set_breakf true) (cycle (fetched c))))))
    with (byte_of_status (set_breakf true (flags (r c)))).
  rewrite Es, E. mrun. split; [reflexivity |].
  assert (Ef : set_breakf false (set_breakf true (flags (r c))) = flags (r c)).
  { destruct (flags (r c)). cbn in *. by subst. }
  apply (reach _ _ (set_flags (fun _ => set_breakf false (set_breakf true (flags (r c))))
    (set_sp (u8 (sp (r c) - 1)) (set_pc (u16 (pc (r c) + 1)) c)))); [done | | done |].
  - by rewrite strip_last_cycle, calm_last_cycle.
  - rewrite Ef. by eapply (agrees_stored _ (with_S (u8 (iS s - 1)) (with_PC (u16 (iPC s + 1)) s))).
Qed.

Lemma pokes_poke a v w1 w2 f : (forall b, visible b -> peek w1 b = f b) -> pokes a v w1 w2 ->
  forall b, visible b -> peek w2 b = poke a v f b.
Proof. intros H1 H2 b Hb. destruct Hb as [Hq H0]. rewrite (H2 b Hq H0). unfold poke. by rewrite (H1 b (conj Hq H0)). Qed.

Lemma implements_jsr : implements (INSTR_IMPLD Fn_jsr).
Proof.
  set (back := u16 (pc (r c) + 2)). unfold implements. cbn [exec_case instr_impld]. unfold instr_jsr.
  rewrite fetch2_run. mrun.
  assert (Ep : u16 (pc (r latched2) - 1) = back).
  { change (pc (r latched2)) with (u16 (u16 (u16 (pc (r c) + 1) + 1) + 1)). unfold back. dlia. }
  rewrite Ep. set (c3 := cycle (set_pc back latched2)).
  assert (H3 : cpu_ok c3).
  { unfold c3, latched2, back. apply ok_cycle, ok_set_pc, ok_set_opargs; auto with emu. apply (address_word Abs). }
  change (pc (r c3)) with back.
  destruct (push_poke (high back) c3 w H3 Hw) as (w1 & Hw1 & Hp1 & E1); [unfold back; auto with emu |].
  destruct (push_poke (low back) (pushed c3) w1 (ok_pushed _ H3) Hw1) as (w2 & Hw2 & Hp2 & E2); [auto with emu |].
  rewrite E1, E2. mrun. eexists _, w2. split; [reflexivity |].
  set (c2 := set_pc (arg16 s) (set_sp (u8 (u8 (sp (r c) - 1) - 1)) c)).
  apply (reach _ _ c2); [done | | done |].
  - rewrite strip_last_cycle, calm_last_cycle by done.
    rewrite pc_set_pc, opargs_set_pc, set_low_high by auto with emu. rewrite high_low. reflexivity.
  - constructor; try done. intros b Hb. change (iM (view c2 (peek w2)) b) with (peek w2 b).
    revert b Hb. eapply pokes_poke, Hp2. by eapply pokes_poke, Hp1.
Qed.

(** *** [BRK]: its address is that of the next byte *)

Lemma pokes_high a v w0 w1 b : pokes a v w0 w1 -> quiet b -> 0x2000 <= b -> peek w1 b = peek w0 b.
Proof. intros H Hq Hb. rewrite H by (done || lia). unfold poke. zdecide_false (b <? 0x2000). done. Qed.

Lemma vector_quiet_byte b : 0xFFFE <= b <= 0xFFFF -> quiet b /\ byte (peek w b).
Proof.
  intros Hb. assert (Hq : quiet b) by (apply quiet_vectors; unfold NMI_VEC, IRQ_BRK_VEC; lia).
  split; [done |]. apply quiet_byte; [unfold word; lia | done ..].
Qed.

Lemma brk_run : breakf (flags (r c)) = false -> unused (flags (r c)) = true -> resetpending c = false ->
  exists c' w', instr_brk None (fetched c, w) = Ok (tt, (c', w')) /\ winv w' /\ calm c' /\
    agrees visible [] (view c' (peek w')) (break_to (u16 (iPC s + 1)) s).
Proof.
  intros Hb Hu Hr. set (p1 := u16 (pc (r c) + 1)). destruct (Hcalm) as (Hn & Hi & _).
  set (c0 := cycle (set_flags (set_breakf true) (fetched c))).
  assert (H0 : cpu_ok c0) by (unfold c0; auto 10 with emu).
  assert (Hp1 : word p1) by apply u16_word.
  assert (Es : byte_of_status (flags (r c0)) = saved (iP s)) by (by apply saved_plain).
  destruct (push_poke (high p1) c0 w H0 Hw) as (w1 & Hw1 & P1 & E1); [auto with emu |].
  destruct (push_poke (low p1) (pushed c0) w1 (ok_pushed _ H0) Hw1) as (w2 & Hw2 & P2 & E2); [auto with emu |].
  destruct (push_poke (saved (iP s)) (pushed (pushed c0)) w2 (ok_pushed _ (ok_pushed _ H0)) Hw2)
    as (w3 & Hw3 & P3 & E3); [apply byte_status |].
  set (c3 := set_flags (fun p => set_intdis true (set_breakf false p)) (pushed (pushed (pushed c0)))).
  assert (Ev : interrupt_vector c3 = (IRQ_BRK_VEC, c3)).
  { unfold interrupt_vector. change (resetpending c3) with (resetpending c). change (nmipending c3) with (nmipending c).
    change (irqpending c3) with (irqpending c). by rewrite Hr, Hn, Hi. }
  assert (Hv : forall b, 0xFFFE <= b <= 0xFFFF -> quiet b /\ peek w3 b = peek w b /\ byte (peek w b)).
  { intros b Hbv. destruct (vector_quiet_byte b Hbv) as [Hq Hbb]. split_and!; [done | | done].
    by rewrite (pokes_high _ _ _ _ _ P3), (pokes_high _ _ _ _ _ P2), (pokes_high _ _ _ _ _ P1) by (done || lia). }
  destruct (Hv 0xFFFE) as (Q1 & V1 & B1); [lia |]. destruct (Hv 0xFFFF) as (Q2 & V2 & B2); [lia |].
  eexists _, w3. split_and!.
  - unfold instr_brk, interrupt. mrun. fold c0. change (pc (r c0)) with p1. rewrite E1, E2. mrun.
    change (flags (r (pushed (pushed c0)))) with (flags (r c0)). rewrite Es, E3. mrun. fold c3. rewrite Ev.
    cbn [fst snd]. rewrite (bindM_run _ _ _ _ _ (readmem_quiet _ c3 w3 Hw3 Q1)). mrun.
    rewrite (bindM_run _ _ _ _ _ (readmem_quiet _ _ w3 Hw3 Q2)). mrun. reflexivity.
  - done.
  - done.
  - match goal with |- agrees _ _ (view ?c' _) _ => set (c4 := c') end.
    assert (Ef : flags (r c4) = set_intdis true (flags (r c))).
    { change (flags (r c4)) with (set_intdis true (set_breakf false (set_breakf true (flags (r c))))).
      destruct (flags (r c)). cbn in *. by subst. }
    constructor; try reflexivity.
    + unfold c4. cbn [view iPC]. rewrite pc_set_pc, pc_cycle, pc_set_pc, V1, V2, set_low_high by done.
      change (iPC (break_to _ s)) with (peek w 0xFFFE + 256 * peek w 0xFFFF). lia.
    + apply same_flags_nil. exact Ef.
    + eapply pokes_poke, P3. eapply pokes_poke, P2. by eapply pokes_poke, P1.
Qed.

(** ** All of them *)

(** The flags as the documents have them between instructions: the two bits that
    are no flags. *)
Definition plain (p : ProcStatus) : bool := negb (breakf p) && unused p.

(** Where the program and the documents agree: not in an indexed address that leaves
    page zero, not in [BRK], and not when bit 5 of flags pulled from the stack is clear. *)
Definition conforms (i : Instr) (s : Isa) : bool :=
  plain (iP s) &&
  match i with
  | OnOperand _ m => in_page m s
  | PullFlags | ReturnInterrupt => Z.testbit (Mos6502.pulled 1 s) 5
  | Break => false
  | _ => true
  end.

(** The operand is in memory, and in RAM when it is changed. *)
Definition accessible (i : Instr) (s : Isa) : Prop :=
  match i with
  | OnOperand _ Accu => True
  | OnOperand (STORE _) m => 0 <= address m s < 0x2000
  | OnOperand o m => if modifies o then 0 <= address m s < 0x2000 else quiet (address m s)
  | JumpIndirect => quiet (arg16 s) /\ quiet (high_addr (arg16 s))
  | _ => True
  end.

Lemma implements_impld f : conforms (instr_of (INSTR_IMPLD f)) s = true -> accessible (instr_of (INSTR_IMPLD f)) s ->
  implements (INSTR_IMPLD f).
Proof.
  unfold conforms, plain. intros [[Hb%negb_true_iff Hu]%andb_prop Hi]%andb_prop Ha.
  destruct f; cbn [instr_of accessible] in *; try done.
  - by apply implements_php.
  - apply implements_pha.
  - by apply implements_plp.
  - apply implements_pla.
  - apply implements_jsr.
  - apply implements_jmp.
  - destruct Ha. by apply implements_jmp_ind.
  - apply implements_rts.
  - by apply implements_rti.
  - by apply (implements_step _ RegX 1).
  - by apply (implements_step _ RegY 1).
  - by apply (implements_step _ RegX (-1)).
  - by apply (implements_step _ RegY (-1)).
  - apply implements_nop.
Qed.

Lemma implements_case k : conforms (instr_of k) s = true -> accessible (instr_of k) s -> implements k.
Proof.
  destruct k as [f | f m | f m | m n | fl b | fl b | from to]; intros Hi Ha.
  - by apply implements_impld.
  - apply andb_prop in Hi as [_ Hi]. apply implements_read; [| done]. by destruct f, m.
  - apply andb_prop in Hi as [_ Hi]. destruct (decide (m = MAccum)) as [-> | Hm'].
    + apply implements_accum.
    + apply implements_modify; [done |]. split; [| done]. by destruct f, m.
  - apply andb_prop in Hi as [_ Hi]. apply implements_write. split; [| done]. by destruct m.
  - apply implements_branch.
  - apply implements_flag.
  - apply implements_transfer.
Qed.

(** ** The reference sees nothing but visible memory *)

Section Alike.
Variable m2 : Z -> Z.
Hypothesis Halike : forall a, visible a -> peek w a = m2 a.
Local Abbreviation s2 := (view c m2).

Lemma args_alike : arg1 s = arg1 s2 /\ arg2 s = arg2 s2.
Proof. destruct Hm as (_ & Q1 & Q2). split; apply Halike; (split; [assumption | apply u16_word]). Qed.

Lemma arg16_alike : arg16 s = arg16 s2.
Proof. destruct args_alike as [E1 E2]. unfold arg16. by rewrite E1, E2. Qed.

Lemma ram_alike a : 0 <= a < 0x2000 -> peek w a = m2 a.
Proof. intros Ha. apply Halike. split; [by apply quiet_ram | lia]. Qed.

Lemma pulled_alike n : Mos6502.pulled n s = Mos6502.pulled n s2.
Proof. apply ram_alike. cbn [view iS]. dlia. Qed.

Lemma pointer_alike z : byte z -> pointer z s = pointer z s2.
Proof. intros Hz. unfold pointer. cbn [view iM]. rewrite !ram_alike by dlia. done. Qed.

Lemma address_alike m : address m s = address m s2.
Proof.
  destruct args_alike as [E1 _]. destruct arg1_byte as [Ha _].
  assert (Hb : byte (u8 (arg1 s + iX s))) by apply u8_byte.
  destruct m; cbn [address]; rewrite <- ?arg16_alike, <- ?E1; try done.
  - by apply pointer_alike.
  - by rewrite <- pointer_alike.
Qed.

Lemma conforms_alike i : conforms i s = conforms i s2.
Proof.
  destruct args_alike as [E1 _]. unfold conforms. change (iP s2) with (iP s).
  destruct i as [o m | | | | | | | | | | | | | | |]; try done; [| by rewrite pulled_alike ..].
  destruct m; cbn [in_page]; by rewrite ?E1.
Qed.

Lemma accessible_alike i : accessible i s2 -> accessible i s.
Proof.
  destruct i as [o m | | | | | | | | | | | | | | |]; cbn [accessible]; rewrite <- ?arg16_alike; try done.
  by rewrite <- address_alike.
Qed.

Lemma agrees_mem s1 f1 f2 : (forall a, visible a -> f1 a = f2 a) ->
  agrees visible [] (with_M (fun _ => f1) s1) (with_M (fun _ => f2) s1).
Proof. intros H. by constructor. Qed.

Lemma agrees_poke s1 a1 v1 : agrees visible [] (with_M (fun _ => poke a1 v1 (peek w)) s1) (with_M (fun _ => poke a1 v1 m2) s1).
Proof. apply agrees_mem. intros b Hb. unfold poke. case_match; [done | by apply Halike]. Qed.

Lemma operate_mem o v s1 f : operate o v (with_M f s1) = with_M f (operate o v s1).
Proof. by destruct o as [[] | | [] | | | | | | | | | | | |]. Qed.

Lemma operate_alike o v n : agrees visible [] (operate o v (with_PC n s)) (operate o v (with_PC n s2)).
Proof.
  change (with_PC n s2) with (with_M (fun _ => m2) (with_PC n s)).
  change (with_PC n s) with (with_M (fun _ => peek w) (with_PC n s)) at 1. rewrite !operate_mem. by apply agrees_mem.
Qed.

Lemma on_operand_alike o m : accessible (OnOperand o m) s -> agrees visible [] (on_operand o m s) (on_operand o m s2).
Proof.
  intros Ha. unfold on_operand. rewrite <- address_alike. change (iPC s2) with (iPC s).
  assert (Hq : (forall n, o <> STORE n) -> iM s (address m s) = iM s2 (address m s)).
  { intros Hn. apply Halike. split; [| apply address_word].
    assert (Hz : m = Accu -> quiet (address m s)) by (intros ->; by apply quiet_ram).
    destruct o as [n | n | n | | | | | | | | | | | |]; [| by destruct (Hn n) | ..]; destruct m;
      first [by apply Hz | exact Ha | apply quiet_ram; exact Ha]. }
  assert (Hmod : forall v,
    let s' := with_PC (u16 (iPC s + length_of m)) s in let s2' := with_PC (u16 (iPC s + length_of m)) s2 in
    agrees visible [] (let '(v, p) := shift o v (iP s) in with_M (poke (address m s) v) (with_P (fun _ => p) s'))
      (let '(v, p) := shift o v (iP s2) in with_M (poke (address m s) v) (with_P (fun _ => p) s2'))).
  { intros v s' s2'. change (iP s2) with (iP s). destruct (shift o v (iP s)) as [v1 p1].
    apply (agrees_poke (with_P (fun _ => p1) s')). }
  assert (Hacc : forall v,
    let s' := with_PC (u16 (iPC s + length_of m)) s in let s2' := with_PC (u16 (iPC s + length_of m)) s2 in
    agrees visible [] (let '(v, p) := shift o v (iP s) in with_A v (with_P (fun _ => p) s'))
      (let '(v, p) := shift o v (iP s2) in with_A v (with_P (fun _ => p) s2'))).
  { intros v s' s2'. change (iP s2) with (iP s). destruct (shift o v (iP s)) as [v1 p1].
    apply (agrees_mem (with_A v1 (with_P (fun _ => p1) s')) _ _ Halike). }
  destruct o as [n | n | n | | | | | | | | | | | |]; cbn [modifies]; try (rewrite <- Hq by done).
  2: { replace (reg n s2) with (reg n s) by (by destruct n).
       apply (agrees_poke (with_PC (u16 (iPC s + length_of m)) s)). }
  all: first [apply operate_alike | destruct m; first [apply Hacc | apply Hmod]].
Qed.

Ltac alike_tac := constructor; first [done | exact Halike].

Ltac congr_tac :=
  change (iPC s2) with (iPC s); change (iS s2) with (iS s); change (iA s2) with (iA s); change (iP s2) with (iP s);
  repeat lazymatch goal with
    | |- agrees _ _ (with_PC _ _) _ => apply with_PC_proper
    | |- agrees _ _ (with_P _ _) _ => apply with_P_proper
    | |- agrees _ _ (with_A _ _) _ => apply with_A_proper
    | |- agrees _ _ (with_S _ _) _ => apply with_S_proper
    | |- agrees _ _ (push _ _) _ => apply push_proper
    end; assumption.

Lemma exec_alike i : accessible i s -> agrees visible [] (exec i s) (exec i s2).
Proof.
  intros Ha. destruct args_alike as [E1 _]. assert (Hs : agrees visible [] s s2) by alike_tac.
  destruct i as [o m | fl b | fl b | from to | n d | | | | | | | | | | |]; cbn [exec];
    rewrite <- ?arg16_alike, <- ?E1, <- ?(pulled_alike 1), <- ?(pulled_alike 2), <- ?(pulled_alike 3).
  - by apply on_operand_alike.
  - change (iP s2) with (iP s). destruct (eqb _ b); alike_tac.
  - alike_tac.
  - destruct to, from; alike_tac.
  - destruct n; alike_tac.
  - alike_tac.
  - destruct Ha as [Q1 Q2]. fold (high_addr (arg16 s)).
    assert (Hj : word (arg16 s)) by apply (address_word Abs).
    change (iM s2) with m2. rewrite <- !Halike by (split; [done | unfold high_addr; dlia]). alike_tac.
  - congr_tac.
  - congr_tac.
  - congr_tac.
  - unfold break_to. change (iM s2) with m2.
    rewrite <- !Halike by (split; [apply quiet_vectors; unfold NMI_VEC, IRQ_BRK_VEC |]; lia).
    congr_tac.
  - congr_tac.
  - congr_tac.
  - congr_tac.
  - congr_tac.
  - congr_tac.
Qed.
End Alike.
End Modes.

(** ** Running against the reference *)

Section Refinement.
Context {W : Type} `{Ram : RamLaws W}.
Implicit Types (c : CPU) (w : W) (s : Isa).

(** The next instruction is in memory, is documented, and is one that the program
    executes as documented. *)
Definition ordinary s : Prop :=
  (quiet (iPC s) /\ quiet (u16 (iPC s + 1)) /\ quiet (u16 (iPC s + 2))) /\
  exists i, decode (iM s (iPC s)) = Some i /\ conforms i s = true /\ accessible i s /\ unreliable i = [].

(** [run] as often as the emulator's loop calls it. *)
Fixpoint runs (n : nat) : M (CPU * W) unit :=
  match n with O => retM tt | S n => run None ;; runs n end.

Lemma run_exec i c w : cpu_ok c -> winv w -> in_memory c -> calm c ->
  decode (peek w (pc (r c))) = Some i -> conforms i (view c (peek w)) = true -> accessible i (view c (peek w)) ->
  exists c' w', run None (c, w) = Ok (tt, (c', w')) /\ cpu_ok c' /\ winv w' /\ calm c' /\
    agrees visible (unreliable i) (view c' (peek w')) (exec i (view c (peek w))).
Proof.
  intros Hc Hw Hm Hcalm Hd Hi Ha. destruct Hm as (Q0 & Q1 & Q2).
  rewrite decode_switch in Hd by (apply quiet_byte; auto with emu).
  destruct (switch _) as [k |] eqn:Ek; [| done]. injection Hd as <-.
  destruct (implements_case c w Hc Hw (conj Q0 (conj Q1 Q2)) Hcalm k Hi Ha) as (c' & w' & E & Hw' & Hcalm' & Hag).
  destruct Hcalm as (_ & _ & En & Ei).
  rewrite <- (switch_of c w k Hw Q0 En Ei Ek) in E.
  exists c', w'. split_and!; try done. by eapply (pres_run None); [done | | | exact E].
Qed.

Lemma run_break c w : cpu_ok c -> winv w -> in_memory c -> calm c -> resetpending c = false ->
  decode (peek w (pc (r c))) = Some Break -> plain (flags (r c)) = true ->
  exists c' w', run None (c, w) = Ok (tt, (c', w')) /\ cpu_ok c' /\ winv w' /\ calm c' /\
    agrees visible [] (view c' (peek w')) (break_to (u16 (pc (r c) + 1)) (view c (peek w))).
Proof.
  intros Hc Hw Hm Hcalm Hr Hd [Hb%negb_true_iff Hu]%andb_prop. destruct Hm as (Q0 & _).
  rewrite decode_switch in Hd by (apply quiet_byte; auto with emu).
  assert (Ek : switch (opcode c w) = Some (INSTR_IMPLD Fn_brk)).
  { unfold opcode. destruct (switch _) as [k |]; [| done]. destruct k as [[] | | | | | |]; done. }
  destruct (brk_run c w Hc Hw Hcalm Hb Hu Hr) as (c' & w' & E & Hw' & Hcalm' & Hag).
  destruct Hcalm as (_ & _ & En & Ei). change (instr_brk None) with (exec_case None (INSTR_IMPLD Fn_brk)) in E.
  rewrite <- (switch_of c w _ Hw Q0 En Ei Ek) in E.
  exists c', w'. split_and!; try done. by eapply (pres_run None); [done | | | exact E].
Qed.

Lemma run_skips c w : cpu_ok c -> winv w -> in_memory c -> calm c -> decode (peek w (pc (r c))) = None ->
  run None (c, w) = Ok (tt, (fetched c, w)).
Proof.
  intros Hc Hw (Q0 & _) (_ & _ & En & Ei) Hd. rewrite decode_switch in Hd by (apply quiet_byte; auto with emu).
  rewrite run_fetches by done. unfold execute, opcode. by destruct (switch _).
Qed.

Lemma agrees_view c m s : agrees visible [] (view c m) s -> s = view c (iM s).
Proof. intros [EA EX EY ES EP E%same_flags_nil _]. destruct s. unfold view in *. cbn in *. congruence. Qed.

Lemma run_ordinary c w s : cpu_ok c -> winv w -> calm c -> agrees visible [] (view c (peek w)) s -> ordinary s ->
  exists c' w' s', isa_step s = Some s' /\ run None (c, w) = Ok (tt, (c', w')) /\ cpu_ok c' /\ winv w' /\ calm c' /\
    agrees visible [] (view c' (peek w')) s'.
Proof.
  intros Hc Hw Hcalm Hag [Hm (i & Hd & Hi & Ha & Hu)].
  pose proof (agrees_view _ _ _ Hag) as Es. pose proof (ag_M _ _ _ _ Hag) as Hmem. cbn [view iM] in Hmem.
  assert (Hm' : in_memory c) by (by rewrite Es in Hm).
  set (m2 := iM s) in *. clearbody m2. subst s. cbn [view iM iPC] in Hd.
  rewrite <- (conforms_alike c w Hm' m2 Hmem) in Hi.
  pose proof (accessible_alike c w Hw Hm' m2 Hmem i Ha) as Ha'.
  pose proof (exec_alike c w Hw Hm' m2 Hmem i Ha') as He.
  assert (Hd' : decode (peek w (pc (r c))) = Some i).
  { rewrite Hmem; [done |]. split; [apply Hm' | apply (ok_pc c Hc)]. }
  destruct (run_exec i c w Hc Hw Hm' Hcalm Hd' Hi Ha') as (c' & w' & E & Hc' & Hw' & Hcalm' & Hag').
  rewrite Hu in Hag'. exists c', w', (exec i (view c m2)). split_and!; try done.
  - unfold isa_step. cbn [view iM iPC]. by rewrite Hd.
  - by etrans.
Qed.

Lemma runs_ordinary n c w s s' : cpu_ok c -> winv w -> calm c -> agrees visible [] (view c (peek w)) s ->
  isa_steps n s = Some s' -> (forall k sk, (k < n)%nat -> isa_steps k s = Some sk -> ordinary sk) ->
  exists c' w', runs n (c, w) = Ok (tt, (c', w')) /\ cpu_ok c' /\ winv w' /\ calm c' /\
    agrees visible [] (view c' (peek w')) s'.
Proof.
  revert c w s. induction n as [| n IH]; intros c w s Hc Hw Hcalm Hag Hs Ho.
  - injection Hs as <-. exists c, w. done.
  - destruct (run_ordinary c w s) as (c1 & w1 & s1 & E1 & R1 & Hc1 & Hw1 & Hcalm1 & Hag1); [done .. | |].
    { by apply (Ho O s); [lia |]. }
    simpl in Hs. rewrite E1 in Hs. simpl in Hs.
    destruct (IH c1 w1 s1 Hc1 Hw1 Hcalm1 Hag1 Hs) as (c' & w' & R & H).
    { intros k sk Hk Ek. apply (Ho (S k) sk); [lia |]. simpl. by rewrite E1. }
    exists c', w'. split; [| exact H]. simpl. by rewrite (bindM_run _ _ _ _ _ R1).
Qed.
End Refinement.
