(* ===== verification/FlatMemory.v ===== *)
(** * A memory for concrete runs

    The simplest world that satisfies the interface of the CPU: 2 KiB of RAM
    mirrored below $2000 and plain bytes above, of which those from $8000 are
    read only.  The theorems about the CPU are exercised on it; the world of the
    emulator itself is in [Emulator]. *)

From S2P Require Import Prelude InstrInfo Cpu CpuInv CpuStack.
Open Scope Z_scope.

Record FlatMem := mkFlat { flat : Z -> Z }.

Definition canon (a : Z) : Z := if a <? 0x2000 then a mod 0x800 else a.

#[export] Instance flat_Memory : Memory FlatMem := {
  mread a w := Ok (flat w (canon a), w);
  mwrite a v w := Ok (if a <? 0x8000
                      then mkFlat (fun b => if b =? canon a then v else flat w b) else w);
}.

#[export, refine] Instance flat_MemoryOk : MemoryOk FlatMem := {
  winv w := forall a, byte (flat w a);
}.
Proof.
  - intros a w v w' _ Hw [= <- <-]. split; [apply Hw | done].
  - intros a v w w' _ Hv Hw [= <-]. intros b. case_match; simpl; [| done]. by case_match.
Defined.

#[export, refine] Instance flat_RamLaws : RamLaws FlatMem := {
  quiet a := 0 <= a < 0x2000 \/ 0x8000 <= a < 0x10000;
  peek w a := flat w (canon a);
}.
Proof.
  - by left.
  - unfold NMI_VEC, IRQ_BRK_VEC. intros a Ha. right. lia.
  - done.
  - intros a v w Hw Ha Hv. eexists. split; [done |].
    zdecide_true (a <? 0x8000). unfold canon. zdecide_true (a <? 0x2000).
    split_and!; simpl.
    + intros b. by case_match.
    + intros b Hb. zdecide_true (b <? 0x2000). done.
    + intros b _ Hb. zdecide_false (b <? 0x2000). zcases. dlia.
  - intros a v w Hw Ha Hv. eexists. split; [done |].
    zdecide_true (a <? 0x8000). unfold canon. zdecide_false (a <? 0x2000). split; simpl.
    + intros b. by case_match.
    + intros b Hb. zcases. all: destruct Hb; try lia. all: exfalso; dlia.
  - by intros a w v w' _ _ [= _ <-].
Defined.

(** A program at [org] followed by zeros, vectors pointing to $C000. *)
Definition flat_program (org : Z) (prog : list Z) : FlatMem :=
  mkFlat (fun a => if a <? org then 0
                   else if 0xFFFA <=? a then (if Z.odd a then 0xC0 else 0x00)
                   else default 0 (prog !! Z.to_nat (a - org))).

Lemma flat_program_ok org prog : Forall byte prog -> winv (flat_program org prog).
Proof.
  intros Hp a. cbn [flat flat_program]. repeat case_match; try (unfold byte; lia).
  destruct (prog !! _) eqn:E; simpl; [| unfold byte; lia].
  by eapply Forall_lookup in E.
Qed.

(** A processor about to execute at [p], with an empty stack. *)
Definition cpu_at (p : Z) : CPU := mkCPU (mkRegs p 0x42 1 2 0xFD default_status 0)
  false false false false false 0.
