(* ===== verification/CpuProps.v ===== *)
(** * Properties of the CPU

    The theorems about the processor, each with a run on a concrete program. *)

From S2P Require Import Prelude InstrInfo Cpu CpuFacts CpuCycles CpuInv CpuAlu CpuStack.
From S2P Require Import CpuNext FlatMemory.
Open Scope Z_scope.

(** A program in the memory used for the concrete runs. *)
Abbreviation prog l := (flat_program 0xC000 l).
Abbreviation start := (cpu_at 0xC000).

(** ** Invariant and cycles *)

(** C10: running the processor keeps every register within its width, keeps an
    interrupt that is marked for execution pending, and keeps the invariant of
    the memory, for any memory that keeps its own invariant and any callback of
    the debugger that does.  It executes every opcode: if it faults, an access to
    the memory or the callback did. *)
Theorem run_preserves_invariant {W} `{MemOk : MemoryOk W}
    (cb : option (CPU -> Status -> Z -> AccessMode -> W -> Res W))
    (Hcb : forall f c st a m w w', cb = Some f -> winv w -> f c st a m w = Ok w' -> winv w')
    (c : CPU) (w : W) : cpu_ok c -> signals_ok c -> winv w ->
  match run cb (c, w) with
  | Ok (_, (c', w')) => cpu_ok c' /\ signals_ok c' /\ winv w'
  | Err f => outer_fault cb f
  end.
Proof.
  intros Hc Hs Hw. destruct (run cb (c, w)) as [[[] [c' w']] | f] eqn:Hr.
  - pose proof (sig_run cb c w tt c' w' Hs Hr).
    destruct (pres_run cb Hcb c w tt c' w' Hc Hw Hr) as (? & ? & _). done.
  - by apply (run_faults cb Hcb c w f).
Qed.

Lemma start_ok : cpu_ok start /\ signals_ok start.
Proof. split; [constructor; simpl; unfold word, byte; lia | done]. Qed.

Lemma start_in_memory : in_memory start.
Proof. split; [right | split; right]; (split; vm_compute; [discriminate | reflexivity]). Qed.

(** [LDA #$2A] *)
Lemma run_preserves_invariant_witness :
  exists c' w', run None (start, prog [0xA9; 0x2A]) = Ok (tt, (c', w')) /\
    acc (r c') = 0x2A /\ cpu_ok c' /\ signals_ok c' /\ winv w'.
Proof.
  destruct (run None (start, prog [0xA9; 0x2A])) as [[[] [c' w']] | f] eqn:E; [| discriminate E].
  exists c', w'. split; [reflexivity |]. split; [injection E as <- _; reflexivity |].
  pose proof (run_preserves_invariant None ltac:(done) start (prog [0xA9; 0x2A])
    (proj1 start_ok) (proj2 start_ok)) as H.
  rewrite E in H. apply H. apply flat_program_ok. repeat constructor; lia.
Defined.

(** C20: an instruction that is fetched and executed takes the documented number
    of cycles: the base count, or up to the documented extra cycles more (page
    crossings and taken branches). *)
Theorem instruction_cycles {W} `{MemW : Memory W}
    (cb : option (CPU -> Status -> Z -> AccessMode -> W -> Res W)) c w id s c' w' :
  fetch cb (c, w) = Ok (id, s) -> execute cb id s = Ok (tt, (c', w')) ->
  exists n, fst (documented_cycles id) <= n <= fst (documented_cycles id) + snd (documented_cycles id)
            /\ u64 (cycles (r c')) = u64 (cycles (r c) + n).
Proof. apply execute_within. Qed.

(** [ADC ($10),Y] *)
Lemma instruction_cycles_witness :
  exists s c' w', fetch None (start, prog [0x71; 0x10]) = Ok (0x71, s) /\
    execute None 0x71 s = Ok (tt, (c', w')) /\
    exists n, 5 <= n <= 6 /\ u64 (cycles (r c')) = u64 (cycles (r start) + n).
Proof.
  exists (fetched start, prog [0x71; 0x10]).
  assert (F : fetch None (start, prog [0x71; 0x10]) = Ok (0x71, (fetched start, prog [0x71; 0x10])))
    by reflexivity.
  destruct (execute None 0x71 (fetched start, prog [0x71; 0x10])) as [[[] [c' w']] | f] eqn:E;
    [| discriminate E].
  exists c', w'. split; [exact F |]. split; [reflexivity |].
  exact (instruction_cycles None _ _ _ _ c' w' F E).
Defined.

(** ** The stack *)

(** C14: a subroutine returns to the instruction after its call: [JSR] jumps to
    its operand; after it, whatever the subroutine did, if it left the stack
    pointer and the two bytes of the return address as they were, [RTS] restores
    the stack pointer and continues behind the two operand bytes. *)
Theorem jsr_rts_returns {W} `{Ram : RamLaws W} lo hi c w wa wb :
  cpu_ok c -> winv w ->
  mread (pc (r c)) w = Ok (lo, wa) -> mread (u16 (pc (r c) + 1)) wa = Ok (hi, wb) ->
  exists c1 w1, instr_jsr None (c, w) = Ok (tt, (c1, w1)) /\ pc (r c1) = hi * 256 + lo /\
    forall c2 w2, cpu_ok c2 -> winv w2 -> sp (r c2) = sp (r c1) ->
      stack w2 (sp (r c)) = stack w1 (sp (r c)) ->
      stack w2 (u8 (sp (r c) - 1)) = stack w1 (u8 (sp (r c) - 1)) ->
      exists c3, instr_rts None (c2, w2) = Ok (tt, (c3, w2)) /\
        sp (r c3) = sp (r c) /\ pc (r c3) = u16 (pc (r c) + 2).
Proof.
  intros Hc Hw R1 R2. pose proof (ok_sp c Hc) as Hs.
  destruct (jsr_run lo hi c w wa wb Hc Hw R1 R2) as (c1 & w1 & E & _ & _ & Esp & Epc & S1 & S2).
  exists c1, w1. split_and!; [done | done |]. intros c2 w2 Hc2 Hw2 Es2 T1 T2.
  destruct (rts_run c2 w2 Hc2 Hw2) as (c3 & E3 & Esp3 & Epc3). exists c3. split; [done |].
  rewrite Es2, Esp in Esp3, Epc3. split; [rewrite Esp3; dlia |].
  replace (u8 (u8 (sp (r c) - 2) + 2)) with (sp (r c)) in Epc3 by dlia.
  replace (u8 (u8 (sp (r c) - 2) + 1)) with (u8 (sp (r c) - 1)) in Epc3 by dlia.
  rewrite Epc3, T1, T2, S1, S2, high_low. wrap_sums. done.
Qed.

(** [JSR $D000] with the operand at $C000, as after fetching the opcode. *)
Lemma jsr_rts_returns_witness :
  exists c1 w1, instr_jsr None (start, prog [0x00; 0xD0]) = Ok (tt, (c1, w1)) /\ pc (r c1) = 0xD000 /\
    exists c3, instr_rts None (c1, w1) = Ok (tt, (c3, w1)) /\ sp (r c3) = 0xFD /\ pc (r c3) = 0xC002.
Proof.
  destruct (jsr_rts_returns 0x00 0xD0 start (prog [0x00; 0xD0]) (prog [0x00; 0xD0]) (prog [0x00; 0xD0]))
    as (c1 & w1 & E & Ep & H);
    [apply start_ok | apply flat_program_ok; repeat constructor; lia | reflexivity | reflexivity |].
  exists c1, w1. split; [exact E |]. split; [exact Ep |].
  assert (Hinv : cpu_ok c1 /\ winv w1).
  { destruct (pres_impld (W := FlatMem) None ltac:(done) Fn_jsr start (prog [0x00; 0xD0]) tt c1 w1) as (? & ? & _);
      [apply start_ok | apply flat_program_ok; repeat constructor; lia | exact E | by split]. }
  destruct (H c1 w1) as (c3 & E3 & H3); [apply Hinv | apply Hinv | reflexivity | reflexivity | reflexivity |].
  exists c3. split; [exact E3 | exact H3].
Defined.

(** C13: an interrupted program resumes where it was: the interrupt sequence
    continues at the vector of the signal it serves (reset before NMI before
    IRQ) with interrupts disabled; after it, if the handler left the stack
    pointer and the three saved bytes as they were, [RTI] restores the program
    counter, the stack pointer and the flags (with the break flag clear). *)
Theorem interrupt_rti_resumes {W} `{Ram : RamLaws W} c w : cpu_ok c -> winv w ->
  exists c1 w1, interrupt None (c, w) = Ok (tt, (c1, w1)) /\
    pc (r c1) = vector_word w (if resetpending c then RESET_VEC
                               else if nmipending c then NMI_VEC else IRQ_BRK_VEC) /\
    intdis (flags (r c1)) = true /\
    forall c2 w2, cpu_ok c2 -> winv w2 -> sp (r c2) = sp (r c1) ->
      (forall k, 0 <= k <= 2 -> stack w2 (u8 (sp (r c) - k)) = stack w1 (u8 (sp (r c) - k))) ->
      exists c3, instr_rti None (c2, w2) = Ok (tt, (c3, w2)) /\ pc (r c3) = pc (r c) /\
        sp (r c3) = sp (r c) /\ flags (r c3) = set_breakf false (flags (r c)).
Proof.
  intros Hc Hw. pose proof (ok_sp c Hc) as Hs.
  destruct (interrupt_run c w Hc Hw) as (c1 & w1 & E & _ & _ & Esp & Epc & Efl & S0 & S1 & S2).
  exists c1, w1. split; [done |]. split.
  { rewrite Epc. f_equal. unfold interrupt_vector. by repeat case_match. }
  split; [by rewrite Efl |].
  intros c2 w2 Hc2 Hw2 Es2 T. destruct (rti_run c2 w2 Hc2 Hw2) as (c3 & E3 & Esp3 & Efl3 & Epc3).
  pose proof (T 0 ltac:(lia)) as T0. rewrite Z.sub_0_r, u8_id in T0 by done.
  rewrite Es2, Esp in Esp3, Efl3, Epc3.
  replace (u8 (u8 (sp (r c) - 3) + 1)) with (u8 (sp (r c) - 2)) in Efl3 by dlia.
  replace (u8 (u8 (sp (r c) - 3) + 2)) with (u8 (sp (r c) - 1)) in Epc3 by dlia.
  replace (u8 (u8 (sp (r c) - 3) + 3)) with (sp (r c)) in Epc3 by dlia.
  rewrite (T 2), S2, status_roundtrip in Efl3 by lia. rewrite T0, S0, (T 1), S1, high_low in Epc3 by lia.
  exists c3. split_and!; [done | done | rewrite Esp3; dlia | done].
Qed.

(** An NMI at $C000 whose handler returns at once. *)
Lemma interrupt_rti_resumes_witness :
  let c := set_nmipending true start in
  exists c1 w1 c3, interrupt None (c, prog []) = Ok (tt, (c1, w1)) /\ pc (r c1) = 0xC000 /\
    instr_rti None (c1, w1) = Ok (tt, (c3, w1)) /\ pc (r c3) = 0xC000 /\ sp (r c3) = 0xFD.
Proof.
  set (c := set_nmipending true start).
  assert (Hc : cpu_ok c) by (destruct start_ok as [[] _]; by constructor).
  assert (Hw : winv (prog [])) by (apply flat_program_ok; constructor).
  destruct (interrupt_rti_resumes c (prog []) Hc Hw) as (c1 & w1 & E & Ep & _ & H).
  destruct (pres_interrupt (W := FlatMem) None ltac:(done) c (prog []) tt c1 w1 Hc Hw E) as (Hc1 & Hw1 & _).
  destruct (H c1 w1) as (c3 & E3 & Ep3 & Es3 & _); [exact Hc1 | exact Hw1 | reflexivity | reflexivity |].
  exists c1, w1, c3. split; [exact E |]. split; [exact Ep |]. split; [exact E3 |]. split; [exact Ep3 | exact Es3].
Defined.

(** What is pushed is pulled: [PLA] after [PHA] restores the accumulator and
    sets the zero and negative flags from it, [PLP] after [PHP] restores the
    flags, and both leave the stack pointer as it was. *)
Theorem stack_roundtrip {W} `{Ram : RamLaws W} c w : cpu_ok c -> winv w ->
  (exists c1 w1, instr_pha None (c, w) = Ok (tt, (c1, w1)) /\
     forall c2, cpu_ok c2 -> sp (r c2) = sp (r c1) ->
     exists c3, instr_pla None (c2, w1) = Ok (tt, (c3, w1)) /\ sp (r c3) = sp (r c) /\
       acc (r c3) = acc (r c) /\ zero (flags (r c3)) = (acc (r c) =? 0) /\
       neg (flags (r c3)) = (128 <=? acc (r c))) /\
  (exists c1 w1, instr_php None (c, w) = Ok (tt, (c1, w1)) /\
     forall c2, cpu_ok c2 -> sp (r c2) = sp (r c1) ->
     exists c3, instr_plp None (c2, w1) = Ok (tt, (c3, w1)) /\ sp (r c3) = sp (r c) /\
       flags (r c3) = set_breakf false (flags (r c))).
Proof.
  intros Hc Hw. pose proof (ok_sp c Hc) as Hs. split.
  - destruct (pha_run c w Hc Hw) as (c1 & w1 & E & Hw1 & Esp & Est). exists c1, w1. split; [done |].
    intros c2 Hc2 E2. destruct (pla_run c2 w1 Hc2 Hw1) as (c3 & E3 & Esp3 & Ea & Ez & En).
    rewrite E2, Esp, u8_succ_pred in Esp3, Ea by done. rewrite Est in Ea. exists c3.
    rewrite Ez, En, Ea. split_and!; try done. apply flag80_byte. apply Hc.
  - destruct (php_run c w Hc Hw) as (c1 & w1 & E & Hw1 & Esp & _ & Est). exists c1, w1. split; [done |].
    intros c2 Hc2 E2. destruct (plp_run c2 w1 Hc2 Hw1) as (c3 & E3 & Esp3 & Ef).
    rewrite E2, Esp, u8_succ_pred in Esp3, Ef by done. rewrite Est, status_roundtrip in Ef.
    exists c3. by split_and!.
Qed.

Lemma stack_roundtrip_witness :
  exists c1 w1, instr_pha None (start, prog []) = Ok (tt, (c1, w1)) /\
    exists c3, instr_pla None (set_acc 0 c1, w1) = Ok (tt, (c3, w1)) /\ acc (r c3) = 0x42.
Proof.
  assert (Hw : winv (prog [])) by (apply flat_program_ok; constructor).
  destruct (stack_roundtrip start (prog [])) as ((c1 & w1 & E & H) & _); [apply start_ok | exact Hw |].
  exists c1, w1. split; [exact E |].
  destruct (H (set_acc 0 c1)) as (c3 & E3 & _ & Ea & _); [| reflexivity | exists c3; split; [exact E3 | exact Ea]].
  destruct (pres_impld (W := FlatMem) None ltac:(done) Fn_pha start (prog []) tt c1 w1) as ([] & _ & _);
    [apply start_ok | exact Hw | exact E |]. constructor; simpl; auto with emu.
Defined.

(** Powering the processor on succeeds on any memory with RAM and sound
    registers: it starts at the reset vector with interrupts disabled, the other
    flags cleared and the stack pointer at $FD. *)
Theorem power_on {W} `{Ram : RamLaws W} c w : cpu_ok c -> winv w ->
  exists c1 w1, power None (c, w) = Ok (tt, (c1, w1)) /\ cpu_ok c1 /\ winv w1 /\
    sp (r c1) = 0xFD /\ pc (r c1) = vector_word w RESET_VEC /\
    flags (r c1) = set_intdis true (set_breakf false reset_status).
Proof.
  intros Hc Hw. destruct (power_run c w Hc Hw) as (c1 & w1 & ? & ? & ? & ? & ? & ? & _).
  by exists c1, w1.
Qed.

Lemma power_on_witness :
  exists c1 w1, power None (init_cpu, prog []) = Ok (tt, (c1, w1)) /\ sp (r c1) = 0xFD /\ pc (r c1) = 0xC000.
Proof.
  destruct (power_on init_cpu (prog [])) as (c1 & w1 & E & _ & _ & Es & Ep & _).
  - constructor; simpl; unfold word, byte; lia.
  - apply flat_program_ok. constructor.
  - exists c1, w1. split; [exact E |]. split; [exact Es | exact Ep].
Defined.

(** ** The debugger's prediction and the disassembler's table *)

(** C15: for an instruction in memory, with no interrupt to be served, the address
    that [nextaddr] predicts is where [run] goes, and predicting changes nothing.
    Exceptions: [BRK] and [RTI], and [RTS] with a stack pointer that wraps. *)
Theorem nextaddr_predicts_run {W} `{Ram : RamLaws W} c w c' w' :
  cpu_ok c -> winv w -> in_memory c -> execnmi c = false -> execirq c = false ->
  opcode c w <> 0x00 -> opcode c w <> 0x40 -> (opcode c w = 0x60 -> sp (r c) <= 0xFD) ->
  (opcode c w = 0x6C -> quiet (operand c w) /\ quiet (ind_high_addr (operand c w))) ->
  run None (c, w) = Ok (tt, (c', w')) -> nextaddr (c, w) = Ok (pc (r c'), (c, w)).
Proof. apply nextaddr_correct. Qed.

(** [BNE -2] with the zero flag clear branches to itself. *)
Lemma nextaddr_predicts_run_witness :
  exists c' w', run None (start, prog [0xD0; 0xFE]) = Ok (tt, (c', w')) /\ pc (r c') = 0xC000 /\
    nextaddr (start, prog [0xD0; 0xFE]) = Ok (pc (r c'), (start, prog [0xD0; 0xFE])).
Proof.
  destruct (run None (start, prog [0xD0; 0xFE])) as [[[] [c' w']] | f] eqn:E; [| discriminate E].
  exists c', w'. split; [reflexivity |]. split; [injection E as <- _; reflexivity |].
  refine (nextaddr_predicts_run start (prog [0xD0; 0xFE]) c' w' _ _ _ _ _ _ _ _ _ E);
    [apply start_ok | apply flat_program_ok; repeat constructor; lia | | reflexivity | reflexivity | done ..].
  exact start_in_memory.
Defined.

(** For [RTI] the prediction is wrong: it takes the return address from the
    first two bytes above the stack pointer, where the flags are saved, while
    [RTI] takes it from the second and third. *)
Theorem nextaddr_rti_shifted {W} `{Ram : RamLaws W} c w : cpu_ok c -> winv w -> in_memory c ->
  execnmi c = false -> execirq c = false -> opcode c w = 0x40 -> sp (r c) <= 0xFC ->
  nextaddr (c, w) = Ok (stack w (sp (r c) + 2) * 256 + stack w (sp (r c) + 1), (c, w)) /\
  exists c', run None (c, w) = Ok (tt, (c', w)) /\
    pc (r c') = stack w (sp (r c) + 3) * 256 + stack w (sp (r c) + 2).
Proof. apply nextaddr_rti. Qed.

(** The stack holds the bytes 1, 2, 3 above the pointer. *)
Definition rti_memory : FlatMem :=
  mkFlat (fun a => if a =? 0xC000 then 0x40 else if (0x1FB <=? a) && (a <=? 0x1FD) then a - 0x1FA else 0).

Lemma nextaddr_rti_shifted_witness :
  let c := set_sp 0xFA start in
  nextaddr (c, rti_memory) = Ok (0x0201, (c, rti_memory)) /\
  exists c', run None (c, rti_memory) = Ok (tt, (c', rti_memory)) /\ pc (r c') = 0x0302.
Proof.
  destruct (nextaddr_rti_shifted (set_sp 0xFA start) rti_memory) as [H1 (c' & H2 & H3)].
  - destruct start_ok as [[] _]. by constructor.
  - intros a. cbn [flat rti_memory]. repeat case_match; unfold byte; try lia.
  - exact start_in_memory.
  - reflexivity.
  - reflexivity.
  - reflexivity.
  - vm_compute. discriminate.
  - split; [exact H1 |]. exists c'. split; [exact H2 | exact H3].
Defined.

(** The disassembler's table of instruction lengths agrees with the switch of
    [execute]: for every opcode whose case does not assign the program counter,
    executing it moves the program counter over exactly the operand bytes that
    [num_bytes] counts. *)
Theorem num_bytes_agrees {W} `{MemW : Memory W}
    (cb : option (CPU -> Status -> Z -> AccessMode -> W -> Res W)) id k c w c' w' :
  byte id -> switch id = Some k -> operand_bytes k <> None ->
  execute cb id (c, w) = Ok (tt, (c', w')) ->
  u16 (pc (r c')) = u16 (pc (r c) + (num_bytes id - 1)).
Proof.
  intros Hid Hk Ho He. destruct (operand_bytes k) as [n |] eqn:En; [| done].
  pose proof (num_bytes_switch id Hid) as Hn. rewrite Hk in Hn. simpl in Hn. rewrite En in Hn.
  unfold execute in He. rewrite Hk in He. rewrite (adv_case cb k n En _ _ _ _ _ He), Hn. f_equal. lia.
Qed.

(** [STA $0203,X] has three bytes. *)
Lemma num_bytes_agrees_witness :
  exists c' w', execute None 0x9D (start, prog [0x03; 0x02]) = Ok (tt, (c', w')) /\
    u16 (pc (r c')) = u16 (0xC000 + (num_bytes 0x9D - 1)).
Proof.
  destruct (execute None 0x9D (start, prog [0x03; 0x02])) as [[[] [c' w']] | f] eqn:E; [| discriminate E].
  exists c', w'. split; [reflexivity |].
  refine (num_bytes_agrees None 0x9D (INSTR_WRITE WAbsx RegAcc) start _ c' w' _ _ _ E);
    [unfold byte; lia | reflexivity | discriminate].
Defined.

(** ** Arithmetic *)

(** [ADC] and [SBC] compute the sum and the difference with carry modulo
    256, set the carry to carry-out (not-borrow), zero and negative from the
    result, and [ADC] sets the overflow flag exactly when the signed sum is out
    of range. *)
Theorem adc_sbc_arithmetic v c : byte (acc (r c)) -> byte v ->
  let a := acc (r c) in let cin := Z.b2z (carry (flags (r c))) in
  let c1 := instr_adc v c in let c2 := instr_sbc v c in
  acc (r c1) = (a + v + cin) mod 256 /\ carry (flags (r c1)) = (256 <=? a + v + cin) /\
  zero (flags (r c1)) = (acc (r c1) =? 0) /\ neg (flags (r c1)) = (128 <=? acc (r c1)) /\
  ov (flags (r c1)) = negb (in_s8 (s8 a + s8 v + cin)) /\
  acc (r c2) = (a - v - (1 - cin)) mod 256 /\ carry (flags (r c2)) = (0 <=? a - v - (1 - cin)) /\
  zero (flags (r c2)) = (acc (r c2) =? 0) /\ neg (flags (r c2)) = (128 <=? acc (r c2)).
Proof.
  intros Ha Hv. destruct (adc_spec v c Ha Hv) as (? & ? & ? & ? & ?).
  destruct (sbc_spec v c Ha Hv) as (? & ? & ? & ?). done.
Qed.

Lemma adc_sbc_arithmetic_witness :
  acc (r (instr_adc 0x50 start)) = 0x92 /\ ov (flags (r (instr_adc 0x50 start))) = true /\
  acc (r (instr_sbc 0x50 start)) = 0xF1.
Proof.
  destruct (adc_sbc_arithmetic 0x50 start) as (H1 & _ & _ & _ & H2 & H3 & _);
    [unfold byte; simpl; lia | unfold byte; lia |].
  split; [exact H1 |]. split; [exact H2 | exact H3].
Defined.

(** [SBC] never sets the overflow flag when the signed difference is out of
    range, because it tests the sign of the operand instead of its complement. *)
Theorem sbc_misses_overflow v c : byte (acc (r c)) -> byte v ->
  in_s8 (s8 (acc (r c)) - s8 v - (1 - Z.b2z (carry (flags (r c))))) = false ->
  ov (flags (r (instr_sbc v c))) = false.
Proof. apply sbc_never_flags_overflow. Qed.

(** 66 - (-112) - 1 = 177 does not fit, and the flag is clear. *)
Lemma sbc_misses_overflow_witness : ov (flags (r (instr_sbc 0x90 start))) = false.
Proof.
  apply (sbc_misses_overflow 0x90 start); [unfold byte; simpl; lia | unfold byte; lia | reflexivity].
Defined.

(** The extra cycle of absolute indexed reads depends on the operand alone:
    it is taken unless the operand is in page zero, whether or not indexing
    crosses a page. *)
Theorem absx_extra_cycle {W} `{MemOk : MemoryOk W} f c w c' w' :
  cpu_ok c -> winv w -> addrmode_absx_read None (read_fn f) (c, w) = Ok (tt, (c', w')) ->
  u64 (cycles (r c')) = u64 (cycles (r c) + (if high (opargs c') =? 0 then 3 else 4)).
Proof. apply absx_read_elapsed. Qed.

(** [LDA $0200,X] with X = 1 stays in its page and still takes the extra cycle. *)
Lemma absx_extra_cycle_witness :
  exists c' w', addrmode_absx_read None instr_lda (start, prog [0x00; 0x02]) = Ok (tt, (c', w')) /\
    u64 (cycles (r c')) = u64 (cycles (r start) + 4).
Proof.
  destruct (addrmode_absx_read None instr_lda (start, prog [0x00; 0x02])) as [[[] [c' w']] | f] eqn:E;
    [| discriminate E].
  exists c', w'. split; [reflexivity |].
  assert (Eo : high (opargs c') = 2) by (injection E as <- _; reflexivity).
  pose proof (absx_extra_cycle Fn_lda start (prog [0x00; 0x02]) c' w') as H. rewrite Eo in H. apply H.
  - apply start_ok.
  - apply flat_program_ok. repeat constructor; lia.
  - exact E.
Defined.
