(* ===== verification/IsaProps.v ===== *)
(** * The processor against its documents

    The theorems that relate [CPU::run] to the reference [Mos6502], each with a run
    on a concrete program. *)

From S2P Require Import Prelude InstrInfo Cpu CpuFacts CpuInv CpuStack CpuNext Mos6502 CpuIsa CpuIsaRun FlatMemory.
Open Scope Z_scope.

(** The program of the concrete runs: [LDA #$80; CLC; ADC #$83; STA $10; BEQ +2]. *)
Definition sum_program : FlatMem := flat_program 0xC000 [0xA9; 0x80; 0x18; 0x69; 0x83; 0x85; 0x10; 0xF0; 0x02].

Lemma sum_program_ok : winv sum_program.
Proof. apply flat_program_ok. repeat constructor; lia. Qed.

Lemma start_ready : cpu_ok (cpu_at 0xC000) /\ in_memory (cpu_at 0xC000) /\ calm (cpu_at 0xC000).
Proof.
  split; [constructor; simpl; unfold word, byte; lia |]. split; [| done].
  split; [right | split; right]; (split; vm_compute; (discriminate || reflexivity)).
Qed.

(** What the program executes, by the reference. *)
Definition sum_instrs : list Instr :=
  [OnOperand (LOAD RegAcc) Imm; SetFlag FCarry false; OnOperand ADC Imm; OnOperand (STORE RegAcc) Zp; Branch FZero true].

Definition ordinary_as (i : Instr) (s : Isa) : Prop :=
  (quiet (iPC s) /\ quiet (u16 (iPC s + 1)) /\ quiet (u16 (iPC s + 2))) /\
  decode (iM s (iPC s)) = Some i /\ conforms i s = true /\ accessible i s /\ unreliable i = [].

(** Close a goal that computation has brought to comparisons of constants. *)
Ltac decided := first [exact I | reflexivity | discriminate | split; decided | solve [left; decided] | solve [right; decided]].

Lemma sum_checked k : (k < 5)%nat ->
  match isa_steps k (view (cpu_at 0xC000) (peek sum_program)), sum_instrs !! k with
  | Some sk, Some i => ordinary_as i sk
  | _, _ => False
  end.
Proof. intros Hk. do 5 (destruct k as [| k]; [clear; vm_compute; decided |]). lia. Qed.

Lemma sum_ordinary k sk : (k < 5)%nat -> isa_steps k (view (cpu_at 0xC000) (peek sum_program)) = Some sk -> ordinary sk.
Proof.
  intros Hk Ek. pose proof (sum_checked k Hk) as H. rewrite Ek in H.
  destruct (sum_instrs !! k) as [i |]; [| done]. destruct H as [H1 H2]. split; [exact H1 | by exists i].
Qed.

(** C8: many instructions in a row.  From states that agree, as many calls of
    [CPU::run] as the reference takes steps succeed and end in states that agree:
    registers, flags, program counter and all memory that the reference can see,
    as long as each instruction on the way is one that the program executes as
    documented. *)
Theorem program_refines_isa {W} `{Ram : RamLaws W} n c w s s' :
  cpu_ok c -> winv w -> calm c -> agrees visible [] (view c (peek w)) s ->
  isa_steps n s = Some s' -> (forall k sk, (k < n)%nat -> isa_steps k s = Some sk -> ordinary sk) ->
  exists c' w', runs n (c, w) = Ok (tt, (c', w')) /\ cpu_ok c' /\ winv w' /\ calm c' /\
    agrees visible [] (view c' (peek w')) s'.
Proof. apply runs_ordinary. Qed.

Lemma program_refines_isa_witness : exists c' w', runs 5 (cpu_at 0xC000, sum_program) = Ok (tt, (c', w')) /\
  acc (r c') = 3 /\ peek w' 0x10 = 3 /\ carry (flags (r c')) = true /\ ov (flags (r c')) = true /\ pc (r c') = 0xC009.
Proof.
  set (s := view (cpu_at 0xC000) (peek sum_program)). destruct start_ready as (Hc & _ & Hcalm).
  assert (Hend : match isa_steps 5 s with
    | Some s' => iA s' = 3 /\ iM s' 0x10 = 3 /\ carry (iP s') = true /\ ov (iP s') = true /\ iPC s' = 0xC009
    | None => False end) by (vm_compute; done).
  destruct (isa_steps 5 s) as [s' |] eqn:Es; [| destruct Hend].
  destruct (program_refines_isa 5 (cpu_at 0xC000) sum_program s s' Hc sum_program_ok Hcalm (agrees_refl _ _ _) Es)
    as (c' & w' & E & _ & _ & _ & Hag); [exact sum_ordinary |].
  exists c', w'. split; [exact E |]. destruct Hag.
  assert (V : visible 0x10) by (split; [left |]; lia). specialize (ag_M _ V). apply same_flags_nil in ag_P.
  cbn [view iA iP iPC iM] in *. by rewrite ag_A, ag_M, ag_P, ag_PC.
Defined.

(** C9: one call of [CPU::run] on an instruction in memory is the documented
    instruction with that opcode, for all 151 of them: same registers, flags,
    program counter and memory.  It is so but for the flags in [unreliable], and
    where [conforms] holds: indexed addresses in page zero stay in page zero, and
    pulled flags have bit 5 set.  [BRK] pushes the address of the next byte, where
    the documents have the one after it ([exec Break s] is [break_to] of [iPC s + 2]).
    An opcode that is not documented is skipped. *)
Theorem run_refines_isa {W} `{Ram : RamLaws W} c w : cpu_ok c -> winv w -> in_memory c -> calm c ->
  let s := view c (peek w) in
  match decode (iM s (iPC s)) with
  | Some Break =>
      plain (iP s) = true -> resetpending c = false ->
      exists c' w', run None (c, w) = Ok (tt, (c', w')) /\ cpu_ok c' /\ winv w' /\ calm c' /\
        agrees visible [] (view c' (peek w')) (break_to (u16 (iPC s + 1)) s)
  | Some i =>
      conforms i s = true -> accessible i s ->
      exists c' w', run None (c, w) = Ok (tt, (c', w')) /\ cpu_ok c' /\ winv w' /\ calm c' /\
        agrees visible (unreliable i) (view c' (peek w')) (exec i s)
  | None => run None (c, w) = Ok (tt, (fetched c, w))
  end.
Proof.
  intros Hc Hw Hm Hcalm s. destruct (decode _) as [i |] eqn:Hd; [| by apply run_skips].
  pose proof (fun H1 H2 => run_break c w Hc Hw Hm Hcalm H2 (eq_trans Hd H1)) as Hbrk.
  pose proof (run_exec i c w Hc Hw Hm Hcalm Hd) as Hrun.
  destruct i; try exact Hrun. intros Hp Hr. by apply Hbrk.
Qed.

(** [STA $0200,X] with X = 1. *)
Lemma run_refines_isa_witness :
  exists c' w', run None (cpu_at 0xC000, flat_program 0xC000 [0x9D; 0x00; 0x02]) = Ok (tt, (c', w')) /\
    peek w' 0x0201 = 0x42 /\ pc (r c') = 0xC003 /\ calm c'.
Proof.
  set (w := flat_program 0xC000 [0x9D; 0x00; 0x02]). destruct start_ready as (Hc & Hm & Hcalm).
  assert (Hw : winv w) by (apply flat_program_ok; repeat constructor; lia).
  destruct (run_refines_isa (cpu_at 0xC000) w Hc Hw Hm Hcalm) as (c' & w' & E & _ & _ & Hcalm' & Hag).
  - vm_compute. reflexivity.
  - vm_compute. decided.
  - exists c', w'. split; [exact E |]. destruct Hag.
    assert (V : visible 0x0201) by (split; [left |]; lia). specialize (ag_M _ V).
    split; [exact ag_M |]. split; [exact ag_PC | exact Hcalm'].
Defined.
