(* ===== verification/File.v ===== *)
(** * Files ([emu/util/file.hpp], [emu/util/file.cpp])

    A C stream is the list of the bytes not read yet, so [ungetc] puts a byte
    back in front.  What a path contains is a parameter, [fopen]: [None] is a
    failure, whose message is [strerror].  What is written is an [Output], in the
    order in which it is written.  [Stream] has the same operations on a stream with
    its position and indicators, and the operations that the emulator does not use. *)

From Stdlib Require Import Ascii.
From stdpp Require Import strings.
From S2P Require Import Prelude StringOps Fmt.
Open Scope Z_scope.

Definition EOF : Z := -1.

(** A stream is one of the standard ones, which [close] leaves open, or not. *)
Record FILE := mkFILE { is_std : bool; rest : list Z }.

Inductive FileMode := READ | WRITE | MODIFY | APPEND.

Record File := mkFile { filbuf : option FILE; filname : string; errstr : string }.

(** [File()] *)
Definition default_file : File := mkFile None EmptyString EmptyString.

(** [explicit operator bool] *)
Definition is_open (f : File) : bool := match filbuf f with Some _ => true | None => false end.

(** [File::close]: the stream of a standard file stays. *)
Definition close (f : File) : File :=
  match filbuf f with
  | None => f
  | Some s => if is_std s then f else mkFile None EmptyString (errstr f)
  end.

(** [File::open] *)
Definition open (fopen : string -> FileMode -> option FILE) (strerror : string)
    (f : File) (pathname : string) (filemode : FileMode) : bool * File :=
  let f := close f in
  match fopen pathname filemode with
  | None => (false, mkFile None (filname f) strerror)
  | Some s => (true, mkFile (Some s) pathname (errstr f))
  end.

(** [File::assoc], [File::release] *)
Definition assoc (f : File) (s : FILE) : File := mkFile (Some s) (filname f) (errstr f).
Definition release (f : File) : option FILE * File := (filbuf f, mkFile None EmptyString (errstr f)).

(** [File::operator=(File &&)]: the stream and the name change places, the
    message does not.  The result is the two files. *)
Definition move_assign (f g : File) : File * File :=
  (mkFile (filbuf g) (filname g) (errstr f), mkFile (filbuf f) (filname f) (errstr g)).

(** The constructors, from a path, from a stream and from a file that is moved,
    and the destructor. *)
Definition construct_path (fopen : string -> FileMode -> option FILE) (strerror : string)
    (pathname : string) (filemode : FileMode) : File :=
  snd (open fopen strerror default_file pathname filemode).
Definition construct_buf (s : FILE) : File := assoc default_file s.
Definition construct_move (g : File) : File * File := move_assign default_file g.
Definition destroy (f : File) : File := close f.

(** ** Writing *)

(** Text written to the standard streams, or to the file opened under a name. *)
Inductive Output :=
| Stdout (s : string)
| Stderr (s : string)
| ToFile (name s : string).

(** [error] and [warning] of [emu/util/debug.hpp]: two prints each. *)
Definition error (text : string) : list Output := [Stderr "error: "; Stderr text].
Definition warning (text : string) : list Output := [Stderr "warning: "; Stderr text].

(** [panic]: the text, and the status that the process exits with. *)
Definition panic (text : string) : list Output * Z := ([Stderr "panic: "; Stderr text], 1).

(** [dbgprint], which prints in a build with [DEBUG] only. *)
Definition dbgprint `{Fmt} (DEBUG : bool) (file : string) (line : Z) (text : string) : list Output :=
  if DEBUG then [Stderr (file +:+ ":" +:+ fmt_dec line +:+ " "); Stderr text] else [].

(** [File::print]; [fmt::print] on a null stream is undefined. *)
Definition print (f : File) (text : string) : Res Output :=
  match filbuf f with
  | Some _ => Ok (ToFile (filname f) text)
  | None => Err OutOfBounds
  end.

(** ** Reading *)

(** [bread(buf, nb)]: the bytes read (at most [nb]) and the stream after. *)
Definition bread (nb : nat) (s : list Z) : list Z * list Z := (take nb s, drop nb s).

(** The character that a byte assigns to a [std::string]. *)
Definition chr (c : Z) : ascii := ascii_of_N (Z.to_N (u8 c)).

Definition is_space (c : Z) : bool := (c =? 32) || (c =? 9).
Definition isdelim (c : Z) : bool := (c =? 10) || (c =? 32) || (c =? 9).

(** [while (c = getc(), is_space(c) && c != EOF) ; ungetc(c);] *)
Fixpoint skip_spaces (s : list Z) : list Z :=
  match s with
  | c :: s' => if is_space c then skip_spaces s' else s
  | [] => []
  end.

(** [while (c = getc(), !stop(c) && c != EOF) str += c;] returns the string and
    the stream from the stopping character on, empty at the end of the file. *)
Fixpoint read_until (stop : Z -> bool) (s : list Z) : string * list Z :=
  match s with
  | c :: s' => if stop c then (EmptyString, s)
               else let '(str, rest) := read_until stop s' in (String (chr c) str, rest)
  | [] => (EmptyString, [])
  end.

(** [File::getword]: the delimiter is put back. *)
Definition getword (s : list Z) : bool * string * list Z :=
  let '(str, rest) := read_until isdelim (skip_spaces s) in
  (match rest with [] => false | _ => true end, str, rest).

(** [File::getline]: the delimiter is consumed. *)
Definition getline (delim : Z) (s : list Z) : bool * string * list Z :=
  let '(str, rest) := read_until (fun c => c =? delim) (skip_spaces s) in
  match rest with
  | [] => (false, str, [])
  | _ :: s' => (true, str, s')
  end.

(** [File::getall]: [for (std::string tmp; getline(tmp); ) str += tmp + '\n';]
    Every line that is read takes at least its delimiter off the stream. *)
Fixpoint getall_loop (fuel : nat) (s : list Z) : Res (string * list Z) :=
  match fuel with
  | O => Err OutOfFuel
  | S n =>
      let '(ok, tmp, s') := getline 10 s in
      if ok : bool then
        let? '(str, rest) := getall_loop n s' in
        Ok ((tmp +:+ String (chr 10) EmptyString +:+ str)%string, rest)
      else Ok (EmptyString, s')
  end.

Definition getall (s : list Z) : Res (string * list Z) := getall_loop (S (length s)) s.

(** ** What reading takes off the stream *)

Lemma skip_spaces_length s : (length (skip_spaces s) <= length s)%nat.
Proof. induction s as [| c s IH]; simpl; [lia |]. case_match; simpl in *; lia. Qed.

Lemma read_until_length stop s : (length (snd (read_until stop s)) <= length s)%nat.
Proof.
  induction s as [| c s IH]; simpl; [lia |]. destruct (stop c); simpl; [lia |].
  destruct (read_until stop s) as [str rest]. simpl in *. lia.
Qed.

(** A line that was read has shortened the stream. *)
Lemma getline_shorter delim s line s' : getline delim s = (true, line, s') -> (length s' < length s)%nat.
Proof.
  unfold getline. pose proof (read_until_length (fun c => c =? delim) (skip_spaces s)) as H.
  pose proof (skip_spaces_length s). destruct (read_until _ _) as [str [| c rest]]; [done |].
  simpl in H. intros [= _ <-]. lia.
Qed.

Lemma getword_shorter s got word s' : getword s = (got, word, s') -> (length s' <= length s)%nat.
Proof.
  unfold getword. pose proof (read_until_length isdelim (skip_spaces s)) as H.
  pose proof (skip_spaces_length s). destruct (read_until _ _) as [str rest]. simpl in H.
  intros [= _ _ <-]. lia.
Qed.

(** ** Reading back what was typed *)

(** The bytes of a string. *)
Definition byte_of (c : ascii) : Z := Z.of_N (N_of_ascii c).
Fixpoint bytes_of (s : string) : list Z :=
  match s with EmptyString => [] | String c s' => byte_of c :: bytes_of s' end.

Lemma chr_byte_of c : chr (byte_of c) = c.
Proof.
  unfold chr, byte_of, u8. pose proof (N_ascii_bounded c) as H.
  rewrite Z.mod_small by lia. rewrite N2Z.id. apply ascii_N_embedding.
Qed.

Lemma bytes_of_app s t : bytes_of (s +:+ t) = bytes_of s ++ bytes_of t.
Proof. induction s as [| c s IH]; simpl; [done | by rewrite IH]. Qed.

(** A word is read up to the character that stops it. *)
Lemma read_until_bytes stop s c rest : all_chars (fun a => negb (stop (byte_of a))) s = true ->
  stop c = true -> read_until stop (bytes_of s ++ c :: rest) = (s, c :: rest).
Proof.
  intros H Hc. induction s as [| a s IH]; simpl in *; [by rewrite Hc |].
  apply andb_true_iff in H as [Ha%negb_true_iff Hs]. rewrite Ha, chr_byte_of, IH by done. done.
Qed.

Lemma skip_spaces_bytes a s rest : is_space (byte_of a) = false ->
  skip_spaces (bytes_of (String a s) ++ rest) = bytes_of (String a s) ++ rest.
Proof. intros H. simpl. by rewrite H. Qed.

Lemma getword_bytes a s c rest : all_chars (fun x => negb (isdelim (byte_of x))) (String a s) = true ->
  isdelim c = true -> getword (bytes_of (String a s) ++ c :: rest) = (true, String a s, c :: rest).
Proof.
  intros H Hc. unfold getword. rewrite skip_spaces_bytes.
  - by rewrite read_until_bytes.
  - simpl in H. apply andb_true_iff in H as [Ha%negb_true_iff _]. unfold isdelim in Ha.
    unfold is_space. destruct (byte_of a =? 10), (byte_of a =? 32), (byte_of a =? 9); done.
Qed.

Lemma getline_bytes a s rest : all_chars (fun x => negb (byte_of x =? 10)) (String a s) = true ->
  is_space (byte_of a) = false -> getline 10 (bytes_of (String a s) ++ 10 :: rest) = (true, String a s, rest).
Proof.
  intros H Ha. unfold getline. rewrite skip_spaces_bytes by done. by rewrite read_until_bytes.
Qed.
