(* ===== verification/Stream.v ===== *)
(** * C streams under [File] ([emu/util/file.hpp], [emu/util/file.cpp])

    The operations of [File] on a stream of the C library with its position, its
    byte of push-back and its two indicators, and the loops of [getword], [getline]
    and [getall] as they are written, on [getc] and [ungetc].  [File] has the same
    functions on the list of bytes not read yet; the theorems here say that this
    list is all there is to know about a stream that is read.  Output is not
    buffered, and one byte of push-back is what the C standard guarantees. *)

From Stdlib Require Import Ascii.
From stdpp Require Import strings.
From S2P Require Import Prelude StringOps Fmt File.
Open Scope Z_scope.

(** ** Streams *)

Record Stream := mkStream {
  contents : list Z;           (** the bytes of the file *)
  pos : nat;
  unread : option Z;           (** put back by [ungetc] *)
  at_eof : bool; failed : bool;
  readable : bool; writable : bool; appending : bool;
}.

Definition set_cursor (p : nat) (u : option Z) (e : bool) (st : Stream) : Stream :=
  mkStream (contents st) p u e (failed st) (readable st) (writable st) (appending st).
Definition set_failed (st : Stream) : Stream :=
  mkStream (contents st) (pos st) (unread st) (at_eof st) true (readable st) (writable st) (appending st).

(** What [fopen] gives for a file with these bytes: "rb", "wb", "rb+", "ab". *)
Definition fresh (m : FileMode) (bytes : list Z) : Stream :=
  match m with
  | READ => mkStream bytes 0 None false false true false false
  | WRITE => mkStream [] 0 None false false false true false
  | MODIFY => mkStream bytes 0 None false false true true false
  | APPEND => mkStream bytes (length bytes) None false false false true true
  end.

(** [fgetc]: the indicator of the end is sticky; a stream that is not open for
    reading fails. *)
Definition fgetc (st : Stream) : Z * Stream :=
  if negb (readable st) then (EOF, set_failed st)
  else match unread st with
       | Some c => (c, set_cursor (pos st) None (at_eof st) st)
       | None =>
           if at_eof st then (EOF, st)
           else match contents st !! pos st with
                | Some c => (c, set_cursor (S (pos st)) None false st)
                | None => (EOF, set_cursor (pos st) None true st)
                end
       end.

(** [std::ungetc] *)
Definition fungetc (c : Z) (st : Stream) : Z * Stream :=
  if (c =? EOF) || negb (readable st) || bool_decide (is_Some (unread st)) then (EOF, st)
  else (u8 c, set_cursor (pos st) (Some (u8 c)) false st).

(** [fread(buf, 1, nb)]: as if by [fgetc], up to the first failure. *)
Fixpoint fread (nb : nat) (st : Stream) : list Z * Stream :=
  match nb with
  | O => ([], st)
  | S n =>
      let '(c, st1) := fgetc st in
      if c =? EOF then ([], st1) else let '(l, st2) := fread n st1 in (c :: l, st2)
  end.

(** A byte stored at a position; a file is extended with zeros up to it. *)
Definition overwrite (p : nat) (c : Z) (l : list Z) : list Z :=
  take p l ++ replicate (p - length l) 0 ++ c :: drop (S p) l.

(** [fputc] *)
Definition fputc (c : Z) (st : Stream) : Z * Stream :=
  if negb (writable st) then (EOF, set_failed st)
  else
    let p := if appending st then length (contents st) else pos st in
    (u8 c, mkStream (overwrite p (u8 c) (contents st)) (S p) None (at_eof st) (failed st)
             (readable st) (writable st) (appending st)).


Inductive Origin := SEEK_SET | SEEK_CUR | SEEK_END.

Definition tell (st : Stream) : Z := Z.of_nat (pos st) - (match unread st with Some _ => 1 | None => 0 end).

(** [fseek]: forgets the push-back and the end; not before the first byte. *)
Definition fseek (offset : Z) (origin : Origin) (st : Stream) : Z * Stream :=
  let p := offset + match origin with SEEK_SET => 0 | SEEK_CUR => tell st | SEEK_END => Z.of_nat (length (contents st)) end in
  if p <? 0 then (-1, st) else (0, set_cursor (Z.to_nat p) None false st).

(** ** The members of [File] that call them *)

(** The state is [filbuf]; the C library does not accept a null stream. *)
Definition on_stream {A} (f : Stream -> A * Stream) : M (option Stream) A :=
  fun s => match s with
           | Some st => let '(a, st') := f st in Ok (a, Some st')
           | None => Err BadPointer
           end.

Definition getc : M (option Stream) Z := on_stream fgetc.
Definition ungetc (c : Z) : M (option Stream) Z := on_stream (fungetc c).
Definition bread (nb : nat) : M (option Stream) (list Z) := on_stream (fread nb).
Definition putc (c : Z) : M (option Stream) Z := on_stream (fputc c).
Definition fd (fileno : Stream -> Z) : M (option Stream) Z := on_stream (fun st => (fileno st, st)).

(** [fflush] of a null stream flushes every stream. *)
Definition flush : M (option Stream) Z := retM 0.

(** [File::eof], [File::error]: true of a file that is not open. *)
Definition eof (s : option Stream) : bool := match s with Some st => at_eof st | None => true end.
Definition error (s : option Stream) : bool := match s with Some st => failed st | None => true end.

(** [while (c = getc(), is_space(c) && c != EOF) ;] *)
Fixpoint skip_blanks (fuel : nat) : M (option Stream) Z :=
  match fuel with
  | O => fun _ => Err OutOfFuel
  | S n => c <- getc ;; if is_space c && negb (c =? EOF) then skip_blanks n else retM c
  end.

(** [while (c = getc(), !stop(c) && c != EOF) str += c;] *)
Fixpoint take_until (fuel : nat) (stop : Z -> bool) (str : string) : M (option Stream) (string * Z) :=
  match fuel with
  | O => fun _ => Err OutOfFuel
  | S n =>
      c <- getc ;;
      if negb (stop c) && negb (c =? EOF) then take_until n stop (str +:+ String (chr c) EmptyString)
      else retM (str, c)
  end.

Definition getword (fuel : nat) : M (option Stream) (bool * string) :=
  c <- skip_blanks fuel ;;
  ungetc c ;;
  r <- take_until fuel isdelim EmptyString ;;
  ungetc (snd r) ;;
  retM (negb (snd r =? EOF), fst r).

Definition getline (fuel : nat) (delim : Z) : M (option Stream) (bool * string) :=
  c <- skip_blanks fuel ;;
  ungetc c ;;
  r <- take_until fuel (fun c => c =? delim) EmptyString ;;
  retM (negb (snd r =? EOF), fst r).

(** [for (std::string tmp; getline(tmp); ) str += tmp + '\n';] with a bound on the
    rounds; every getline has the same bound on its own. *)
Fixpoint append_lines (rounds fuel : nat) (str : string) : M (option Stream) string :=
  match rounds with
  | O => fun _ => Err OutOfFuel
  | S n =>
      r <- getline fuel 10 ;;
      if fst r : bool then append_lines n fuel (str +:+ (snd r +:+ String (chr 10) EmptyString)) else retM str
  end.

Definition getall (fuel : nat) : M (option Stream) string := append_lines fuel fuel EmptyString.

(** A text of two lines, the second one not ended: it is lost. *)
Example getall_two_lines : fst <$> (match getall 20 (Some (fresh READ [65; 10; 32; 66])) with Ok r => Some r | Err _ => None end)
  = Some (String "A" (String (chr 10) EmptyString)).
Proof. vm_compute. reflexivity. Qed.

(** ** A stream that is read *)

(** What is still to be read. *)
Definition pending (st : Stream) : list Z :=
  match unread st with Some c => c :: drop (pos st) (contents st) | None => drop (pos st) (contents st) end.

Record stream_ok (st : Stream) : Prop := {
  so_readable : readable st = true;
  so_bytes : Forall byte (contents st);
  so_unread : forall c, unread st = Some c -> byte c /\ at_eof st = false;
  so_eof : at_eof st = true -> drop (pos st) (contents st) = [];
}.

(** A character [c] was taken off [l]: the state after, [EOF] included. *)
Record stopped (st : Stream) (l : list Z) (c : Z) (st' : Stream) : Prop := {
  sp_ok : stream_ok st';
  sp_contents : contents st' = contents st;
  sp_unread : unread st' = None;
  sp_taken : match l with
             | [] => c = EOF /\ pending st' = [] /\ at_eof st' = true
             | b :: l' => c = b /\ byte b /\ pending st' = l' /\ at_eof st' = false
             end;
}.

Lemma pending_bytes st : stream_ok st -> Forall byte (pending st).
Proof.
  intros [_ Hb Hu _]. unfold pending. destruct (unread st) as [c |].
  - constructor; [by apply Hu | by apply Forall_drop].
  - by apply Forall_drop.
Qed.

Lemma fgetc_stopped st : stream_ok st -> stopped st (pending st) (fst (fgetc st)) (snd (fgetc st)).
Proof.
  intros [Hr Hb Hu He]. unfold fgetc, pending. rewrite Hr. simpl.
  destruct (unread st) as [c |] eqn:Eu.
  - destruct (Hu c eq_refl) as [Hc E]. constructor; [constructor | done | done |]; cbn; try done.
  - destruct (at_eof st) eqn:E.
    + specialize (He eq_refl). rewrite He. constructor; [constructor | done | done |]; cbn; try done.
      { intros c Ec. congruence. } split_and!; try done. unfold pending. by rewrite Eu.
    + destruct (contents st !! pos st) as [c |] eqn:El.
      * rewrite (drop_S _ _ _ El). constructor; [constructor | done | done |]; cbn; try done.
        split_and!; try done. by eapply Forall_lookup.
      * apply lookup_ge_None in El. rewrite (drop_ge _ _ El).
        constructor; [constructor | done | done |]; cbn; try done.
        -- intros _. by apply drop_ge.
        -- split_and!; try done. unfold pending. cbn. by apply drop_ge.
Qed.

Lemma stopped_trans st st1 l1 c1 l2 c2 st2 : stopped st l1 c1 st1 -> stopped st1 l2 c2 st2 -> stopped st l2 c2 st2.
Proof. intros [] []. constructor; try done. congruence. Qed.

(** Putting the character back. *)
Record resumed (st : Stream) (l : list Z) (st' : Stream) : Prop := {
  rs_ok : stream_ok st';
  rs_contents : contents st' = contents st;
  rs_pending : pending st' = l;
}.

Lemma stopped_eof st l c st' : stopped st l c st' -> (c =? EOF) = match l with [] => true | _ => false end.
Proof.
  intros [_ _ _ H]. destruct l as [| b l]; [by destruct H as [-> _] |].
  destruct H as (-> & Hb & _). apply Z.eqb_neq. unfold byte, EOF in *. lia.
Qed.

Lemma fungetc_resumed st l c st' : stopped st l c st' ->
  resumed st l (snd (fungetc c st')) /\ at_eof (snd (fungetc c st')) = match l with [] => true | _ => false end.
Proof.
  intros H. pose proof (stopped_eof _ _ _ _ H) as He. destruct H as [[Hr Hb Hu Hn] Hc Hunr Ht].
  unfold fungetc. rewrite He, Hr, Hunr. destruct l as [| b l]; simpl.
  - destruct Ht as (_ & Hp & E). split; [| done]. constructor; [by constructor | done | done].
  - destruct Ht as (-> & Hbb & Hp & E). rewrite (u8_id b Hbb). split; [| done]. constructor; try done.
    + constructor; try done. by intros ? [= <-].
    + unfold pending in *. cbn. rewrite Hunr in Hp. by rewrite Hp.
Qed.

Lemma on_stream_run {A B} (f : Stream -> A * Stream) (k : A -> M (option Stream) B) st :
  bindM (on_stream f) k (Some st) = k (fst (f st)) (Some (snd (f st))).
Proof. unfold bindM, on_stream. by destruct (f st). Qed.

Lemma string_app_nil s : (s +:+ EmptyString)%string = s.
Proof. induction s as [| a s IH]; [done |]. change (String a (s +:+ EmptyString) = String a s). by rewrite IH. Qed.

Lemma string_app_assoc s t u : ((s +:+ t) +:+ u)%string = (s +:+ (t +:+ u))%string.
Proof. induction s as [| a s IH]; [done |]. change (String a ((s +:+ t) +:+ u) = String a (s +:+ (t +:+ u))). by rewrite IH. Qed.

(** The first loop stops at what [skip_spaces] stops at. *)
Lemma skip_blanks_run fuel st : stream_ok st -> (length (pending st) < fuel)%nat ->
  exists c st', skip_blanks fuel (Some st) = Ok (c, Some st') /\ stopped st (skip_spaces (pending st)) c st'.
Proof.
  revert st. induction fuel as [| n IH]; intros st Hok Hl; [lia |].
  pose proof (fgetc_stopped st Hok) as H. cbn [skip_blanks]. unfold getc. rewrite on_stream_run.
  rewrite (stopped_eof _ _ _ _ H). set (c := fst (fgetc st)) in *. set (st1 := snd (fgetc st)) in *.
  destruct (pending st) as [| b l] eqn:El; simpl in *.
  - rewrite andb_false_r. by exists c, st1.
  - rewrite andb_true_r. destruct (sp_taken _ _ _ _ H) as (Ec & Hb & Hp & _). rewrite Ec. destruct (is_space b).
    + destruct (IH st1 (sp_ok _ _ _ _ H)) as (c' & st' & E & H'); [rewrite Hp; lia |].
      exists c', st'. rewrite Hp in H'. split; [exact E |]. by eapply stopped_trans.
    + exists c, st1. by rewrite <- Ec in *.
Qed.

(** The second one reads what [read_until] reads. *)
Lemma take_until_run fuel stop s0 st : stream_ok st -> (length (pending st) < fuel)%nat ->
  exists c st', take_until fuel stop s0 (Some st) = Ok ((s0 +:+ fst (read_until stop (pending st)), c), Some st') /\
    stopped st (snd (read_until stop (pending st))) c st'.
Proof.
  revert s0 st. induction fuel as [| n IH]; intros s0 st Hok Hl; [lia |].
  pose proof (fgetc_stopped st Hok) as H. cbn [take_until]. unfold getc. rewrite on_stream_run.
  rewrite (stopped_eof _ _ _ _ H). set (c := fst (fgetc st)) in *. set (st1 := snd (fgetc st)) in *.
  destruct (pending st) as [| b l] eqn:El; simpl in *.
  - rewrite andb_false_r. exists c, st1. by rewrite string_app_nil.
  - rewrite andb_true_r. destruct (sp_taken _ _ _ _ H) as (Ec & Hb & Hp & _). rewrite Ec. destruct (stop b); simpl.
    + exists c, st1. rewrite string_app_nil, <- Ec. by rewrite <- Ec in H.
    + destruct (IH (s0 +:+ String (chr b) EmptyString) st1 (sp_ok _ _ _ _ H)) as (c' & st' & E & H'); [rewrite Hp; lia |].
      rewrite Hp in *. destruct (read_until stop l) as [str rest]. exists c', st'. simpl in *.
      split; [| by eapply stopped_trans]. rewrite E. by rewrite string_app_assoc.
Qed.

Lemma bind_ungetc {B} c (k : Z -> M (option Stream) B) st :
  bindM (ungetc c) k (Some st) = k (fst (fungetc c st)) (Some (snd (fungetc c st))).
Proof. apply on_stream_run. Qed.

(** Blanks skipped, and the character after them put back. *)
Lemma blanks_run {B} fuel st (k : M (option Stream) B) : stream_ok st -> (length (pending st) < fuel)%nat ->
  exists st1, (c <- skip_blanks fuel ;; ungetc c ;; k) (Some st) = k (Some st1) /\
    resumed st (skip_spaces (pending st)) st1 /\ (length (pending st1) < fuel)%nat.
Proof.
  intros Hok Hl. destruct (skip_blanks_run fuel st Hok Hl) as (c & st' & E & H).
  destruct (fungetc_resumed _ _ _ _ H) as [R _]. exists (snd (fungetc c st')).
  rewrite (bindM_run _ _ _ _ _ E), bind_ungetc. split_and!; [done | done |].
  rewrite (rs_pending _ _ _ R). pose proof (skip_spaces_length (pending st)). lia.
Qed.

(** [File::getword] *)
Lemma getword_run fuel st : stream_ok st -> (length (pending st) < fuel)%nat ->
  let '(ok, str, l) := File.getword (pending st) in
  exists st', getword fuel (Some st) = Ok ((ok, str), Some st') /\ resumed st l st' /\ at_eof st' = negb ok.
Proof.
  intros Hok Hl. unfold File.getword, getword.
  destruct (blanks_run fuel st (r <- take_until fuel isdelim EmptyString ;; ungetc (snd r) ;;
    retM (negb (snd r =? EOF), fst r)) Hok Hl) as (st1 & E1 & [Hok1 Hc1 Hp1] & Hl1).
  destruct (take_until_run fuel isdelim EmptyString st1 Hok1 Hl1) as (c & st2 & E2 & H2).
  rewrite Hp1 in *. destruct (read_until isdelim _) as [str l]. simpl in E2, H2.
  destruct (fungetc_resumed _ _ _ _ H2) as [[Hok3 Hc3 Hp3] He]. exists (snd (fungetc c st2)).
  rewrite E1, (bindM_run _ _ _ _ _ E2), bind_ungetc. simpl. rewrite (stopped_eof _ _ _ _ H2). split_and!.
  - by destruct l.
  - constructor; try done. rewrite Hc3. congruence.
  - rewrite He. by destruct l.
Qed.

(** [File::getline] *)
Lemma getline_run fuel delim st : stream_ok st -> (length (pending st) < fuel)%nat ->
  let '(ok, str, l) := File.getline delim (pending st) in
  exists st', getline fuel delim (Some st) = Ok ((ok, str), Some st') /\ resumed st l st' /\ at_eof st' = negb ok.
Proof.
  intros Hok Hl. unfold File.getline, getline.
  destruct (blanks_run fuel st (r <- take_until fuel (fun c => c =? delim) EmptyString ;;
    retM (negb (snd r =? EOF), fst r)) Hok Hl) as (st1 & E1 & [Hok1 Hc1 Hp1] & Hl1).
  destruct (take_until_run fuel (fun c => c =? delim) EmptyString st1 Hok1 Hl1) as (c & st2 & E2 & H2).
  rewrite Hp1 in *. destruct (read_until _ _) as [str l]. simpl in E2, H2.
  pose proof (stopped_eof _ _ _ _ H2) as He. destruct H2 as [Hok2 Hc2 _ Ht].
  destruct l as [| b l]; exists st2; rewrite E1, (bindM_run _ _ _ _ _ E2); simpl; rewrite He.
  - destruct Ht as (_ & Hp & E). split_and!; [done | | done]. constructor; congruence || done.
  - destruct Ht as (_ & _ & Hp & E). split_and!; [done | | done]. constructor; congruence || done.
Qed.

Lemma getline_length delim l : (length (snd (File.getline delim l)) <= length l)%nat.
Proof.
  unfold File.getline. pose proof (read_until_length (fun c => c =? delim) (skip_spaces l)) as H.
  pose proof (skip_spaces_length l). destruct (read_until _ _) as [str [| c s]]; simpl in *; lia.
Qed.

(** [File::getall]: the rounds of its loop. *)
Lemma append_lines_run rounds n fuel str st res l : stream_ok st -> (length (pending st) < fuel)%nat ->
  (n <= rounds)%nat -> getall_loop n (pending st) = Ok (res, l) ->
  exists st', append_lines rounds fuel str (Some st) = Ok ((str +:+ res)%string, Some st') /\ resumed st l st' /\
    at_eof st' = true.
Proof.
  revert rounds str st res. induction n as [| n IH]; intros rounds str st res Hok Hl Hn E; [done |].
  destruct rounds as [| rounds]; [lia |]. cbn [getall_loop append_lines] in *.
  pose proof (getline_run fuel 10 st Hok Hl) as H. pose proof (getline_length 10 (pending st)) as Hlen.
  destruct (File.getline 10 (pending st)) as [[ok tmp] l1]. destruct H as (st1 & E1 & [Hok1 Hc1 Hp1] & He1).
  rewrite (bindM_run _ _ _ _ _ E1). simpl in *. destruct ok.
  - apply rbind_Ok in E as ([str' rest'] & E2 & [= <- <-]). rewrite <- Hp1 in E2.
    destruct (IH rounds (str +:+ (tmp +:+ String (chr 10) EmptyString))%string st1 str' Hok1)
      as (st' & E3 & [Hok3 Hc3 Hp3] & He3); [rewrite Hp1; lia | lia | done |].
    exists st'. split_and!; [| constructor; congruence || done | done].
    rewrite E3. by rewrite !string_app_assoc.
  - injection E as <- <-. exists st1. rewrite string_app_nil. split_and!; [done | by constructor | done].
Qed.

Lemma getall_terminates n l : (length l < n)%nat -> exists str rest, getall_loop n l = Ok (str, rest).
Proof.
  revert l. induction n as [| n IH]; intros l Hl; [lia |]. cbn [getall_loop].
  destruct (File.getline 10 l) as [[[] tmp] l1] eqn:E; [| by eexists _, _].
  apply getline_shorter in E. destruct (IH l1) as (str & rest & ->); [lia |]. by eexists _, _.
Qed.

Lemma getall_run fuel st : stream_ok st -> (length (pending st) < fuel)%nat ->
  exists str l st', File.getall (pending st) = Ok (str, l) /\ getall fuel (Some st) = Ok (str, Some st') /\
    resumed st l st' /\ at_eof st' = true.
Proof.
  intros Hok Hl. destruct (getall_terminates (S (length (pending st))) (pending st)) as (str & l & E); [lia |].
  destruct (append_lines_run fuel (S (length (pending st))) fuel EmptyString st str l Hok Hl ltac:(lia) E) as (st' & E' & H).
  by exists str, l, st'.
Qed.

(** [bread] *)
Lemma bread_run nb st : stream_ok st ->
  let '(bytes, l) := File.bread nb (pending st) in
  exists st', bread nb (Some st) = Ok (bytes, Some st') /\ resumed st l st'.
Proof.
  unfold File.bread, bread, on_stream. intros Hok.
  assert (H : exists st', fread nb st = (take nb (pending st), st') /\ resumed st (drop nb (pending st)) st').
  { revert st Hok. induction nb as [| n IH]; intros st Hok; [by exists st |]. cbn [fread].
    pose proof (fgetc_stopped st Hok) as H. pose proof (stopped_eof _ _ _ _ H) as He.
    destruct (fgetc st) as [c st1]. simpl in *. rewrite He. destruct H as [Hok1 Hc1 Hu1 Ht].
    destruct (pending st) as [| b l] eqn:El.
    - exists st1. split; [done |]. constructor; [done | done | apply Ht].
    - destruct Ht as (-> & _ & Hp & _). destruct (IH st1 Hok1) as (st' & E & [Hok' Hc' Hp']).
      rewrite E, Hp in *. exists st'. split; [done |]. constructor; congruence || done. }
  destruct H as (st' & E & R). rewrite E. by exists st'.
Qed.

(** ** Writing *)




(** ** Properties *)

(** C35: the list of the bytes not read yet is an abstraction of a stream.  The
    loops of [getword], [getline] and [getall] on [getc] and [ungetc], and [bread],
    return on every stream what the functions of [File] return on that list, leave
    the list that these leave and the file as it was; [eof] afterwards says whether
    the end stopped them. *)
Theorem stream_refines fuel st : stream_ok st -> (length (pending st) < fuel)%nat ->
  (let '(ok, str, l) := File.getword (pending st) in
   exists st', getword fuel (Some st) = Ok ((ok, str), Some st') /\ resumed st l st' /\ eof (Some st') = negb ok) /\
  (forall delim, let '(ok, str, l) := File.getline delim (pending st) in
   exists st', getline fuel delim (Some st) = Ok ((ok, str), Some st') /\ resumed st l st' /\ eof (Some st') = negb ok) /\
  (exists str l st', File.getall (pending st) = Ok (str, l) /\ getall fuel (Some st) = Ok (str, Some st') /\
   resumed st l st' /\ eof (Some st') = true) /\
  (forall nb, let '(bytes, l) := File.bread nb (pending st) in
   exists st', bread nb (Some st) = Ok (bytes, Some st') /\ resumed st l st').
Proof.
  intros Hok Hl. split_and!.
  - by apply getword_run.
  - intros delim. by apply getline_run.
  - by apply getall_run.
  - intros nb. by apply bread_run.
Qed.

(** The words of a small text, after a seek over its first byte. *)
Lemma stream_refines_witness : let st := snd (fseek 1 SEEK_CUR (fresh READ [65; 9; 66; 67; 32; 68])) in
  exists st1, getword 10 (Some st) = Ok ((true, String "B" (String "C" EmptyString)), Some st1) /\
    pending st1 = [32; 68] /\ at_eof st1 = false.
Proof.
  intros st. assert (Hok : stream_ok st).
  { constructor; [done | repeat constructor; unfold byte; lia | done | done]. }
  destruct (proj1 (stream_refines 10 st Hok ltac:(vm_compute; lia))) as (st1 & E & R & He).
  exists st1. split; [exact E |]. split; [exact (rs_pending _ _ _ R) | exact He].
Defined.


