(* ===== verification/CmdLine.v ===== *)
(** * Command-line arguments ([emu/util/cmdline.hpp], [emu/util/cmdline.cpp])

    The table of valid arguments, the parser with its warnings, and the usage
    text.  Arguments are C strings: a [std::string_view] of one does not cover
    the terminator, but the code reads it, so [at_char] gives it at the position
    after the last character and faults beyond. *)

From Stdlib Require Import Ascii.
From stdpp Require Import strings.
From S2P Require Import Prelude StringOps Fmt File.
Open Scope Z_scope.

Inductive ParamType := NONE | OPTIONAL | MUST_HAVE.

#[export] Instance ParamType_eq_dec : EqDecision ParamType.
Proof. solve_decision. Defined.

(** [default_validator] *)
Definition default_validator (param : string) : bool := true.

Record Argument := mkArgument {
  short_opt : ascii;
  long_opt : string;
  desc : string;
  paramt : ParamType;
  validator : string -> bool;
}.

(** An [Argument] with the default member initialisers. *)
Definition argument (short_opt : ascii) (long_opt desc : string) : Argument :=
  mkArgument short_opt long_opt desc NONE default_validator.

Record ArgResult := mkArgResult {
  has : gmap ascii bool;
  params : gmap ascii string;
  items : list string;
}.

(** The character at a position of a C string. *)
Fixpoint at_char (s : string) (i : nat) : Res ascii :=
  match s, i with
  | EmptyString, O => Ok "000"%char
  | EmptyString, S _ => Err OutOfBounds
  | String c _, O => Ok c
  | String _ s', S i' => at_char s' i'
  end.

Definition starts_dash (s : string) : bool := match at_char s 0 with Ok "-"%char => true | _ => false end.

(** [is_valid] for a character: the first argument with that short option. *)
Definition is_valid (arg : ascii) (valid_args : list Argument) : option Argument :=
  snd <$> list_find (fun a => short_opt a = arg) valid_args.

(** [is_valid] for a name; nothing calls it. *)
Definition is_valid_long (arg : string) (valid_args : list Argument) : option Argument :=
  snd <$> list_find (fun a => long_opt a = arg) valid_args.

(** The calls of [warning]: the C format string is printed as it is, with its
    [%s], since the formatting library ignores arguments without a field. *)
Definition warn (text : string) : list Output := warning (text +:+ newline).

(** The first loop of [parse]. *)
Definition no_args (valid_args : list Argument) : ArgResult :=
  fold_left (fun res arg => mkArgResult (<[short_opt arg := false]> (has res))
                                        (<[short_opt arg := EmptyString]> (params res)) (items res))
    valid_args (mkArgResult empty empty []).

(** [currarg[1] != '-' && currarg.size() == 2 ? currarg[1] : *(currarg.begin() + 2)] *)
Definition option_char (currarg : string) : Res ascii :=
  let? c := at_char currarg 1 in
  if negb (bool_decide (c = "-"%char)) && (String.length currarg =? 2)%nat then Ok c
  else at_char currarg 2.

(** The second loop of [parse], on what is left of [argv]; the text printed
    comes with the result. *)
Fixpoint parse_loop (valid_args : list Argument) (argv : list string) (res : ArgResult)
    : Res (ArgResult * list Output) :=
  match argv with
  | [] => Ok (res, [])
  | currarg :: rest =>
      if negb (starts_dash currarg) then
        parse_loop valid_args rest (mkArgResult (has res) (params res) (items res ++ [currarg]))
      else
        let? c := option_char currarg in
        let warned text := let? '(res, out) := parse_loop valid_args rest res in Ok (res, warn text ++ out) in
        match is_valid c valid_args with
        | None => warned "%s: not a valid argument"
        | Some arg =>
            if bool_decide (paramt arg = MUST_HAVE)
               && match rest with nextarg :: _ => starts_dash nextarg | [] => true end
            then warned "%s must have a parameter"
            else if default false (has res !! short_opt arg)
            then warned "%s specified multiple times"
            else
              let res := mkArgResult (<[short_opt arg := true]> (has res)) (params res) (items res) in
              match rest with
              | nextarg :: rest' =>
                  if negb (bool_decide (paramt arg = NONE)) && negb (starts_dash nextarg) then
                    if negb (validator arg nextarg) then
                      let? '(res, out) := parse_loop valid_args rest res in
                      Ok (res, warn "%s: %s is not a valid parameter" ++ out)
                    else
                      parse_loop valid_args rest'
                        (mkArgResult (has res) (<[short_opt arg := nextarg]> (params res)) (items res))
                  else parse_loop valid_args rest res
              | [] => parse_loop valid_args rest res
              end
        end
  end.

(** [parse]; [argv] includes the name of the program. *)
Definition parse (argv : list string) (valid_args : list Argument) : Res (ArgResult * list Output) :=
  parse_loop valid_args (tail argv) (no_args valid_args).

(** [print_usage]; the longest option of an empty table does not exist. *)
Definition spaces (n : nat) : string := Nat.iter n (String " ") EmptyString.

Definition print_usage (progname : string) (args : list Argument) : Res string :=
  match args with
  | [] => Err OutOfBounds
  | _ =>
      let max := list_max (map (fun a => String.length (long_opt a)) args) in
      let padding := (max + 4)%nat in
      Ok (fold_left (fun text arg =>
            text +:+ "    -" +:+ char (short_opt arg) +:+ ", --" +:+ long_opt arg
            +:+ spaces (padding - String.length (long_opt arg)) +:+ desc arg +:+ newline) args
          ("Usage: " +:+ progname +:+ " [args...]" +:+ newline +:+ "Valid arguments:" +:+ newline))
  end.

(** [print_version] *)
Definition print_version (progname version : string) : string :=
  progname +:+ ": version " +:+ version +:+ newline.

(** ** What the parser computes *)

Lemma at_char_0 s : exists c, at_char s 0 = Ok c.
Proof. destruct s; simpl; eauto. Qed.

(** Only the argument made of one dash has no character to look at. *)
Lemma option_char_dash s : starts_dash s = true ->
  (option_char s = Err OutOfBounds <-> s = String "-" EmptyString) /\
  (s <> String "-" EmptyString -> exists c, option_char s = Ok c).
Proof.
  unfold option_char. destruct s as [| a [| b [| d s]]]; simpl; try done.
  - intros H. assert (a = "-"%char) as -> by (destruct a as [[] [] [] [] [] [] [] []]; done || vm_compute in H; done).
    split; [done |]. done.
  - intros H. split.
    + split; [| done]. by case_match.
    + intros _. case_match; eauto.
  - intros H. split.
    + split; [| done]. by case_match.
    + intros _. case_match; eauto.
Qed.

(** *** Tables of flags, without parameters *)

Section Flags.
Variable valid_args : list Argument.
Hypothesis flags_only : Forall (fun a => paramt a = NONE) valid_args.

(** The argument selects the option [c]. *)
Definition selects (c : ascii) (s : string) : bool :=
  starts_dash s && match option_char s with
                   | Ok d => bool_decide (d = c)
                   | Err _ => false
                   end.

Lemma is_valid_spec c arg : is_valid c valid_args = Some arg ->
  short_opt arg = c /\ paramt arg = NONE.
Proof.
  unfold is_valid. destruct (list_find _ _) as [[i a] |] eqn:E; [| done]. intros [= <-].
  apply list_find_Some in E as (E1 & E2 & _). split; [done |].
  by eapply Forall_lookup_1 in E1; [| exact flags_only].
Qed.

Lemma is_valid_None c : is_valid c valid_args = None -> forall a, a ∈ valid_args -> short_opt a <> c.
Proof.
  unfold is_valid. destruct (list_find _ _) as [[i a] |] eqn:E; [done |]. intros _.
  apply list_find_None in E. intros a Ha. by eapply Forall_forall in E; [| exact Ha].
Qed.

(** With flags only, the loop never skips an argument: it collects the items and
    sets exactly the options that are selected. *)
Lemma parse_flags argv res : ~ (String "-" EmptyString) ∈ argv ->
  exists res' out, parse_loop valid_args argv res = Ok (res', out) /\
    items res' = items res ++ List.filter (fun s => negb (starts_dash s)) argv /\
    params res' = params res /\
    forall a, a ∈ valid_args -> has res' !! short_opt a =
      (if existsb (selects (short_opt a)) argv then Some true else has res !! short_opt a).
Proof.
  revert res. induction argv as [| s argv IH]; intros res Hd; simpl.
  { exists res, []. rewrite app_nil_r. by split_and!. }
  apply not_elem_of_cons in Hd as [Hs Hd]. destruct (starts_dash s) eqn:Es; simpl.
  - destruct (proj2 (option_char_dash s Es) ltac:(congruence)) as [c Ec].
    rewrite Ec. cbn [rbind].
    assert (Hsel : forall d, selects d s = bool_decide (c = d)) by (intros d; unfold selects; by rewrite Es, Ec).
    destruct (is_valid c valid_args) as [arg |] eqn:Ev.
    + destruct (is_valid_spec _ _ Ev) as [Eo En]. rewrite En, (bool_decide_eq_false_2 (NONE = MUST_HAVE)) by done.
      rewrite (bool_decide_eq_true_2 (NONE = NONE)) by done. cbn [andb negb].
      destruct (default false (has res !! short_opt arg)) eqn:Eh.
      * destruct (IH res Hd) as (res' & out & -> & Hi & Hp & Hh). cbn [rbind]. do 2 eexists.
        split; [reflexivity |]. split_and!; [done | done |]. intros a Ha. rewrite (Hh a Ha), Hsel.
        destruct (existsb _ argv); [by rewrite orb_true_r |]. case_bool_decide as Ecd; [| done].
        rewrite <- Ecd, <- Eo. simpl. destruct (has res !! short_opt arg) as [[] |]; done.
      * destruct (IH (mkArgResult (<[short_opt arg := true]> (has res)) (params res) (items res)) Hd)
          as (res' & out & E & Hi & Hp & Hh).
        replace (match argv with [] => _ | _ => _ end) with (Ok (res', out)) by (by destruct argv).
        do 2 eexists. split; [reflexivity |]. split_and!; [done | done |].
        intros a Ha. rewrite (Hh a Ha), Hsel. destruct (existsb _ argv); [by rewrite orb_true_r |].
        simpl. case_bool_decide as Ecd; simpl.
        -- rewrite <- Ecd, <- Eo. by rewrite lookup_insert_eq.
        -- rewrite lookup_insert_ne by congruence. done.
    + destruct (IH res Hd) as (res' & out & -> & Hi & Hp & Hh). cbn [rbind]. do 2 eexists.
      split; [reflexivity |]. split_and!; [done | done |]. intros a Ha. rewrite (Hh a Ha), Hsel.
      destruct (existsb _ argv); [by rewrite orb_true_r |].
      rewrite bool_decide_eq_false_2; [done |]. intros ->. by eapply is_valid_None.
  - destruct (IH (mkArgResult (has res) (params res) (items res ++ [s])) Hd) as (res' & out & -> & Hi & Hp & Hh).
    exists res', out. split; [done |]. split_and!; [rewrite Hi; cbn [items]; by rewrite <- app_assoc | done |].
    intros a Ha. rewrite (Hh a Ha). unfold selects at 2. rewrite Es. done.
Qed.

(** A dash alone is looked at past its end, whatever comes before it. *)
Lemma parse_dash argv res : (String "-" EmptyString) ∈ argv -> parse_loop valid_args argv res = Err OutOfBounds.
Proof.
  revert res. induction argv as [| s argv IH]; intros res Hd; [by apply elem_of_nil in Hd |]. cbn [parse_loop].
  destruct (decide (s = String "-" EmptyString)) as [-> | Hs]; [done |].
  assert (IH' : forall res, parse_loop valid_args argv res = Err OutOfBounds).
  { intros r. apply IH. apply elem_of_cons in Hd as [<- |]; done. }
  destruct (starts_dash s) eqn:Es; cbn [negb]; [| apply IH'].
  destruct (proj2 (option_char_dash s Es) Hs) as [c ->]. cbn [rbind].
  destruct (is_valid c valid_args) as [arg |] eqn:Ev; [| by rewrite IH'].
  destruct (is_valid_spec _ _ Ev) as [_ En]. rewrite En, (bool_decide_eq_false_2 (NONE = MUST_HAVE)) by done.
  rewrite (bool_decide_eq_true_2 (NONE = NONE)) by done. cbn [andb negb].
  destruct (default false _); [by rewrite IH' |]. destruct argv; apply IH'.
Qed.
End Flags.

(** *** Parameters *)

Section Params.
Variable valid_args : list Argument.

(** Every parameter stored was accepted by the validator of its option, and is
    one of the given arguments, without a dash. *)
Definition params_ok (argv : list string) (res : ArgResult) : Prop :=
  forall c p, params res !! c = Some p -> p = EmptyString \/
    (exists a, is_valid c valid_args = Some a /\ validator a p = true) /\
    p ∈ argv /\ starts_dash p = false.

Lemma is_valid_self c a : is_valid c valid_args = Some a -> short_opt a = c.
Proof.
  unfold is_valid. destruct (list_find _ _) as [[i b] |] eqn:E; [| done]. intros [= <-].
  by apply list_find_Some in E as (_ & E2 & _).
Qed.

(** Whatever the arguments, if the loop returns it stored validated parameters. *)
Lemma parse_params all argv : (forall s, s ∈ argv -> s ∈ all) ->
  forall res res' out, params_ok all res -> parse_loop valid_args argv res = Ok (res', out) -> params_ok all res'.
Proof.
  induction argv as [argv IH] using (induction_ltof1 _ (@length string)). unfold ltof in IH.
  intros Hall res res' out H0 H. destruct argv as [| s argv]; cbn [parse_loop] in H; [by injection H as <- _ |].
  assert (Ha : forall t, t ∈ argv -> t ∈ all) by (intros t Ht; apply Hall; by right).
  pose proof (IH argv ltac:(simpl; lia) Ha) as IH1.
  assert (Hw : forall res1 text, params_ok all res1 ->
    (let? '(r, o) := parse_loop valid_args argv res1 in Ok (r, warn text ++ o)) = Ok (res', out) -> params_ok all res').
  { intros res1 text H1 ([r o] & E & [= <- _])%rbind_Ok. by eapply IH1. }
  destruct (starts_dash s); cbn [negb] in H; [| eapply IH1; [| exact H]; exact H0].
  apply rbind_Ok in H as (c & _ & H).
  destruct (is_valid c valid_args) as [arg |] eqn:Ev; [| eapply Hw; [exact H0 | exact H]].
  destruct (_ && _); [eapply Hw; [exact H0 | exact H] |].
  destruct (default false _); [eapply Hw; [exact H0 | exact H] |].
  assert (H1 : params_ok all (mkArgResult (<[short_opt arg := true]> (has res)) (params res) (items res)))
    by exact H0.
  destruct argv as [| p rest]; [eapply IH1; [exact H1 | exact H] |].
  destruct (negb (bool_decide (paramt arg = NONE)) && negb (starts_dash p)) eqn:Ep; [| eapply IH1; [exact H1 | exact H]].
  destruct (validator arg p) eqn:Evp; cbn [negb] in H;
    [| exact (Hw _ "%s: %s is not a valid parameter"%string H1 H)].
  eapply (IH rest); [simpl; lia | intros t Ht; apply Ha; by right | | exact H].
  intros d q. cbn [params]. destruct (decide (short_opt arg = d)) as [<- | Hn].
  - rewrite lookup_insert_eq. intros [= <-]. right. bool_hyps.
    rewrite (is_valid_self _ _ Ev). split_and!; [by exists arg | apply Ha; by left | done].
  - rewrite lookup_insert_ne by done. apply H0.
Qed.

Lemma no_args_params : forall c p, params (no_args valid_args) !! c = Some p -> p = EmptyString.
Proof.
  unfold no_args. assert (H0 : forall c p, params (mkArgResult empty empty []) !! c = Some p -> p = EmptyString) by done.
  revert H0. generalize (mkArgResult empty empty []). induction valid_args as [| a l IH]; intros res H0; simpl; [done |].
  apply IH. intros c p. cbn [params]. destruct (decide (short_opt a = c)) as [<- |].
  - rewrite lookup_insert_eq. by intros [= <-].
  - rewrite lookup_insert_ne by done. apply H0.
Qed.
End Params.

Lemma no_args_has valid_args a : a ∈ valid_args -> has (no_args valid_args) !! short_opt a = Some false.
Proof.
  unfold no_args. intros Ha.
  assert (G : forall l res, a ∈ l \/ has res !! short_opt a = Some false ->
    has (fold_left (fun res arg => mkArgResult (<[short_opt arg := false]> (has res))
      (<[short_opt arg := EmptyString]> (params res)) (items res)) l res) !! short_opt a = Some false).
  { induction l as [| b l IH]; intros res [H | H]; simpl; [by apply elem_of_nil in H | done | |].
    - apply IH. apply elem_of_cons in H as [-> | H]; [right; cbn [has]; by rewrite lookup_insert_eq | by left].
    - apply IH. right. cbn [has]. destruct (decide (short_opt b = short_opt a)) as [-> |];
        [by rewrite lookup_insert_eq | by rewrite lookup_insert_ne]. }
  apply G. by left.
Qed.

Lemma no_args_items valid_args : items (no_args valid_args) = [].
Proof.
  unfold no_args. assert (H0 : items (mkArgResult empty empty []) = []) by done.
  revert H0. generalize (mkArgResult empty empty []). induction valid_args as [| a l IH]; intros res H0; simpl; [done |].
  by apply IH.
Qed.
