(* ===== verification/Settings.v ===== *)
(** * Settings files ([emu/util/settings.hpp], [emu/util/settings.cpp])

    Lines [key=value] are collected into a map; each setting that the program
    declares gets the value of its key, if that has the declared type, or its
    default.  The C functions [strtol] and [std::stoi] are defined here as far as
    their callers use them. *)

From Stdlib Require Import Ascii.
From stdpp Require Import strings.
From S2P Require Import Prelude StringOps Fmt File.
Open Scope Z_scope.

(** [std::variant<bool, std::string, int>] *)
Inductive Setting := SBool (b : bool) | SString (s : string) | SInt (z : Z).

Inductive SettingType := SETTINGTYPE_BOOL | SETTINGTYPE_STRING | SETTINGTYPE_NUMBER.

#[export] Instance SettingType_eq_dec : EqDecision SettingType.
Proof. solve_decision. Defined.

(** [Setting::index], as the enumerator with that number. *)
Definition index (s : Setting) : SettingType :=
  match s with
  | SBool _ => SETTINGTYPE_BOOL | SString _ => SETTINGTYPE_STRING | SInt _ => SETTINGTYPE_NUMBER
  end.

Record ValidSetting := mkValid { key : string; type : SettingType; def : Setting }.

(** [getstr], [getbool], [getnum]: [std::get] throws on another type. *)
Definition getstr (v : Setting) : Res string := match v with SString s => Ok s | _ => Err Uncaught end.
Definition getbool (v : Setting) : Res bool := match v with SBool b => Ok b | _ => Err Uncaught end.
Definition getnum (v : Setting) : Res Z := match v with SInt z => Ok z | _ => Err Uncaught end.

(** ** Numbers *)

(** [s.c_str()]: the string ends at its first null character. *)
Fixpoint c_str (s : string) : string :=
  match s with
  | EmptyString => EmptyString
  | String c s' => if decide (c = "000"%char) then EmptyString else String c (c_str s')
  end.

Definition isdigit (c : ascii) : bool := match digit_in 10 c with Some _ => true | None => false end.
Definition is_sign (c : ascii) : bool := bool_decide (c = "+"%char) || bool_decide (c = "-"%char).

(** The digits of [strtol] after the sign: base 0 looks at the prefix. *)
Definition strtol_digits (base : Z) (s : string) : Z * bool * string :=
  if base =? 0 then
    match s with
    | String "0" (String x (String d s')) =>
        if (bool_decide (x = "x"%char) || bool_decide (x = "X"%char))
           && match digit_in 16 d with Some _ => true | None => false end
        then scan_digits 16 (String d s') 0
        else scan_digits 8 s 0
    | String "0" _ => scan_digits 8 s 0
    | _ => scan_digits 10 s 0
    end
  else scan_digits base s 0.

(** [strtol], for a string that does not start with white space: the value before
    it is clamped to [long], and where the conversion stopped; [None] if there
    was nothing to convert. *)
Definition strtol (base : Z) (s : string) : option (Z * string) :=
  let '(minus, body) :=
    match s with
    | String c s' => if is_sign c then (bool_decide (c = "-"%char), s') else (false, s)
    | EmptyString => (false, s)
    end in
  let '(v, some_digit, rest) := strtol_digits base body in
  if some_digit : bool then Some (if minus : bool then - v else v, rest) else None.

Definition is_int (s : string) : bool :=
  match s with
  | EmptyString => false
  | String c _ =>
      if negb (isdigit c) && negb (is_sign c) then false
      else match strtol 0 (c_str s) with
           | Some (_, EmptyString) => true
           | _ => false
           end
  end.

(** [std::stoi]: base 10; what does not fit an [int] is thrown. *)
Definition stoi (s : string) : Res Z :=
  match strtol 10 (c_str s) with
  | Some (v, _) => if (- 2 ^ 31 <=? v) && (v <? 2 ^ 31) then Ok v else Err Uncaught
  | None => Err Uncaught
  end.

Definition parse_value (s : string) : Res Setting :=
  if decide (s = "true"%string) then Ok (SBool true)
  else if decide (s = "false"%string) then Ok (SBool false)
  else if is_int s then let? z := stoi s in Ok (SInt z)
  else Ok (SString s).

(** ** [parse_conf] *)

Definition Warnings : Type := list Output.

(** The calls of [warning]: the C format string is printed as it is, with its
    [%s]. *)
Definition warn (text : string) : Warnings := warning (text +:+ newline).

Definition is_comment (line : string) : bool :=
  match line with String c _ => bool_decide (c = "#"%char) | EmptyString => true end.

(** What one line does to [kvmap]. *)
Definition parse_line (line : string) (kv : gmap string string) : Res (gmap string string * Warnings) :=
  if is_comment line then Ok (kv, [])
  else
    let? vs := strsplit line "=" in
    match vs with
    | [k; v] => Ok (<[k := v]> kv, [])
    | _ => Ok (kv, warn "not a key value pair: %s")
    end.

(** [for (std::string line; f.getline(line); )]; every line read takes at least
    its end off the file. *)
Fixpoint parse_lines (fuel : nat) (s : list Z) (kv : gmap string string)
    : Res (gmap string string * list Z * Warnings) :=
  match fuel with
  | O => Err OutOfFuel
  | S n =>
      let '(got, line, s) := getline 10 s in
      if negb got then Ok (kv, s, [])
      else
        let? '(kv, w1) := parse_line line kv in
        let? '(kv, s, w2) := parse_lines n s kv in
        Ok (kv, s, w1 ++ w2)
  end.

(** The second loop: the setting that one declaration gets. *)
Definition choose (kv : gmap string string) (setting : ValidSetting) : Res (Setting * Warnings) :=
  match kv !! key setting with
  | None => Ok (def setting, warn "key %s not found, using default")
  | Some text =>
      let? value := parse_value text in
      if decide (index value = type setting) then Ok (value, [])
      else Ok (def setting, warn "invalid type for key %s, using default")
  end.

Fixpoint choose_all (kv : gmap string string) (valid_settings : list ValidSetting) (smap : gmap string Setting)
    : Res (gmap string Setting * Warnings) :=
  match valid_settings with
  | [] => Ok (smap, [])
  | setting :: rest =>
      let? '(value, w1) := choose kv setting in
      let? '(smap, w2) := choose_all kv rest (<[key setting := value]> smap) in
      Ok (smap, w1 ++ w2)
  end.

Definition parse_conf (s : list Z) (valid_settings : list ValidSetting)
    : Res (gmap string Setting * list Z * Warnings) :=
  let? '(kv, s, w1) := parse_lines (S (length s)) s empty in
  let? '(smap, w2) := choose_all kv valid_settings empty in
  Ok (smap, s, w1 ++ w2).

(** ** Facts *)

Lemma parse_line_total line kv : exists kv' w, parse_line line kv = Ok (kv', w).
Proof.
  unfold parse_line. destruct (is_comment line); [eauto |]. rewrite strsplit_split_on. cbn [rbind].
  destruct (split_on "=" line) as [| a [| b [| c l]]]; eauto.
Qed.

(** The first loop always ends, and never faults. *)
Lemma parse_lines_total n s kv : (length s < n)%nat -> exists kv' s' w, parse_lines n s kv = Ok (kv', s', w).
Proof.
  revert s kv. induction n as [| n IH]; intros s kv Hn; simpl; [lia |].
  destruct (getline 10 s) as [[got line] s1] eqn:E. destruct got; simpl; [| eauto].
  apply getline_shorter in E. destruct (parse_line_total line kv) as (kv1 & w1 & ->). cbn [rbind].
  destruct (IH s1 kv1) as (kv2 & s2 & w2 & ->); [lia |]. cbn [rbind]. eauto.
Qed.

(** The value that a setting is given, if its text is within [int]. *)
Definition chosen (kv : gmap string string) (setting : ValidSetting) : Setting :=
  match kv !! key setting with
  | Some text => match parse_value text with
                 | Ok value => if decide (index value = type setting) then value else def setting
                 | Err _ => def setting
                 end
  | None => def setting
  end.

(** The text of a key is a number that [std::stoi] throws at. *)
Definition overlong (kv : gmap string string) (setting : ValidSetting) : Prop :=
  exists text, kv !! key setting = Some text /\ parse_value text = Err Uncaught.

Lemma parse_value_fault text f : parse_value text = Err f -> f = Uncaught.
Proof.
  unfold parse_value, stoi. repeat case_decide; try done. destruct (is_int text); [| done].
  destruct (strtol 10 (c_str text)) as [[v rest] |]; simpl; [| congruence]. case_match; simpl; congruence.
Qed.

Lemma choose_spec kv setting :
  (exists w, choose kv setting = Ok (chosen kv setting, w)) \/
  (choose kv setting = Err Uncaught /\ overlong kv setting).
Proof.
  unfold choose, chosen, overlong. destruct (kv !! key setting) as [text |]; [| left; eauto].
  destruct (parse_value text) as [v | f] eqn:E; cbn [rbind].
  - left. case_decide; eauto.
  - right. pose proof (parse_value_fault _ _ E) as ->. split; [done |]. by exists text.
Qed.

Lemma chosen_typed kv setting : index (def setting) = type setting -> index (chosen kv setting) = type setting.
Proof. intros H. unfold chosen. repeat case_match; done. Qed.

Lemma choose_all_spec kv l smap : NoDup (key <$> l) ->
  (exists smap' w, choose_all kv l smap = Ok (smap', w) /\
     (forall v, v ∈ l -> smap' !! key v = Some (chosen kv v)) /\
     (forall k, k ∉ key <$> l -> smap' !! k = smap !! k)) \/
  (choose_all kv l smap = Err Uncaught /\ exists v, v ∈ l /\ overlong kv v).
Proof.
  revert smap. induction l as [| v l IH]; intros smap Hd; simpl.
  { left. exists smap, []. split_and!; try done. intros v Hv. by apply elem_of_nil in Hv. }
  apply NoDup_cons in Hd as [Hv Hd].
  destruct (choose_spec kv v) as [[w1 ->] | [-> Ho]]; cbn [rbind].
  - destruct (IH (<[key v := chosen kv v]> smap) Hd) as [(smap' & w2 & -> & H1 & H2) | [-> (v' & Hv' & Ho)]]; cbn [rbind].
    + left. do 2 eexists. split; [reflexivity |]. split.
      * intros v' [-> | Hv']%elem_of_cons; [| by apply H1]. rewrite H2 by done. apply lookup_insert_eq.
      * intros k Hk. apply not_elem_of_cons in Hk as [Hk1 Hk2]. rewrite H2 by done. by apply lookup_insert_ne.
    + right. split; [done |]. exists v'. split; [by right | done].
  - right. split; [done |]. exists v. split; [by left | done].
Qed.

(** ** Files of settings *)

(** A key and a value as they can be written on a line. *)
Definition writable (kv : string * string) : Prop :=
  let '(k, v) := kv in
  lacks "=" k = true /\ lacks "=" v = true /\ v <> EmptyString /\
  all_chars (fun x => negb (byte_of x =? 10)) (k +:+ "=" +:+ v) = true /\
  match k with String a _ => is_space (byte_of a) = false /\ a <> "#"%char | EmptyString => True end.

Definition conf_line (kv : string * string) : string := fst kv +:+ String "=" (snd kv).

Definition conf_file (kvs : list (string * string)) : list Z :=
  flat_map (fun kv => bytes_of (conf_line kv) ++ [10]) kvs.

(** The map of the last values. *)
Definition conf_map (kvs : list (string * string)) (kv : gmap string string) : gmap string string :=
  fold_left (fun m '(k, v) => <[k := v]> m) kvs kv.

Lemma parse_conf_line kv m : writable kv -> parse_line (conf_line kv) m = Ok (<[fst kv := snd kv]> m, []).
Proof.
  destruct kv as [k v]. intros (Hk & Hv & Hne & _ & Hc). cbn [fst snd]. unfold parse_line, conf_line.
  assert (Hcom : is_comment (fst (k, v) +:+ String "=" (snd (k, v))) = false).
  { destruct k as [| a k]; simpl; [done |]. apply bool_decide_eq_false_2, Hc. }
  rewrite Hcom, strsplit_split_on. cbn [fst snd rbind].
  change (k +:+ String "=" v) with (join "=" [k; v]). rewrite split_join; [done | |].
  - by repeat constructor.
  - simpl. congruence.
Qed.

Lemma parse_lines_file kvs n m : Forall writable kvs -> (length kvs < n)%nat ->
  parse_lines n (conf_file kvs) m = Ok (conf_map kvs m, [], []).
Proof.
  intros Hw. revert n m. induction Hw as [| [k v] kvs H _ IH]; intros n m Hn;
    (destruct n as [| n]; [simpl in Hn; lia |]); [done |].
  cbn [parse_lines conf_file flat_map]. rewrite <- app_assoc.
  assert (E : exists a s, conf_line (k, v) = String a s /\ is_space (byte_of a) = false).
  { destruct H as (_ & _ & _ & _ & Hc). destruct k as [| a k]; [by exists "="%char, v |].
    exists a, (k +:+ String "=" v). split; [done | apply Hc]. }
  destruct E as (a & s & E & Hs). assert (Hch : all_chars (fun x => negb (byte_of x =? 10)) (String a s) = true)
    by (rewrite <- E; apply H).
  rewrite E at 1. change ([10] ++ ?l) with (10 :: l). rewrite getline_bytes by done. cbn [negb].
  rewrite <- E, parse_conf_line by done. cbn [rbind fst snd]. fold (conf_file kvs).
  rewrite IH by (simpl in Hn; lia). done.
Qed.

Lemma conf_file_length kvs : (length kvs <= length (conf_file kvs))%nat.
Proof. induction kvs as [| kv kvs IH]; simpl; [lia |]. rewrite !length_app. simpl. fold (conf_file kvs). lia. Qed.
