(* ===== verification/Cartridge.v ===== *)
(** * Cartridges ([emu/core/cartridge.hpp], [emu/core/cartridge.cpp])

    The iNES parser and the ROM accesses.  The two ROM arrays are
    [Util::HeapArray]s; the header and the trainer are members of a static
    object, so they start zeroed and a short read leaves their old bytes. *)

From stdpp Require Import strings.
From S2P Require Import Prelude HeapArray StringOps Fmt File.
Open Scope Z_scope.

Definition HEADER_LEN : nat := 16.
Definition TRAINER_LEN : nat := 512.

(** [enum class Mirroring] of [const.hpp] *)
Inductive Mirroring := VERT | HORZ | OTHER.

#[export] Instance Mirroring_eq_dec : EqDecision Mirroring.
Proof. solve_decision. Defined.

Record Cartridge := mkCartridge {
  name : string; format : string;
  prgrom : HeapArray; chrrom : HeapArray;
  header : HeapArray; trainer : HeapArray;
  mapper : Z; submapper : Z; prgram_size : Z; chrram_size : Z;
  nt_mirroring : Mirroring;
  has_prgram : bool; has_chrram : bool; has_battery : bool; has_trainer : bool;
}.

Definition init_cartridge : Cartridge :=
  mkCartridge EmptyString EmptyString empty_array empty_array
    (static_array (Z.of_nat HEADER_LEN)) (static_array (Z.of_nat TRAINER_LEN))
    0 0 0 0 VERT false false false false.

(** [header[i]] for a constant index. *)
Definition hdr (c : Cartridge) (i : Z) : Z := cell (header c) i.

(** [bread(arr, nb)] into an array: the bytes that there are, from element 0. *)
Definition bread_into (a : HeapArray) (nb : nat) (s : list Z) : Res (HeapArray * list Z) :=
  let '(bytes, s') := bread nb s in
  let? a' := init_from 0 bytes a in Ok (a', s').

Definition with_name n c := mkCartridge n (format c) (prgrom c) (chrrom c) (header c) (trainer c)
  (mapper c) (submapper c) (prgram_size c) (chrram_size c) (nt_mirroring c)
  (has_prgram c) (has_chrram c) (has_battery c) (has_trainer c).
Definition with_format f c := mkCartridge (name c) f (prgrom c) (chrrom c) (header c) (trainer c)
  (mapper c) (submapper c) (prgram_size c) (chrram_size c) (nt_mirroring c)
  (has_prgram c) (has_chrram c) (has_battery c) (has_trainer c).
Definition with_header h c := mkCartridge (name c) (format c) (prgrom c) (chrrom c) h (trainer c)
  (mapper c) (submapper c) (prgram_size c) (chrram_size c) (nt_mirroring c)
  (has_prgram c) (has_chrram c) (has_battery c) (has_trainer c).
Definition with_trainer t c := mkCartridge (name c) (format c) (prgrom c) (chrrom c) (header c) t
  (mapper c) (submapper c) (prgram_size c) (chrram_size c) (nt_mirroring c)
  (has_prgram c) (has_chrram c) (has_battery c) (has_trainer c).
Definition with_prgrom p c := mkCartridge (name c) (format c) p (chrrom c) (header c) (trainer c)
  (mapper c) (submapper c) (prgram_size c) (chrram_size c) (nt_mirroring c)
  (has_prgram c) (has_chrram c) (has_battery c) (has_trainer c).
Definition with_chrrom p c := mkCartridge (name c) (format c) (prgrom c) p (header c) (trainer c)
  (mapper c) (submapper c) (prgram_size c) (chrram_size c) (nt_mirroring c)
  (has_prgram c) (has_chrram c) (has_battery c) (has_trainer c).

(** [parse_common] *)
Definition parse_common (c : Cartridge) : Cartridge :=
  mkCartridge (name c) (format c) (prgrom c) (chrrom c) (header c) (trainer c)
    (Z.lor (Z.shiftr (Z.land (hdr c 6) 0xF0) 4) (Z.land (hdr c 7) 0xF0))
    (submapper c) (prgram_size c) (chrram_size c)
    (if Z.land (hdr c 6) 1 =? 0 then HORZ else VERT)
    (has_prgram c) (has_chrram c)
    (tobool (Z.land (hdr c 6) 2)) (tobool (Z.land (hdr c 6) 4)).

(** [parse_ines]: [has.chrram] is only ever set. *)
Definition parse_ines (c : Cartridge) : Cartridge :=
  mkCartridge (name c) (format c) (prgrom c) (chrrom c) (header c) (trainer c)
    (mapper c) (submapper c) (hdr c 8) (chrram_size c) (nt_mirroring c)
    (tobool (Z.land (hdr c 10) 0x10))
    (if hdr c 5 =? 0 then true else has_chrram c) (has_battery c) (has_trainer c).

(** The header starts with "NES" and $1A, and is not marked NES 2.0. *)
Definition magic_ok (c : Cartridge) : bool :=
  (hdr c 0 =? 78) && (hdr c 1 =? 69) && (hdr c 2 =? 83) && (hdr c 3 =? 0x1A).
Definition is_nes20 (c : Cartridge) : bool := Z.land (hdr c 7) 0xC =? 0x8.

(** The three conditional reads of [parse]; [fr] is the content of a new
    allocation. *)
Definition load_trainer (c : Cartridge) (s : list Z) : Res (Cartridge * list Z) :=
  if has_trainer c
  then let? '(t, s') := bread_into (trainer c) TRAINER_LEN s in Ok (with_trainer t c, s')
  else Ok (c, s).

Definition load_prgrom (fr : Z -> Z) (c : Cartridge) (s : list Z) : Res (Cartridge * list Z) :=
  if negb (has_prgram c)
  then let n := hdr c 4 * 16384 in
       let? '(p, s') := bread_into (reset fr n) (Z.to_nat n) s in Ok (with_prgrom p c, s')
  else Ok (c, s).

Definition load_chrrom (fr : Z -> Z) (c : Cartridge) (s : list Z) : Res (Cartridge * list Z) :=
  if negb (has_chrram c)
  then let n := hdr c 5 * 8192 in
       let? '(p, s') := bread_into (reset fr n) (Z.to_nat n) s in Ok (with_chrrom p c, s')
  else Ok (c, s).

(** [Cartridge::getinfo] *)
Definition getinfo `{F : Fmt} (c : Cartridge) : string :=
  name c +:+ ": " +:+ format c +:+ ", mapper " +:+ fmt_dec (mapper c) +:+ ", "
  +:+ fmt_dec (hdr c 4) +:+ "x16k PRG ROM, " +:+ fmt_dec (hdr c 5) +:+ "x8k CHR ROM, "
  +:+ fmt_dec (if has_prgram c then prgram_size c else 0) +:+ " PRG RAM, "
  +:+ fmt_dec (if has_chrram c then chrram_size c else 0) +:+ " CHR RAM, "
  +:+ (if decide (nt_mirroring c = HORZ) then "H" else "V") +:+ "-Mirror"
  +:+ (if has_battery c then ", contains SRAM" else EmptyString)
  +:+ (if has_trainer c then ", contains Trainer" else EmptyString).

(** [Cartridge::parse] on the bytes of an open file. *)
Definition parse_bytes (fr : Z -> Z) (c : Cartridge) (s : list Z) : Res (bool * Cartridge * list Z) :=
  let? '(h, s) := bread_into (header c) HEADER_LEN s in
  let c := with_header h c in
  if negb (magic_ok c) then Ok (false, c, s)
  else if is_nes20 c then Ok (false, c, s)
  else
    let c := parse_ines (parse_common (with_format "iNES" c)) in
    let? '(c, s) := load_trainer c s in
    let? '(c, s) := load_prgrom fr c s in
    let? '(c, s) := load_chrrom fr c s in
    Ok (true, c, s).

Definition parse (fr : Z -> Z) (c : Cartridge) (romfile : File) : Res (bool * Cartridge * File) :=
  match filbuf romfile with
  | None => Ok (false, c, romfile)
  | Some f =>
      let? '(ok, c, s) := parse_bytes fr (with_name (filname romfile) c) (rest f) in
      Ok (ok, c, mkFile (Some (mkFILE (is_std f) s)) (filname romfile) (errstr romfile))
  end.

(** [Cartridge::read_prgrom]: the last 32 KiB of the ROM, in [uint16]. *)
Definition read_prgrom (c : Cartridge) (addr : Z) : Res Z :=
  let offset := u16 (addr - 0x8000) in
  let start := u16 (size (prgrom c) - 0x8000) in
  let eff_addr := u16 (start + offset) in
  get (prgrom c) eff_addr.

(** [Cartridge::read_chrrom] *)
Definition read_chrrom (c : Cartridge) (addr : Z) : Res Z := get (chrrom c) addr.

(** The accessors. *)
Definition mappertype (c : Cartridge) : Z := mapper c.
Definition hasprgram (c : Cartridge) : bool := has_prgram c.
Definition haschrram (c : Cartridge) : bool := has_chrram c.
Definition mirroring (c : Cartridge) : Mirroring := nt_mirroring c.

(** ** Reading a ROM image *)

Lemma bread_into_spec a nb s : Z.of_nat nb <= len a ->
  exists a', bread_into a nb s = Ok (a', drop nb s) /\ len a' = len a /\
    forall j, 0 <= j -> cell a' j = match take nb s !! Z.to_nat j with Some v => v | None => cell a j end.
Proof.
  intros Hn. unfold bread_into, bread. simpl.
  destruct (init_from_spec (take nb s) 0 a) as (a' & E & Hl & Hc).
  - lia.
  - rewrite length_take. lia.
  - rewrite E. simpl. exists a'. split_and!; [done | done |]. intros j Hj. rewrite Hc.
    zdecide_true (0 <=? j). by rewrite Z.sub_0_r.
Qed.

(** A file that holds at least the bytes asked for. *)
Lemma bread_into_app a l s : Z.of_nat (length l) <= len a ->
  exists a', bread_into a (length l) (l ++ s) = Ok (a', s) /\ len a' = len a /\
    forall j v, 0 <= j -> l !! Z.to_nat j = Some v -> cell a' j = v.
Proof.
  intros Hn. destruct (bread_into_spec a (length l) (l ++ s) Hn) as (a' & E & Hl & Hc).
  rewrite take_app_length, drop_app_length in *. exists a'. split_and!; [done | done |].
  intros j v Hj Hv. by rewrite Hc, Hv.
Qed.

(** *** The iNES format, as a reference encoder *)

Record Image := mkImage {
  im_prg : list Z;      (** PRG ROM, whole 16 KiB banks *)
  im_chr : list Z;      (** CHR ROM, whole 8 KiB banks *)
  im_prg_banks : Z; im_chr_banks : Z;
  im_mapper : Z; im_vert : bool; im_battery : bool; im_prgram_size : Z;
  im_trainer : option (list Z);
}.

Record image_ok (im : Image) : Prop := {
  io_prg : length (im_prg im) = Z.to_nat (im_prg_banks im * 16384);
  io_chr : length (im_chr im) = Z.to_nat (im_chr_banks im * 8192);
  io_prg_banks : byte (im_prg_banks im);
  io_chr_banks : 1 <= im_chr_banks im < 256;
  io_mapper : byte (im_mapper im);
  io_prgram : byte (im_prgram_size im);
  io_trainer : forall t, im_trainer im = Some t -> length t = TRAINER_LEN;
}.

Definition has_tr (im : Image) : bool := match im_trainer im with Some _ => true | None => false end.

(** Byte 6: mirroring, battery and trainer, low half of the mapper number; byte
    7: high half of the mapper number, version 1. *)
Definition flags6 (im : Image) : Z :=
  (im_mapper im mod 16) * 16 + Z.b2z (has_tr im) * 4 + Z.b2z (im_battery im) * 2 + Z.b2z (im_vert im).
Definition flags7 (im : Image) : Z := (im_mapper im / 16) * 16.

Definition ines_header (im : Image) : list Z :=
  [78; 69; 83; 0x1A; im_prg_banks im; im_chr_banks im; flags6 im; flags7 im; im_prgram_size im;
   0; 0; 0; 0; 0; 0; 0].

Definition ines_file (im : Image) : list Z :=
  ines_header im ++ default [] (im_trainer im) ++ im_prg im ++ im_chr im.

Lemma land_mapper m k : byte m -> 0 <= k < 16 ->
  Z.shiftr (Z.land (m mod 16 * 16 + k) 0xF0) 4 = m mod 16.
Proof.
  intros Hm Hk. apply Z.bits_inj'. intros i Hi.
  rewrite Z.shiftr_spec, Z.land_spec by done. change 0xF0 with (Z.shiftl (Z.ones 4) 4).
  rewrite Z.shiftl_spec by lia. replace (i + 4 - 4) with i by lia.
  rewrite Z.testbit_ones_nonneg by lia.
  replace (m mod 16 * 16 + k) with (Z.lor k (Z.shiftl (m mod 16) 4)) by (rewrite lor_shiftl; lia).
  rewrite Z.lor_spec, Z.shiftl_spec, (testbit_above k 4) by lia. simpl.
  replace (i + 4 - 4) with i by lia. destruct (Z.ltb_spec i 4); [apply andb_true_r |].
  rewrite (testbit_above (m mod 16) 4 i); [done | | lia | lia].
  change (2 ^ 4) with 16. apply Z.mod_pos_bound. lia.
Qed.

Lemma mapper_bits im : byte (im_mapper im) ->
  Z.lor (Z.shiftr (Z.land (flags6 im) 0xF0) 4) (Z.land (flags7 im) 0xF0) = im_mapper im.
Proof.
  intros Hm. unfold flags6. rewrite <- !Z.add_assoc.
  rewrite land_mapper by (try done; destruct (has_tr im), (im_battery im), (im_vert im); simpl; lia).
  assert (E : Z.land (flags7 im) 0xF0 = Z.shiftl (im_mapper im / 16) 4).
  { unfold flags7. rewrite Z.shiftl_mul_pow2 by lia. change (2 ^ 4) with 16.
    apply Z.bits_inj'. intros i Hi. rewrite Z.land_spec. change 0xF0 with (Z.shiftl (Z.ones 4) 4).
    change 16 with (2 ^ 4). rewrite <- Z.shiftl_mul_pow2 by lia. rewrite !Z.shiftl_spec by done.
    destruct (Z.lt_ge_cases i 4); [by rewrite !(Z.testbit_neg_r _ (i - 4)) by lia |].
    rewrite Z.testbit_ones_nonneg by lia. destruct (Z.ltb_spec (i - 4) 4); [apply andb_true_r |].
    rewrite (testbit_above (im_mapper im / 2 ^ 4) 4); [done | | lia | lia].
    change (2 ^ 4) with 16. dlia. }
  rewrite E, lor_shiftl by (change (2 ^ 4) with 16; dlia). change (2 ^ 4) with 16. dlia.
Qed.

Lemma flags6_bits im : byte (im_mapper im) ->
  (Z.land (flags6 im) 1 =? 0) = negb (im_vert im) /\
  tobool (Z.land (flags6 im) 2) = im_battery im /\ tobool (Z.land (flags6 im) 4) = has_tr im.
Proof.
  intros Hm. set (f := fun q => let f6 := q * 16 + Z.b2z (has_tr im) * 4
      + Z.b2z (im_battery im) * 2 + Z.b2z (im_vert im) in
    eqb (Z.land f6 1 =? 0) (negb (im_vert im)) && eqb (tobool (Z.land f6 2)) (im_battery im) &&
    eqb (tobool (Z.land f6 4)) (has_tr im)).
  assert (Hf : forallb f (Z.of_nat <$> seq 0 (Z.to_nat 16)) = true)
    by (subst f; destruct (has_tr im), (im_battery im), (im_vert im); vm_compute; reflexivity).
  pose proof (range_forall 16 f Hf (im_mapper im mod 16) ltac:(dlia)) as H.
  unfold f in H. cbv zeta in H. bool_hyps. done.
Qed.

Lemma flags7_version im : byte (im_mapper im) -> (Z.land (flags7 im) 0xC =? 0x8) = false.
Proof.
  intros Hm. set (f := fun q => negb (Z.land (q * 16) 0xC =? 0x8)).
  assert (Hf : forallb f (Z.of_nat <$> seq 0 (Z.to_nat 16)) = true) by (vm_compute; reflexivity).
  pose proof (range_forall 16 f Hf (im_mapper im / 16) ltac:(dlia)) as H.
  unfold f in H. bool_hyps. done.
Qed.

(** The array holds exactly these bytes. *)
Definition holds (a : HeapArray) (l : list Z) : Prop :=
  size a = Z.of_nat (length l) /\ forall j v, 0 <= j -> l !! Z.to_nat j = Some v -> get a j = Ok v.

(** Reading a whole ROM into a new array. *)
Lemma rom_read_spec fr n l s : 0 <= n -> length l = Z.to_nat n ->
  exists a, bread_into (reset fr n) (Z.to_nat n) (l ++ s) = Ok (a, s) /\ holds a l.
Proof.
  intros Hn Hl. rewrite <- Hl.
  destruct (bread_into_app (reset fr n) l s) as (a & E & Hlen & Hc); [simpl; lia |].
  exists a. split; [done |]. split; [unfold size; simpl in *; lia |].
  intros j v Hj Hv. pose proof (lookup_lt_Some _ _ _ Hv).
  rewrite get_in by (simpl in *; lia). f_equal. by apply Hc.
Qed.

(** A cartridge object as the constructor leaves it, or after other images that
    had CHR ROM. *)
Definition slot_ok (c : Cartridge) : Prop :=
  len (header c) = 16 /\ len (trainer c) = 512 /\ has_chrram c = false.

Lemma header_read c im s : slot_ok c ->
  exists h, bread_into (header c) HEADER_LEN (ines_header im ++ s) = Ok (h, s) /\ len h = 16 /\
    forall i v, ines_header im !! i = Some v -> cell h (Z.of_nat i) = v.
Proof.
  intros (Hh & _). destruct (bread_into_app (header c) (ines_header im) s) as (h & E & Hl & Hc).
  - rewrite Hh. done.
  - exists h. split_and!; [done | lia |]. intros i v Hi. apply Hc; [lia |].
    by rewrite Nat2Z.id.
Qed.

Lemma load_trainer_spec c im s : slot_ok c -> image_ok im -> has_trainer c = has_tr im ->
  exists t, load_trainer c (default [] (im_trainer im) ++ s) = Ok (with_trainer t c, s) /\ len t = 512.
Proof.
  intros (_ & Ht & _) Him Eh. unfold load_trainer. rewrite Eh. unfold has_tr.
  destruct (im_trainer im) as [t |] eqn:Et; simpl.
  - pose proof (io_trainer im Him t Et) as Hlen. rewrite <- Hlen.
    destruct (bread_into_app (trainer c) t s) as (a & E & Hl & _); [by rewrite Ht, Hlen |].
    rewrite E. simpl. exists a. split; [done | lia].
  - exists (trainer c). split; [by destruct c | done].
Qed.

Lemma load_prgrom_spec fr c im s : image_ok im -> has_prgram c = false ->
  hdr c 4 = im_prg_banks im ->
  exists a, load_prgrom fr c (im_prg im ++ s) = Ok (with_prgrom a c, s) /\ holds a (im_prg im).
Proof.
  intros Him E0 Eb. unfold load_prgrom. rewrite E0, Eb. simpl.
  destruct (rom_read_spec fr (im_prg_banks im * 16384) (im_prg im) s) as (a & E & Hh).
  - pose proof (io_prg_banks im Him). dlia.
  - apply Him.
  - rewrite E. by exists a.
Qed.

Lemma load_chrrom_spec fr c im s : image_ok im -> has_chrram c = false ->
  hdr c 5 = im_chr_banks im ->
  exists a, load_chrrom fr c (im_chr im ++ s) = Ok (with_chrrom a c, s) /\ holds a (im_chr im).
Proof.
  intros Him E0 Eb. unfold load_chrrom. rewrite E0, Eb. simpl.
  destruct (rom_read_spec fr (im_chr_banks im * 8192) (im_chr im) s) as (a & E & Hh).
  - pose proof (io_chr_banks im Him). lia.
  - apply Him.
  - rewrite E. by exists a.
Qed.

(** The fields that the header determines. *)
Definition describes (c : Cartridge) (im : Image) : Prop :=
  mapper c = im_mapper im /\ nt_mirroring c = (if im_vert im then VERT else HORZ) /\
  has_battery c = im_battery im /\ has_trainer c = has_tr im /\
  prgram_size c = im_prgram_size im /\ has_prgram c = false /\ has_chrram c = false.

Lemma parse_fields c im : image_ok im -> has_chrram c = false ->
  (forall i v, ines_header im !! i = Some v -> hdr c (Z.of_nat i) = v) ->
  magic_ok c = true /\ is_nes20 c = false /\
  describes (parse_ines (parse_common (with_format "iNES" c))) im.
Proof.
  intros Him Hram E0. destruct (flags6_bits im (io_mapper im Him)) as (Fv & Fb & Ft).
  pose proof (io_chr_banks im Him).
  assert (E5 : hdr c 5 = im_chr_banks im) by exact (E0 5%nat _ eq_refl).
  assert (E6 : hdr c 6 = flags6 im) by exact (E0 6%nat _ eq_refl).
  assert (E7 : hdr c 7 = flags7 im) by exact (E0 7%nat _ eq_refl).
  assert (E8 : hdr c 8 = im_prgram_size im) by exact (E0 8%nat _ eq_refl).
  assert (E10 : hdr c 10 = 0) by exact (E0 10%nat _ eq_refl).
  assert (M : hdr c 0 = 78 /\ hdr c 1 = 69 /\ hdr c 2 = 83 /\ hdr c 3 = 0x1A)
    by exact (conj (E0 0%nat _ eq_refl) (conj (E0 1%nat _ eq_refl)
                (conj (E0 2%nat _ eq_refl) (E0 3%nat _ eq_refl)))).
  split_and!.
  - unfold magic_ok. by destruct M as (-> & -> & -> & ->).
  - unfold is_nes20. rewrite E7. apply flags7_version, Him.
  - unfold describes, parse_ines, parse_common, hdr in *. cbn -[Z.land Z.lor Z.shiftr].
    rewrite E5, E6, E7, E8, E10, Fv, Fb, Ft, Hram, mapper_bits by apply Him.
    zdecide_false (im_chr_banks im =? 0). by destruct (im_vert im).
Qed.

(** Decoding what the encoder wrote. *)
Lemma parse_ines_spec fr c im s : slot_ok c -> image_ok im ->
  exists c', parse_bytes fr c (ines_file im ++ s) = Ok (true, c', s) /\
    holds (prgrom c') (im_prg im) /\ holds (chrrom c') (im_chr im) /\
    describes c' im /\ name c' = name c /\ slot_ok c'.
Proof.
  intros Hc Him. unfold parse_bytes, ines_file. rewrite <- !app_assoc.
  destruct (header_read c im (default [] (im_trainer im) ++ im_prg im ++ im_chr im ++ s))
    as (h & -> & Hlen & Hh); [done |].
  cbn [rbind]. set (c1 := with_header h c).
  destruct (parse_fields c1 im Him) as (-> & -> & Hd); [apply Hc | exact Hh |]. cbn [negb].
  set (c2 := parse_ines (parse_common (with_format "iNES" c1))) in *.
  assert (Hs2 : slot_ok c2) by (split_and!; [done | apply Hc | apply Hd]).
  assert (Hh2 : forall i v, ines_header im !! i = Some v -> hdr c2 (Z.of_nat i) = v) by exact Hh.
  destruct (load_trainer_spec c2 im (im_prg im ++ im_chr im ++ s)) as (t & -> & Ht);
    [done | done | apply Hd |]. cbn [rbind].
  destruct (load_prgrom_spec fr (with_trainer t c2) im (im_chr im ++ s)) as (p & -> & Hp);
    [done | apply Hd | exact (Hh2 4%nat _ eq_refl) |]. cbn [rbind].
  destruct (load_chrrom_spec fr (with_prgrom p (with_trainer t c2)) im s) as (q & -> & Hq);
    [done | apply Hd | exact (Hh2 5%nat _ eq_refl) |]. cbn [rbind].
  eexists. split; [done |]. split_and!; [done | done | apply Hd | done |].
  split_and!; [done | done | apply Hd].
Qed.

(** ** ROM accesses *)

(** A ROM of 32 to 64 KiB: its last 32 KiB appear at $8000. *)
Lemma read_prgrom_last c a : 0x8000 <= size (prgrom c) <= 0x10000 -> 0x8000 <= a < 0x10000 ->
  read_prgrom c a = Ok (cell (prgrom c) (size (prgrom c) - 0x8000 + (a - 0x8000))).
Proof.
  intros Hs Ha. unfold read_prgrom. unfold size in *.
  rewrite (u16_id (a - 0x8000)), (u16_id (len _ - 0x8000)), u16_id by dlia.
  apply get_in. lia.
Qed.

(** A 16 KiB ROM is visible at $C000, and its mirror at $8000 faults. *)
Lemma read_prgrom_16k c a : size (prgrom c) = 0x4000 -> 0x8000 <= a < 0x10000 ->
  read_prgrom c a = if 0xC000 <=? a then Ok (cell (prgrom c) (a - 0xC000)) else Err OutOfBounds.
Proof.
  intros Hs Ha. unfold read_prgrom. rewrite Hs. unfold size in Hs.
  change (u16 (0x4000 - 0x8000)) with 0xC000. rewrite (u16_id (a - 0x8000)) by dlia.
  destruct (Z.leb_spec 0xC000 a).
  - replace (u16 (0xC000 + (a - 0x8000))) with (a - 0xC000) by dlia. apply get_in. lia.
  - rewrite u16_id by dlia. apply get_out. lia.
Qed.
