(* ===== verification/Video.v ===== *)
(** * Contexts, textures and the canvas ([emu/video/video.hpp], [emu/video/video.cpp])

    A [Context] owns an implementation of the interface [Context::Impl], the class
    [VideoImpl] here, over a state [G] of the graphics library; textures are
    created and updated through it.  [Canvas] is a texture with a frame of RGBA
    bytes that the PPU draws into, here as a value; who owns the memory of the
    frame, and [ImageTexture], are in [Pictures]. *)

From S2P Require Import Prelude HeapArray.
Open Scope Z_scope.

(** ** [struct Context] *)

(** [Context::Impl]; [new_impl] is a fresh [Video::OpenGL]. *)
Class VideoImpl (G : Type) := {
  new_impl : G;
  impl_init : G -> bool * G;
  impl_resize : Z -> Z -> G -> G;
  create_texture : Z -> Z -> option HeapArray -> G -> Z * G;
  update_texture : Z -> Z -> Z -> HeapArray -> G -> G;
  use_texture : Z -> G -> G;
  impl_draw : G -> G;
}.

Definition DEF_WIDTH : Z := 512.
Definition DEF_HEIGTH : Z := 480.

Record Context (G : Type) := mkContext { ptr : option G; wnd_width : Z; wnd_height : Z }.
Arguments mkContext {G}.
Arguments ptr {G}.
Arguments wnd_width {G}.
Arguments wnd_height {G}.

(** [class Texture]; the context it is bound to is passed to its operations. *)
Record Texture := mkTexture { tex_id : Z; tw : Z; th : Z }.

(** [Texture::width], [Texture::height]: [unsigned]. *)
Definition tex_width (t : Texture) : Z := u32 (tw t).
Definition tex_height (t : Texture) : Z := u32 (th t).

(** [class Canvas] *)
Record Canvas := mkCanvas { tex : Texture; frame : HeapArray }.

(** [Canvas(ctx, width, height)]; [id] is what the context's [create_texture]
    returns and [fr] the content of the new frame. *)
Definition new_canvas (id : Z) (fr : Z -> Z) (width height : Z) : Canvas :=
  mkCanvas (mkTexture id width height) (reset fr (u64 (width * height * 4))).

(** *** Operations that go through the context *)

Section Context.
Context {G : Type} `{VideoImpl G}.

(** The members' initialisers. *)
Definition new_context : Context G := mkContext None DEF_WIDTH DEF_HEIGTH.

(** A call through the pointer, which [init] sets. *)
Definition through {A} (f : G -> A * G) (c : Context G) : Res (A * Context G) :=
  match ptr c with
  | Some g => let '(a, g) := f g in Ok (a, mkContext (Some g) (wnd_width c) (wnd_height c))
  | None => Err OutOfBounds
  end.

Definition through_ (f : G -> G) (c : Context G) : Res (Context G) :=
  let? '(_, c) := through (fun g => (tt, f g)) c in Ok c.

(** [Context::init], [Context::resize], [Context::draw] *)
Definition init_context (c : Context G) : Res (bool * Context G) :=
  through impl_init (mkContext (Some new_impl) (wnd_width c) (wnd_height c)).

Definition resize_context (newwidth newheight : Z) (c : Context G) : Res (Context G) :=
  through_ (impl_resize newwidth newheight) (mkContext (ptr c) (u32 newwidth) (u32 newheight)).

Definition draw_context (c : Context G) : Res (Context G) := through_ impl_draw c.

(** [Texture(c, width, height, data)], [Texture::reset], [Texture::update] twice,
    [Texture::use] *)
Definition new_texture (width height : Z) (data : option HeapArray) (c : Context G) : Res (Texture * Context G) :=
  let? '(id, c) := through (create_texture width height data) c in Ok (mkTexture id width height, c).

Definition reset_texture (t : Texture) (data : option HeapArray) (c : Context G) : Res (Texture * Context G) :=
  let? '(id, c) := through (create_texture (tw t) (th t) data) c in Ok (mkTexture id (tw t) (th t), c).

Definition update_tex (t : Texture) (data : HeapArray) (c : Context G) : Res (Context G) :=
  through_ (update_texture (tex_id t) (tw t) (th t) data) c.

Definition update_tex_sized (t : Texture) (width height : Z) (data : HeapArray) (c : Context G)
    : Res (Texture * Context G) :=
  let t := mkTexture (tex_id t) width height in
  let? c := update_tex t data c in Ok (t, c).

Definition use_tex (t : Texture) (c : Context G) : Res (Context G) := through_ (use_texture (tex_id t)) c.

(** [Canvas(ctx, width, height)], [Canvas::update], [Canvas::reset] *)
Definition make_canvas (fr : Z -> Z) (width height : Z) (c : Context G) : Res (Canvas * Context G) :=
  let? '(t, c) := new_texture width height None c in
  Ok (new_canvas (tex_id t) fr width height, c).

Definition update_canvas (cv : Canvas) (c : Context G) : Res (Context G) := update_tex (tex cv) (frame cv) c.

Definition reset_canvas (cv : Canvas) (c : Context G) : Res (Canvas * Context G) :=
  let? '(t, c) := reset_texture (tex cv) None c in Ok (mkCanvas t (frame cv), c).
End Context.

(** The offset of a pixel in the frame: rows are stored bottom up. *)
Definition pixel_pos (t : Texture) (x y : Z) : Z :=
  let real_y := u64 (u32 (tex_height t - 1) - y) in
  u64 (u64 (u64 (real_y * tex_width t) + x) * 4).

(** The assertion of [drawpixel]. *)
Definition pixel_inside (t : Texture) (pos : Z) : bool :=
  (0 <? pos) && (pos <? u32 (u32 (tex_width t * tex_height t) * 4)).

(** [Canvas::drawpixel] *)
Definition drawpixel (c : Canvas) (x y color : Z) : Res Canvas :=
  let pos := pixel_pos (tex c) x y in
  if negb (pixel_inside (tex c) pos) then Err AssertFailure
  else
    let? f := set (frame c) pos (Z.land (Z.shiftr color 24) 0xFF) in
    let? f := set f (u64 (pos + 1)) (Z.land (Z.shiftr color 16) 0xFF) in
    let? f := set f (u64 (pos + 2)) (Z.land (Z.shiftr color 8) 0xFF) in
    let? f := set f (u64 (pos + 3)) (Z.land color 0xFF) in
    Ok (mkCanvas (tex c) f).

(** ** Lemmas *)

(** A canvas whose frame has the size of its texture, within 32 bits. *)
Definition canvas_ok (c : Canvas) : Prop :=
  0 < tw (tex c) /\ 0 < th (tex c) /\ tw (tex c) * th (tex c) * 4 < 2 ^ 32 /\
  len (frame c) = tw (tex c) * th (tex c) * 4.

Lemma new_canvas_ok id fr w h : 0 < w -> 0 < h -> w * h * 4 < 2 ^ 32 -> canvas_ok (new_canvas id fr w h).
Proof.
  intros Hw Hh Hb. unfold canvas_ok, new_canvas. simpl. split_and!; try done.
  unfold u64. apply Z.mod_small. nia.
Qed.

(** The pixel's bytes, as one number. *)
Definition pixel (c : Canvas) (x y : Z) : Z :=
  let pos := ((th (tex c) - 1 - y) * tw (tex c) + x) * 4 in
  cell (frame c) pos * 2 ^ 24 + cell (frame c) (pos + 1) * 2 ^ 16 +
  cell (frame c) (pos + 2) * 2 ^ 8 + cell (frame c) (pos + 3).

Lemma canvas_dims c : canvas_ok c ->
  tex_width (tex c) = tw (tex c) /\ tex_height (tex c) = th (tex c) /\
  u32 (u32 (tex_width (tex c) * tex_height (tex c)) * 4) = tw (tex c) * th (tex c) * 4.
Proof.
  intros (Hw & Hh & Hb & _). unfold tex_width, tex_height, u32.
  assert (tw (tex c) < 2 ^ 32 /\ th (tex c) < 2 ^ 32) as [? ?] by nia.
  rewrite !(Z.mod_small (tw _)), !(Z.mod_small (th _)) by lia.
  rewrite (Z.mod_small (tw _ * th _)) by nia. rewrite Z.mod_small by nia. done.
Qed.

Lemma pixel_pos_spec c x y : canvas_ok c -> 0 <= x < tw (tex c) -> 0 <= y < th (tex c) ->
  let pos := ((th (tex c) - 1 - y) * tw (tex c) + x) * 4 in
  pixel_pos (tex c) x y = pos /\ 0 <= pos /\ pos + 3 < len (frame c).
Proof.
  intros Hc Hx Hy. destruct (canvas_dims c Hc) as (Ew & Eh & _).
  destruct Hc as (Hw & Hh & Hb & Hl). cbv zeta. unfold pixel_pos. rewrite Ew, Eh.
  set (w := tw (tex c)) in *. set (h := th (tex c)) in *.
  assert (h < 2 ^ 32) by nia.
  assert (Hp : 0 <= (h - 1 - y) * w /\ (h - 1 - y) * w + w <= w * h) by nia.
  unfold u64, u32. rewrite (Z.mod_small (h - 1)) by lia. rewrite (Z.mod_small (h - 1 - y)) by lia.
  rewrite (Z.mod_small ((h - 1 - y) * w)) by lia. rewrite (Z.mod_small ((h - 1 - y) * w + x)) by lia.
  rewrite Z.mod_small by lia. lia.
Qed.

(** Four consecutive stores. *)
Lemma set4_spec f pos b0 b1 b2 b3 : 0 <= pos -> pos + 3 < len f -> len f < 2 ^ 32 ->
  exists f',
    (let? f := set f pos b0 in let? f := set f (u64 (pos + 1)) b1 in
     let? f := set f (u64 (pos + 2)) b2 in set f (u64 (pos + 3)) b3) = Ok f' /\
    len f' = len f /\
    cell f' pos = b0 /\ cell f' (pos + 1) = b1 /\ cell f' (pos + 2) = b2 /\ cell f' (pos + 3) = b3 /\
    forall j, ~ (pos <= j <= pos + 3) -> cell f' j = cell f j.
Proof.
  intros H0 H3 Hl. unfold u64. rewrite !(Z.mod_small (pos + _)) by lia.
  destruct (set f pos b0) as [f0 |] eqn:E0; simpl; [| by rewrite set_in in E0 by lia].
  apply set_Ok in E0 as (_ & L0 & C0).
  destruct (set f0 (pos + 1) b1) as [f1 |] eqn:E1; simpl; [| by rewrite set_in in E1 by lia].
  apply set_Ok in E1 as (_ & L1 & C1).
  destruct (set f1 (pos + 2) b2) as [f2 |] eqn:E2; simpl; [| by rewrite set_in in E2 by lia].
  apply set_Ok in E2 as (_ & L2 & C2).
  destruct (set f2 (pos + 3) b3) as [f3 |] eqn:E3; simpl; [| by rewrite set_in in E3 by lia].
  apply set_Ok in E3 as (_ & L3 & C3).
  exists f3. split; [done |]. split; [lia |].
  assert (C : forall j, cell f3 j = if j =? pos + 3 then b3 else if j =? pos + 2 then b2
    else if j =? pos + 1 then b1 else if j =? pos then b0 else cell f j)
    by (intros j; by rewrite C3, C2, C1, C0).
  split_and!; try intros j Hj; rewrite C; zcases.
Qed.

(** The colour is put back together from its bytes. *)
Lemma color_bytes color : 0 <= color < 2 ^ 32 ->
  Z.land (Z.shiftr color 24) 0xFF * 2 ^ 24 + Z.land (Z.shiftr color 16) 0xFF * 2 ^ 16 +
  Z.land (Z.shiftr color 8) 0xFF * 2 ^ 8 + Z.land color 0xFF = color.
Proof.
  intros H. change 0xFF with (Z.ones 8). rewrite !Z.land_ones, !Z.shiftr_div_pow2 by lia. dlia.
Qed.

(** Different pixels have different bytes. *)
Lemma pixel_disjoint w x y x' y' : 0 <= x < w -> 0 <= x' < w -> (x', y') <> (x, y) ->
  (y * w + x) * 4 + 3 < (y' * w + x') * 4 \/ (y' * w + x') * 4 + 3 < (y * w + x) * 4.
Proof.
  intros Hx Hx' Hne.
  assert (y * w + x <> y' * w + x').
  { intros E. apply Hne. assert (y = y') as -> by nia. f_equal. lia. }
  lia.
Qed.

(** Drawing sets its pixel, keeps the others, and can fail for one pixel only. *)
Lemma drawpixel_spec c x y color : canvas_ok c -> 0 <= x < tw (tex c) -> 0 <= y < th (tex c) ->
  0 <= color < 2 ^ 32 -> (x, y) <> (0, th (tex c) - 1) ->
  exists c', drawpixel c x y color = Ok c' /\ canvas_ok c' /\ tex c' = tex c /\
    pixel c' x y = color /\
    forall x' y', 0 <= x' < tw (tex c) -> (x', y') <> (x, y) -> pixel c' x' y' = pixel c x' y'.
Proof.
  intros Hc Hx Hy Hcol Hne. destruct (canvas_dims c Hc) as (_ & _ & Ed).
  destruct (pixel_pos_spec c x y Hc Hx Hy) as (Ep & Hp0 & Hp3).
  unfold drawpixel, pixel_inside. rewrite Ep, Ed. pose proof Hc as (Hw & Hh & Hb & Hl).
  set (pos := ((th (tex c) - 1 - y) * tw (tex c) + x) * 4) in *.
  assert (Hpos : 0 < pos).
  { assert (x <> 0 \/ y <> th (tex c) - 1)
      by (destruct (decide (x = 0)); [right; congruence | by left]). unfold pos in *. nia. }
  zdecide_true (0 <? pos). zdecide_true (pos <? tw (tex c) * th (tex c) * 4). cbn [negb andb].
  destruct (set4_spec (frame c) pos (Z.land (Z.shiftr color 24) 0xFF) (Z.land (Z.shiftr color 16) 0xFF)
    (Z.land (Z.shiftr color 8) 0xFF) (Z.land color 0xFF)) as (f' & E & Hlen & C0 & C1 & C2 & C3 & Cj);
    [lia | lia | lia |].
  exists (mkCanvas (tex c) f'). split_and!.
  - apply rbind_Ok in E as (f0 & -> & E). simpl. apply rbind_Ok in E as (f1 & -> & E). simpl.
    apply rbind_Ok in E as (f2 & -> & E). simpl. by rewrite E.
  - unfold canvas_ok. cbn [tex frame]. lia.
  - done.
  - unfold pixel. cbn [tex frame]. fold pos. rewrite C0, C1, C2, C3. by apply color_bytes.
  - intros x' y' Hx' Hn. unfold pixel. cbn [tex frame].
    destruct (pixel_disjoint (tw (tex c)) x (th (tex c) - 1 - y) x' (th (tex c) - 1 - y')) as [D | D];
      [done | done | intros [= -> Hyy]; apply Hn; f_equal; lia | |];
      fold pos in D; rewrite !Cj by lia; done.
Qed.

(** The assertion rejects the bottom left pixel. *)
Lemma drawpixel_corner c color : canvas_ok c ->
  drawpixel c 0 (th (tex c) - 1) color = Err AssertFailure.
Proof.
  intros Hc. pose proof Hc as (Hw & Hh & _).
  destruct (pixel_pos_spec c 0 (th (tex c) - 1) Hc) as (Ep & _); [lia | lia |].
  unfold drawpixel. rewrite Ep.
  replace (((th (tex c) - 1 - (th (tex c) - 1)) * tw (tex c) + 0) * 4) with 0 by lia. done.
Qed.
