(* ===== verification/Random.v ===== *)
(** * Random numbers ([emu/util/easyrandom.hpp], [emu/util/easyrandom.cpp])

    A generator shared by all threads, a distribution over bytes, and a mutex that
    [random8] holds while it draws.  The generator is [std::mt19937], which the
    standard defines; how a distribution maps its output to bytes is left to the
    implementation, and so is the source of [std::random_device]: both are
    parameters.  Threads are interleaved by the step relation [step]. *)

From S2P Require Import Prelude.
Open Scope Z_scope.

(** ** [std::mt19937]

    The state is the last 624 words, the oldest first. *)

Definition MT : Type := list Z.

Fixpoint seed_words (n : nat) (i x : Z) : MT :=
  match n with
  | O => []
  | S n' => x :: seed_words n' (i + 1) (u32 (1812433253 * Z.lxor x (Z.shiftr x 30) + (i + 1)))
  end.

(** [generator.seed(value)] *)
Definition mt_seed (value : Z) : MT := seed_words 624 0 (u32 value).

(** The constructor without arguments seeds with this value. *)
Definition default_seed : Z := 5489.

Definition twist (x x1 xm : Z) : Z :=
  let y := Z.lor (Z.land x 0x80000000) (Z.land x1 0x7FFFFFFF) in
  Z.lxor xm (Z.lxor (Z.shiftr y 1) (if Z.odd y then 0x9908B0DF else 0)).

Definition temper (x : Z) : Z :=
  let z := Z.lxor x (Z.shiftr x 11) in
  let z := Z.lxor z (Z.land (Z.shiftl z 7) 0x9D2C5680) in
  let z := Z.lxor z (Z.land (Z.shiftl z 15) 0xEFC60000) in
  Z.lxor z (Z.shiftr z 18).

(** [generator()] *)
Definition mt_next (g : MT) : Z * MT :=
  let x := twist (nth 0 g 0) (nth 1 g 0) (nth 397 g 0) in
  (temper x, tl g ++ [x]).

(** The word after [n] others. *)
Fixpoint mt_nth (n : nat) (g : MT) : Z :=
  match n with O => fst (mt_next g) | S n' => mt_nth n' (snd (mt_next g)) end.

(** The value that the standard requires of its 10000th invocation. *)
Example mt19937_standard : mt_nth (Z.to_nat 9999) (mt_seed default_seed) = 4123659995.
Proof. vm_compute. reflexivity. Qed.

(** ** Threads *)

Section Threads.
(** [dist8(generator)]: the byte, and the generator after it. *)
Context (dist8 : MT -> Z * MT).







(** ** What one thread alone would get *)











End Threads.

(** ** Claims *)


