(* ===== verification/OpenGL.v ===== *)
(** * The OpenGL back end ([emu/video/opengl.hpp], [emu/video/opengl.cpp])

    The class [Video::OpenGL], the implementation of [Context::Impl] that
    [Context::init] makes.  Its members call SDL and OpenGL, which are not part of
    the program: each of their functions that it calls is a constructor of [Call],
    indexed by the type of its result, and [perform], a method of the class
    [Driver], is what a call returns and does.  The members are computations over
    the object, the driver and what was printed; in the order of the code, they
    make one instance of [VideoImpl].

    A pointer to a window is [None] for [nullptr].  The floating point numbers of
    the vertices are all integers, and are kept as such. *)

From Stdlib Require Import Ascii.
From stdpp Require Import strings.
From S2P Require Import Prelude HeapArray StringOps Fmt File Video.
Open Scope Z_scope.

(** ** The interface of SDL and OpenGL *)

(** Names of [external/glad/glad.h]. *)
Definition GL_FALSE : Z := 0.
Definition GL_NO_ERROR : Z := 0.
Definition GL_TRIANGLES : Z := 0x0004.
Definition GL_INVALID_ENUM : Z := 0x0500.
Definition GL_INVALID_VALUE : Z := 0x0501.
Definition GL_INVALID_OPERATION : Z := 0x0502.
Definition GL_OUT_OF_MEMORY : Z := 0x0505.
Definition GL_INVALID_FRAMEBUFFER_OPERATION : Z := 0x0506.
Definition GL_TEXTURE_2D : Z := 0x0DE1.
Definition GL_UNSIGNED_BYTE : Z := 0x1401.
Definition GL_UNSIGNED_INT : Z := 0x1405.
Definition GL_FLOAT : Z := 0x1406.
Definition GL_RGBA : Z := 0x1908.
Definition GL_NEAREST : Z := 0x2600.
Definition GL_TEXTURE_MAG_FILTER : Z := 0x2800.
Definition GL_TEXTURE_MIN_FILTER : Z := 0x2801.
Definition GL_TEXTURE_WRAP_S : Z := 0x2802.
Definition GL_TEXTURE_WRAP_T : Z := 0x2803.
Definition GL_COLOR_BUFFER_BIT : Z := 0x4000.
Definition GL_CLAMP_TO_EDGE : Z := 0x812F.
Definition GL_TEXTURE0 : Z := 0x84C0.
Definition GL_ARRAY_BUFFER : Z := 0x8892.
Definition GL_ELEMENT_ARRAY_BUFFER : Z := 0x8893.
Definition GL_STATIC_DRAW : Z := 0x88E4.
Definition GL_FRAGMENT_SHADER : Z := 0x8B30.
Definition GL_VERTEX_SHADER : Z := 0x8B31.
Definition GL_COMPILE_STATUS : Z := 0x8B81.
Definition GL_LINK_STATUS : Z := 0x8B82.
Definition GL_INFO_LOG_LENGTH : Z := 0x8B84.

(** Arguments that SDL names. *)
Inductive SDL_GLattr := GL_CONTEXT_MAJOR_VERSION | GL_CONTEXT_MINOR_VERSION | GL_DOUBLEBUFFER | GL_DEPTH_SIZE.
Inductive SDL_Flag := SDL_INIT_VIDEO | SDL_WINDOW_OPENGL | SDL_WINDOW_SHOWN | SDL_WINDOW_RESIZABLE.
Inductive SDL_Position := SDL_WINDOWPOS_CENTERED.

(** A pointer to client memory given to [glBufferData]. *)
Inductive Buffer := Floats (l : list Z) | Unsigneds (l : list Z).

(** The calls of the program, each with the type of what it returns.  A call that
    writes through a pointer returns what it writes. *)
Inductive Call : Type -> Type :=
| SDL_Init (flags : list SDL_Flag) : Call Z
| SDL_GetError : Call string
| SDL_GL_SetAttribute (attr : SDL_GLattr) (value : Z) : Call unit
| SDL_CreateWindow (title : string) (x y : SDL_Position) (w h : Z) (flags : list SDL_Flag) : Call (option Z)
| SDL_GL_CreateContext (window : option Z) : Call Z
| SDL_GL_DeleteContext (context : Z) : Call unit
| SDL_DestroyWindow (window : option Z) : Call unit
| SDL_Quit : Call unit
| SDL_GL_SetSwapInterval (interval : Z) : Call unit
| SDL_GL_SwapWindow (window : option Z) : Call unit
| gladLoadGLLoader : Call bool
| glGetError : Call Z
| glClearColor (r g b a : Z) : Call unit   (** in tenths *)
| glClear (mask : Z) : Call unit
| glViewport (x y w h : Z) : Call unit
| glActiveTexture (unit_ : Z) : Call unit
| glGenTextures : Call Z
| glBindTexture (target id : Z) : Call unit
| glTexParameteri (target pname param : Z) : Call unit
| glTexImage2D (target level internal w h border format type_ : Z) (data : option HeapArray) : Call unit
| glTexSubImage2D (target level x y w h format type_ : Z) (data : HeapArray) : Call unit
| glCreateShader (type_ : Z) : Call Z
| glShaderSource (sid : Z) (code : string) : Call unit
| glCompileShader (sid : Z) : Call unit
| glGetShaderiv (sid pname : Z) : Call Z
| glGetShaderInfoLog (sid len : Z) : Call string
| glAttachShader (progid sid : Z) : Call unit
| glDeleteShader (sid : Z) : Call unit
| glCreateProgram : Call Z
| glLinkProgram (progid : Z) : Call unit
| glGetProgramiv (progid pname : Z) : Call Z
| glGetProgramInfoLog (progid len : Z) : Call string
| glUseProgram (progid : Z) : Call unit
| glGetUniformLocation (progid : Z) (name : string) : Call Z
| glUniform1i (location value : Z) : Call unit
| glGenVertexArrays : Call Z
| glBindVertexArray (id : Z) : Call unit
| glDeleteVertexArrays (id : Z) : Call unit
| glGenBuffers : Call Z
| glBindBuffer (target id : Z) : Call unit
| glBufferData (target size_ : Z) (data : Buffer) (usage : Z) : Call unit
| glDeleteBuffers (id : Z) : Call unit
| glVertexAttribPointer (index size_ type_ normalized stride offset : Z) : Call unit
| glEnableVertexAttribArray (index : Z) : Call unit
| glDrawElements (mode count type_ offset : Z) : Call unit.

Class Driver (D : Type) := { perform : forall {A}, Call A -> D -> A * D }.

(** ** Static data *)

Definition vertcode : string := "
    #version 330 core
    layout (location = 0) in vec3 aPos;
    layout (location = 1) in vec2 aTexCoord;

    out vec2 TexCoord;

    void main()
    {
        gl_Position = vec4(aPos, 1.0);
        TexCoord = vec2(aTexCoord.x, aTexCoord.y);
    }
".

Definition fragcode : string := "
    #version 330 core
    out vec4 FragColor;

    in vec2 TexCoord;

    uniform sampler2D tex;

    void main()
    {
        FragColor = texture(tex, TexCoord);
        // FragColor = vec4(0.5f, 0.0f, 0.0f, 1.0f);
    }
".

(** Position and texture coordinates of the four corners; two triangles. *)
Definition vertices : list Z := [
   1;  1; 0;  1; 1;   (* top right *)
   1; -1; 0;  1; 0;   (* bottom right *)
  -1;  1; 0;  0; 1;   (* top left *)
  -1; -1; 0;  0; 0 ]. (* bottom left *)

Definition indices : list Z := [
  0; 1; 2;
  1; 2; 3 ].

(** [sizeof(float)] and [sizeof(unsigned)] *)
Definition sizeof_word : Z := 4.

(** ** The object *)

(** [class OpenGL]; the members without an initialiser are zeroed by
    [std::make_unique]. *)
Record OpenGL := mkOpenGL {
  initialized : bool;
  window : option Z;
  context : Z;
  progid : Z;
  vbo : Z;
  vao : Z;
  ebo : Z;
}.

Definition new_opengl : OpenGL := mkOpenGL false None 0 0 0 0 0.

Definition set_initialized v o := mkOpenGL v (window o) (context o) (progid o) (vbo o) (vao o) (ebo o).
Definition set_window v o := mkOpenGL (initialized o) v (context o) (progid o) (vbo o) (vao o) (ebo o).
Definition set_context v o := mkOpenGL (initialized o) (window o) v (progid o) (vbo o) (vao o) (ebo o).
Definition set_progid v o := mkOpenGL (initialized o) (window o) (context o) v (vbo o) (vao o) (ebo o).
Definition set_vbo v o := mkOpenGL (initialized o) (window o) (context o) (progid o) v (vao o) (ebo o).
Definition set_vao v o := mkOpenGL (initialized o) (window o) (context o) (progid o) (vbo o) v (ebo o).
Definition set_ebo v o := mkOpenGL (initialized o) (window o) (context o) (progid o) (vbo o) (vao o) v.

(** The object, the driver and the messages, in the order of printing. *)
Record GLState (D : Type) := mkGL { gl : OpenGL; drv : D; printed : list Output }.
Arguments mkGL {D}.
Arguments gl {D}.
Arguments drv {D}.
Arguments printed {D}.

(** Computations over that state. *)
Definition GM (D A : Type) : Type := GLState D -> A * GLState D.

Declare Scope gl_scope.
Delimit Scope gl_scope with gl.

Definition gl_ret {D A} (a : A) : GM D A := fun s => (a, s).
Definition gl_bind {D A B} (m : GM D A) (k : A -> GM D B) : GM D B := fun s => let '(a, s) := m s in k a s.

Notation "'let*' x ':=' m 'in' k" := (gl_bind m (fun x => k))
  (at level 10, x name, m at level 100, k at level 200) : gl_scope.
Notation "m ;* k" := (gl_bind m (fun _ => k))
  (at level 100, k at level 200, right associativity) : gl_scope.
Open Scope gl_scope.

Section OpenGL.
Context {D : Type} `{Driver D}.

Definition call {A} (c : Call A) : GM D A :=
  fun s => let '(a, d) := perform c (drv s) in (a, mkGL (gl s) d (printed s)).
Definition this : GM D OpenGL := fun s => (gl s, s).
Definition modify (f : OpenGL -> OpenGL) : GM D unit := fun s => (tt, mkGL (f (gl s)) (drv s) (printed s)).
Definition report (o : list Output) : GM D unit := fun s => (tt, mkGL (gl s) (drv s) (printed s ++ o)).

(** [glCheckError], in a build with [DEBUG]; nothing calls it.  [fuel] bounds the
    rounds of its loop, which ends when the driver has no error left. *)
Definition gl_error_text (err : Z) : list Output :=
  match err with
  | 0x0500 => error ("opengl: invalid enum" +:+ newline)
  | 0x0501 => error ("opengl: invalid value" +:+ newline)
  | 0x0502 => error ("opengl: invalid operation" +:+ newline)
  | 0x0505 => error ("opengl: out of memory" +:+ newline)
  | 0x0506 => error ("opengl: invalid framebuffer operation" +:+ newline)
  | _ => []
  end.

Fixpoint glCheckError (fuel : nat) : GM D (Res Z) :=
  match fuel with
  | O => gl_ret (Err OutOfFuel)
  | S fuel =>
      let* err := call glGetError in
      if err =? GL_NO_ERROR then gl_ret (Ok err)
      else report (gl_error_text err) ;* glCheckError fuel
  end.

(** [OpenGL::~OpenGL] *)
Definition destroy : GM D unit :=
  let* o := this in
  if negb (initialized o) then gl_ret tt
  else
    modify (set_initialized false) ;*
    call (glDeleteVertexArrays (vao o)) ;*
    call (glDeleteBuffers (vbo o)) ;*
    call (glDeleteBuffers (ebo o)) ;*
    call (SDL_DestroyWindow (window o)) ;*
    call (SDL_GL_DeleteContext (context o)) ;*
    call SDL_Quit.

(** [create_shader] *)
Definition create_shader (progid type_ : Z) (code name : string) : GM D Z :=
  let* sid := call (glCreateShader type_) in
  call (glShaderSource sid code) ;*
  call (glCompileShader sid) ;*
  let* result := call (glGetShaderiv sid GL_COMPILE_STATUS) in
  if result =? GL_FALSE then
    let* len := call (glGetShaderiv sid GL_INFO_LOG_LENGTH) in
    let* infolog := call (glGetShaderInfoLog sid len) in
    report (error ("OpenGL: " +:+ name +:+ " compile error: " +:+ infolog +:+ newline)) ;*
    gl_ret 0
  else
    call (glAttachShader progid sid) ;*
    gl_ret sid.

(** [OpenGL::create_program] *)
Definition create_program : GM D unit :=
  let* id := call glCreateProgram in
  modify (set_progid id) ;*
  let* vs := create_shader id GL_VERTEX_SHADER vertcode "vertex shader" in
  let* fs := create_shader id GL_FRAGMENT_SHADER fragcode "fragment shader" in
  call (glLinkProgram id) ;*
  let* result := call (glGetProgramiv id GL_LINK_STATUS) in
  (if result =? GL_FALSE then
    let* len := call (glGetProgramiv id GL_INFO_LOG_LENGTH) in
    let* infolog := call (glGetProgramInfoLog id len) in
    report (error ("OpenGL: program link error: " +:+ infolog +:+ newline))
  else gl_ret tt) ;*
  call (glDeleteShader vs) ;*
  call (glDeleteShader fs).

(** [OpenGL::create_objects] *)
Definition create_objects : GM D unit :=
  let* vao := call glGenVertexArrays in
  modify (set_vao vao) ;*
  let* vbo := call glGenBuffers in
  modify (set_vbo vbo) ;*
  let* ebo := call glGenBuffers in
  modify (set_ebo ebo) ;*
  call (glBindVertexArray vao) ;*
  call (glBindBuffer GL_ARRAY_BUFFER vbo) ;*
  call (glBufferData GL_ARRAY_BUFFER (sizeof_word * Z.of_nat (length vertices)) (Floats vertices) GL_STATIC_DRAW) ;*
  call (glBindBuffer GL_ELEMENT_ARRAY_BUFFER ebo) ;*
  call (glBufferData GL_ELEMENT_ARRAY_BUFFER (sizeof_word * Z.of_nat (length indices)) (Unsigneds indices)
              GL_STATIC_DRAW) ;*
  call (glVertexAttribPointer 0 3 GL_FLOAT GL_FALSE (5 * sizeof_word) 0) ;*
  call (glEnableVertexAttribArray 0) ;*
  call (glVertexAttribPointer 1 2 GL_FLOAT GL_FALSE (5 * sizeof_word) (3 * sizeof_word)) ;*
  call (glEnableVertexAttribArray 1).

(** [OpenGL::init] *)
Definition init : GM D bool :=
  let* status := call (SDL_Init [SDL_INIT_VIDEO]) in
  if status <? 0 then
    let* text := call SDL_GetError in
    report (error ("can't initialize video, SDL2 error: " +:+ text +:+ newline)) ;*
    gl_ret false
  else
    call (SDL_GL_SetAttribute GL_CONTEXT_MAJOR_VERSION 3) ;*
    call (SDL_GL_SetAttribute GL_CONTEXT_MINOR_VERSION 3) ;*
    call (SDL_GL_SetAttribute GL_DOUBLEBUFFER 1) ;*
    call (SDL_GL_SetAttribute GL_DEPTH_SIZE 24) ;*
    let* w := call (SDL_CreateWindow "Window" SDL_WINDOWPOS_CENTERED SDL_WINDOWPOS_CENTERED DEF_WIDTH DEF_HEIGTH
                    [SDL_WINDOW_OPENGL; SDL_WINDOW_SHOWN; SDL_WINDOW_RESIZABLE]) in
    modify (set_window w) ;*
    let* c := call (SDL_GL_CreateContext w) in
    modify (set_context c) ;*
    let* loaded := call gladLoadGLLoader in
    if negb loaded then
      report (error ("can't initialize video: GLAD error" +:+ newline)) ;*
      call (SDL_GL_DeleteContext c) ;*
      call (SDL_DestroyWindow w) ;*
      call SDL_Quit ;*
      gl_ret false
    else
      call (SDL_GL_SetSwapInterval 1) ;*
      create_program ;*
      create_objects ;*
      call (glClearColor 0 0 4 10) ;*
      let* o := this in
      call (glUseProgram (progid o)) ;*
      let* location := call (glGetUniformLocation (progid o) "tex") in
      call (glUniform1i location 0) ;*
      modify (set_initialized true) ;*
      gl_ret true.

(** [OpenGL::resize] *)
Definition resize (newwidth newheight : Z) : GM D unit := call (glViewport 0 0 newwidth newheight).

(** [OpenGL::use_texture] *)
Definition use_texture (id : Z) : GM D unit :=
  call (glActiveTexture GL_TEXTURE0) ;*
  call (glBindTexture GL_TEXTURE_2D id).

(** [OpenGL::create_texture]; the sizes are converted to [GLsizei]. *)
Definition create_texture (texw texh : Z) (data : option HeapArray) : GM D Z :=
  call (glActiveTexture GL_TEXTURE0) ;*
  let* id := call glGenTextures in
  call (glBindTexture GL_TEXTURE_2D id) ;*
  call (glTexParameteri GL_TEXTURE_2D GL_TEXTURE_WRAP_S GL_CLAMP_TO_EDGE) ;*
  call (glTexParameteri GL_TEXTURE_2D GL_TEXTURE_WRAP_T GL_CLAMP_TO_EDGE) ;*
  call (glTexParameteri GL_TEXTURE_2D GL_TEXTURE_MIN_FILTER GL_NEAREST) ;*
  call (glTexParameteri GL_TEXTURE_2D GL_TEXTURE_MAG_FILTER GL_NEAREST) ;*
  call (glTexImage2D GL_TEXTURE_2D 0 GL_RGBA (s32 texw) (s32 texh) 0 GL_RGBA GL_UNSIGNED_BYTE data) ;*
  gl_ret id.

(** [OpenGL::update_texture] *)
Definition update_texture (id texw texh : Z) (data : HeapArray) : GM D unit :=
  use_texture id ;*
  call (glTexSubImage2D GL_TEXTURE_2D 0 0 0 (s32 texw) (s32 texh) GL_RGBA GL_UNSIGNED_BYTE data).

(** [OpenGL::draw] *)
Definition draw : GM D unit :=
  let* o := this in
  call (glClear GL_COLOR_BUFFER_BIT) ;*
  call (glUseProgram (progid o)) ;*
  call (glBindVertexArray (vao o)) ;*
  call (glBindBuffer GL_ELEMENT_ARRAY_BUFFER (ebo o)) ;*
  call (glDrawElements GL_TRIANGLES 6 GL_UNSIGNED_INT 0) ;*
  call (SDL_GL_SwapWindow (window o)).

(** The implementation that [Context::init] makes, with the driver in the state
    [d] when the program starts. *)
Definition opengl_impl (d : D) : VideoImpl (GLState D) := {|
  new_impl := mkGL new_opengl d [];
  impl_init := init;
  impl_resize w h s := snd (resize w h s);
  Video.create_texture := create_texture;
  Video.update_texture id w h data s := snd (update_texture id w h data s);
  Video.use_texture id s := snd (use_texture id s);
  impl_draw s := snd (draw s);
|}.
End OpenGL.
