(* ===== verification/OpenGLSpec.v ===== *)
(** * What the OpenGL back end relies on, and what it guarantees

    The interface [GLSpec] states the documented behaviour of the SDL and OpenGL
    calls that the program makes, over the part of the state of OpenGL that they
    read and write.  Against it, the members of [Video::OpenGL] keep the object
    ready to draw, and each [draw] presents a quad with the image last given to
    the bound texture.  [soft_driver] is an instance. *)

From stdpp Require Import strings.
From S2P Require Import Prelude HeapArray StringOps Fmt File Video OpenGL.
Open Scope Z_scope.

(** ** The state of OpenGL *)

(** The image of a texture: [None] for indeterminate contents. *)
Record Image := mkImage { im_w : Z; im_h : Z; im_data : option HeapArray }.

(** A program object: the shaders attached to it, and those it was linked from. *)
Record Program := mkProgram { attached : list Z; linked : option (list (option (Z * string))) }.

(** A vertex attribute: its buffer, the number and type of its components, its
    stride and its offset. *)
Record Attrib := mkAttrib { at_buffer : Z; at_size : Z; at_type : Z; at_stride : Z; at_offset : Z }.
Record VertexArray := mkVertexArray { attribs : gmap Z Attrib; enabled : gset Z; element : Z }.

(** What a drawing call used. *)
Record Drawing := mkDrawing {
  dr_program : option Program;
  dr_vao : option VertexArray;
  dr_vertices : option (option Buffer);     (** of attribute 0 *)
  dr_indices : option (option Buffer);
  dr_mode : Z; dr_count : Z; dr_type : Z; dr_offset : Z;
  dr_texture : option (option Image);
}.

Record View := mkView {
  video : bool;
  wnd : option Z;
  ctx : option Z;
  shaders : gmap Z (Z * string);
  programs : gmap Z Program;
  used : Z;
  textures : gmap Z (option Image);         (** the names in use *)
  bound : Z;
  buffers : gmap Z (option Buffer);
  array_buffer : Z;
  vaos : gmap Z VertexArray;
  vertex_array : Z;
  back : list Drawing;
  presented : list (list Drawing);
}.

Definition set_video x v := mkView x (wnd v) (ctx v) (shaders v) (programs v) (used v) (textures v) (bound v) (buffers v) (array_buffer v) (vaos v) (vertex_array v) (back v) (presented v).
Definition set_wnd x v := mkView (video v) x (ctx v) (shaders v) (programs v) (used v) (textures v) (bound v) (buffers v) (array_buffer v) (vaos v) (vertex_array v) (back v) (presented v).
Definition set_ctx x v := mkView (video v) (wnd v) x (shaders v) (programs v) (used v) (textures v) (bound v) (buffers v) (array_buffer v) (vaos v) (vertex_array v) (back v) (presented v).
Definition set_shaders x v := mkView (video v) (wnd v) (ctx v) x (programs v) (used v) (textures v) (bound v) (buffers v) (array_buffer v) (vaos v) (vertex_array v) (back v) (presented v).
Definition set_programs x v := mkView (video v) (wnd v) (ctx v) (shaders v) x (used v) (textures v) (bound v) (buffers v) (array_buffer v) (vaos v) (vertex_array v) (back v) (presented v).
Definition set_used x v := mkView (video v) (wnd v) (ctx v) (shaders v) (programs v) x (textures v) (bound v) (buffers v) (array_buffer v) (vaos v) (vertex_array v) (back v) (presented v).
Definition set_textures x v := mkView (video v) (wnd v) (ctx v) (shaders v) (programs v) (used v) x (bound v) (buffers v) (array_buffer v) (vaos v) (vertex_array v) (back v) (presented v).
Definition set_bound x v := mkView (video v) (wnd v) (ctx v) (shaders v) (programs v) (used v) (textures v) x (buffers v) (array_buffer v) (vaos v) (vertex_array v) (back v) (presented v).
Definition set_buffers x v := mkView (video v) (wnd v) (ctx v) (shaders v) (programs v) (used v) (textures v) (bound v) x (array_buffer v) (vaos v) (vertex_array v) (back v) (presented v).
Definition set_array_buffer x v := mkView (video v) (wnd v) (ctx v) (shaders v) (programs v) (used v) (textures v) (bound v) (buffers v) x (vaos v) (vertex_array v) (back v) (presented v).
Definition set_vaos x v := mkView (video v) (wnd v) (ctx v) (shaders v) (programs v) (used v) (textures v) (bound v) (buffers v) (array_buffer v) x (vertex_array v) (back v) (presented v).
Definition set_vertex_array x v := mkView (video v) (wnd v) (ctx v) (shaders v) (programs v) (used v) (textures v) (bound v) (buffers v) (array_buffer v) (vaos v) x (back v) (presented v).
Definition set_back x v := mkView (video v) (wnd v) (ctx v) (shaders v) (programs v) (used v) (textures v) (bound v) (buffers v) (array_buffer v) (vaos v) (vertex_array v) x (presented v).
Definition set_presented x v := mkView (video v) (wnd v) (ctx v) (shaders v) (programs v) (used v) (textures v) (bound v) (buffers v) (array_buffer v) (vaos v) (vertex_array v) (back v) x.

(** Changes of the objects bound. *)
Definition on_vao (f : VertexArray -> VertexArray) (v : View) : View :=
  set_vaos (alter f (vertex_array v) (vaos v)) v.
Definition bound_buffer (target : Z) (v : View) : Z :=
  if target =? GL_ARRAY_BUFFER then array_buffer v
  else match vaos v !! vertex_array v with Some a => element a | None => 0 end.

Definition drawing (mode count type_ offset : Z) (v : View) : Drawing :=
  let vao := vaos v !! vertex_array v in
  mkDrawing (programs v !! used v) vao
    (a ← vao; t ← attribs a !! 0; buffers v !! at_buffer t) (a ← vao; buffers v !! element a)
    mode count type_ offset (textures v !! bound v).

Definition buffer_size (b : Buffer) : Z :=
  4 * Z.of_nat (length (match b with Floats l => l | Unsigneds l => l end)).

(** [transition c v a v']: in the state [v], the call [c] may return [a] and lead
    to [v'].  Where the arguments are not those of the program nothing is said. *)
Definition transition {A} (c : Call A) : View -> A -> View -> Prop :=
  match c in Call A return View -> A -> View -> Prop with
  | SDL_Init _ => fun v r v' => v' = if r <? 0 then v else set_video true v
  | SDL_CreateWindow _ _ _ _ _ _ => fun v w v' => v' = match w with Some _ => set_wnd w v | None => v end
  | SDL_GL_CreateContext w => fun v c v' => w <> None -> v' = set_ctx (Some c) v
  | SDL_GL_DeleteContext _ => fun v _ v' => ctx v' = None /\ wnd v' = wnd v /\ video v' = video v
  | SDL_DestroyWindow _ => fun v _ v' => v' = set_wnd None v
  | SDL_Quit => fun v _ v' => v' = set_video false v
  | SDL_GL_SwapWindow _ => fun v _ v' => exists b, v' = set_back b (set_presented (presented v ++ [back v]) v)
  | glClear _ => fun v _ v' => v' = set_back [] v
  | glActiveTexture u => fun v _ v' => u = GL_TEXTURE0 -> v' = v
  | glGenTextures => fun v id v' => textures v !! id = None /\ id <> 0 /\ v' = set_textures (<[id := None]> (textures v)) v
  | glBindTexture target id => fun v _ v' => target = GL_TEXTURE_2D -> v' = set_bound id v
  | glTexImage2D target level _ w h _ _ _ data => fun v _ v' =>
      target = GL_TEXTURE_2D -> level = 0 -> v' = set_textures (<[bound v := Some (mkImage w h data)]> (textures v)) v
  | glTexSubImage2D target level x y w h _ _ data => fun v _ v' =>
      target = GL_TEXTURE_2D -> level = 0 -> x = 0 -> y = 0 ->
      forall old, textures v !! bound v = Some (Some (mkImage w h old)) ->
      v' = set_textures (<[bound v := Some (mkImage w h (Some data))]> (textures v)) v
  | glCreateShader ty => fun v sid v' =>
      shaders v !! sid = None /\ sid <> 0 /\ v' = set_shaders (<[sid := (ty, EmptyString)]> (shaders v)) v
  | glShaderSource sid code => fun v _ v' => v' = set_shaders (alter (fun s => (fst s, code)) sid (shaders v)) v
  | glAttachShader p sid => fun v _ v' =>
      v' = set_programs (alter (fun q => mkProgram (attached q ++ [sid]) (linked q)) p (programs v)) v
  | glDeleteShader _ => fun v _ v' => exists s, v' = set_shaders s v
  | glCreateProgram => fun v p v' =>
      programs v !! p = None /\ p <> 0 /\ v' = set_programs (<[p := mkProgram [] None]> (programs v)) v
  | glLinkProgram p => fun v _ v' =>
      v' = set_programs (alter (fun q => mkProgram (attached q) (Some ((fun sid => shaders v !! sid) <$> attached q)))
             p (programs v)) v
  | glUseProgram p => fun v _ v' => v' = set_used p v
  | glGenVertexArrays => fun v id v' =>
      vaos v !! id = None /\ id <> 0 /\ v' = set_vaos (<[id := mkVertexArray ∅ ∅ 0]> (vaos v)) v
  | glBindVertexArray id => fun v _ v' => v' = set_vertex_array id v
  | glDeleteVertexArrays id => fun v _ v' =>
      vaos v' = delete id (vaos v) /\ buffers v' = buffers v /\ ctx v' = ctx v /\ wnd v' = wnd v /\ video v' = video v
  | glGenBuffers => fun v id v' => buffers v !! id = None /\ id <> 0 /\ v' = set_buffers (<[id := None]> (buffers v)) v
  | glBindBuffer target id => fun v _ v' =>
      v' = if target =? GL_ARRAY_BUFFER then set_array_buffer id v
           else on_vao (fun a => mkVertexArray (attribs a) (enabled a) id) v
  | glBufferData target size_ data _ => fun v _ v' =>
      size_ = buffer_size data -> v' = set_buffers (<[bound_buffer target v := Some data]> (buffers v)) v
  | glDeleteBuffers id => fun v _ v' =>
      buffers v' = delete id (buffers v) /\ dom (vaos v') = dom (vaos v) /\ ctx v' = ctx v /\ wnd v' = wnd v /\
      video v' = video v
  | glVertexAttribPointer i n ty _ stride off => fun v _ v' =>
      v' = on_vao (fun a => mkVertexArray (<[i := mkAttrib (array_buffer v) n ty stride off]> (attribs a)) (enabled a)
                              (element a)) v
  | glEnableVertexAttribArray i => fun v _ v' =>
      v' = on_vao (fun a => mkVertexArray (attribs a) ({[i]} ∪ enabled a) (element a)) v
  | glDrawElements mode count ty off => fun v _ v' => v' = set_back (back v ++ [drawing mode count ty off v]) v
  | _ => fun v _ v' => v' = v
  end.

(** A driver that behaves as documented. *)
Class GLSpec (D : Type) `{Driver D} := {
  view : D -> View;
  perform_view : forall {A} (c : Call A) d, transition c (view d) (fst (perform c d)) (view (snd (perform c d)));
}.

(** A driver on which nothing fails. *)
Record capable (D : Type) `{Driver D} : Prop := {
  cap_init : forall f d, 0 <= fst (perform (SDL_Init f) d);
  cap_window : forall t x y w h f d, exists n, fst (perform (SDL_CreateWindow t x y w h f) d) = Some n;
  cap_load : forall d, fst (perform gladLoadGLLoader d) = true;
  cap_compile : forall sid d, fst (perform (glGetShaderiv sid GL_COMPILE_STATUS) d) <> GL_FALSE;
  cap_link : forall p d, fst (perform (glGetProgramiv p GL_LINK_STATUS) d) <> GL_FALSE;
}.

(** ** Reasoning about the members *)

Section Members.
Context {D : Type} `{GLSpec D}.

(** [holds m Q o v]: run by the object [o] on a driver whose OpenGL is in the
    state [v], [m] ends with [Q] of its result, the object and the new state. *)
Definition outcome {A} (m : GM D A) (Q : A -> OpenGL -> View -> Prop) (o : OpenGL) (v : View) : Prop :=
  forall d l, view d = v -> let '(a, s) := m (mkGL o d l) in Q a (gl s) (view (drv s)).

Lemma outcome_bind {A B} (m : GM D A) (k : A -> GM D B) Q o v :
  outcome m (fun a o v => outcome (k a) Q o v) o v -> outcome (gl_bind m k) Q o v.
Proof.
  intros Hm d l Hd. unfold gl_bind. specialize (Hm d l Hd). destruct (m (mkGL o d l)) as [a [o' d' l']].
  by apply Hm.
Qed.

Lemma outcome_ret {A} (a : A) Q o v : Q a o v -> outcome (gl_ret a) Q o v.
Proof. intros HQ d l <-. exact HQ. Qed.

Lemma outcome_call {A} (c : Call A) Q o v :
  (forall a v', transition c v a v' -> (exists d, a = fst (perform c d)) -> Q a o v') -> outcome (call c) Q o v.
Proof.
  intros Hc d l <-. unfold call. cbn [drv gl printed]. pose proof (perform_view c d) as Ht.
  destruct (perform c d) as [a d'] eqn:E. cbn [drv gl]. apply Hc; [exact Ht |]. exists d. by rewrite E.
Qed.

Lemma outcome_this Q o v : Q o o v -> outcome (this (D := D)) Q o v.
Proof. intros HQ d l <-. exact HQ. Qed.

Lemma outcome_modify f Q o v : Q tt (f o) v -> outcome (modify (D := D) f) Q o v.
Proof. intros HQ d l <-. exact HQ. Qed.

Lemma outcome_report x Q o v : Q tt o v -> outcome (report (D := D) x) Q o v.
Proof. intros HQ d l <-. exact HQ. Qed.

Lemma outcome_mono {A} (m : GM D A) (P Q : A -> OpenGL -> View -> Prop) o v :
  outcome m P o v -> (forall a o v, P a o v -> Q a o v) -> outcome m Q o v.
Proof. intros Hm HPQ d l Hd. specialize (Hm d l Hd). destruct (m _) as [a s]. by apply HPQ. Qed.
End Members.

(** One step of a member. *)
Ltac gl_step :=
  lazymatch goal with
  | |- outcome (gl_bind _ _) _ _ _ => apply outcome_bind
  | |- outcome (gl_ret _) _ _ _ => apply outcome_ret
  | |- outcome this _ _ _ => apply outcome_this
  | |- outcome (modify _) _ _ _ => apply outcome_modify
  | |- outcome (report _) _ _ _ => apply outcome_report
  | |- outcome (call _) _ _ _ =>
      apply outcome_call; let a := fresh "a" in let v := fresh "v" in let T := fresh "T" in
      intros a v T _; cbn [transition] in T;
      repeat match type of T with _ = _ -> _ => specialize (T eq_refl) end;
      lazymatch type of T with
      | v = _ => subst v
      | _ /\ _ /\ v = _ => destruct T as (T & _ & ->)
      | exists _, v = _ => destruct T as (? & ->)
      | _ => idtac
      end
  end.

(** ** Ready to draw *)

(** The vertex array of the quad. *)
Definition quad_array (o : OpenGL) : VertexArray :=
  mkVertexArray {[ 0 := mkAttrib (vbo o) 3 GL_FLOAT 20 0; 1 := mkAttrib (vbo o) 2 GL_FLOAT 20 12 ]} {[0; 1]} (ebo o).

(** The two shaders, linked. *)
Definition quad_shaders : list (option (Z * string)) :=
  [Some (GL_VERTEX_SHADER, vertcode); Some (GL_FRAGMENT_SHADER, fragcode)].

Record ready (o : OpenGL) (v : View) : Prop := {
  rd_init : initialized o = true;
  rd_video : video v = true;
  rd_wnd : wnd v = window o /\ window o <> None;
  rd_ctx : ctx v = Some (context o);
  rd_program : exists l, programs v !! progid o = Some (mkProgram l (Some quad_shaders));
  rd_vao : vaos v !! vao o = Some (quad_array o);
  rd_vbo : buffers v !! vbo o = Some (Some (Floats vertices));
  rd_ebo : buffers v !! ebo o = Some (Some (Unsigneds indices));
}.

(** The drawing of the quad with a texture. *)
Definition quad (o : OpenGL) (im : option (option Image)) (d : Drawing) : Prop :=
  (exists l, dr_program d = Some (mkProgram l (Some quad_shaders))) /\ dr_vao d = Some (quad_array o) /\
  dr_vertices d = Some (Some (Floats vertices)) /\ dr_indices d = Some (Some (Unsigneds indices)) /\
  dr_mode d = GL_TRIANGLES /\ dr_count d = 6 /\ dr_type d = GL_UNSIGNED_INT /\ dr_offset d = 0 /\
  dr_texture d = im.

Section Ready.
Context {D : Type} `{GLSpec D}.

Lemma resize_ready w h o v : ready o v ->
  outcome (resize w h) (fun _ o' v' => o' = o /\ v' = v) o v.
Proof. intros Hr. unfold resize. gl_step. done. Qed.

Lemma use_ready id o v : ready o v ->
  outcome (use_texture id) (fun _ o' v' => o' = o /\ ready o v' /\ v' = set_bound id v) o v.
Proof.
  intros Hr. unfold use_texture. repeat gl_step. split; [done |]. split; [| done]. destruct Hr. by constructor.
Qed.

(** A new texture has a new name, and is bound. *)
Lemma create_ready w h data o v : ready o v ->
  outcome (create_texture w h data) (fun id o' v' => o' = o /\ ready o v' /\ bound v' = id /\
    textures v !! id = None /\ textures v' = <[id := Some (mkImage (s32 w) (s32 h) data)]> (textures v) /\
    presented v' = presented v) o v.
Proof.
  intros Hr. unfold create_texture. repeat gl_step.
  split; [done |]. split; [destruct Hr; by constructor |]. split; [done |]. split; [done |]. split; [| done].
  cbn. by rewrite insert_insert_eq.
Qed.

(** An update replaces the image of a texture of the same size. *)
Lemma update_ready id w h data old o v : ready o v -> textures v !! id = Some (Some (mkImage (s32 w) (s32 h) old)) ->
  outcome (update_texture id w h data) (fun _ o' v' => o' = o /\ ready o v' /\ bound v' = id /\
    textures v' = <[id := Some (mkImage (s32 w) (s32 h) (Some data))]> (textures v) /\
    presented v' = presented v) o v.
Proof.
  intros Hr Hid. unfold update_texture. gl_step. eapply outcome_mono; [by apply use_ready |].
  intros _ o' v' (-> & Hr' & ->). gl_step. specialize (T old Hid). subst. split_and!; try done.
  destruct Hr'. by constructor.
Qed.

(** A draw presents the quad with the bound texture, and nothing else. *)
Lemma draw_ready o v : ready o v ->
  outcome draw (fun _ o' v' => o' = o /\ ready o v' /\ textures v' = textures v /\ bound v' = bound v /\
    exists d, quad o (textures v !! bound v) d /\ presented v' = presented v ++ [[d]]) o v.
Proof.
  intros Hr. unfold draw. repeat gl_step. split; [done |].
  pose proof Hr as [Hi Hv Hw Hc (l & Hp) Ha Hvb Heb].
  assert (Ev : alter (fun a => mkVertexArray (attribs a) (enabled a) (ebo o)) (vao o) (vaos v) !! vao o = Some (quad_array o))
    by (by rewrite lookup_alter_eq, Ha).
  split.
  { constructor; try done. by exists l. }
  split; [done |]. split; [done |]. eexists. split; [| reflexivity].
  unfold quad, drawing. cbn -[quad_array lookup alter]. change (GL_ELEMENT_ARRAY_BUFFER =? GL_ARRAY_BUFFER) with false.
  cbn -[quad_array lookup alter]. rewrite Ev. split_and!; try done. by exists l.
Qed.

(** *** Initialisation *)

Lemma create_shader_runs p ty code name o v q :
  (forall sid d, fst (perform (glGetShaderiv sid GL_COMPILE_STATUS) d) <> GL_FALSE) -> programs v !! p = Some q ->
  outcome (create_shader p ty code name) (fun sid o' v' => o' = o /\ shaders v !! sid = None /\
    v' = set_programs (<[p := mkProgram (attached q ++ [sid]) (linked q)]> (programs v))
           (set_shaders (<[sid := (ty, code)]> (shaders v)) v)) o v.
Proof.
  intros Hok Hq. unfold create_shader. do 7 gl_step.
  apply outcome_call. intros r v' Tr [d Er]. cbn [transition] in Tr. subst v'.
  replace (r =? GL_FALSE) with false by (symmetry; apply Z.eqb_neq; rewrite Er; apply Hok).
  repeat gl_step. split; [done |]. split; [done |]. cbn. rewrite alter_insert_eq. cbn.
  f_equal. apply map_eq. intros j. destruct (decide (j = p)) as [-> |].
  - by rewrite lookup_alter_eq, lookup_insert_eq, Hq.
  - by rewrite lookup_alter_ne, lookup_insert_ne.
Qed.

Lemma create_program_runs o v : capable D ->
  outcome create_program (fun _ o' v' => exists p l sh, o' = set_progid p o /\
    v' = set_shaders sh (set_programs (<[p := mkProgram l (Some quad_shaders)]> (programs v)) v)) o v.
Proof.
  intros [_ _ _ Hcomp Hlink]. unfold create_program. do 5 gl_step.
  eapply outcome_mono; [apply create_shader_runs; [exact Hcomp | apply lookup_insert_eq] |].
  intros vs o1 v1 (-> & Hvs & ->). gl_step.
  eapply outcome_mono; [apply create_shader_runs; [exact Hcomp | apply lookup_insert_eq] |].
  intros fs o2 v2 (-> & Hfs & ->). do 3 gl_step. apply outcome_call. intros r v' Tr [d Er]. cbn [transition] in Tr. subst v'.
  replace (r =? GL_FALSE) with false by (symmetry; apply Z.eqb_neq; rewrite Er; apply Hlink).
  repeat gl_step.
  eexists a, [vs; fs], _. split; [done |]. cbn -[lookup insert alter].
  rewrite alter_insert_eq. cbn -[lookup insert]. rewrite !insert_insert_eq.
  cbn in Hfs. assert (vs <> fs) by (intros ->; by rewrite lookup_insert_eq in Hfs).
  rewrite lookup_insert_ne by done. rewrite !lookup_insert_eq. reflexivity.
Qed.

Lemma create_objects_runs o v :
  outcome create_objects (fun _ o' v' => exists va vb eb, o' = set_ebo eb (set_vbo vb (set_vao va o)) /\ vb <> eb /\
    buffers v' !! vb = Some (Some (Floats vertices)) /\ buffers v' !! eb = Some (Some (Unsigneds indices)) /\
    vaos v' !! va = Some (quad_array o') /\
    programs v' = programs v /\ video v' = video v /\ wnd v' = wnd v /\ ctx v' = ctx v /\
    presented v' = presented v /\ textures v' = textures v) o v.
Proof.
  unfold create_objects. repeat gl_step. rename a into va, a0 into vb, a1 into eb.
  cbn -[lookup insert alter quad_array] in *. unfold bound_buffer.
  cbn -[lookup insert alter quad_array]. rewrite !lookup_alter_eq, lookup_insert_eq.
  cbn -[lookup insert alter quad_array].
  assert (vb <> eb) by (intros ->; by rewrite lookup_insert_eq in T1).
  exists va, vb, eb. split; [done |]. split; [done |].
  split. { by rewrite lookup_insert_ne, lookup_insert_eq by done. }
  split. { by rewrite lookup_insert_eq. }
  split; [| done]. rewrite !lookup_alter_eq, lookup_insert_eq. cbn -[insert union]. reflexivity.
Qed.

(** On a driver where nothing fails the object is ready to draw. *)
Lemma init_ready v : capable D ->
  outcome init (fun b o' v' => b = true /\ ready o' v' /\ presented v' = presented v /\ textures v' = textures v) new_opengl v.
Proof.
  intros Hcap. pose proof Hcap as [Hinit Hwin Hload _ _]. unfold init. gl_step.
  apply outcome_call. intros st v1 T [d Ed]. cbn [transition] in T.
  assert (Hst : (st <? 0) = false) by (apply Z.ltb_ge; rewrite Ed; apply Hinit). rewrite Hst in T |- *. subst v1.
  do 9 gl_step. apply outcome_call. intros w v1 T [d1 Ed1]. cbn [transition] in T.
  destruct (Hwin "Window"%string SDL_WINDOWPOS_CENTERED SDL_WINDOWPOS_CENTERED DEF_WIDTH DEF_HEIGTH
    [SDL_WINDOW_OPENGL; SDL_WINDOW_SHOWN; SDL_WINDOW_RESIZABLE] d1) as [n En]. rewrite En in Ed1. subst w v1.
  do 4 gl_step. specialize (T ltac:(done)). subst. do 3 gl_step.
  apply outcome_call. intros b v1 T [d2 Ed2]. cbn [transition] in T. rewrite Hload in Ed2. subst b v1. cbn [negb].
  do 3 gl_step. eapply outcome_mono; [by apply create_program_runs |]. intros _ o1 v1 (p & l & sh & -> & ->).
  gl_step. eapply outcome_mono; [apply create_objects_runs |].
  intros _ o2 v2 (va & vb & eb & -> & Hne & Hvb & Heb & Hva & Ep & Evi & Ew & Ec & Epr & Etx).
  repeat gl_step. split; [done |]. split; [| done]. constructor; try done.
  exists l. cbn. rewrite Ep. cbn. by rewrite lookup_insert_eq.
Qed.

Lemma outcome_any {A} (m : GM D A) (Q : A -> OpenGL -> View -> Prop) o v : (forall a o v, Q a o v) -> outcome m Q o v.
Proof. intros HQ d l _. destruct (m _) as [a s]. apply HQ. Qed.

(** [init] fails where SDL or the loader do, and nothing of it is left then.
    It succeeds otherwise, even without a window and with shaders that do not
    compile. *)
Lemma init_result o v :
  outcome init (fun b o' v' =>
    (b = true -> initialized o' = true) /\
    (b = false -> initialized o' = initialized o /\ (v' = v \/ video v' = false /\ wnd v' = None /\ ctx v' = None))) o v.
Proof.
  unfold init. do 2 gl_step. destruct (Z.ltb_spec a 0); [repeat gl_step; split; [done | by intros _; split; [| left]] |].
  do 9 gl_step. apply outcome_call. intros w v1 _ _. do 3 gl_step. apply outcome_call. intros c v2 _ _.
  do 3 gl_step. apply outcome_call. intros b v3 _ _. destruct b; cbn [negb].
  - gl_step. apply outcome_any. intros _ o1 v4. gl_step. apply outcome_any. intros _ o2 v5.
    gl_step. apply outcome_any. intros _ o3 v6. repeat gl_step. done.
  - repeat gl_step. destruct T as (E1 & E2 & E3). split; [done |]. intros _. split; [done |]. right.
    cbn. by rewrite E1.
Qed.

Lemma init_succeeds o v : (forall f d, 0 <= fst (perform (SDL_Init f) d)) ->
  (forall d, fst (perform gladLoadGLLoader d) = true) ->
  outcome init (fun b o' _ => b = true /\ initialized o' = true) o v.
Proof.
  intros Hi Hl. unfold init. gl_step. apply outcome_call. intros st v1 _ [d Ed].
  replace (st <? 0) with false by (symmetry; apply Z.ltb_ge; rewrite Ed; apply Hi).
  do 8 gl_step. gl_step. apply outcome_call. intros w v2 _ _. do 3 gl_step. apply outcome_call. intros c v3 _ _.
  do 3 gl_step. apply outcome_call. intros b v4 _ [d1 Eb]. rewrite Hl in Eb. subst b. cbn [negb].
  gl_step. apply outcome_any. intros _ o1 v5. gl_step. apply outcome_any. intros _ o2 v6.
  gl_step. apply outcome_any. intros _ o3 v7. repeat gl_step. done.
Qed.

(** The destructor leaves no window and no context, and does nothing the second
    time. *)
Lemma destroy_ready o v : ready o v ->
  outcome destroy (fun _ o' v' => o' = set_initialized false o /\ video v' = false /\ wnd v' = None /\ ctx v' = None) o v.
Proof.
  intros Hr. unfold destroy. do 2 gl_step. rewrite (rd_init o v Hr). cbn [negb]. repeat gl_step.
  split; [done |]. destruct T2 as (Ha & Hb & Hc). split; [done |]. split; [exact Hb | exact Ha].
Qed.

Lemma destroy_idle o v : initialized o = false -> outcome destroy (fun _ o' v' => o' = o /\ v' = v) o v.
Proof. intros Hi. unfold destroy. do 2 gl_step. rewrite Hi. cbn [negb]. by gl_step. Qed.
End Ready.

(** ** An instance *)

(** A driver that keeps the state and hands out fresh names; nothing fails. *)
Definition new_name {A} (m : gmap Z A) : Z := base.fresh (dom m ∪ {[0]} : gset Z).

Definition soft_perform {A} (c : Call A) (v : View) : A * View :=
  match c in Call A return A * View with
  | SDL_Init _ => (0, set_video true v)
  | SDL_GetError => (EmptyString, v)
  | SDL_GL_SetAttribute _ _ => (tt, v)
  | SDL_CreateWindow _ _ _ _ _ _ => (Some 1, set_wnd (Some 1) v)
  | SDL_GL_CreateContext _ => (1, set_ctx (Some 1) v)
  | SDL_GL_DeleteContext _ => (tt, set_ctx None v)
  | SDL_DestroyWindow _ => (tt, set_wnd None v)
  | SDL_Quit => (tt, set_video false v)
  | SDL_GL_SetSwapInterval _ => (tt, v)
  | SDL_GL_SwapWindow _ => (tt, set_presented (presented v ++ [back v]) v)
  | gladLoadGLLoader => (true, v)
  | glGetError => (GL_NO_ERROR, v)
  | glClearColor _ _ _ _ => (tt, v)
  | glClear _ => (tt, set_back [] v)
  | glViewport _ _ _ _ => (tt, v)
  | glActiveTexture _ => (tt, v)
  | glGenTextures => let id := new_name (textures v) in (id, set_textures (<[id := None]> (textures v)) v)
  | glBindTexture _ id => (tt, set_bound id v)
  | glTexParameteri _ _ _ => (tt, v)
  | glTexImage2D _ _ _ w h _ _ _ data => (tt, set_textures (<[bound v := Some (mkImage w h data)]> (textures v)) v)
  | glTexSubImage2D _ _ _ _ w h _ _ data =>
      (tt, set_textures (<[bound v := Some (mkImage w h (Some data))]> (textures v)) v)
  | glCreateShader ty => let id := new_name (shaders v) in (id, set_shaders (<[id := (ty, EmptyString)]> (shaders v)) v)
  | glShaderSource sid code => (tt, set_shaders (alter (fun s => (fst s, code)) sid (shaders v)) v)
  | glCompileShader _ => (tt, v)
  | glGetShaderiv _ _ => (1, v)
  | glGetShaderInfoLog _ _ => (EmptyString, v)
  | glAttachShader p sid =>
      (tt, set_programs (alter (fun q => mkProgram (attached q ++ [sid]) (linked q)) p (programs v)) v)
  | glDeleteShader sid => (tt, set_shaders (delete sid (shaders v)) v)
  | glCreateProgram => let id := new_name (programs v) in (id, set_programs (<[id := mkProgram [] None]> (programs v)) v)
  | glLinkProgram p =>
      (tt, set_programs (alter (fun q => mkProgram (attached q) (Some ((fun sid => shaders v !! sid) <$> attached q)))
             p (programs v)) v)
  | glGetProgramiv _ _ => (1, v)
  | glGetProgramInfoLog _ _ => (EmptyString, v)
  | glUseProgram p => (tt, set_used p v)
  | glGetUniformLocation _ _ => (0, v)
  | glUniform1i _ _ => (tt, v)
  | glGenVertexArrays => let id := new_name (vaos v) in (id, set_vaos (<[id := mkVertexArray ∅ ∅ 0]> (vaos v)) v)
  | glBindVertexArray id => (tt, set_vertex_array id v)
  | glDeleteVertexArrays id => (tt, set_vaos (delete id (vaos v)) v)
  | glGenBuffers => let id := new_name (buffers v) in (id, set_buffers (<[id := None]> (buffers v)) v)
  | glBindBuffer target id =>
      (tt, if target =? GL_ARRAY_BUFFER then set_array_buffer id v
           else on_vao (fun a => mkVertexArray (attribs a) (enabled a) id) v)
  | glBufferData target _ data _ => (tt, set_buffers (<[bound_buffer target v := Some data]> (buffers v)) v)
  | glDeleteBuffers id => (tt, set_buffers (delete id (buffers v)) v)
  | glVertexAttribPointer i n ty _ stride off =>
      (tt, on_vao (fun a => mkVertexArray (<[i := mkAttrib (array_buffer v) n ty stride off]> (attribs a)) (enabled a)
                              (element a)) v)
  | glEnableVertexAttribArray i => (tt, on_vao (fun a => mkVertexArray (attribs a) ({[i]} ∪ enabled a) (element a)) v)
  | glDrawElements mode count ty off => (tt, set_back (back v ++ [drawing mode count ty off v]) v)
  end.

#[export] Instance soft_driver : Driver View := {| perform _ c v := soft_perform c v |}.

Lemma new_name_fresh {A} (m : gmap Z A) : m !! new_name m = None /\ new_name m <> 0.
Proof.
  pose proof (is_fresh (dom m ∪ {[0]} : gset Z)) as Hf. fold (new_name m) in Hf. split.
  - apply not_elem_of_dom. set_solver.
  - set_solver.
Qed.

#[export] Instance soft_spec : GLSpec View.
Proof.
  exists (fun v => v). intros A c v. cbn [perform soft_driver].
  destruct c; try (by cbn); cbn [soft_perform transition fst snd]; try (intros; reflexivity);
    try (split; [apply new_name_fresh | split; [apply new_name_fresh | reflexivity]]).
  - by exists (back v).
  - by exists (delete sid (shaders v)).
Defined.

Lemma soft_capable : capable View.
Proof. constructor; intros; cbn; try done. by exists 1. Qed.

Definition blank_view : View := mkView false None None ∅ ∅ 0 ∅ 0 ∅ 0 ∅ 0 [] [].
