(* ===== verification/Pictures.v ===== *)
(** * Who owns the pixels ([emu/video/video.hpp], [emu/video/video.cpp])

    [Canvas] and [ImageTexture] own a block of memory through a raw pointer: here
    they are objects over an explicit heap, with their constructors, destructors
    and (defaulted) moves.  [Video] has the same canvas as a value.  The picture
    loader is a vendored library, and a parameter: [stbi_load]. *)

From stdpp Require Import strings.
From S2P Require Import Prelude HeapArray Video.
From S2P Require OpenGL OpenGLSpec.
Open Scope Z_scope.

(** ** The heap

    Blocks by address.  Addresses are not used twice, so that a use after [free]
    is always noticed; 0 is the null pointer. *)

Record Heap := mkHeap { blocks : gmap Z HeapArray; next : Z }.

Definition alloc (a : HeapArray) (h : Heap) : Z * Heap :=
  (next h, mkHeap (<[next h := a]> (blocks h)) (next h + 1)).

Definition deref (p : Z) (h : Heap) : Res HeapArray :=
  match blocks h !! p with Some a => Ok a | None => Err BadPointer end.

Definition store (p : Z) (a : HeapArray) (h : Heap) : Res Heap :=
  let? _ := deref p h in Ok (mkHeap (<[p := a]> (blocks h)) (next h)).

(** [delete[]] and [stbi_image_free]: nothing for the null pointer. *)
Definition free (p : Z) (h : Heap) : Res Heap :=
  if p =? 0 then Ok h
  else let? _ := deref p h in Ok (mkHeap (delete p (blocks h)) (next h)).

Record heap_ok (h : Heap) : Prop := {
  hp_next : 0 < next h;
  hp_blocks : forall p, is_Some (blocks h !! p) -> 0 < p < next h;
}.

(** ** The objects: a texture and a pointer *)

Record Owner := mkOwner { otex : Texture; opix : Z }.

(** The defaulted moves copy both members and leave the source as it was: the
    results are the target and the source. *)
Definition move_new (src : Owner) : Owner * Owner := (src, src).
Definition move_assign (dst src : Owner) : Owner * Owner := (src, src).

(** [Canvas::~Canvas], [ImageTexture::~ImageTexture] *)
Definition destroy_canvas (o : Owner) (h : Heap) : Res Heap :=
  if negb (opix o =? 0) then free (opix o) h else Ok h.
Definition destroy_image (o : Owner) (h : Heap) : Res Heap := free (opix o) h.

(** [Canvas::drawpixel] *)
Definition draw_pixel (o : Owner) (x y color : Z) (h : Heap) : Res Heap :=
  if negb (pixel_inside (otex o) (pixel_pos (otex o) x y)) then Err AssertFailure
  else
    let? f := deref (opix o) h in
    let? c := drawpixel (mkCanvas (otex o) f) x y color in
    store (opix o) (frame c) h.

Section Objects.
Context {G : Type} `{VideoImpl G}.
Implicit Types (h : Heap) (c : Context G).

(** [Canvas(ctx, width, height)], [Canvas::update], [Canvas::reset] *)
Definition construct_canvas (fr : Z -> Z) (width height : Z) h c : Res (Owner * Heap * Context G) :=
  let? '(t, c) := new_texture width height None c in
  let '(p, h) := alloc (reset fr (u64 (width * height * 4))) h in
  Ok (mkOwner t p, h, c).

Definition update_pixels (o : Owner) h c : Res (Context G) :=
  let? f := deref (opix o) h in update_tex (otex o) f c.

Definition rebind_canvas (o : Owner) c : Res (Owner * Context G) :=
  let? '(t, c) := reset_texture (otex o) None c in Ok (mkOwner t (opix o), c).

(** [stbi_load(pathname, &width, &height, &channels, 0)]: the size, the channels
    and the bytes of a picture, or null. *)
Context (stbi_load : string -> option (Z * Z * Z * HeapArray)).

(** The pointer and the size after [stbi_load] and the assertion. *)
Definition load_pixels (pathname : string) h : Res (Z * Z * Z * Heap) :=
  match stbi_load pathname with
  | None => Err AssertFailure
  | Some (width, height, channels, a) =>
      let '(p, h) := alloc a h in
      if negb (channels =? 4) then Err AssertFailure else Ok (p, u64 width, u64 height, h)
  end.

(** [ImageTexture(pathname, ctx)], [ImageTexture::reload], [ImageTexture::reset],
    [ImageTexture::use] *)
Definition construct_image (pathname : string) h c : Res (Owner * Heap * Context G) :=
  let? '(p, width, height, h) := load_pixels pathname h in
  let? a := deref p h in
  let? '(t, c) := new_texture width height (Some a) c in
  Ok (mkOwner t p, h, c).

Definition reload_image (o : Owner) (pathname : string) h c : Res (Owner * Heap * Context G) :=
  let? '(p, width, height, h) := load_pixels pathname h in
  let? a := deref p h in
  let? '(t, c) := update_tex_sized (otex o) width height a c in
  Ok (mkOwner t p, h, c).

Definition rebind_image (o : Owner) h c : Res (Owner * Context G) :=
  let? data := (if opix o =? 0 then Ok None else let? a := deref (opix o) h in Ok (Some a)) in
  let? '(t, c) := reset_texture (otex o) data c in Ok (mkOwner t (opix o), c).

Definition use_image (o : Owner) c : Res (Context G) := use_tex (otex o) c.

(** [Context::reset] does nothing. *)
Definition reset_context c : Context G := c.

(** *** Several operations *)

(** Pixels drawn one after the other, on the object and on the value. *)
Fixpoint draw_pixels (o : Owner) (l : list (Z * Z * Z)) h : Res Heap :=
  match l with
  | [] => Ok h
  | (x, y, color) :: l => let? h := draw_pixel o x y color h in draw_pixels o l h
  end.

Fixpoint draws (cv : Canvas) (l : list (Z * Z * Z)) : Res Canvas :=
  match l with
  | [] => Ok cv
  | (x, y, color) :: l => let? cv := drawpixel cv x y color in draws cv l
  end.

Fixpoint reload_images (o : Owner) (names : list string) h c : Res (Owner * Heap * Context G) :=
  match names with
  | [] => Ok (o, h, c)
  | name :: names => let? '(o, h, c) := reload_image o name h c in reload_images o names h c
  end.
End Objects.

(** ** Lemmas *)

Lemma alloc_ok a h p h' : heap_ok h -> alloc a h = (p, h') ->
  heap_ok h' /\ 0 < p /\ blocks h !! p = None /\ blocks h' = <[p := a]> (blocks h).
Proof.
  intros [Hn Hb] [= <- <-]. assert (Hf : blocks h !! next h = None).
  { destruct (blocks h !! next h) eqn:E; [| done]. pose proof (Hb (next h) ltac:(by eexists)). lia. }
  split_and!; try done. constructor; cbn [next blocks]; [lia |].
  intros q [Hq | Hq]%lookup_insert_is_Some'; [lia |]. pose proof (Hb q Hq). lia.
Qed.

Lemma free_ok p h : p <> 0 -> free p h = let? _ := deref p h in Ok (mkHeap (delete p (blocks h)) (next h)).
Proof. intros Hp. unfold free. by rewrite (proj2 (Z.eqb_neq p 0) Hp). Qed.

(** Freeing a block once, and twice. *)
Lemma free_block p a h : p <> 0 -> deref p h = Ok a ->
  free p h = Ok (mkHeap (delete p (blocks h)) (next h)) /\
  free p (mkHeap (delete p (blocks h)) (next h)) = Err BadPointer.
Proof.
  intros Hp Hd. rewrite !free_ok, Hd by done. split; [done |]. unfold deref. cbn [blocks].
  by rewrite lookup_delete_eq.
Qed.

Lemma destroy_canvas_free o h : destroy_canvas o h = free (opix o) h.
Proof. unfold destroy_canvas, free. by destruct (opix o =? 0). Qed.

Lemma drawpixel_tex cv x y color cv' : drawpixel cv x y color = Ok cv' -> tex cv' = tex cv.
Proof.
  unfold drawpixel. destruct (negb _); [done |]. cbv zeta.
  by intros (? & _ & (? & _ & (? & _ & (? & _ & [= <-])%rbind_Ok)%rbind_Ok)%rbind_Ok)%rbind_Ok.
Qed.

(** Drawing through the pointer is drawing on the value, errors included. *)
Lemma draw_pixel_value o x y color h f : deref (opix o) h = Ok f ->
  draw_pixel o x y color h =
  let? cv := drawpixel (mkCanvas (otex o) f) x y color in Ok (mkHeap (<[opix o := frame cv]> (blocks h)) (next h)).
Proof.
  intros Hd. unfold draw_pixel. rewrite Hd. cbn [rbind]. unfold store. rewrite Hd. cbn [rbind].
  destruct (pixel_inside (otex o) (pixel_pos (otex o) x y)) eqn:E; [done |].
  unfold drawpixel. cbn [tex]. by rewrite E.
Qed.

Lemma draw_pixels_value o l h f : deref (opix o) h = Ok f ->
  draw_pixels o l h =
  let? cv := draws (mkCanvas (otex o) f) l in Ok (mkHeap (<[opix o := frame cv]> (blocks h)) (next h)).
Proof.
  revert h f. induction l as [| [[x y] color] l IH]; intros h f Hd.
  - cbn. rewrite insert_id; [by destruct h |]. unfold deref in Hd. by case_match; simplify_eq.
  - cbn [draw_pixels draws]. rewrite (draw_pixel_value o x y color h f Hd).
    destruct (drawpixel (mkCanvas (otex o) f) x y color) as [cv | e] eqn:E; cbn [rbind]; [| done].
    apply drawpixel_tex in E as Et. cbn [tex] in Et.
    rewrite (IH _ (frame cv)) by (unfold deref; cbn [blocks]; by rewrite lookup_insert_eq).
    replace (mkCanvas (otex o) (frame cv)) with cv by (destruct cv; cbn in *; congruence).
    destruct (draws cv l); cbn [rbind blocks next]; [| done]. by rewrite insert_insert_eq.
Qed.

(** The context answers once it was initialised. *)
Lemma through_ok {G A} `{VideoImpl G} (f : G -> A * G) c g : ptr c = Some g ->
  through f c = Ok (fst (f g), mkContext (Some (snd (f g))) (wnd_width c) (wnd_height c)).
Proof. intros E. unfold through. rewrite E. by destruct (f g). Qed.

(** ** Claims *)

(** C33: the memory of a canvas.  A constructed canvas owns a new block, and
    drawing through its pointer is drawing on the canvas as a value, errors
    included.  Destroying it gives back the heap of before.  But the moves leave
    two owners of one block: the destructor that runs second frees it again, and
    the block of a canvas that was moved over stays allocated. *)
Theorem canvas_lifetime {G} `{VideoImpl G} fr width height h (c : Context G) g : heap_ok h -> ptr c = Some g ->
  exists o h1 c1, construct_canvas fr width height h c = Ok (o, h1, c1) /\
    (forall l, draw_pixels o l h1 = let? cv := draws (new_canvas (tex_id (otex o)) fr width height) l in
       Ok (mkHeap (<[opix o := frame cv]> (blocks h1)) (next h1))) /\
    (forall l h2, draw_pixels o l h1 = Ok h2 -> exists h3, destroy_canvas o h2 = Ok h3 /\ blocks h3 = blocks h) /\
    (let '(target, source) := move_new o in
     exists h2, destroy_canvas target h1 = Ok h2 /\ destroy_canvas source h2 = Err BadPointer) /\
    (forall o', is_Some (blocks h !! opix o') -> opix o' <> 0 ->
     let '(target, source) := move_assign o o' in
     exists h2, destroy_canvas target h1 = Ok h2 /\ is_Some (blocks h2 !! opix o) /\
       destroy_canvas source h2 = Err BadPointer).
Proof.
  intros Hh Hg. unfold construct_canvas, new_texture. rewrite (through_ok _ c g Hg). cbn [rbind].
  destruct (create_texture width height None g) as [id g']. cbn [fst snd].
  set (a := reset fr (u64 (width * height * 4))).
  destruct (alloc a h) as [p h1] eqn:Ea. destruct (alloc_ok a h p h1 Hh Ea) as (Hh1 & Hp & Hn & Eb).
  eexists _, h1, _. split; [reflexivity |]. cbn [otex opix tex_id].
  assert (Hd : deref p h1 = Ok a) by (unfold deref; by rewrite Eb, lookup_insert_eq).
  assert (Hdraw : forall l, draw_pixels (mkOwner (mkTexture id width height) p) l h1 =
    let? cv := draws (new_canvas id fr width height) l in Ok (mkHeap (<[p := frame cv]> (blocks h1)) (next h1)))
    by (intros l; by apply draw_pixels_value).
  split; [exact Hdraw |]. split; [| split].
  - intros l h2 E. rewrite Hdraw in E. apply rbind_Ok in E as (cv & _ & [= <-]).
    rewrite destroy_canvas_free. cbn [opix].
    destruct (free_block p (frame cv) (mkHeap (<[p := frame cv]> (blocks h1)) (next h1))) as [-> _]; [lia | |].
    + unfold deref. cbn [blocks]. by rewrite lookup_insert_eq.
    + eexists. split; [reflexivity |]. cbn [blocks]. by rewrite delete_insert_eq, Eb, delete_insert_eq, delete_id.
  - cbn [move_new]. destruct (free_block p a h1) as [E1 E2]; [lia | done |].
    eexists. rewrite !destroy_canvas_free. cbn [opix]. split; [exact E1 | exact E2].
  - intros o' [b Hb'] Hp'. cbn [move_assign].
    assert (Hne : opix o' <> p) by congruence.
    destruct (free_block (opix o') b h1) as [E1 E2]; [done | |].
    + unfold deref. by rewrite Eb, lookup_insert_ne, Hb'.
    + eexists. rewrite !destroy_canvas_free. split; [exact E1 |]. split; [| exact E2].
      cbn [blocks]. rewrite lookup_delete_ne by done. rewrite Eb, lookup_insert_eq. by eexists.
Qed.

#[local] Existing Instance OpenGLSpec.soft_driver.

(** A context over the OpenGL back end, and an empty heap. *)
Definition demo_context : Context (OpenGL.GLState OpenGLSpec.View) :=
  mkContext (Some (new_impl (VideoImpl := OpenGL.opengl_impl OpenGLSpec.blank_view))) 512 480.
Definition demo_heap : Heap := mkHeap ∅ 1.

Lemma demo_heap_ok : heap_ok demo_heap.
Proof. constructor; [done |]. intros p [a Hp]. done. Qed.

Lemma canvas_lifetime_witness : exists o h1 c1,
  construct_canvas (H := OpenGL.opengl_impl OpenGLSpec.blank_view) (fun _ => 0) 256 240 demo_heap demo_context = Ok (o, h1, c1) /\
  let '(target, source) := move_new o in
  exists h2, destroy_canvas target h1 = Ok h2 /\ destroy_canvas source h2 = Err BadPointer.
Proof.
  destruct (canvas_lifetime (H := OpenGL.opengl_impl OpenGLSpec.blank_view) (fun _ => 0) 256 240 demo_heap demo_context
    _ demo_heap_ok eq_refl) as (o & h1 & c1 & E & _ & _ & Hm & _).
  exists o, h1, c1. split; [exact E | exact Hm].
Defined.

(** *** Pictures *)

Section Images.
Context {G : Type} `{VideoImpl G} (stbi_load : string -> option (Z * Z * Z * HeapArray)).

(** A file with a picture of four channels. *)
Definition picture (name : string) (width height : Z) (a : HeapArray) : Prop :=
  stbi_load name = Some (width, height, 4, a).

Lemma load_picture name width height a h : picture name width height a ->
  load_pixels stbi_load name h = Ok (next h, u64 width, u64 height, snd (alloc a h)).
Proof. intros E. unfold load_pixels. by rewrite E. Qed.

Lemma deref_new a h : deref (next h) (snd (alloc a h)) = Ok a.
Proof. unfold deref. cbn [alloc snd blocks]. by rewrite lookup_insert_eq. Qed.

(** What an image has while it is alive: a block with the bytes of its picture,
    and a texture of its size. *)
Definition holds_picture (o : Owner) (h : Heap) (width height : Z) (a : HeapArray) : Prop :=
  opix o <> 0 /\ deref (opix o) h = Ok a /\ tw (otex o) = u64 width /\ th (otex o) = u64 height.

Lemma construct_picture name width height a h (c : Context G) g : heap_ok h -> ptr c = Some g ->
  picture name width height a -> exists o c1,
  construct_image stbi_load name h c = Ok (o, snd (alloc a h), c1) /\ is_Some (ptr c1) /\
  holds_picture o (snd (alloc a h)) width height a.
Proof.
  intros Hh Hg Hp. unfold construct_image. rewrite (load_picture _ _ _ _ _ Hp). cbn [rbind].
  rewrite deref_new. cbn [rbind]. unfold new_texture. rewrite (through_ok _ c g Hg). cbn [rbind].
  destruct (create_texture _ _ _ g) as [id g']. eexists _, _. split; [reflexivity |].
  split; [by eexists |]. unfold holds_picture. cbn [opix otex tw th].
  split; [pose proof (hp_next h Hh); lia |]. split; [apply deref_new | done].
Qed.

Lemma reload_picture o name width height a h (c : Context G) g : heap_ok h -> ptr c = Some g ->
  picture name width height a -> exists o1 c1,
  reload_image stbi_load o name h c = Ok (o1, snd (alloc a h), c1) /\ is_Some (ptr c1) /\
  holds_picture o1 (snd (alloc a h)) width height a /\ tex_id (otex o1) = tex_id (otex o).
Proof.
  intros Hh Hg Hp. unfold reload_image. rewrite (load_picture _ _ _ _ _ Hp). cbn [rbind].
  rewrite deref_new. cbn [rbind]. unfold update_tex_sized, update_tex, through_.
  rewrite (through_ok _ c g Hg). cbn [rbind]. eexists _, _. split; [reflexivity |].
  split; [by eexists |]. unfold holds_picture. cbn [opix otex tw th tex_id].
  split; [|done]. split; [pose proof (hp_next h Hh); lia |]. split; [apply deref_new | done].
Qed.

(** Reloading allocates and never frees. *)
Lemma reload_pictures o names h (c : Context G) g width height a : heap_ok h -> ptr c = Some g ->
  holds_picture o h width height a ->
  Forall (fun name => exists width height a, picture name width height a) names ->
  exists o1 h1 c1, reload_images stbi_load o names h c = Ok (o1, h1, c1) /\ heap_ok h1 /\
    tex_id (otex o1) = tex_id (otex o) /\ opix o1 <> 0 /\ (exists b, deref (opix o1) h1 = Ok b) /\
    blocks h ⊆ blocks h1 /\ base.size (blocks h1) = (base.size (blocks h) + length names)%nat /\
    (forall name width height b, last names = Some name -> picture name width height b ->
       holds_picture o1 h1 width height b).
Proof.
  intros Hh Hg Ho Hn. revert o h c g width height a Hh Hg Ho.
  induction Hn as [| name names (w & ht & b & Hp) Hn IH]; intros o h c g width height a Hh Hg Ho.
  - exists o, h, c. cbn [reload_images length]. destruct Ho as (Hz & Hd & _).
    do 4 (split; [done |]). split; [by eexists |]. split; [done |]. split; [lia | done].
  - destruct (reload_picture o name w ht b h c g Hh Hg Hp) as (o1 & c1 & E & [g1 Hg1] & Ho1 & Et).
    destruct (alloc_ok b h (next h) _ Hh eq_refl) as (Hh1 & _ & Hf & Eb).
    change (mkHeap _ _) with (snd (alloc b h)) in Hh1, Eb.
    destruct (IH o1 (snd (alloc b h)) c1 g1 w ht b Hh1 Hg1 Ho1) as (o2 & h2 & c2 & E2 & Hh2 & Et2 & Hz & Hd & Hs & Hc & Hl).
    exists o2, h2, c2. cbn [reload_images length]. rewrite E. cbn [rbind]. split; [exact E2 |]. split; [done |].
    split; [congruence |]. split; [done |]. split; [done |]. split; [|split].
    + etrans; [| exact Hs]. rewrite Eb. by apply insert_subseteq.
    + rewrite Hc, Eb, map_size_insert_None by done. lia.
    + intros name' w' ht' b' El Hp'. destruct names as [| n2 names].
      * injection El as <-. injection E2 as <- <- _. unfold picture in *. rewrite Hp in Hp'. by injection Hp' as <- <- <-.
      * by apply (Hl name').
Qed.
End Images.

(** An image keeps every picture it has loaded.  It can be constructed from
    one picture and reloaded from others without a fault, and then shows the last
    of them under the same texture name; its destructor frees that one only, so
    each call of [reload] leaves a block that nothing refers to. *)
Theorem images_leak {G} `{VideoImpl G} stbi_load first names h (c : Context G) g : heap_ok h -> ptr c = Some g ->
  Forall (fun name => exists width height a, picture stbi_load name width height a) (first :: names) ->
  exists o h1 c1 o2 h2 c2 h3,
    construct_image stbi_load first h c = Ok (o, h1, c1) /\ reload_images stbi_load o names h1 c1 = Ok (o2, h2, c2) /\
    tex_id (otex o2) = tex_id (otex o) /\
    (forall name width height a, last (first :: names) = Some name -> picture stbi_load name width height a ->
       holds_picture o2 h2 width height a) /\
    destroy_image o2 h2 = Ok h3 /\ base.size (blocks h3) = (base.size (blocks h) + length names)%nat.
Proof.
  intros Hh Hg Hn. inversion Hn as [| ? ? (w & ht & a & Hp) Hn']. subst.
  destruct (construct_picture stbi_load first w ht a h c g Hh Hg Hp) as (o & c1 & E & [g1 Hg1] & Ho).
  destruct (alloc_ok a h (next h) _ Hh eq_refl) as (Hh1 & _ & Hf & Eb).
  change (mkHeap _ _) with (snd (alloc a h)) in Hh1, Eb.
  destruct (reload_pictures stbi_load o names (snd (alloc a h)) c1 g1 w ht a Hh1 Hg1 Ho Hn')
    as (o2 & h2 & c2 & E2 & Hh2 & Et & Hz & [b Hd] & _ & Hs & Hl).
  destruct (free_block (opix o2) b h2 Hz Hd) as [Ef _].
  eexists o, _, c1, o2, h2, c2, _. split; [exact E |]. split; [exact E2 |]. split; [exact Et |].
  split; [| split; [exact Ef |]].
  - intros name w' ht' b' El Hp'. destruct names as [| n2 names].
    + injection El as <-. injection E2 as <- <- _. unfold picture in *. rewrite Hp in Hp'. by injection Hp' as <- <- <-.
    + by apply (Hl name).
  - cbn [blocks]. unfold deref in Hd. case_match; [| done].
    rewrite map_size_delete_Some by (by eexists). rewrite Hs, Eb, map_size_insert_None by done. lia.
Qed.

Lemma images_leak_witness : exists o h1 c1 o2 h2 c2 h3,
  let load (name : string) := Some (2, 1, 4, static_array 8) in
  construct_image (H := OpenGL.opengl_impl OpenGLSpec.blank_view) load "a.png" demo_heap demo_context = Ok (o, h1, c1) /\
  reload_images (H := OpenGL.opengl_impl OpenGLSpec.blank_view) load o ["b.png"; "c.png"]%string h1 c1 = Ok (o2, h2, c2) /\
  destroy_image o2 h2 = Ok h3 /\ base.size (blocks h3) = 2%nat.
Proof.
  set (load := fun _ : string => Some (2, 1, 4, static_array 8)).
  destruct (images_leak (H := OpenGL.opengl_impl OpenGLSpec.blank_view) load "a.png" ["b.png"; "c.png"]%string
    demo_heap demo_context _ demo_heap_ok eq_refl) as (o & h1 & c1 & o2 & h2 & c2 & h3 & E1 & E2 & _ & _ & E3 & Es).
  - repeat constructor; by exists 2, 1, (static_array 8).
  - exists o, h1, c1, o2, h2, c2, h3. split; [exact E1 |]. split; [exact E2 |]. split; [exact E3 | exact Es].
Defined.
