(* ===== verification/Ppu.v ===== *)
(** * The PPU ([emu/core/ppu.hpp], [emu/core/ppu.cpp], [emu/core/ppumain.cpp])

    State, registers, the VRAM address unit, the background fetches and shift
    registers, pixel output, and the tables that schedule all of it over 262
    lines of 341 cycles.

    The closures that the PPU and the cartridge put on the VRAM bus are the
    values of [VHandler].  Operations that use the bus take the bus and the
    cartridge as the section variables [vbus] and [cart]; they cannot change
    either.  [nmi_callback] acts on a world [X] of its owner.  The shift that
    [shift_fill] makes has a negative count, which C++ leaves undefined: its
    outcome is the parameter [shl_undefined], and nothing is assumed of it.

    Left out: the structure [OAM], which no code uses, and the characters that
    [PRINT_FRAME] builds print. *)

From S2P Require Import Prelude Bits HeapArray Bus Cartridge Video.
Open Scope Z_scope.

(** ** Constants ([emu/core/const.hpp]) *)

Definition VRAM_SIZE : Z := 0x800.
Definition OAM_SIZE : Z := 0x100.
Definition PAL_SIZE : Z := 0x20.
Definition PT_START : Z := 0.
Definition NT_START : Z := 0x2000.
Definition PAL_START : Z := 0x3F00.
Definition PPUBUS_SIZE : Z := 0x4000.
Definition LINE_MAX : Z := 262.
Definition CYCLE_MAX : Z := 341.

(** ** State *)

(** [struct IO] *)
Record IO := mkIO {
  latch : Z;
  vram_inc : bool;
  sp_pt_addr : bool;
  bg_pt_addr : bool;
  sp_size : bool;
  ext_bus_dir : bool;
  nmi_enabled : bool;
  grey : bool;
  bg_show_left : bool;
  sp_show_left : bool;
  bg_show : bool;
  sp_show : bool;
  red : bool;
  green : bool;
  blue : bool;
  sp_overflow : bool;
  sp_zero_hit : bool;
  vblank : bool;
  oam_addr : Z;
  scroll_latch : bool;
  data_buf : Z;
}.

(** [struct VRAM]; an address is its 16-bit [value], the bit fields of the union
    are read and assigned through it. *)
Record VRAM := mkVRAM {
  addr : Z;
  tmp : Z;
  fine_x : Z;
}.

(** [struct Tile] and [struct Shift] *)
Record Tile := mkTile {
  t_nt : Z;
  t_attr : Z;
  t_low : Z;
  t_high : Z;
}.

Record Shift := mkShift {
  tlow : Z;
  thigh : Z;
  alow : Z;
  ahigh : Z;
  feed_low : bool;
  feed_high : bool;
}.

(** The members of [PPU] that its code uses; [screen] is the canvas pointed to,
    [None] for [nullptr]. *)
Record PPU := mkPPU {
  screen : option Canvas;
  vrammem : HeapArray;
  oammem : HeapArray;
  palmem : HeapArray;
  p_cycles : Z;
  p_lines : Z;
  odd_frame : bool;
  io : IO;
  vram : VRAM;
  tile : Tile;
  shift : Shift;
}.

(** Assignments to one member. *)
Definition set_latch v i := mkIO v (vram_inc i) (sp_pt_addr i) (bg_pt_addr i) (sp_size i) (ext_bus_dir i) (nmi_enabled i) (grey i) (bg_show_left i) (sp_show_left i) (bg_show i) (sp_show i) (red i) (green i) (blue i) (sp_overflow i) (sp_zero_hit i) (vblank i) (oam_addr i) (scroll_latch i) (data_buf i).
Definition set_vram_inc v i := mkIO (latch i) v (sp_pt_addr i) (bg_pt_addr i) (sp_size i) (ext_bus_dir i) (nmi_enabled i) (grey i) (bg_show_left i) (sp_show_left i) (bg_show i) (sp_show i) (red i) (green i) (blue i) (sp_overflow i) (sp_zero_hit i) (vblank i) (oam_addr i) (scroll_latch i) (data_buf i).
Definition set_sp_pt_addr v i := mkIO (latch i) (vram_inc i) v (bg_pt_addr i) (sp_size i) (ext_bus_dir i) (nmi_enabled i) (grey i) (bg_show_left i) (sp_show_left i) (bg_show i) (sp_show i) (red i) (green i) (blue i) (sp_overflow i) (sp_zero_hit i) (vblank i) (oam_addr i) (scroll_latch i) (data_buf i).
Definition set_bg_pt_addr v i := mkIO (latch i) (vram_inc i) (sp_pt_addr i) v (sp_size i) (ext_bus_dir i) (nmi_enabled i) (grey i) (bg_show_left i) (sp_show_left i) (bg_show i) (sp_show i) (red i) (green i) (blue i) (sp_overflow i) (sp_zero_hit i) (vblank i) (oam_addr i) (scroll_latch i) (data_buf i).
Definition set_sp_size v i := mkIO (latch i) (vram_inc i) (sp_pt_addr i) (bg_pt_addr i) v (ext_bus_dir i) (nmi_enabled i) (grey i) (bg_show_left i) (sp_show_left i) (bg_show i) (sp_show i) (red i) (green i) (blue i) (sp_overflow i) (sp_zero_hit i) (vblank i) (oam_addr i) (scroll_latch i) (data_buf i).
Definition set_ext_bus_dir v i := mkIO (latch i) (vram_inc i) (sp_pt_addr i) (bg_pt_addr i) (sp_size i) v (nmi_enabled i) (grey i) (bg_show_left i) (sp_show_left i) (bg_show i) (sp_show i) (red i) (green i) (blue i) (sp_overflow i) (sp_zero_hit i) (vblank i) (oam_addr i) (scroll_latch i) (data_buf i).
Definition set_nmi_enabled v i := mkIO (latch i) (vram_inc i) (sp_pt_addr i) (bg_pt_addr i) (sp_size i) (ext_bus_dir i) v (grey i) (bg_show_left i) (sp_show_left i) (bg_show i) (sp_show i) (red i) (green i) (blue i) (sp_overflow i) (sp_zero_hit i) (vblank i) (oam_addr i) (scroll_latch i) (data_buf i).
Definition set_grey v i := mkIO (latch i) (vram_inc i) (sp_pt_addr i) (bg_pt_addr i) (sp_size i) (ext_bus_dir i) (nmi_enabled i) v (bg_show_left i) (sp_show_left i) (bg_show i) (sp_show i) (red i) (green i) (blue i) (sp_overflow i) (sp_zero_hit i) (vblank i) (oam_addr i) (scroll_latch i) (data_buf i).
Definition set_bg_show_left v i := mkIO (latch i) (vram_inc i) (sp_pt_addr i) (bg_pt_addr i) (sp_size i) (ext_bus_dir i) (nmi_enabled i) (grey i) v (sp_show_left i) (bg_show i) (sp_show i) (red i) (green i) (blue i) (sp_overflow i) (sp_zero_hit i) (vblank i) (oam_addr i) (scroll_latch i) (data_buf i).
Definition set_sp_show_left v i := mkIO (latch i) (vram_inc i) (sp_pt_addr i) (bg_pt_addr i) (sp_size i) (ext_bus_dir i) (nmi_enabled i) (grey i) (bg_show_left i) v (bg_show i) (sp_show i) (red i) (green i) (blue i) (sp_overflow i) (sp_zero_hit i) (vblank i) (oam_addr i) (scroll_latch i) (data_buf i).
Definition set_bg_show v i := mkIO (latch i) (vram_inc i) (sp_pt_addr i) (bg_pt_addr i) (sp_size i) (ext_bus_dir i) (nmi_enabled i) (grey i) (bg_show_left i) (sp_show_left i) v (sp_show i) (red i) (green i) (blue i) (sp_overflow i) (sp_zero_hit i) (vblank i) (oam_addr i) (scroll_latch i) (data_buf i).
Definition set_sp_show v i := mkIO (latch i) (vram_inc i) (sp_pt_addr i) (bg_pt_addr i) (sp_size i) (ext_bus_dir i) (nmi_enabled i) (grey i) (bg_show_left i) (sp_show_left i) (bg_show i) v (red i) (green i) (blue i) (sp_overflow i) (sp_zero_hit i) (vblank i) (oam_addr i) (scroll_latch i) (data_buf i).
Definition set_red v i := mkIO (latch i) (vram_inc i) (sp_pt_addr i) (bg_pt_addr i) (sp_size i) (ext_bus_dir i) (nmi_enabled i) (grey i) (bg_show_left i) (sp_show_left i) (bg_show i) (sp_show i) v (green i) (blue i) (sp_overflow i) (sp_zero_hit i) (vblank i) (oam_addr i) (scroll_latch i) (data_buf i).
Definition set_green v i := mkIO (latch i) (vram_inc i) (sp_pt_addr i) (bg_pt_addr i) (sp_size i) (ext_bus_dir i) (nmi_enabled i) (grey i) (bg_show_left i) (sp_show_left i) (bg_show i) (sp_show i) (red i) v (blue i) (sp_overflow i) (sp_zero_hit i) (vblank i) (oam_addr i) (scroll_latch i) (data_buf i).
Definition set_blue v i := mkIO (latch i) (vram_inc i) (sp_pt_addr i) (bg_pt_addr i) (sp_size i) (ext_bus_dir i) (nmi_enabled i) (grey i) (bg_show_left i) (sp_show_left i) (bg_show i) (sp_show i) (red i) (green i) v (sp_overflow i) (sp_zero_hit i) (vblank i) (oam_addr i) (scroll_latch i) (data_buf i).
Definition set_sp_overflow v i := mkIO (latch i) (vram_inc i) (sp_pt_addr i) (bg_pt_addr i) (sp_size i) (ext_bus_dir i) (nmi_enabled i) (grey i) (bg_show_left i) (sp_show_left i) (bg_show i) (sp_show i) (red i) (green i) (blue i) v (sp_zero_hit i) (vblank i) (oam_addr i) (scroll_latch i) (data_buf i).
Definition set_sp_zero_hit v i := mkIO (latch i) (vram_inc i) (sp_pt_addr i) (bg_pt_addr i) (sp_size i) (ext_bus_dir i) (nmi_enabled i) (grey i) (bg_show_left i) (sp_show_left i) (bg_show i) (sp_show i) (red i) (green i) (blue i) (sp_overflow i) v (vblank i) (oam_addr i) (scroll_latch i) (data_buf i).
Definition set_vblank v i := mkIO (latch i) (vram_inc i) (sp_pt_addr i) (bg_pt_addr i) (sp_size i) (ext_bus_dir i) (nmi_enabled i) (grey i) (bg_show_left i) (sp_show_left i) (bg_show i) (sp_show i) (red i) (green i) (blue i) (sp_overflow i) (sp_zero_hit i) v (oam_addr i) (scroll_latch i) (data_buf i).
Definition set_oam_addr v i := mkIO (latch i) (vram_inc i) (sp_pt_addr i) (bg_pt_addr i) (sp_size i) (ext_bus_dir i) (nmi_enabled i) (grey i) (bg_show_left i) (sp_show_left i) (bg_show i) (sp_show i) (red i) (green i) (blue i) (sp_overflow i) (sp_zero_hit i) (vblank i) v (scroll_latch i) (data_buf i).
Definition set_scroll_latch v i := mkIO (latch i) (vram_inc i) (sp_pt_addr i) (bg_pt_addr i) (sp_size i) (ext_bus_dir i) (nmi_enabled i) (grey i) (bg_show_left i) (sp_show_left i) (bg_show i) (sp_show i) (red i) (green i) (blue i) (sp_overflow i) (sp_zero_hit i) (vblank i) (oam_addr i) v (data_buf i).
Definition set_data_buf v i := mkIO (latch i) (vram_inc i) (sp_pt_addr i) (bg_pt_addr i) (sp_size i) (ext_bus_dir i) (nmi_enabled i) (grey i) (bg_show_left i) (sp_show_left i) (bg_show i) (sp_show i) (red i) (green i) (blue i) (sp_overflow i) (sp_zero_hit i) (vblank i) (oam_addr i) (scroll_latch i) v.
Definition set_addr v r := mkVRAM v (tmp r) (fine_x r).
Definition set_tmp v r := mkVRAM (addr r) v (fine_x r).
Definition set_fine_x v r := mkVRAM (addr r) (tmp r) v.
Definition set_t_nt v t := mkTile v (t_attr t) (t_low t) (t_high t).
Definition set_t_attr v t := mkTile (t_nt t) v (t_low t) (t_high t).
Definition set_t_low v t := mkTile (t_nt t) (t_attr t) v (t_high t).
Definition set_t_high v t := mkTile (t_nt t) (t_attr t) (t_low t) v.
Definition set_tlow v s := mkShift v (thigh s) (alow s) (ahigh s) (feed_low s) (feed_high s).
Definition set_thigh v s := mkShift (tlow s) v (alow s) (ahigh s) (feed_low s) (feed_high s).
Definition set_alow v s := mkShift (tlow s) (thigh s) v (ahigh s) (feed_low s) (feed_high s).
Definition set_ahigh v s := mkShift (tlow s) (thigh s) (alow s) v (feed_low s) (feed_high s).
Definition set_feed_low v s := mkShift (tlow s) (thigh s) (alow s) (ahigh s) v (feed_high s).
Definition set_feed_high v s := mkShift (tlow s) (thigh s) (alow s) (ahigh s) (feed_low s) v.
Definition set_screen v p := mkPPU v (vrammem p) (oammem p) (palmem p) (p_cycles p) (p_lines p) (odd_frame p) (io p) (vram p) (tile p) (shift p).
Definition set_vrammem v p := mkPPU (screen p) v (oammem p) (palmem p) (p_cycles p) (p_lines p) (odd_frame p) (io p) (vram p) (tile p) (shift p).
Definition set_oammem v p := mkPPU (screen p) (vrammem p) v (palmem p) (p_cycles p) (p_lines p) (odd_frame p) (io p) (vram p) (tile p) (shift p).
Definition set_palmem v p := mkPPU (screen p) (vrammem p) (oammem p) v (p_cycles p) (p_lines p) (odd_frame p) (io p) (vram p) (tile p) (shift p).
Definition set_p_cycles v p := mkPPU (screen p) (vrammem p) (oammem p) (palmem p) v (p_lines p) (odd_frame p) (io p) (vram p) (tile p) (shift p).
Definition set_p_lines v p := mkPPU (screen p) (vrammem p) (oammem p) (palmem p) (p_cycles p) v (odd_frame p) (io p) (vram p) (tile p) (shift p).
Definition set_odd_frame v p := mkPPU (screen p) (vrammem p) (oammem p) (palmem p) (p_cycles p) (p_lines p) v (io p) (vram p) (tile p) (shift p).
Definition set_io v p := mkPPU (screen p) (vrammem p) (oammem p) (palmem p) (p_cycles p) (p_lines p) (odd_frame p) v (vram p) (tile p) (shift p).
Definition set_vram v p := mkPPU (screen p) (vrammem p) (oammem p) (palmem p) (p_cycles p) (p_lines p) (odd_frame p) (io p) v (tile p) (shift p).
Definition set_tile v p := mkPPU (screen p) (vrammem p) (oammem p) (palmem p) (p_cycles p) (p_lines p) (odd_frame p) (io p) (vram p) v (shift p).
Definition set_shift v p := mkPPU (screen p) (vrammem p) (oammem p) (palmem p) (p_cycles p) (p_lines p) (odd_frame p) (io p) (vram p) (tile p) v.

Definition on_io f p := set_io (f (io p)) p.
Definition on_vram f p := set_vram (f (vram p)) p.
Definition on_tile f p := set_tile (f (tile p)) p.
Definition on_shift f p := set_shift (f (shift p)) p.
Definition set_vaddr v := on_vram (set_addr v).
Definition set_vtmp v := on_vram (set_tmp v).

(** A PPU in zeroed static storage. *)
Definition init_ppu : PPU :=
  mkPPU None (static_array VRAM_SIZE) (static_array OAM_SIZE) (static_array PAL_SIZE) 0 0 false
    (mkIO 0 false false false false false false false false false false false false false false
          false false false 0 false 0)
    (mkVRAM 0 0 0) (mkTile 0 0 0 0) (mkShift 0 0 0 0 false false).

(** The bit fields of [union VRAMAddress]. *)
Definition fine_y (a : Z) : Z := bf_get 12 3 a.
Definition nt (a : Z) : Z := bf_get 10 2 a.
Definition coarse_y (a : Z) : Z := bf_get 5 5 a.
Definition coarse_x (a : Z) : Z := bf_get 0 5 a.
Definition set_fine_y (a v : Z) : Z := bf_set 12 3 a v.
Definition set_nt (a v : Z) : Z := bf_set 10 2 a v.
Definition set_coarse_y (a v : Z) : Z := bf_set 5 5 a v.
Definition set_coarse_x (a v : Z) : Z := bf_set 0 5 a v.

(** [VRAM::vx], [VRAM::vy] *)
Definition vx (r : VRAM) : Z :=
  u16 (Z.lor (Z.lor (fine_x r) (Z.shiftl (coarse_x (addr r)) 3)) (Z.shiftl (Z.land (nt (addr r)) 1) 8)).
Definition vy (r : VRAM) : Z :=
  u8 (Z.lor (Z.lor (fine_y (addr r)) (Z.shiftl (coarse_y (addr r)) 3)) (Z.shiftl (Z.land (nt (addr r)) 2) 8)).

(** ** [PPU::power], [PPU::reset] *)

(** The members of [io] that both of them clear. *)
Definition clear_ctrl_mask (i : IO) : IO :=
  mkIO (latch i) false false false false false false
    false false false false false false false false
    (sp_overflow i) (sp_zero_hit i) (vblank i) (oam_addr i) false 0.

(** [for (i = 0; i < n; i++) arr[i] = 0;] *)
Definition zero_mem (n : Z) (a : HeapArray) : Res HeapArray :=
  for_upto (Z.to_nat n) 0 (fun i a => set a i 0) a.

Definition power (p : PPU) : Res PPU :=
  let p := set_vaddr 0 (set_vtmp 0 p) in
  let p := on_io (fun i => set_oam_addr 0 (set_vblank true (set_sp_zero_hit false
                    (set_sp_overflow true (clear_ctrl_mask i))))) p in
  let p := on_vram (set_fine_x 0) p in
  let p := set_odd_frame false (set_p_lines 0 (set_p_cycles 0 p)) in
  let? vm := zero_mem VRAM_SIZE (vrammem p) in
  let? om := zero_mem OAM_SIZE (oammem p) in
  let? pm := zero_mem PAL_SIZE (palmem p) in
  Ok (set_vrammem vm (set_oammem om (set_palmem pm p))).

Definition reset (p : PPU) : Res PPU :=
  let p := on_io (fun i => set_sp_zero_hit false (set_sp_overflow false (clear_ctrl_mask i))) p in
  let p := on_vram (set_fine_x 0) p in
  let p := set_odd_frame false (set_p_lines 0 (set_p_cycles 0 p)) in
  let? om := zero_mem OAM_SIZE (oammem p) in
  Ok (set_oammem om p).

(** ** The VRAM bus *)

(** The closures on the bus: the palette, the empty nametable area of
    [attach_bus], a mirrored nametable of [set_mirroring], pattern tables. *)
Inductive VHandler := VPal | VNtNone | VNtMirror (m : Mirroring) | VChr.

#[export] Instance VHandler_eq_dec : EqDecision VHandler.
Proof. solve_decision. Defined.

(** The function [decode] of [set_mirroring]; [OTHER] does not get this far. *)
Definition decode (m : Mirroring) (a : Z) : Z :=
  match m with
  | HORZ =>
      let tmp := Z.land a 0xFFF in
      let bits := Z.shiftr (getbits tmp 10 2) 1 in
      u16 (setbits tmp 10 2 bits)
  | _ => Z.land a 0x7FF
  end.

(** The part of [PPU::attach_bus] that maps the VRAM bus. *)
Definition attach_vrambus (b : Bus VHandler) : Res (Bus VHandler) :=
  let? b := Bus.map b PAL_START 0x4000 VPal VPal in
  Bus.map b NT_START PAL_START VNtNone VNtNone.

(** [PPU::set_mirroring] *)
Definition set_mirroring (b : Bus VHandler) (m : Mirroring) : Res (Bus VHandler) :=
  match m with
  | OTHER => Err AssertFailure
  | _ => Bus.remap b NT_START PAL_START (VNtMirror m) (VNtMirror m)
  end.

Section Ppu.
Variable vbus : Bus VHandler.
Variable cart : Cartridge.

(** [bus->read(addr)] *)
Definition vread (p : PPU) (a : Z) : Res Z :=
  let a := u16 a in
  let? h := Bus.reader vbus a in
  match h with
  | VPal => if Z.land a 0x1F <? PAL_SIZE then get (palmem p) (Z.land a 0x1F) else Err AssertFailure
  | VNtNone => Ok 0
  | VNtMirror m =>
      let a := decode m a in
      if a <? VRAM_SIZE then get (vrammem p) a else Err AssertFailure
  | VChr => read_chrrom cart a
  end.

(** [bus->write(addr, data)] *)
Definition vwrite (p : PPU) (a d : Z) : Res PPU :=
  let a := u16 a in
  let? h := Bus.writer vbus a in
  match h with
  | VPal => if Z.land a 0x1F <? PAL_SIZE
            then let? m := set (palmem p) (Z.land a 0x1F) d in Ok (set_palmem m p)
            else Err AssertFailure
  | VNtNone => Ok p
  | VNtMirror m =>
      let a := decode m a in
      if a <? VRAM_SIZE then let? m := set (vrammem p) a d in Ok (set_vrammem m p)
      else Err AssertFailure
  | VChr => Ok p
  end.

(** ** Registers *)

(** [vram.addr += (1UL << 5*io.vram_inc)] *)
Definition inc_addr (p : PPU) : PPU :=
  set_vaddr (u16 (addr (vram p) + Z.shiftl 1 (5 * Z.b2z (vram_inc (io p))))) p.

Definition status_bits (i : IO) : Z :=
  Z.lor (Z.lor (Z.shiftl (Z.b2z (vblank i)) 7) (Z.shiftl (Z.b2z (sp_zero_hit i)) 6))
        (Z.shiftl (Z.b2z (sp_overflow i)) 5).

Definition readreg (which : Z) (p : PPU) : Res (Z * PPU) :=
  let? p := match which with
    | 0x2002 =>
        Ok (on_io (fun i => set_scroll_latch false (set_vblank false
              (set_latch (u8 (Z.lor (latch i) (status_bits i))) i))) p)
    | 0x2004 => Ok (on_io (set_latch 0) p)
    | 0x2007 =>
        if addr (vram p) <? 0x3F00 then
          let p := on_io (fun i => set_latch (data_buf i) i) p in
          let? v := vread p (addr (vram p)) in
          Ok (inc_addr (on_io (set_data_buf v) p))
        else
          let? v := vread p (addr (vram p)) in
          Ok (inc_addr (on_io (set_latch v) p))
    | _ => Ok p
    end in
  Ok (latch (io p), p).

(** [io.scroll_latch ^= 1] *)
Definition flip_latch (p : PPU) : PPU :=
  on_io (fun i => set_scroll_latch (negb (scroll_latch i)) i) p.

Definition write_ctrl (data : Z) (p : PPU) : PPU :=
  let p := set_vtmp (set_nt (tmp (vram p)) (Z.land data 0x03)) p in
  on_io (fun i => set_nmi_enabled (tobool (Z.land data 0x80)) (set_ext_bus_dir (tobool (Z.land data 0x40))
    (set_sp_size (tobool (Z.land data 0x20)) (set_bg_pt_addr (tobool (Z.land data 0x10))
    (set_sp_pt_addr (tobool (Z.land data 0x08)) (set_vram_inc (tobool (Z.land data 0x04)) i)))))) p.

Definition write_mask (data : Z) (p : PPU) : PPU :=
  on_io (fun i => set_blue (tobool (Z.land data 0x80)) (set_green (tobool (Z.land data 0x40))
    (set_red (tobool (Z.land data 0x20)) (set_sp_show (tobool (Z.land data 0x10))
    (set_bg_show (tobool (Z.land data 0x08)) (set_sp_show_left (tobool (Z.land data 0x04))
    (set_bg_show_left (tobool (Z.land data 0x02)) (set_grey (tobool (Z.land data 0x01)) i)))))))) p.

Definition write_scroll (data : Z) (p : PPU) : PPU :=
  flip_latch (if negb (scroll_latch (io p))
    then on_vram (set_fine_x (Z.land data 0x7))
           (set_vtmp (set_coarse_x (tmp (vram p)) (Z.land (Z.shiftr data 3) 0x1F)) p)
    else set_vtmp (set_fine_y (set_coarse_y (tmp (vram p)) (Z.land (Z.shiftr data 3) 0x1F))
                              (Z.land data 0x7)) p).

Definition write_addr (data : Z) (p : PPU) : PPU :=
  flip_latch (if negb (scroll_latch (io p))
    then
      let p := set_vtmp (u16 (setbits (tmp (vram p)) 8 6 (Z.land data 0x3F))) p in
      set_vtmp (u16 (setbit (tmp (vram p)) 14 false)) p
    else
      let p := set_vtmp (u16 (setbits (tmp (vram p)) 0 8 data)) p in
      set_vaddr (tmp (vram p)) p).

Definition writereg (which data : Z) (p : PPU) : Res PPU :=
  let p := on_io (set_latch data) p in
  match which with
  | 0x2000 => Ok (write_ctrl data p)
  | 0x2001 => Ok (write_mask data p)
  | 0x2003 => Ok (on_io (set_oam_addr data) p)
  | 0x2004 => Ok (on_io (fun i => set_oam_addr (u8 (oam_addr i + 1)) i) p)
  | 0x2005 => Ok (write_scroll data p)
  | 0x2006 => Ok (write_addr data p)
  | 0x2007 => let? p := vwrite p (addr (vram p)) data in Ok (inc_addr p)
  | _ => Ok p
  end.

Definition ctrl_byte (p : PPU) : Z :=
  let i := io p in
  u8 (Z.lor (Z.lor (Z.lor (Z.lor (Z.lor (Z.lor (nt (tmp (vram p)))
    (Z.shiftl (Z.b2z (vram_inc i)) 2)) (Z.shiftl (Z.b2z (sp_pt_addr i)) 3))
    (Z.shiftl (Z.b2z (bg_pt_addr i)) 4)) (Z.shiftl (Z.b2z (sp_size i)) 5))
    (Z.shiftl (Z.b2z (ext_bus_dir i)) 6)) (Z.shiftl (Z.b2z (nmi_enabled i)) 7)).

Definition mask_byte (p : PPU) : Z :=
  let i := io p in
  u8 (Z.lor (Z.lor (Z.lor (Z.lor (Z.lor (Z.lor (Z.lor (Z.b2z (grey i))
    (Z.shiftl (Z.b2z (bg_show_left i)) 1)) (Z.shiftl (Z.b2z (sp_show_left i)) 2))
    (Z.shiftl (Z.b2z (bg_show i)) 3)) (Z.shiftl (Z.b2z (sp_show i)) 4))
    (Z.shiftl (Z.b2z (red i)) 5)) (Z.shiftl (Z.b2z (green i)) 6)) (Z.shiftl (Z.b2z (blue i)) 7)).

Definition readreg_no_sideeff (which : Z) (p : PPU) : Res Z :=
  let t := tmp (vram p) in
  match which with
  | 0x2000 => Ok (ctrl_byte p)
  | 0x2001 => Ok (mask_byte p)
  | 0x2002 => Ok (u8 (status_bits (io p)))
  | 0x2003 => Ok (oam_addr (io p))
  | 0x2004 => Ok 0
  | 0x2005 => Ok (u8 (if negb (scroll_latch (io p))
                      then Z.lor (Z.shiftl (fine_x (vram p)) 5) (coarse_x t)
                      else Z.lor (Z.shiftl (fine_y t) 5) (coarse_y t)))
  | 0x2006 => Ok (if negb (scroll_latch (io p)) then Z.land t 0xFF
                  else Z.land (Z.shiftr t 8) 0xFF)
  | 0x2007 => if addr (vram p) <? 0x3F00 then Ok (data_buf (io p)) else vread p (addr (vram p))
  | _ => Ok 0xFF
  end.

(** [struct PPU::Status] and [PPU::status] *)
Record PStatus := mkPStatus {
  s_ctrl : Z; s_mask : Z; s_status : Z; s_oamaddr : Z; s_oamdata : Z;
  s_vram_scroll : Z; s_vram_addr : Z; s_vram_data : Z;
  s_vram : VRAM; s_tile : Tile; s_shift : Shift; s_line : Z; s_cycle : Z;
}.

Definition status (p : PPU) : Res PStatus :=
  let? v := readreg_no_sideeff 0x2000 p in
  Ok (mkPStatus v v v v v v v v (vram p) (tile p) (shift p) (p_lines p) (p_cycles p)).

(** ** The VRAM address during rendering *)

Definition inc_v_horzpos (p : PPU) : PPU :=
  if negb (bg_show (io p)) then p
  else
    let a := addr (vram p) in
    if coarse_x a =? 31
    then set_vaddr (bf_compound Z.lxor 10 2 (set_coarse_x a 0) 1) p
    else set_vaddr (bf_incr 0 5 a) p.

Definition inc_v_vertpos (p : PPU) : PPU :=
  if negb (bg_show (io p)) then p
  else
    let a := addr (vram p) in
    if fine_y a <? 7 then set_vaddr (bf_incr 12 3 a) p
    else
      let a := set_fine_y a 0 in
      let y := coarse_y a in
      let '(y, a) := (if y =? 29 then (0, bf_compound Z.lxor 10 2 a 2)
                      else if y =? 31 then (0, a) else (u16 (y + 1), a)) in
      set_vaddr (set_coarse_y a y) p.

Definition copy_v_horzpos (p : PPU) : PPU :=
  if negb (bg_show (io p)) then p
  else
    let a := addr (vram p) in let t := tmp (vram p) in
    let a := bf_copy 0 5 a t in
    set_vaddr (set_nt a (setbit (nt a) 0 (tobool (Z.land (nt t) 1)))) p.

Definition copy_v_vertpos (p : PPU) : PPU :=
  if negb (bg_show (io p)) then p
  else
    let a := addr (vram p) in let t := tmp (vram p) in
    let a := bf_copy 5 5 a t in
    let a := bf_copy 12 3 a t in
    set_vaddr (set_nt a (setbit (nt a) 1 (tobool (Z.land (Z.shiftr (nt t) 1) 1)))) p.

(** ** Fetches *)

Definition fetch_nt (dofetch : bool) (p : PPU) : Res PPU :=
  if negb dofetch then Ok p
  else let? v := vread p (Z.lor 0x2000 (Z.land (addr (vram p)) 0x0FFF)) in
       Ok (on_tile (set_t_nt v) p).

Definition fetch_attr (dofetch : bool) (p : PPU) : Res PPU :=
  if negb dofetch then Ok p
  else
    let a := addr (vram p) in
    let? v := vread p (Z.lor (Z.lor (Z.lor 0x23C0 (Z.shiftl (nt a) 10))
                         (Z.shiftl (Z.land (coarse_y a) 0x1C) 1))
                         (Z.shiftr (Z.land (coarse_x a) 0x1C) 2)) in
    Ok (on_tile (set_t_attr v) p).

Definition fetch_lowbg (dofetch : bool) (p : PPU) : Res PPU :=
  if negb dofetch then Ok p
  else
    let a := u16 (Z.lor (Z.lor (Z.shiftl (Z.b2z (bg_pt_addr (io p))) 12)
                               (Z.shiftl (t_nt (tile p)) 4)) (fine_y (addr (vram p)))) in
    let? v := vread p a in Ok (on_tile (set_t_low v) p).

Definition fetch_highbg (dofetch : bool) (p : PPU) : Res PPU :=
  if negb dofetch then Ok p
  else
    let a := u16 (Z.lor (Z.lor (Z.lor (Z.shiftl (Z.b2z (bg_pt_addr (io p))) 12)
                               (Z.shiftl (t_nt (tile p)) 4)) (Z.shiftl 1 3)) (fine_y (addr (vram p)))) in
    let? v := vread p a in Ok (on_tile (set_t_high v) p).

(** ** Shift registers and output *)

Definition shift_run (p : PPU) : PPU :=
  on_shift (fun s =>
    let s := set_tlow (Z.shiftr (tlow s) 1) s in
    let s := set_thigh (Z.shiftr (thigh s) 1) s in
    let s := set_ahigh (Z.shiftr (ahigh s) 1) s in
    let s := set_alow (Z.shiftr (alow s) 1) s in
    let s := set_ahigh (u8 (setbit (ahigh s) 7 (feed_high s))) s in
    set_ahigh (u8 (setbit (alow s) 7 (feed_low s))) s) p.

(** [a << n] on [int] as the compiled program computes it. *)
Variable shl_undefined : Z -> Z -> Z.
Definition shl_int (a n : Z) : Z :=
  if (0 <=? n) && (n <? 32) then Z.shiftl a n else shl_undefined a n.

Definition shift_fill (p : PPU) : PPU :=
  let t := tile p in
  let v := addr (vram p) in
  let attr_mask := u8 (shl_int 3 (Z.lnot (Z.lor (Z.land (Z.shiftr v 1) 1) (Z.land (Z.shiftr v 6) 1)) * 2)) in
  on_shift (fun s =>
    let s := set_tlow (u16 (setbits (tlow s) 8 8 (t_low t))) s in
    let s := set_thigh (u16 (setbits (thigh s) 8 8 (t_high t))) s in
    let s := set_feed_high (tobool (Z.land (t_attr t) attr_mask)) s in
    set_feed_low (tobool (Z.land (t_attr t) attr_mask)) s) p.

Definition getcolor (p : PPU) (select : bool) (pal palind : Z) : Res Z :=
  let n := u8 (Z.lor (Z.lor (Z.shiftl (Z.b2z select) 4) (Z.shiftl pal 2)) palind) in
  vread p (0x3F00 + n).

Definition bg_output (p : PPU) : Res Z :=
  let s := shift p in
  let mask := u8 (Z.shiftl 1 (fine_x (vram p))) in
  let lowbit := tobool (Z.land (tlow s) mask) in
  let hibit := tobool (Z.land (thigh s) mask) in
  let at1 := tobool (Z.land (ahigh s) mask) in
  let at2 := tobool (Z.land (alow s) mask) in
  getcolor p false (Z.lor (Z.shiftl (Z.b2z at1) 1) (Z.b2z at2))
                   (Z.lor (Z.shiftl (Z.b2z hibit) 1) (Z.b2z lowbit)).

Definition output (p : PPU) : Res PPU :=
  match screen p with
  | None => Ok p
  | Some scr =>
      let? bgpixel := bg_output p in
      let color := if bgpixel =? 0x30 then 0xFFFFFFFF else 0 in
      let x := p_cycles p mod 341 in
      let y := p_lines p mod 262 in
      if negb (((y <=? 239) || (y =? 261)) && (x <=? 256)) then Err AssertFailure
      else if x =? 256 then Ok p
      else if y =? 261 then Ok p
      else let? scr := drawpixel scr x y color in Ok (set_screen (Some scr) p)
  end.

(** ** One cycle ([ppumain.cpp]) *)

(** The wrappers that the tables call; without [PRINT_FRAME] they print nothing. *)
Definition cycle_idle (p : PPU) : PPU := p.
Definition cycle_fetchnt (cycle : bool) (p : PPU) : Res PPU := fetch_nt cycle p.
Definition cycle_fetchattr (cycle : bool) (p : PPU) : Res PPU := fetch_attr cycle p.
Definition cycle_fetchlowbg (cycle : bool) (p : PPU) : Res PPU := fetch_lowbg cycle p.
Definition cycle_fetchhighbg (cycle : bool) (p : PPU) : Res PPU := fetch_highbg cycle p.
Definition cycle_incvhorz (p : PPU) : PPU := inc_v_horzpos p.
Definition cycle_incvvert (p : PPU) : PPU := inc_v_vertpos p.
Definition cycle_copyhorz (p : PPU) : PPU := copy_v_horzpos p.
Definition cycle_copyvert (p : PPU) : PPU := copy_v_vertpos p.
Definition cycle_shift (p : PPU) : PPU := shift_run p.
Definition cycle_fillshifts (p : PPU) : PPU := shift_fill p.
Definition cycle_outputpixel (p : PPU) : Res PPU := output p.

(** [background_cycle<Cycle>] *)
Definition background_cycle (c : Z) (p : PPU) : Res PPU :=
  match c with
  | 1 => cycle_fetchnt false p
  | 2 => cycle_fetchnt true p
  | 3 => cycle_fetchattr false p
  | 4 => cycle_fetchattr true p
  | 5 => cycle_fetchlowbg false p
  | 6 => cycle_fetchlowbg true p
  | 7 => cycle_fetchhighbg false p
  | 0 => cycle_fetchhighbg true p
  | _ => Ok p
  end.

(** [ccycle<Cycle>] *)
Definition ccycle (c : Z) (p : PPU) : Res PPU :=
  let? p := (if ((1 <=? c) && (c <=? 256)) || ((321 <=? c) && (c <=? 340)) then
    let? p := (if (4 <=? c) && (c <=? 256) then cycle_outputpixel p else Ok p) in
    let? p := background_cycle (c mod 8) p in
    let p := if (c mod 8 =? 1) && negb (c =? 1) then cycle_fillshifts p else p in
    let p := if negb (c mod 8 =? 1) then cycle_shift p else p in
    let p := if (c mod 8 =? 0) && negb (c =? 256) then cycle_incvhorz p else p in
    let p := if c =? 256 then cycle_incvvert p else p in
    Ok p
  else Ok p) in
  Ok (if c =? 257 then cycle_copyhorz p else p).

(** A member function of a table: [&PPU::cycle_idle] or [&PPU::ccycle<N>]. *)
Inductive CycleFunc := IDLE | CCYCLE (n : Z).
Inductive LineFunc := LCYCLE (n : Z).

(** [cycletab] *)
Definition cycletab : list CycleFunc := [
  IDLE; CCYCLE 1; CCYCLE 2; CCYCLE 3; CCYCLE 4; CCYCLE 5; CCYCLE 6; CCYCLE 7;
  CCYCLE 8; CCYCLE 9; CCYCLE 10; CCYCLE 11; CCYCLE 12; CCYCLE 13; CCYCLE 14; CCYCLE 15;
  CCYCLE 16; CCYCLE 17; CCYCLE 18; CCYCLE 19; CCYCLE 20; CCYCLE 21; CCYCLE 22; CCYCLE 23;
  CCYCLE 24; CCYCLE 25; CCYCLE 26; CCYCLE 27; CCYCLE 28; CCYCLE 29; CCYCLE 30; CCYCLE 31;
  CCYCLE 32; CCYCLE 33; CCYCLE 34; CCYCLE 35; CCYCLE 36; CCYCLE 37; CCYCLE 38; CCYCLE 39;
  CCYCLE 40; CCYCLE 41; CCYCLE 42; CCYCLE 43; CCYCLE 44; CCYCLE 45; CCYCLE 46; CCYCLE 47;
  CCYCLE 48; CCYCLE 49; CCYCLE 50; CCYCLE 51; CCYCLE 52; CCYCLE 53; CCYCLE 54; CCYCLE 55;
  CCYCLE 56; CCYCLE 57; CCYCLE 58; CCYCLE 59; CCYCLE 60; CCYCLE 61; CCYCLE 62; CCYCLE 63;
  CCYCLE 64; CCYCLE 65; CCYCLE 66; CCYCLE 67; CCYCLE 68; CCYCLE 69; CCYCLE 70; CCYCLE 71;
  CCYCLE 72; CCYCLE 73; CCYCLE 74; CCYCLE 75; CCYCLE 76; CCYCLE 77; CCYCLE 78; CCYCLE 79;
  CCYCLE 80; CCYCLE 81; CCYCLE 82; CCYCLE 83; CCYCLE 84; CCYCLE 85; CCYCLE 86; CCYCLE 87;
  CCYCLE 88; CCYCLE 89; CCYCLE 90; CCYCLE 91; CCYCLE 92; CCYCLE 93; CCYCLE 94; CCYCLE 95;
  CCYCLE 96; CCYCLE 97; CCYCLE 98; CCYCLE 99; CCYCLE 100; CCYCLE 101; CCYCLE 102; CCYCLE 103;
  CCYCLE 104; CCYCLE 105; CCYCLE 106; CCYCLE 107; CCYCLE 108; CCYCLE 109; CCYCLE 110; CCYCLE 111;
  CCYCLE 112; CCYCLE 113; CCYCLE 114; CCYCLE 115; CCYCLE 116; CCYCLE 117; CCYCLE 118; CCYCLE 119;
  CCYCLE 120; CCYCLE 121; CCYCLE 122; CCYCLE 123; CCYCLE 124; CCYCLE 125; CCYCLE 126; CCYCLE 127;
  CCYCLE 128; CCYCLE 129; CCYCLE 130; CCYCLE 131; CCYCLE 132; CCYCLE 133; CCYCLE 134; CCYCLE 135;
  CCYCLE 136; CCYCLE 137; CCYCLE 138; CCYCLE 139; CCYCLE 140; CCYCLE 141; CCYCLE 142; CCYCLE 143;
  CCYCLE 144; CCYCLE 145; CCYCLE 146; CCYCLE 147; CCYCLE 148; CCYCLE 149; CCYCLE 150; CCYCLE 151;
  CCYCLE 152; CCYCLE 153; CCYCLE 154; CCYCLE 155; CCYCLE 156; CCYCLE 157; CCYCLE 158; CCYCLE 159;
  CCYCLE 160; CCYCLE 161; CCYCLE 162; CCYCLE 163; CCYCLE 164; CCYCLE 165; CCYCLE 166; CCYCLE 167;
  CCYCLE 168; CCYCLE 169; CCYCLE 170; CCYCLE 171; CCYCLE 172; CCYCLE 173; CCYCLE 174; CCYCLE 175;
  CCYCLE 176; CCYCLE 177; CCYCLE 178; CCYCLE 179; CCYCLE 180; CCYCLE 181; CCYCLE 182; CCYCLE 183;
  CCYCLE 184; CCYCLE 185; CCYCLE 186; CCYCLE 187; CCYCLE 188; CCYCLE 189; CCYCLE 190; CCYCLE 191;
  CCYCLE 192; CCYCLE 193; CCYCLE 194; CCYCLE 195; CCYCLE 196; CCYCLE 197; CCYCLE 198; CCYCLE 199;
  CCYCLE 200; CCYCLE 201; CCYCLE 202; CCYCLE 203; CCYCLE 204; CCYCLE 205; CCYCLE 206; CCYCLE 207;
  CCYCLE 208; CCYCLE 209; CCYCLE 210; CCYCLE 211; CCYCLE 212; CCYCLE 213; CCYCLE 214; CCYCLE 215;
  CCYCLE 216; CCYCLE 217; CCYCLE 218; CCYCLE 219; CCYCLE 220; CCYCLE 221; CCYCLE 222; CCYCLE 223;
  CCYCLE 224; CCYCLE 225; CCYCLE 226; CCYCLE 227; CCYCLE 228; CCYCLE 229; CCYCLE 230; CCYCLE 231;
  CCYCLE 232; CCYCLE 233; CCYCLE 234; CCYCLE 235; CCYCLE 236; CCYCLE 237; CCYCLE 238; CCYCLE 239;
  CCYCLE 240; CCYCLE 241; CCYCLE 242; CCYCLE 243; CCYCLE 244; CCYCLE 245; CCYCLE 246; CCYCLE 247;
  CCYCLE 248; CCYCLE 249; CCYCLE 250; CCYCLE 251; CCYCLE 252; CCYCLE 253; CCYCLE 254; CCYCLE 255;
  CCYCLE 256; CCYCLE 257; IDLE; IDLE; IDLE; IDLE; IDLE; IDLE;
  IDLE; IDLE; IDLE; IDLE; IDLE; IDLE; IDLE; IDLE;
  IDLE; IDLE; IDLE; IDLE; IDLE; IDLE; IDLE; IDLE;
  IDLE; IDLE; IDLE; IDLE; IDLE; IDLE; IDLE; IDLE;
  IDLE; IDLE; IDLE; IDLE; IDLE; IDLE; IDLE; IDLE;
  IDLE; IDLE; IDLE; IDLE; IDLE; IDLE; IDLE; IDLE;
  IDLE; IDLE; IDLE; IDLE; IDLE; IDLE; IDLE; IDLE;
  IDLE; IDLE; IDLE; IDLE; IDLE; IDLE; IDLE; IDLE;
  IDLE; CCYCLE 321; CCYCLE 322; CCYCLE 323; CCYCLE 324; CCYCLE 325; CCYCLE 326; CCYCLE 327;
  CCYCLE 328; CCYCLE 329; CCYCLE 330; CCYCLE 331; CCYCLE 332; CCYCLE 333; CCYCLE 334; CCYCLE 335;
  CCYCLE 336; CCYCLE 337; CCYCLE 338; CCYCLE 339; CCYCLE 340
].

(** [linetab] *)
Definition linetab : list LineFunc := [
  LCYCLE 0; LCYCLE 1; LCYCLE 2; LCYCLE 3; LCYCLE 4; LCYCLE 5; LCYCLE 6; LCYCLE 7;
  LCYCLE 8; LCYCLE 9; LCYCLE 10; LCYCLE 11; LCYCLE 12; LCYCLE 13; LCYCLE 14; LCYCLE 15;
  LCYCLE 16; LCYCLE 17; LCYCLE 18; LCYCLE 19; LCYCLE 20; LCYCLE 21; LCYCLE 22; LCYCLE 23;
  LCYCLE 24; LCYCLE 25; LCYCLE 26; LCYCLE 27; LCYCLE 28; LCYCLE 29; LCYCLE 30; LCYCLE 31;
  LCYCLE 32; LCYCLE 33; LCYCLE 34; LCYCLE 35; LCYCLE 36; LCYCLE 37; LCYCLE 38; LCYCLE 39;
  LCYCLE 40; LCYCLE 41; LCYCLE 42; LCYCLE 43; LCYCLE 44; LCYCLE 45; LCYCLE 46; LCYCLE 47;
  LCYCLE 48; LCYCLE 49; LCYCLE 50; LCYCLE 51; LCYCLE 52; LCYCLE 53; LCYCLE 54; LCYCLE 55;
  LCYCLE 56; LCYCLE 57; LCYCLE 58; LCYCLE 59; LCYCLE 60; LCYCLE 61; LCYCLE 62; LCYCLE 63;
  LCYCLE 64; LCYCLE 65; LCYCLE 66; LCYCLE 67; LCYCLE 68; LCYCLE 69; LCYCLE 70; LCYCLE 71;
  LCYCLE 72; LCYCLE 73; LCYCLE 74; LCYCLE 75; LCYCLE 76; LCYCLE 77; LCYCLE 78; LCYCLE 79;
  LCYCLE 80; LCYCLE 81; LCYCLE 82; LCYCLE 83; LCYCLE 84; LCYCLE 85; LCYCLE 86; LCYCLE 87;
  LCYCLE 88; LCYCLE 89; LCYCLE 90; LCYCLE 91; LCYCLE 92; LCYCLE 93; LCYCLE 94; LCYCLE 95;
  LCYCLE 96; LCYCLE 97; LCYCLE 98; LCYCLE 99; LCYCLE 100; LCYCLE 101; LCYCLE 102; LCYCLE 103;
  LCYCLE 104; LCYCLE 105; LCYCLE 106; LCYCLE 107; LCYCLE 108; LCYCLE 109; LCYCLE 110; LCYCLE 111;
  LCYCLE 112; LCYCLE 113; LCYCLE 114; LCYCLE 115; LCYCLE 116; LCYCLE 117; LCYCLE 118; LCYCLE 119;
  LCYCLE 120; LCYCLE 121; LCYCLE 122; LCYCLE 123; LCYCLE 124; LCYCLE 125; LCYCLE 126; LCYCLE 127;
  LCYCLE 128; LCYCLE 129; LCYCLE 130; LCYCLE 131; LCYCLE 132; LCYCLE 133; LCYCLE 134; LCYCLE 135;
  LCYCLE 136; LCYCLE 137; LCYCLE 138; LCYCLE 139; LCYCLE 140; LCYCLE 141; LCYCLE 142; LCYCLE 143;
  LCYCLE 144; LCYCLE 145; LCYCLE 146; LCYCLE 147; LCYCLE 148; LCYCLE 149; LCYCLE 150; LCYCLE 151;
  LCYCLE 152; LCYCLE 153; LCYCLE 154; LCYCLE 155; LCYCLE 156; LCYCLE 157; LCYCLE 158; LCYCLE 159;
  LCYCLE 160; LCYCLE 161; LCYCLE 162; LCYCLE 163; LCYCLE 164; LCYCLE 165; LCYCLE 166; LCYCLE 167;
  LCYCLE 168; LCYCLE 169; LCYCLE 170; LCYCLE 171; LCYCLE 172; LCYCLE 173; LCYCLE 174; LCYCLE 175;
  LCYCLE 176; LCYCLE 177; LCYCLE 178; LCYCLE 179; LCYCLE 180; LCYCLE 181; LCYCLE 182; LCYCLE 183;
  LCYCLE 184; LCYCLE 185; LCYCLE 186; LCYCLE 187; LCYCLE 188; LCYCLE 189; LCYCLE 190; LCYCLE 191;
  LCYCLE 192; LCYCLE 193; LCYCLE 194; LCYCLE 195; LCYCLE 196; LCYCLE 197; LCYCLE 198; LCYCLE 199;
  LCYCLE 200; LCYCLE 201; LCYCLE 202; LCYCLE 203; LCYCLE 204; LCYCLE 205; LCYCLE 206; LCYCLE 207;
  LCYCLE 208; LCYCLE 209; LCYCLE 210; LCYCLE 211; LCYCLE 212; LCYCLE 213; LCYCLE 214; LCYCLE 215;
  LCYCLE 216; LCYCLE 217; LCYCLE 218; LCYCLE 219; LCYCLE 220; LCYCLE 221; LCYCLE 222; LCYCLE 223;
  LCYCLE 224; LCYCLE 225; LCYCLE 226; LCYCLE 227; LCYCLE 228; LCYCLE 229; LCYCLE 230; LCYCLE 231;
  LCYCLE 232; LCYCLE 233; LCYCLE 234; LCYCLE 235; LCYCLE 236; LCYCLE 237; LCYCLE 238; LCYCLE 239;
  LCYCLE 240; LCYCLE 241; LCYCLE 242; LCYCLE 243; LCYCLE 244; LCYCLE 245; LCYCLE 246; LCYCLE 247;
  LCYCLE 248; LCYCLE 249; LCYCLE 250; LCYCLE 251; LCYCLE 252; LCYCLE 253; LCYCLE 254; LCYCLE 255;
  LCYCLE 256; LCYCLE 257; LCYCLE 258; LCYCLE 259; LCYCLE 260; LCYCLE 261
].

Definition call_cycle (f : CycleFunc) (p : PPU) : Res PPU :=
  match f with IDLE => Ok (cycle_idle p) | CCYCLE n => ccycle n p end.

(** [cycletab[cycle]] called. *)
Definition run_cycletab (cycle : Z) (p : PPU) : Res PPU :=
  match cycletab !! Z.to_nat cycle with
  | Some f => call_cycle f p
  | None => Err OutOfBounds
  end.

(** [begin_frame] *)
Definition begin_frame (p : PPU) : Res PPU :=
  if negb ((p_lines p mod 262 =? 261) && (p_cycles p mod 341 =? 340)) then Err AssertFailure
  else
    let p' := if odd_frame p then set_p_cycles 0 (set_p_lines 0 p) else p in
    Ok (set_odd_frame (negb (odd_frame p)) p').

Definition vblank_end (p : PPU) : PPU :=
  on_io (fun i => set_sp_overflow false (set_sp_zero_hit false (set_vblank false i))) p.

Context {X : Type}.
Variable nmi_callback : option (X -> X).

Definition vblank_begin (s : PPU * X) : Res (PPU * X) :=
  let '(p, x) := s in
  match nmi_callback with
  | None => Err BadFunctionCall
  | Some f => Ok (on_io (set_vblank true) p, f x)
  end.

(** An operation on the PPU alone. *)
Definition on_ppu (f : PPU -> Res PPU) (s : PPU * X) : Res (PPU * X) :=
  let '(p, x) := s in let? p' := f p in Ok (p', x).

(** [lcycle<Line>] *)
Definition lcycle (line cycle : Z) (s : PPU * X) : Res (PPU * X) :=
  if negb (cycle <=? 340) then Err AssertFailure
  else if line <? 240 then on_ppu (run_cycletab cycle) s
  else if line =? 241 then (if cycle =? 1 then vblank_begin s else Ok s)
  else if line =? 261 then
    on_ppu (fun p =>
      let? p := run_cycletab cycle p in
      let p := if cycle =? 1 then vblank_end p else p in
      let p := if (280 <=? cycle) && (cycle <=? 304) then cycle_copyvert p else p in
      if cycle =? 340 then begin_frame p else Ok p) s
  else Ok s.

(** [PPU::run] *)
Definition run (s : PPU * X) : Res (PPU * X) :=
  match linetab !! Z.to_nat (p_lines (fst s) mod 262) with
  | None => Err OutOfBounds
  | Some (LCYCLE n) =>
      let? '(p, x) := lcycle n (p_cycles (fst s) mod 341) s in
      let p := set_p_cycles (u64 (p_cycles p + 1)) p in
      let p := set_p_lines (u64 (p_lines p + (if p_cycles p mod 341 =? 0 then 1 else 0))) p in
      Ok (p, x)
  end.
End Ppu.
