(* ===== verification/PpuInv.v ===== *)
(** * Invariants of the PPU

    Every member stays within its width, the memories keep their size, and no
    operation faults on a bus whose areas are the ones the emulator maps. *)

From S2P Require Import Prelude Bits HeapArray Bus Cartridge Video Ppu.
Open Scope Z_scope.

(** ** The invariant *)

(** An array of [n] bytes. *)
Definition mem_ok (n : Z) (a : HeapArray) : Prop :=
  len a = n /\ forall i, 0 <= i < n -> byte (cell a i).

Record io_ok (i : IO) : Prop := {
  ok_latch : byte (latch i);
  ok_oam_addr : byte (oam_addr i);
  ok_data_buf : byte (data_buf i);
}.

Record vram_ok (r : VRAM) : Prop := {
  ok_addr : word (addr r);
  ok_tmp : 0 <= tmp r < 2 ^ 15;   (** bit 15 belongs to no field *)
  ok_fine_x : 0 <= fine_x r < 8;
}.

Record tile_ok (t : Tile) : Prop := {
  ok_nt : byte (t_nt t); ok_attr : byte (t_attr t); ok_low : byte (t_low t); ok_high : byte (t_high t);
}.

Record shift_ok (s : Shift) : Prop := {
  ok_tlow : word (tlow s); ok_thigh : word (thigh s); ok_alow : byte (alow s); ok_ahigh : byte (ahigh s);
}.

(** A 256 by 240 canvas. *)
Definition screen_ok (o : option Canvas) : Prop :=
  forall c, o = Some c -> canvas_ok c /\ tw (tex c) = 256 /\ th (tex c) = 240.

Record ppu_ok (p : PPU) : Prop := {
  ok_vrammem : mem_ok VRAM_SIZE (vrammem p);
  ok_oammem : mem_ok OAM_SIZE (oammem p);
  ok_palmem : mem_ok PAL_SIZE (palmem p);
  ok_io : io_ok (io p);
  ok_vram : vram_ok (vram p);
  ok_tile : tile_ok (tile p);
  ok_shift : shift_ok (shift p);
  ok_screen : screen_ok (screen p);
}.

(** The areas of the VRAM bus, once a cartridge with CHR ROM is inserted. *)
Record vbus_ok (b : Bus VHandler) : Prop := {
  vb_chr : forall a, 0 <= a < 0x2000 -> Bus.reader b a = Ok VChr /\ Bus.writer b a = Ok VChr;
  vb_nt : exists h, h <> VChr /\ h <> VPal /\
    forall a, 0x2000 <= a < 0x3F00 -> Bus.reader b a = Ok h /\ Bus.writer b a = Ok h;
  vb_pal : forall a, 0x3F00 <= a < 0x4000 -> Bus.reader b a = Ok VPal /\ Bus.writer b a = Ok VPal;
  vb_size : Bus.size b = PPUBUS_SIZE;
}.

(** CHR ROM of at least 8 KiB. *)
Definition chr_ok (c : Cartridge) : Prop :=
  0x2000 <= len (chrrom c) /\ forall i, 0 <= i < len (chrrom c) -> byte (cell (chrrom c) i).

(** ** Memories *)

Lemma mem_get n a i : mem_ok n a -> 0 <= i < n -> exists v, get a i = Ok v /\ byte v.
Proof. intros [Hl Hb] Hi. exists (cell a i). split; [apply get_in; lia | by apply Hb]. Qed.

Lemma mem_set n a i v : mem_ok n a -> 0 <= i < n -> byte v ->
  exists a', set a i v = Ok a' /\ mem_ok n a'.
Proof.
  intros [Hl Hb] Hi Hv. destruct (set a i v) as [a' |] eqn:E; [| by rewrite set_in in E by lia].
  exists a'. split; [done |]. apply set_Ok in E as (_ & Hl' & Hc). split; [lia |].
  intros j Hj. rewrite Hc. case_match; [done | by apply Hb].
Qed.

Lemma mem_zero n a : mem_ok n a -> 0 <= n ->
  exists a', zero_mem n a = Ok a' /\ mem_ok n a' /\ forall i, 0 <= i < n -> cell a' i = 0.
Proof.
  intros [Hl Hb] Hn. unfold zero_mem.
  destruct (for_upto_array (Z.to_nat n) 0 (fun _ => 0) a) as (a' & E & Hl' & Hc); [lia | lia |].
  exists a'. split; [done |]. split; [split |].
  - lia.
  - intros i Hi. rewrite Hc. case_match; [unfold byte; lia | by apply Hb].
  - intros i Hi. rewrite Hc. zdecide_true (0 <=? i). by zdecide_true (i <? 0 + Z.of_nat (Z.to_nat n)).
Qed.

(** ** Addresses *)

(** Masks of the form [2^n - 1] bound a value. *)
Lemma land_below z m n : 0 <= m < 2 ^ n -> 0 <= n -> 0 <= Z.land z m < 2 ^ n.
Proof.
  intros Hm Hn. assert (H0 : 0 <= Z.land z m) by (apply Z.land_nonneg; lia).
  split; [done |]. apply testbit_bounded; [done | done |]. intros i Hi.
  rewrite Z.land_spec, (testbit_above m n i) by done. apply andb_false_r.
Qed.

Lemma lor_below a b n : 0 <= a < 2 ^ n -> 0 <= b < 2 ^ n -> 0 <= n -> 0 <= Z.lor a b < 2 ^ n.
Proof.
  intros Ha Hb Hn. assert (H0 : 0 <= Z.lor a b) by (apply Z.lor_nonneg; lia).
  split; [done |]. apply testbit_bounded; [done | done |]. intros i Hi.
  by rewrite Z.lor_spec, (testbit_above a n i), (testbit_above b n i).
Qed.

Lemma shiftl_below z k n : 0 <= z < 2 ^ (n - k) -> 0 <= k <= n -> 0 <= Z.shiftl z k < 2 ^ n.
Proof.
  intros Hz Hk. rewrite Z.shiftl_mul_pow2 by lia.
  replace (2 ^ n) with (2 ^ (n - k) * 2 ^ k) by (rewrite <- Z.pow_add_r by lia; f_equal; lia).
  assert (0 < 2 ^ k) by (apply Z.pow_pos_nonneg; lia). nia.
Qed.

Lemma b2z_below b n : 1 <= n -> 0 <= Z.b2z b < 2 ^ n.
Proof.
  intros Hn. assert (2 ^ 1 <= 2 ^ n) by (apply Z.pow_le_mono_r; lia). destruct b; simpl; lia.
Qed.

Lemma lor_2000 y : 0 <= y < 2 ^ 12 -> Z.lor 0x2000 y = 0x2000 + y.
Proof.
  intros Hy. rewrite Z.lor_comm. change 0x2000 with (Z.shiftl 2 12). rewrite lor_shiftl by lia.
  change (Z.shiftl 2 12) with (2 * 2 ^ 12). lia.
Qed.

Lemma nt_range a : 0 <= nt a < 2 ^ 2.
Proof. apply bf_get_bound; lia. Qed.
Lemma fine_y_range a : 0 <= fine_y a < 2 ^ 3.
Proof. apply bf_get_bound; lia. Qed.
Lemma coarse_x_range a : 0 <= coarse_x a < 2 ^ 5.
Proof. apply bf_get_bound; lia. Qed.
Lemma coarse_y_range a : 0 <= coarse_y a < 2 ^ 5.
Proof. apply bf_get_bound; lia. Qed.

(** The four addresses that background fetches read. *)
Lemma nt_addr_range a : 0x2000 <= Z.lor 0x2000 (Z.land a 0x0FFF) < 0x3000.
Proof.
  pose proof (land_below a 0x0FFF 12 ltac:(lia) ltac:(lia)). rewrite lor_2000 by done. lia.
Qed.

Lemma attr_addr_range a :
  0x2000 <= Z.lor (Z.lor (Z.lor 0x23C0 (Z.shiftl (nt a) 10))
              (Z.shiftl (Z.land (coarse_y a) 0x1C) 1)) (Z.shiftr (Z.land (coarse_x a) 0x1C) 2) < 0x3000.
Proof.
  change 0x23C0 with (Z.lor 0x2000 0x3C0). rewrite <- !Z.lor_assoc.
  assert (H : 0 <= Z.lor 0x3C0 (Z.lor (Z.shiftl (nt a) 10) (Z.lor (Z.shiftl (Z.land (coarse_y a) 0x1C) 1)
      (Z.shiftr (Z.land (coarse_x a) 0x1C) 2))) < 2 ^ 12).
  { repeat apply lor_below; try lia.
    - apply shiftl_below; [apply nt_range | lia].
    - apply shiftl_below; [| lia].
      pose proof (land_below (coarse_y a) 0x1C 5 ltac:(lia) ltac:(lia)). lia.
    - pose proof (land_below (coarse_x a) 0x1C 5 ltac:(lia) ltac:(lia)).
      rewrite Z.shiftr_div_pow2 by lia. change (2 ^ 2) with 4. dlia. }
  rewrite lor_2000 by exact H. lia.
Qed.

Lemma pattern_addr_range (b : bool) tnt fy k : byte tnt -> 0 <= fy < 2 ^ 3 -> 0 <= k < 2 ^ 13 ->
  0 <= Z.lor (Z.lor (Z.lor (Z.shiftl (Z.b2z b) 12) (Z.shiftl tnt 4)) k) fy < 2 ^ 13.
Proof.
  intros Ht Hf Hk. repeat apply lor_below; try lia.
  - apply shiftl_below; [apply b2z_below |]; lia.
  - apply shiftl_below; [unfold byte in Ht |]; lia.
Qed.

(** ** Mirroring *)

(** Both mirrorings fold the four nametables onto the 2 KiB of memory.  Horizontal
    mirroring pairs neighbours, vertical mirroring pairs those below each other. *)
Lemma decode_horz a : word a -> decode HORZ a = (a / 0x800 mod 2) * 0x400 + a mod 0x400.
Proof.
  intros Ha.
  assert (Ea : decode HORZ a = decode HORZ (a mod 0x1000)).
  { unfold decode. change 0xFFF with (Z.ones 12). rewrite !Z.land_ones by lia.
    change (2 ^ 12) with 0x1000. by rewrite Zmod_mod. }
  set (f := fun a => decode HORZ a =? (a / 0x800 mod 2) * 0x400 + a mod 0x400).
  assert (Hf : forallb f (Z.of_nat <$> seq 0 (Z.to_nat 4096)) = true) by (vm_compute; reflexivity).
  pose proof (range_forall 4096 f Hf (a mod 0x1000) (Z.mod_pos_bound a 0x1000 eq_refl)) as H.
  unfold f in H. bool_hyps. rewrite Ea, H.
  pose proof (Z.div_mod a 0x1000 ltac:(lia)) as Eq.
  set (q := a / 0x1000) in *. set (m := a mod 0x1000) in *. rewrite Eq. f_equal; [f_equal |].
  - replace (0x1000 * q + m) with (m + 2 * q * 0x800) by lia.
    rewrite Z.div_add by lia. replace (m / 0x800 + 2 * q) with (m / 0x800 + q * 2) by lia.
    by rewrite Z_mod_plus_full.
  - replace (0x1000 * q + m) with (m + (4 * q) * 0x400) by lia. by rewrite Z_mod_plus_full.
Qed.

Lemma decode_vert a : decode VERT a = a mod 0x800.
Proof. unfold decode. change 0x7FF with (Z.ones 11). by rewrite Z.land_ones by lia. Qed.

Lemma decode_range m a : word a -> 0 <= decode m a < VRAM_SIZE.
Proof.
  intros Ha. unfold VRAM_SIZE. destruct m; [rewrite decode_vert; dlia | rewrite decode_horz by done; dlia |].
  change (decode OTHER a) with (decode VERT a). rewrite decode_vert. dlia.
Qed.

(** The texture of the screen, if there is one. *)
Definition shown (p : PPU) : option Texture := tex <$> screen p.

(** A step within a cycle: the invariant holds and the position is unchanged. *)
Definition good (p p' : PPU) : Prop :=
  ppu_ok p' /\ p_cycles p' = p_cycles p /\ p_lines p' = p_lines p /\ odd_frame p' = odd_frame p /\
  shown p' = shown p.

(** ** The bus never faults below $4000 *)

Section Inv.
Context (vbus : Bus VHandler) (cart : Cartridge).
Hypothesis Hbus : vbus_ok vbus.
Hypothesis Hchr : chr_ok cart.

Lemma land_1f a : 0 <= Z.land a 0x1F < PAL_SIZE.
Proof. apply (land_below a 0x1F 5); lia. Qed.

(** The area an address belongs to. *)
Lemma vbus_area a : 0 <= a < PPUBUS_SIZE ->
  exists h, Bus.reader vbus a = Ok h /\ Bus.writer vbus a = Ok h /\ (h = VChr -> a < 0x2000).
Proof.
  unfold PPUBUS_SIZE. intros Ha. destruct (decide (a < 0x2000)).
  - exists VChr. destruct (vb_chr _ Hbus a) as [-> ->]; [lia |]. done.
  - destruct (decide (a < 0x3F00)).
    + destruct (vb_nt _ Hbus) as (h & Hn & _ & Hr). exists h. destruct (Hr a) as [-> ->]; [lia |]. done.
    + exists VPal. destruct (vb_pal _ Hbus a) as [-> ->]; [lia |]. done.
Qed.

Lemma vread_ok p a : ppu_ok p -> 0 <= a < PPUBUS_SIZE ->
  exists v, vread vbus cart p a = Ok v /\ byte v.
Proof.
  intros Hp Ha. destruct (vbus_area a Ha) as (h & Hr & _ & Hc).
  unfold vread. rewrite u16_id by (unfold PPUBUS_SIZE in Ha; dlia). rewrite Hr. simpl.
  assert (Hw : word a) by (unfold PPUBUS_SIZE in Ha; dlia).
  destruct h as [| | m |].
  - pose proof (land_1f a). zdecide_true (Z.land a 31 <? PAL_SIZE).
    eapply mem_get; [apply Hp | done].
  - exists 0. done.
  - pose proof (decode_range m a Hw). zdecide_true (decode m a <? VRAM_SIZE).
    eapply mem_get; [apply Hp | done].
  - unfold read_chrrom. destruct Hchr as [Hl Hb]. specialize (Hc eq_refl).
    rewrite get_in by lia. eexists. split; [done | apply Hb; lia].
Qed.

Lemma vwrite_ok p a d : ppu_ok p -> 0 <= a < PPUBUS_SIZE -> byte d ->
  exists p', vwrite vbus p a d = Ok p' /\ good p p' /\ vram p' = vram p /\ io p' = io p.
Proof.
  intros Hp Ha Hd. destruct (vbus_area a Ha) as (h & _ & Hr & _).
  unfold vwrite. rewrite u16_id by (unfold PPUBUS_SIZE in Ha; dlia). rewrite Hr. simpl.
  assert (Hw : word a) by (unfold PPUBUS_SIZE in Ha; dlia).
  destruct h as [| | m |].
  - pose proof (land_1f a). zdecide_true (Z.land a 31 <? PAL_SIZE).
    destruct (mem_set _ (palmem p) (Z.land a 31) d (ok_palmem p Hp)) as (m & -> & Hm); [done .. |].
    eexists. split_and!; [done | split; [destruct Hp; by constructor | done] | done | done].
  - by exists p.
  - pose proof (decode_range m a Hw). zdecide_true (decode m a <? VRAM_SIZE).
    destruct (mem_set _ (vrammem p) (decode m a) d (ok_vrammem p Hp)) as (v & -> & Hm); [done .. |].
    eexists. split_and!; [done | split; [destruct Hp; by constructor | done] | done | done].
  - by exists p.
Qed.

(** ** Every operation keeps the invariant *)

Lemma good_refl p : ppu_ok p -> good p p.
Proof. done. Qed.
Lemma good_trans p q t : good p q -> good q t -> good p t.
Proof. unfold good. intros (_ & E1 & E2 & E3 & E4) (H & F1 & F2 & F3 & F4). split_and!; congruence. Qed.

Lemma good_io f p : ppu_ok p -> (io_ok (io p) -> io_ok (f (io p))) -> good p (on_io f p).
Proof. intros [] H. split; [| done]. constructor; simpl; auto. Qed.
Lemma good_vram f p : ppu_ok p -> (vram_ok (vram p) -> vram_ok (f (vram p))) -> good p (on_vram f p).
Proof. intros [] H. split; [| done]. constructor; simpl; auto. Qed.
Lemma good_tile f p : ppu_ok p -> (tile_ok (tile p) -> tile_ok (f (tile p))) -> good p (on_tile f p).
Proof. intros [] H. split; [| done]. constructor; simpl; auto. Qed.
Lemma good_shift f p : ppu_ok p -> (shift_ok (shift p) -> shift_ok (f (shift p))) -> good p (on_shift f p).
Proof. intros [] H. split; [| done]. constructor; simpl; auto. Qed.

Lemma good_vaddr v p : ppu_ok p -> word v -> good p (set_vaddr v p).
Proof. intros Hp Hv. apply good_vram; [done |]. intros []. by constructor. Qed.
Lemma good_vtmp v p : ppu_ok p -> 0 <= v < 2 ^ 15 -> good p (set_vtmp v p).
Proof. intros Hp Hv. apply good_vram; [done |]. intros []. by constructor. Qed.

Lemma good_inc_addr p : ppu_ok p -> good p (inc_addr p).
Proof. intros Hp. apply good_vaddr; auto with emu. Qed.

Lemma byte_land_mask z m n : 0 <= m < 2 ^ n -> 0 <= n <= 8 -> byte (Z.land z m).
Proof.
  intros Hm Hn. pose proof (land_below z m n Hm ltac:(lia)).
  assert (2 ^ n <= 2 ^ 8) by (apply Z.pow_le_mono_r; lia). unfold byte. lia.
Qed.

(** A register read: a fault only for the data register from $4000 on. *)
Lemma readreg_ok which p : ppu_ok p -> (which = 0x2007 -> addr (vram p) < PPUBUS_SIZE) ->
  exists v p', readreg vbus cart which p = Ok (v, p') /\ byte v /\ good p p'.
Proof.
  intros Hp Ha. pose proof (ok_addr _ (ok_vram p Hp)) as Hw.
  assert (Hfin : forall q, good p q -> exists v p', Ok (latch (io q), q) = Ok (v, p') /\ byte v /\ good p p').
  { intros q Hq. eexists _, _. split_and!; [done | | apply Hq ..]. apply Hq. }
  assert (Hio : forall f, (io_ok (io p) -> io_ok (f (io p))) -> good p (on_io f p))
    by (intros; by apply good_io).
  unfold readreg. repeat (case_match; subst; cbn [rbind]; try (apply Hfin, good_refl; done)).
  3: { apply Hfin, Hio. intros []. constructor; simpl; auto with emu. }
  3: { apply Hfin, Hio. intros []. constructor; simpl; auto with emu. unfold byte; lia. }
  - set (q := on_io _ p).
    assert (Hq : good p q) by (apply Hio; intros []; by constructor).
    destruct (vread_ok q (addr (vram q))) as (v & -> & Hv); [apply Hq | split; [apply Hw | by apply Ha] |].
    cbn [rbind]. apply Hfin. eapply good_trans; [exact Hq |]. eapply good_trans; [| apply good_inc_addr].
    + apply good_io; [apply Hq |]. intros []. by constructor.
    + apply good_io; [apply Hq |]. intros []. by constructor.
  - destruct (vread_ok p (addr (vram p))) as (v & -> & Hv); [done | split; [apply Hw | by apply Ha] |].
    cbn [rbind]. apply Hfin. eapply good_trans; [| apply good_inc_addr]; apply Hio; intros []; by constructor.
Qed.

(** Assignments to the bits of [vram.tmp]. *)
Lemma good_tmp_field b n v p : ppu_ok p -> 0 <= b -> 0 <= n -> b + n <= 15 ->
  good p (set_vtmp (bf_set b n (tmp (vram p)) v) p).
Proof.
  intros Hp Hb Hn Hbn. apply good_vtmp; [done |]. apply bf_set_below; try lia. apply Hp.
Qed.

Lemma good_tmp_bits b n v p : ppu_ok p -> 0 <= b -> 0 <= n -> b + n <= 15 -> 0 <= v ->
  good p (set_vtmp (u16 (setbits (tmp (vram p)) b n v)) p).
Proof.
  intros Hp Hb Hn Hbn Hv. apply good_vtmp; [done |].
  pose proof (setbits_below (tmp (vram p)) b n v 15 (ok_tmp _ (ok_vram p Hp)) Hb ltac:(lia) Hbn
    ltac:(lia) Hv). rewrite u16_id; [done |]. unfold word. lia.
Qed.

Lemma good_flip_latch p : ppu_ok p -> good p (flip_latch p).
Proof. intros Hp. apply good_io; [done |]. intros []. by constructor. Qed.

Lemma good_write_ctrl d p : ppu_ok p -> good p (write_ctrl d p).
Proof.
  intros Hp. set (q := set_vtmp (set_nt (tmp (vram p)) (Z.land d 3)) p).
  assert (Hq : good p q) by (apply good_tmp_field; lia || done).
  eapply good_trans; [exact Hq |]. apply good_io; [apply Hq |]. intros []. by constructor.
Qed.

Lemma good_write_mask d p : ppu_ok p -> good p (write_mask d p).
Proof. intros Hp. apply good_io; [done |]. intros []. by constructor. Qed.

Lemma good_write_scroll d p : ppu_ok p -> good p (write_scroll d p).
Proof.
  intros Hp. unfold write_scroll. case_match.
  - set (q := set_vtmp _ p). assert (Hq : good p q) by (apply good_tmp_field; lia || done).
    set (t := on_vram _ q). assert (Ht : good q t).
    { apply good_vram; [apply Hq |]. intros []. constructor; simpl; try done.
      apply (land_below d 7 3); lia. }
    eapply good_trans; [exact Hq | eapply good_trans; [exact Ht | apply good_flip_latch, Ht]].
  - set (q := set_vtmp (set_coarse_y (tmp (vram p)) (Z.land (Z.shiftr d 3) 31)) p).
    assert (Hq : good p q) by (apply good_tmp_field; lia || done).
    set (t := set_vtmp (set_fine_y (tmp (vram q)) (Z.land d 7)) q).
    assert (Ht : good q t) by (apply good_tmp_field; [apply Hq | lia ..]).
    eapply good_trans; [exact Hq | eapply good_trans; [exact Ht | apply good_flip_latch, Ht]].
Qed.

Lemma good_write_addr d p : ppu_ok p -> byte d -> good p (write_addr d p).
Proof.
  intros Hp Hd. unfold write_addr. case_match; cbv zeta.
  - set (q := set_vtmp _ p).
    assert (Hq : good p q) by (apply good_tmp_bits; try lia; [done | apply Z.land_nonneg; lia]).
    set (t := set_vtmp _ q).
    assert (Ht : good q t) by (unfold t, setbit; apply good_tmp_bits; try (simpl; lia); apply Hq).
    eapply good_trans; [exact Hq | eapply good_trans; [exact Ht | apply good_flip_latch, Ht]].
  - set (q := set_vtmp _ p).
    assert (Hq : good p q) by (apply good_tmp_bits; try lia; [done | apply Hd]).
    set (t := set_vaddr _ q). assert (Ht : good q t).
    { apply good_vaddr; [apply Hq |]. pose proof (ok_tmp _ (ok_vram q (proj1 Hq))). unfold word. lia. }
    eapply good_trans; [exact Hq | eapply good_trans; [exact Ht | apply good_flip_latch, Ht]].
Qed.

(** A register write: likewise. *)
Lemma writereg_ok which d p : ppu_ok p -> (which = 0x2007 -> addr (vram p) < PPUBUS_SIZE) -> byte d ->
  exists p', writereg vbus which d p = Ok p' /\ good p p'.
Proof.
  intros Hp Ha Hd. pose proof (ok_addr _ (ok_vram p Hp)) as Hw.
  unfold writereg. set (q := on_io (set_latch d) p).
  assert (Hq : good p q) by (apply good_io; [done | intros []; by constructor]).
  assert (Hfin : forall t, good q t -> exists p', Ok t = Ok p' /\ good p p')
    by (intros t Ht; exists t; split; [done | by apply (good_trans p q t)]).
  pose proof (proj1 Hq) as Hq1.
  repeat (case_match; subst; try (apply Hfin, good_refl; done)); try apply Hfin.
  all: try lazymatch goal with
    | |- good _ (write_scroll _ _) => by apply good_write_scroll
    | |- good _ (write_mask _ _) => by apply good_write_mask
    | |- good _ (write_addr _ _) => by apply good_write_addr
    | |- good _ (write_ctrl _ _) => by apply good_write_ctrl
    | |- good _ (on_io _ _) => apply good_io; [done |]; intros []; constructor; simpl; auto with emu
    end.
  destruct (vwrite_ok q (addr (vram q)) d) as (t & -> & Ht & _); [done | split; [apply Hw | by apply Ha] | done |].
  cbn [rbind]. apply Hfin. eapply good_trans; [exact Ht | apply good_inc_addr, Ht].
Qed.

(** ** The rendering steps *)

Lemma good_inc_v_horzpos p : ppu_ok p -> good p (inc_v_horzpos p).
Proof.
  intros Hp. unfold inc_v_horzpos. repeat case_match; try by apply good_refl.
  all: apply good_vaddr; [done | apply bf_set_word].
Qed.

Lemma good_inc_v_vertpos p : ppu_ok p -> good p (inc_v_vertpos p).
Proof.
  intros Hp. unfold inc_v_vertpos. repeat case_match; try by apply good_refl.
  all: apply good_vaddr; [done | apply bf_set_word].
Qed.

Lemma good_copy_v_horzpos p : ppu_ok p -> good p (copy_v_horzpos p).
Proof.
  intros Hp. unfold copy_v_horzpos. case_match; [by apply good_refl |].
  apply good_vaddr; [done | apply bf_set_word].
Qed.

Lemma good_copy_v_vertpos p : ppu_ok p -> good p (copy_v_vertpos p).
Proof.
  intros Hp. unfold copy_v_vertpos. case_match; [by apply good_refl |].
  apply good_vaddr; [done | apply bf_set_word].
Qed.

(** A bus read whose result goes to the tile. *)
Lemma good_fetch f a p : ppu_ok p -> 0 <= a < PPUBUS_SIZE ->
  (forall v t, byte v -> tile_ok t -> tile_ok (f v t)) ->
  exists p', (let? v := vread vbus cart p a in Ok (on_tile (f v) p)) = Ok p' /\ good p p'.
Proof.
  intros Hp Ha Hf. destruct (vread_ok p a Hp Ha) as (v & -> & Hv). cbn [rbind].
  eexists. split; [done |]. apply good_tile; auto.
Qed.

Lemma good_fetch_nt b p : ppu_ok p -> exists p', fetch_nt vbus cart b p = Ok p' /\ good p p'.
Proof.
  intros Hp. unfold fetch_nt. case_match; [by exists p |].
  pose proof (nt_addr_range (addr (vram p))).
  apply (good_fetch set_t_nt); [done | unfold PPUBUS_SIZE; lia |]. intros v t Hv []. by constructor.
Qed.

Lemma good_fetch_attr b p : ppu_ok p -> exists p', fetch_attr vbus cart b p = Ok p' /\ good p p'.
Proof.
  intros Hp. unfold fetch_attr. case_match; [by exists p |].
  pose proof (attr_addr_range (addr (vram p))).
  apply (good_fetch set_t_attr); [done | unfold PPUBUS_SIZE; lia |]. intros v t Hv []. by constructor.
Qed.

Lemma good_fetch_lowbg b p : ppu_ok p -> exists p', fetch_lowbg vbus cart b p = Ok p' /\ good p p'.
Proof.
  intros Hp. unfold fetch_lowbg. case_match; [by exists p |].
  pose proof (pattern_addr_range (bg_pt_addr (io p)) (t_nt (tile p)) (fine_y (addr (vram p))) 0
    (ok_nt _ (ok_tile p Hp)) (fine_y_range _) ltac:(lia)) as Hr. rewrite Z.lor_0_r in Hr.
  apply (good_fetch set_t_low); [done | rewrite u16_id; unfold PPUBUS_SIZE; dlia |].
  intros v t Hv []. by constructor.
Qed.

Lemma good_fetch_highbg b p : ppu_ok p -> exists p', fetch_highbg vbus cart b p = Ok p' /\ good p p'.
Proof.
  intros Hp. unfold fetch_highbg. case_match; [by exists p |].
  pose proof (pattern_addr_range (bg_pt_addr (io p)) (t_nt (tile p)) (fine_y (addr (vram p))) (Z.shiftl 1 3)
    (ok_nt _ (ok_tile p Hp)) (fine_y_range _) ltac:(change (Z.shiftl 1 3) with 8; lia)) as Hr.
  apply (good_fetch set_t_high); [done | rewrite u16_id; unfold PPUBUS_SIZE; dlia |].
  intros v t Hv []. by constructor.
Qed.

Lemma good_background c p : ppu_ok p -> exists p', background_cycle vbus cart c p = Ok p' /\ good p p'.
Proof.
  intros Hp. unfold background_cycle.
  repeat (case_match; subst);
    first [by apply good_fetch_nt | by apply good_fetch_attr | by apply good_fetch_lowbg
          | by apply good_fetch_highbg | by exists p].
Qed.

Lemma word_shiftr1 z : word z -> word (Z.shiftr z 1).
Proof. intros H. rewrite Z.shiftr_div_pow2 by lia. change (2 ^ 1) with 2. dlia. Qed.
Lemma byte_shr1 z : byte z -> byte (Z.shiftr z 1).
Proof. intros H. rewrite Z.shiftr_div_pow2 by lia. change (2 ^ 1) with 2. dlia. Qed.

Lemma good_shift_run p : ppu_ok p -> good p (shift_run p).
Proof.
  intros Hp. apply good_shift; [done |]. intros [].
  constructor; simpl; auto using word_shiftr1, byte_shr1 with emu.
Qed.

Context (shl_undefined : Z -> Z -> Z).

Lemma good_shift_fill p : ppu_ok p -> good p (shift_fill shl_undefined p).
Proof. intros Hp. apply good_shift; [done |]. intros []. constructor; simpl; auto with emu. Qed.

Lemma getcolor_ok p b pal palind : ppu_ok p ->
  exists v, getcolor vbus cart p b pal palind = Ok v /\ byte v.
Proof.
  intros Hp. unfold getcolor. cbv zeta. apply vread_ok; [done |].
  pose proof (u8_byte (Z.lor (Z.lor (Z.shiftl (Z.b2z b) 4) (Z.shiftl pal 2)) palind)).
  unfold PPUBUS_SIZE, byte in *. lia.
Qed.

(** The beam is where a pixel may be drawn. *)
Definition in_picture (p : PPU) : Prop :=
  4 <= p_cycles p mod 341 <= 256 /\ (p_lines p mod 262 < 240 \/ p_lines p mod 262 = 261).

Lemma good_output p : ppu_ok p -> in_picture p -> exists p', output vbus cart p = Ok p' /\ good p p'.
Proof.
  intros Hp [Hx Hy]. unfold output. destruct (screen p) as [scr |] eqn:Es; [| by exists p].
  unfold bg_output. edestruct getcolor_ok as (v & -> & Hv); [done |]. cbn [rbind].
  destruct (ok_screen p Hp scr Es) as (Hc & Ew & Eh).
  set (x := p_cycles p mod 341) in *. set (y := p_lines p mod 262) in *.
  assert (Hy0 : 0 <= y) by (apply Z.mod_pos_bound; lia).
  replace (((y <=? 239) || (y =? 261)) && (x <=? 256)) with true by (symmetry; zcases).
  cbn [negb]. destruct (Z.eqb_spec x 256); [by exists p |]. destruct (Z.eqb_spec y 261); [by exists p |].
  edestruct (drawpixel_spec scr x y (if v =? 0x30 then 0xFFFFFFFF else 0)) as (c' & -> & Hc' & Et & _);
    [done | lia | lia | case_match; lia | intros [= ->]; lia |].
  cbn [rbind]. eexists. split; [done |]. split.
  - destruct Hp. constructor; try done. intros c0 [= <-]. rewrite Et. done.
  - split_and!; try done. unfold shown. rewrite Es. simpl. by rewrite Et.
Qed.

Lemma good_ccycle c p : ppu_ok p -> (4 <= c <= 256 -> in_picture p) ->
  exists p', ccycle vbus cart shl_undefined c p = Ok p' /\ good p p'.
Proof.
  intros Hp Hpic. unfold ccycle, cycle_outputpixel, cycle_fillshifts, cycle_shift, cycle_incvhorz, cycle_incvvert, cycle_copyhorz.
  assert (Hfin : forall q, good p q -> exists p', Ok (if c =? 257 then copy_v_horzpos q else q) = Ok p' /\ good p p').
  { intros q Hq. eexists. split; [done |]. case_match; [| done].
    eapply good_trans; [exact Hq | apply good_copy_v_horzpos, Hq]. }
  destruct (((1 <=? c) && (c <=? 256)) || ((321 <=? c) && (c <=? 340))); cbn [rbind];
    [| by apply Hfin].
  assert (H1 : exists q, (if (4 <=? c) && (c <=? 256) then output vbus cart p else Ok p) = Ok q /\ good p q).
  { destruct ((4 <=? c) && (c <=? 256)) eqn:E; [| by exists p].
    apply andb_true_iff in E as [?%Z.leb_le ?%Z.leb_le]. apply good_output; auto. }
  destruct H1 as (q & -> & Hq). cbn [rbind].
  destruct (good_background (c mod 8) q) as (t & -> & Ht); [apply Hq |]. cbn [rbind].
  assert (Hpt : good p t) by (eapply good_trans; eauto). clear Hq Ht.
  assert (Hstep : forall (b : bool) f u, (forall v, ppu_ok v -> good v (f v)) -> good p u ->
    good p (if b then f u else u)).
  { intros [] f u Hf Hu; [| done]. eapply good_trans; [exact Hu | apply Hf, Hu]. }
  apply Hfin. repeat apply Hstep; auto using good_inc_v_vertpos, good_inc_v_horzpos, good_shift_run, good_shift_fill.
Qed.
End Inv.
