(* ===== verification/PpuSched.v ===== *)
(** * The schedule of the PPU

    [PPU::run] as a clock: two frames of 262 lines by 341 cycles, the second one
    cycle shorter, with the interrupt at line 241, cycle 1 of each.  The two
    counters, the parity flag and the two tables implement a single counter. *)

From S2P Require Import Prelude Bits HeapArray Bus Cartridge Video Ppu PpuInv.
Open Scope Z_scope.

(** ** The tables *)

(** Which entries of [cycletab] are not idle. *)
Lemma cycletab_spec c : 0 <= c < 341 ->
  cycletab !! Z.to_nat c =
    Some (if ((1 <=? c) && (c <=? 257)) || (321 <=? c) then CCYCLE c else IDLE).
Proof.
  intros Hc. set (f := fun c => match cycletab !! Z.to_nat c with
    | Some IDLE => negb (((1 <=? c) && (c <=? 257)) || (321 <=? c))
    | Some (CCYCLE n) => (n =? c) && (((1 <=? c) && (c <=? 257)) || (321 <=? c))
    | None => false end).
  assert (Hf : forallb f (Z.of_nat <$> seq 0 (Z.to_nat 341)) = true) by (vm_compute; reflexivity).
  pose proof (range_forall 341 f Hf c Hc) as H. unfold f in H.
  destruct (cycletab !! Z.to_nat c) as [[| n] |]; [| | done].
  - apply negb_true_iff in H. by rewrite H.
  - apply andb_true_iff in H as [->%Z.eqb_eq ->]. done.
Qed.

Lemma linetab_spec l : 0 <= l < 262 -> linetab !! Z.to_nat l = Some (LCYCLE l).
Proof.
  intros Hl. set (f := fun l => match linetab !! Z.to_nat l with
    | Some (LCYCLE n) => n =? l | None => false end).
  assert (Hf : forallb f (Z.of_nat <$> seq 0 (Z.to_nat 262)) = true) by (vm_compute; reflexivity).
  pose proof (range_forall 262 f Hf l Hl) as H. unfold f in H.
  destruct (linetab !! Z.to_nat l) as [[n] |]; [| done]. by apply Z.eqb_eq in H as ->.
Qed.

(** ** The clock *)

Definition frame_cycles : Z := 262 * 341.
Definition last_tick : Z := 2 * frame_cycles - 1.

(** The abstract clock: the next tick, and the ticks that raise the interrupt. *)
Definition next_tick (t : Z) : Z := if t =? last_tick then 1 else t + 1.
Definition nmi_tick (t : Z) : bool := (t =? 241 * 341 + 1) || (t =? frame_cycles + 241 * 341 + 1).

(** The concrete counters at tick [t]. *)
Record pos_at (t : Z) (p : PPU) : Prop := {
  pa_range : 0 <= t <= last_tick;
  pa_cycles : p_cycles p = t;
  pa_lines : p_lines p = t / 341;
  pa_odd : odd_frame p = (frame_cycles <=? t);
}.

Lemma pos_dot t p : pos_at t p ->
  p_cycles p mod 341 = t mod 341 /\ p_lines p mod 262 = (t / 341) mod 262.
Proof. intros [Hr -> -> _]. done. Qed.

Lemma pos_good t p p' : pos_at t p -> good p p' -> pos_at t p'.
Proof. intros [Hr Hc Hl Ho] (_ & E1 & E2 & E3 & _). constructor; congruence. Qed.

Lemma tick_parts t : 0 <= t <= last_tick -> 0 <= t / 341 < 524 /\ 0 <= t mod 341 < 341 /\
  t = 341 * (t / 341) + t mod 341 /\
  (t / 341) mod 262 = if t / 341 <? 262 then t / 341 else t / 341 - 262.
Proof.
  unfold last_tick, frame_cycles. intros Ht. split_and!; [dlia .. |].
  destruct (Z.ltb_spec (t / 341) 262); dlia.
Qed.

Lemma nmi_tick_dot t : 0 <= t <= last_tick ->
  nmi_tick t = ((t / 341) mod 262 =? 241) && (t mod 341 =? 1).
Proof.
  intros Ht. destruct (tick_parts t Ht) as (Hq & Hr & Et & ->).
  set (q := t / 341) in *. set (r := t mod 341) in *. clearbody q r. subst t.
  unfold nmi_tick, frame_cycles. zcases.
Qed.

Section Sched.
Context (vbus : Bus VHandler) (cart : Cartridge) (shl_undefined : Z -> Z -> Z).
Hypothesis Hbus : vbus_ok vbus.
Hypothesis Hchr : chr_ok cart.

Lemma good_cycletab c p : ppu_ok p -> 0 <= c < 341 -> (4 <= c <= 256 -> in_picture p) ->
  exists p', run_cycletab vbus cart shl_undefined c p = Ok p' /\ good p p'.
Proof.
  intros Hp Hc Hpic. unfold run_cycletab. rewrite cycletab_spec by done. case_match; simpl.
  - by apply good_ccycle.
  - by exists p.
Qed.

Lemma good_vblank_end p : ppu_ok p -> good p (vblank_end p).
Proof. intros Hp. apply good_io; [done |]. intros []. by constructor. Qed.

(** The state after the work of a line and before the counters move. *)
Definition worked (t : Z) (p p' : PPU) : Prop :=
  (ppu_ok p' /\ shown p' = shown p) /\
  if (t mod 341 =? 340) && ((t / 341) mod 262 =? 261) && odd_frame p
  then p_cycles p' = 0 /\ p_lines p' = 0 /\ odd_frame p' = false
  else p_cycles p' = p_cycles p /\ p_lines p' = p_lines p /\
       odd_frame p' = xorb (odd_frame p) ((t mod 341 =? 340) && ((t / 341) mod 262 =? 261)).

Lemma good_worked t p p' : ((t mod 341 =? 340) && ((t / 341) mod 262 =? 261)) = false ->
  good p p' -> worked t p p'.
Proof. intros E (H & E1 & E2 & E3 & E4). unfold worked. rewrite E. simpl. rewrite xorb_false_r. done. Qed.

Context {X : Type} (fire : X -> X).

(** The pre-render line. *)
Lemma prerender_ok t p : ppu_ok p -> pos_at t p -> (t / 341) mod 262 = 261 ->
  exists p', (let? p := run_cycletab vbus cart shl_undefined (t mod 341) p in
     let p := if t mod 341 =? 1 then vblank_end p else p in
     let p := if (280 <=? t mod 341) && (t mod 341 <=? 304) then copy_v_vertpos p else p in
     if t mod 341 =? 340 then begin_frame p else Ok p) = Ok p' /\ worked t p p'.
Proof.
  intros Hp Hpos Hl. destruct (pos_dot t p Hpos) as [Ec El].
  pose proof (Z.mod_pos_bound t 341 ltac:(lia)) as Hc.
  destruct (good_cycletab (t mod 341) p Hp Hc) as (q & -> & Hq).
  { intros H. split; [lia |]. right. lia. }
  cbn [rbind]. set (q1 := if t mod 341 =? 1 then vblank_end q else q).
  assert (H1 : good p q1).
  { unfold q1. case_match; [| done]. eapply good_trans; [exact Hq | apply good_vblank_end, Hq]. }
  set (q2 := if (280 <=? t mod 341) && (t mod 341 <=? 304) then copy_v_vertpos q1 else q1).
  assert (H2 : good p q2).
  { unfold q2. case_match; [| done]. eapply good_trans; [exact H1 | apply good_copy_v_vertpos, H1]. }
  destruct (Z.eqb_spec (t mod 341) 340) as [E340 | N340].
  - unfold begin_frame. destruct H2 as (Hok & F1 & F2 & F3 & F4). rewrite F1, F2, Ec, El, E340, Hl. simpl.
    eexists. split; [done |]. unfold worked. rewrite E340, Hl, Z.eqb_refl. cbn [andb]. rewrite F3.
    destruct (odd_frame p); simpl; (split; [split; [destruct Hok; by constructor | exact F4] | done]).
  - exists q2. split; [done |]. apply good_worked; [zcases | done].
Qed.

Lemma lcycle_ok t p x : ppu_ok p -> pos_at t p ->
  exists p', lcycle vbus cart shl_undefined (Some fire) ((t / 341) mod 262) (t mod 341) (p, x)
      = Ok (p', if nmi_tick t then fire x else x) /\ worked t p p'.
Proof.
  intros Hp Hpos. pose proof (pa_range _ _ Hpos) as Ht. rewrite nmi_tick_dot by done.
  pose proof (Z.mod_pos_bound t 341 ltac:(lia)) as Hc.
  pose proof (Z.mod_pos_bound (t / 341) 262 ltac:(lia)) as Hl.
  destruct (pos_dot t p Hpos) as [Ec El].
  unfold lcycle. zdecide_true (t mod 341 <=? 340). cbn [negb].
  destruct (Z.ltb_spec ((t / 341) mod 262) 240) as [Hvis | Hinv].
  { zdecide_false ((t / 341) mod 262 =? 241). cbn [andb on_ppu].
    destruct (good_cycletab (t mod 341) p Hp Hc) as (q & -> & Hq).
    { intros H. split; [lia |]. left. lia. }
    exists q. split; [done |]. apply good_worked; [zcases | done]. }
  destruct (Z.eqb_spec ((t / 341) mod 262) 241) as [E241 | N241]; cbn [andb].
  { destruct (Z.eqb_spec (t mod 341) 1) as [E1 | N1].
    - eexists. split; [done |]. apply good_worked; [zcases |].
      apply good_io; [done |]. intros []. by constructor.
    - exists p. split; [done |]. apply good_worked; [zcases | by apply good_refl]. }
  destruct (Z.eqb_spec ((t / 341) mod 262) 261) as [E261 | N261].
  { destruct (prerender_ok t p Hp Hpos E261) as (q & E & Hq). exists q. split; [| done].
    unfold on_ppu, cycle_copyvert. cbv beta iota zeta in E |- *. by rewrite E. }
  exists p. split; [done |]. apply good_worked; [zcases | by apply good_refl].
Qed.

(** The counters after the work: the next tick. *)
Lemma worked_next t p p' : pos_at t p -> worked t p p' ->
  let q := set_p_cycles (u64 (p_cycles p' + 1)) p' in
  let q := set_p_lines (u64 (p_lines q + (if p_cycles q mod 341 =? 0 then 1 else 0))) q in
  ppu_ok q /\ pos_at (next_tick t) q /\ shown q = shown p.
Proof.
  intros [Ht Hcy Hli Hodd] [[Hok Hsh] Hw]. cbv zeta. split; [destruct Hok; by constructor |]. split; [| exact Hsh].
  destruct (tick_parts t Ht) as (Hq & Hr & Et & El). rewrite El in Hw.
  set (l := t / 341) in *. set (c := t mod 341) in *.
  assert (Elast : (c =? 340) && ((if l <? 262 then l else l - 262) =? 261) && odd_frame p = (t =? last_tick)).
  { rewrite Hodd. unfold last_tick, frame_cycles. clearbody l c. subst t. zcases. }
  rewrite Elast in Hw. unfold next_tick.
  destruct (Z.eqb_spec t last_tick) as [-> | Hne].
  - destruct Hw as (Ec & Eli & Ho).
    constructor; cbn [p_cycles p_lines odd_frame set_p_cycles set_p_lines]; by rewrite ?Ec, ?Eli, ?Ho.
  - destruct Hw as (Ec & Eli & Eo).
    unfold last_tick, frame_cycles in Ht, Hne.
    assert (E64 : u64 (t + 1) = t + 1) by (unfold u64; apply Z.mod_small; lia).
    constructor; cbn [p_cycles p_lines odd_frame set_p_cycles set_p_lines];
      rewrite ?Ec, ?Hcy, ?Eli, ?Hli, ?E64.
    + unfold last_tick, frame_cycles. lia.
    + done.
    + unfold u64. rewrite (Z.mod_small _ (2 ^ 64)) by (destruct (_ =? 0); lia).
      subst l c. clear -Ht. destruct (Z.eqb_spec ((t + 1) mod 341) 0); dlia.
    + rewrite Eo, Hodd. unfold frame_cycles. clear -Et Hq Hr Hne. clearbody l c. subst t. zcases.
Qed.

(** One call of [run] is one tick: it never faults, and calls the interrupt
    callback exactly at the interrupt ticks. *)
Lemma run_tick t p x : ppu_ok p -> pos_at t p ->
  exists p', run vbus cart shl_undefined (Some fire) (p, x) = Ok (p', if nmi_tick t then fire x else x) /\
    ppu_ok p' /\ pos_at (next_tick t) p' /\ shown p' = shown p.
Proof.
  intros Hp Hpos. destruct (lcycle_ok t p x Hp Hpos) as (p' & E & Hw).
  pose proof (worked_next t p p' Hpos Hw) as Hn.
  destruct (pos_dot t p Hpos) as [Ec El]. unfold run. cbn [fst]. rewrite El, Ec.
  rewrite linetab_spec by (apply Z.mod_pos_bound; lia). rewrite E. cbn [rbind].
  eexists. split; [done | exact Hn].
Qed.
End Sched.

(** ** The interrupt period *)

(** Ticks up to and including the next one that raises the interrupt. *)
Definition until_nmi (t : Z) : Z :=
  let first := 241 * 341 + 1 in
  let second := frame_cycles + first in
  if t <=? first then first - t + 1
  else if t <=? second then second - t + 1
  else last_tick - t + 1 + first.

Lemma until_nmi_bound t : 0 <= t <= last_tick -> 1 <= until_nmi t <= frame_cycles.
Proof. unfold until_nmi, last_tick, frame_cycles. intros Ht. zcases. Qed.

Lemma until_nmi_step t : 0 <= t <= last_tick ->
  if nmi_tick t then until_nmi t = 1 else until_nmi (next_tick t) = until_nmi t - 1.
Proof.
  unfold until_nmi, nmi_tick, next_tick, last_tick, frame_cycles. intros Ht.
  destruct (Z.eqb_spec t (241 * 341 + 1)); simpl; [zcases |].
  destruct (Z.eqb_spec t (262 * 341 + 241 * 341 + 1)); [zcases |]. zcases.
Qed.

Lemma next_tick_range t : 0 <= t <= last_tick -> 0 <= next_tick t <= last_tick.
Proof. unfold next_tick, last_tick, frame_cycles. intros Ht. zcases. Qed.

(** Frames alternate between 89342 and 89341 ticks. *)
Lemma nmi_gap t : 0 <= t <= last_tick -> nmi_tick t = true ->
  until_nmi (next_tick t) = if t <? frame_cycles then 89342 else 89341.
Proof.
  unfold nmi_tick, until_nmi, next_tick, last_tick, frame_cycles. intros Ht Hn.
  apply orb_true_iff in Hn as [->%Z.eqb_eq | ->%Z.eqb_eq]; reflexivity.
Qed.

(** ** [power] and [reset] put the clock at its first tick *)

Lemma power_ok p : ppu_ok p ->
  exists p', power p = Ok p' /\ ppu_ok p' /\ pos_at 0 p' /\ screen p' = screen p /\
    addr (vram p') = 0 /\ tmp (vram p') = 0 /\ fine_x (vram p') = 0 /\
    vblank (io p') = true /\ nmi_enabled (io p') = false /\ scroll_latch (io p') = false /\
    (forall i, 0 <= i < VRAM_SIZE -> cell (vrammem p') i = 0) /\
    (forall i, 0 <= i < OAM_SIZE -> cell (oammem p') i = 0) /\
    (forall i, 0 <= i < PAL_SIZE -> cell (palmem p') i = 0).
Proof.
  intros Hp. pose proof Hp as [Hv Ho Hpal Hio Hvr Ht Hsh Hsc]. unfold power. cbv zeta.
  cbn [vrammem oammem palmem set_vrammem set_odd_frame set_p_lines set_p_cycles on_vram on_io set_vram
    set_io set_vaddr set_vtmp].
  destruct (mem_zero _ _ Hv ltac:(done)) as (m1 & -> & M1 & Z1).
  destruct (mem_zero _ _ Ho ltac:(done)) as (m2 & -> & M2 & Z2).
  destruct (mem_zero _ _ Hpal ltac:(done)) as (m3 & -> & M3 & Z3). cbn [rbind].
  eexists. split; [reflexivity |]. split; [| split; [by constructor | done]].
  constructor; try assumption; constructor; simpl; try apply Hio; unfold byte, word; lia.
Qed.

Lemma reset_ok p : ppu_ok p ->
  exists p', reset p = Ok p' /\ ppu_ok p' /\ pos_at 0 p' /\ screen p' = screen p /\
    vrammem p' = vrammem p /\ palmem p' = palmem p /\ addr (vram p') = addr (vram p) /\
    vblank (io p') = vblank (io p) /\ nmi_enabled (io p') = false /\
    (forall i, 0 <= i < OAM_SIZE -> cell (oammem p') i = 0).
Proof.
  intros Hp. pose proof Hp as [Hv Ho Hpal Hio Hvr Ht Hsh Hsc]. unfold reset. cbv zeta.
  cbn [vrammem oammem palmem set_vrammem set_odd_frame set_p_lines set_p_cycles on_vram on_io set_vram
    set_io set_vaddr set_vtmp].
  destruct (mem_zero _ _ Ho ltac:(done)) as (m2 & -> & M2 & Z2). cbn [rbind].
  eexists. split; [reflexivity |]. split; [| split; [by constructor | done]].
  constructor; try assumption.
  - constructor; simpl; try apply Hio. unfold byte. lia.
  - destruct Hvr. constructor; simpl; try assumption. lia.
Qed.
