(* ===== verification/PpuRegs.v ===== *)
(** * The registers and the address unit of the PPU

    What the CPU gets back from the registers it writes, and how the VRAM
    address moves while a frame is drawn, in terms of scroll coordinates. *)

From S2P Require Import Prelude Bits HeapArray Bus Cartridge Video Ppu PpuInv.
Open Scope Z_scope.

(** ** Control and mask *)

Lemma ctrl_readback d p : byte d -> ctrl_byte (write_ctrl d p) = d.
Proof.
  intros Hd. unfold ctrl_byte, write_ctrl. cbn [io vram tmp set_vtmp on_vram on_io set_tmp set_vram set_io
    vram_inc sp_pt_addr bg_pt_addr sp_size ext_bus_dir nmi_enabled
    set_nmi_enabled set_ext_bus_dir set_sp_size set_bg_pt_addr set_sp_pt_addr set_vram_inc].
  unfold nt, set_nt. rewrite bf_get_set by lia.
  set (f := fun d => u8 (Z.lor (Z.lor (Z.lor (Z.lor (Z.lor (Z.lor (Z.land d 3 mod 2 ^ 2)
    (Z.shiftl (Z.b2z (tobool (Z.land d 4))) 2)) (Z.shiftl (Z.b2z (tobool (Z.land d 8))) 3))
    (Z.shiftl (Z.b2z (tobool (Z.land d 16))) 4)) (Z.shiftl (Z.b2z (tobool (Z.land d 32))) 5))
    (Z.shiftl (Z.b2z (tobool (Z.land d 64))) 6)) (Z.shiftl (Z.b2z (tobool (Z.land d 128))) 7)) =? d).
  assert (Hf : forallb f (Z.of_nat <$> seq 0 256) = true) by (vm_compute; reflexivity).
  pose proof (bytes_forall f Hf d Hd) as H. by apply Z.eqb_eq in H.
Qed.

Lemma mask_readback d p : byte d -> mask_byte (write_mask d p) = d.
Proof.
  intros Hd. set (f := fun d => mask_byte (write_mask d init_ppu) =? d).
  assert (Hf : forallb f (Z.of_nat <$> seq 0 256) = true) by (vm_compute; reflexivity).
  pose proof (bytes_forall f Hf d Hd) as H. by apply Z.eqb_eq in H.
Qed.

(** ** Scroll and address *)

(** Extensional equality of addresses below 2^15, field by field. *)
Lemma addr_ext a b : 0 <= a < 2 ^ 15 -> 0 <= b < 2 ^ 15 ->
  coarse_x a = coarse_x b -> coarse_y a = coarse_y b -> nt a = nt b -> fine_y a = fine_y b -> a = b.
Proof.
  intros Ha Hb Hx Hy Hn Hf. apply Z.bits_inj'. intros i Hi.
  assert (bit : forall bitno nbits, bf_get bitno nbits a = bf_get bitno nbits b ->
    0 <= bitno -> 0 <= nbits < 64 -> bitno <= i < bitno + nbits -> Z.testbit a i = Z.testbit b i).
  { intros bitno nbits E H0 H1 Hr. apply (f_equal (fun z => Z.testbit z (i - bitno))) in E.
    rewrite !bf_get_testbit in E by lia. replace (i - bitno + bitno) with i in E by lia.
    replace (i - bitno <? nbits) with true in E by (symmetry; apply Z.ltb_lt; lia). done. }
  destruct (Z.lt_ge_cases i 5); [by apply (bit 0 5); lia || done |].
  destruct (Z.lt_ge_cases i 10); [by apply (bit 5 5); lia || done |].
  destruct (Z.lt_ge_cases i 12); [by apply (bit 10 2); lia || done |].
  destruct (Z.lt_ge_cases i 15); [by apply (bit 12 3); lia || done |].
  by rewrite !(testbit_above _ 15) by lia.
Qed.

(** Reading one field after an assignment to one field. *)
Lemma coarse_x_set_coarse_x a v : coarse_x (set_coarse_x a v) = v mod 2 ^ 5.
Proof. apply bf_get_set; lia. Qed.
Lemma coarse_x_set_coarse_y a v : coarse_x (set_coarse_y a v) = coarse_x a.
Proof. apply bf_get_set_disjoint; lia. Qed.
Lemma coarse_x_set_nt a v : coarse_x (set_nt a v) = coarse_x a.
Proof. apply bf_get_set_disjoint; lia. Qed.
Lemma coarse_x_set_fine_y a v : coarse_x (set_fine_y a v) = coarse_x a.
Proof. apply bf_get_set_disjoint; lia. Qed.
Lemma coarse_y_set_coarse_x a v : coarse_y (set_coarse_x a v) = coarse_y a.
Proof. apply bf_get_set_disjoint; lia. Qed.
Lemma coarse_y_set_coarse_y a v : coarse_y (set_coarse_y a v) = v mod 2 ^ 5.
Proof. apply bf_get_set; lia. Qed.
Lemma coarse_y_set_nt a v : coarse_y (set_nt a v) = coarse_y a.
Proof. apply bf_get_set_disjoint; lia. Qed.
Lemma coarse_y_set_fine_y a v : coarse_y (set_fine_y a v) = coarse_y a.
Proof. apply bf_get_set_disjoint; lia. Qed.
Lemma nt_set_coarse_x a v : nt (set_coarse_x a v) = nt a.
Proof. apply bf_get_set_disjoint; lia. Qed.
Lemma nt_set_coarse_y a v : nt (set_coarse_y a v) = nt a.
Proof. apply bf_get_set_disjoint; lia. Qed.
Lemma nt_set_nt a v : nt (set_nt a v) = v mod 2 ^ 2.
Proof. apply bf_get_set; lia. Qed.
Lemma nt_set_fine_y a v : nt (set_fine_y a v) = nt a.
Proof. apply bf_get_set_disjoint; lia. Qed.
Lemma fine_y_set_coarse_x a v : fine_y (set_coarse_x a v) = fine_y a.
Proof. apply bf_get_set_disjoint; lia. Qed.
Lemma fine_y_set_coarse_y a v : fine_y (set_coarse_y a v) = fine_y a.
Proof. apply bf_get_set_disjoint; lia. Qed.
Lemma fine_y_set_nt a v : fine_y (set_nt a v) = fine_y a.
Proof. apply bf_get_set_disjoint; lia. Qed.
Lemma fine_y_set_fine_y a v : fine_y (set_fine_y a v) = v mod 2 ^ 3.
Proof. apply bf_get_set; lia. Qed.

(** The compound assignments are assignments of the computed value. *)
Lemma xor_nt a k : bf_compound Z.lxor 10 2 a k = set_nt a (u64 (Z.lxor (nt a) k)).
Proof. done. Qed.
Lemma incr_coarse_x a : bf_incr 0 5 a = set_coarse_x a (u64 (coarse_x a + 1)).
Proof. done. Qed.
Lemma incr_fine_y a : bf_incr 12 3 a = set_fine_y a (u64 (fine_y a + 1)).
Proof. done. Qed.
(** Copying a field assigns it the low bits of the other address. *)
Lemma copy_coarse_x a t : bf_copy 0 5 a t = set_coarse_x a t.
Proof. apply bf_copy_set; lia. Qed.
Lemma copy_coarse_y a t : bf_copy 5 5 a t = set_coarse_y a t.
Proof. apply bf_copy_set; lia. Qed.
Lemma copy_fine_y a t : bf_copy 12 3 a t = set_fine_y a t.
Proof. apply bf_copy_set; lia. Qed.

Create Rewrite HintDb ppu_fields.
#[export] Hint Rewrite coarse_x_set_coarse_x coarse_x_set_coarse_y coarse_x_set_nt coarse_x_set_fine_y coarse_y_set_coarse_x coarse_y_set_coarse_y coarse_y_set_nt coarse_y_set_fine_y nt_set_coarse_x nt_set_coarse_y nt_set_nt nt_set_fine_y fine_y_set_coarse_x fine_y_set_coarse_y fine_y_set_nt fine_y_set_fine_y
  xor_nt incr_coarse_x incr_fine_y copy_coarse_x copy_coarse_y copy_fine_y : ppu_fields.

Lemma u64_small z : 0 <= z < 2 ^ 16 -> u64 z = z.
Proof. intros H. apply Z.mod_small. lia. Qed.

(** The first and the second write of a pair. *)
Lemma scroll_first d p : scroll_latch (io p) = false ->
  vram (write_scroll d p) = mkVRAM (addr (vram p))
    (set_coarse_x (tmp (vram p)) (Z.land (Z.shiftr d 3) 0x1F)) (Z.land d 7) /\
  scroll_latch (io (write_scroll d p)) = true.
Proof. intros H. unfold write_scroll. rewrite H. cbn. by rewrite H. Qed.

Lemma scroll_second d p : scroll_latch (io p) = true ->
  vram (write_scroll d p) = mkVRAM (addr (vram p))
    (set_fine_y (set_coarse_y (tmp (vram p)) (Z.land (Z.shiftr d 3) 0x1F)) (Z.land d 7)) (fine_x (vram p)) /\
  scroll_latch (io (write_scroll d p)) = false.
Proof. intros H. unfold write_scroll. rewrite H. cbn. by rewrite H. Qed.

Lemma addr_first d p : scroll_latch (io p) = false ->
  vram (write_addr d p) = mkVRAM (addr (vram p))
    (u16 (setbit (u16 (setbits (tmp (vram p)) 8 6 (Z.land d 0x3F))) 14 false)) (fine_x (vram p)) /\
  scroll_latch (io (write_addr d p)) = true.
Proof. intros H. unfold write_addr. rewrite H. cbn -[setbits setbit]. by rewrite H. Qed.

Lemma addr_second d p : scroll_latch (io p) = true ->
  vram (write_addr d p) = (let t := u16 (setbits (tmp (vram p)) 0 8 d) in mkVRAM t t (fine_x (vram p))) /\
  scroll_latch (io (write_addr d p)) = false.
Proof. intros H. unfold write_addr. rewrite H. cbn -[setbits setbit]. by rewrite H. Qed.

Lemma low3 d : Z.land d 7 = d mod 8.
Proof. change 7 with (Z.ones 3). by rewrite Z.land_ones by lia. Qed.

Lemma high5 d : byte d -> Z.land (Z.shiftr d 3) 31 mod 2 ^ 5 = d / 8.
Proof.
  intros Hd. change 31 with (Z.ones 5). rewrite Z.land_ones, Z.shiftr_div_pow2 by lia.
  change (2 ^ 3) with 8. dlia.
Qed.

(** Two writes to the scroll register. *)
Lemma scroll_writes dx dy p : byte dx -> byte dy -> scroll_latch (io p) = false ->
  let p2 := write_scroll dy (write_scroll dx p) in
  coarse_x (tmp (vram p2)) = dx / 8 /\ fine_x (vram p2) = dx mod 8 /\
  coarse_y (tmp (vram p2)) = dy / 8 /\ fine_y (tmp (vram p2)) = dy mod 8 /\
  nt (tmp (vram p2)) = nt (tmp (vram p)) /\ addr (vram p2) = addr (vram p) /\
  scroll_latch (io p2) = false.
Proof.
  intros Hx Hy Hl. cbv zeta. destruct (scroll_first dx p Hl) as [E1 L1].
  destruct (scroll_second dy (write_scroll dx p) L1) as [E2 L2]. rewrite E2, E1, L2.
  cbn [addr tmp fine_x]. rewrite !low3.
  autorewrite with ppu_fields.
  split_and!; [by apply high5 | done | by apply high5 | apply Zmod_mod | done ..].
Qed.

(** Two writes to the address register: the 14-bit address, high byte first. *)
Lemma addr_writes hi lo p : byte hi -> byte lo -> 0 <= tmp (vram p) < 2 ^ 15 ->
  scroll_latch (io p) = false ->
  let p2 := write_addr lo (write_addr hi p) in
  addr (vram p2) = (hi mod 64) * 256 + lo /\ tmp (vram p2) = addr (vram p2) /\
  scroll_latch (io p2) = false.
Proof.
  intros Hh Hlo Ht Hl. cbv zeta. destruct (addr_first hi p Hl) as [E1 L1].
  destruct (addr_second lo (write_addr hi p) L1) as [E2 L2]. rewrite E2, E1, L2.
  cbn [addr tmp]. cbv zeta. cbn [addr tmp]. split_and!; [| done | done].
  apply Z.bits_inj'. intros i Hi. unfold setbit.
  rewrite testbit_u16 by done.
  replace (hi mod 64 * 256 + lo) with (Z.lor lo (Z.shiftl (hi mod 64) 8))
    by (rewrite lor_shiftl by dlia; change (2 ^ 8) with 256; lia).
  rewrite Z.lor_spec, Z.shiftl_spec by done. unfold byte in *.
  destruct (Z.ltb_spec i 16) as [Hi16 |]; cbn [andb].
  2: { rewrite (testbit_above lo 8), (testbit_above (hi mod 64) 6) by (try dlia). done. }
  rewrite setbits_testbit_gen by lia. unfold in_field.
  destruct (Z.ltb_spec i 8).
  { zdecide_true (0 <=? i). zdecide_true (i <? 0 + 8). cbn [andb]. rewrite Z.sub_0_r.
    rewrite (Z.testbit_neg_r _ (i - 8)) by lia. by rewrite orb_false_r. }
  zdecide_true (0 <=? i). zdecide_false (i <? 0 + 8). cbn [andb].
  rewrite (testbit_above lo 8) by lia. cbn [orb].
  rewrite testbit_u16, setbits_testbit_gen by lia. zdecide_true (i <? 16). unfold in_field. cbn [andb].
  rewrite testbit_u16, setbits_testbit_gen by lia. zdecide_true (i <? 16). unfold in_field. cbn [andb].
  zdecide_true (8 <=? i). cbn [andb].
  change 64 with (2 ^ 6). change 0x3F with (Z.ones 6).
  destruct (Z.ltb_spec i (8 + 6)).
  - zdecide_false (14 <=? i). cbn [andb]. rewrite Z.land_ones by lia. done.
  - rewrite Z.mod_pow2_bits_high by lia.
    destruct (Z.ltb_spec i (14 + 1)).
    + zdecide_true (14 <=? i). cbn. apply Z.testbit_0_l.
    + replace ((14 <=? i) && false) with false by (by rewrite andb_false_r).
      by apply (testbit_above _ 15); lia.
Qed.

(** The same pairs through [writereg], which also latches each byte. *)
Lemma scroll_pair vb x y p : scroll_latch (io p) = false ->
  exists p', (let? q := writereg vb 0x2005 x p in writereg vb 0x2005 y q) = Ok p' /\
    vram p' = vram (write_scroll y (write_scroll x p)) /\
    io p' = set_latch y (io (write_scroll y (write_scroll x p))).
Proof.
  intros Hl. eexists. split; [reflexivity |]. unfold write_scroll. cbn -[bf_set]. rewrite Hl.
  cbn -[bf_set]. by rewrite Hl.
Qed.

Lemma addr_pair vb x y p : scroll_latch (io p) = false ->
  exists p', (let? q := writereg vb 0x2006 x p in writereg vb 0x2006 y q) = Ok p' /\
    vram p' = vram (write_addr y (write_addr x p)) /\
    io p' = set_latch y (io (write_addr y (write_addr x p))) /\
    vrammem p' = vrammem p /\ palmem p' = palmem p.
Proof.
  intros Hl. eexists. split; [reflexivity |]. unfold write_addr. cbn -[setbits setbit u16]. rewrite Hl.
  cbn -[setbits setbit u16]. by rewrite Hl.
Qed.

(** ** The address unit, in scroll coordinates *)

(** Column of the tile over two nametables, and row of the pixel in one. *)
Definition hpos (a : Z) : Z := coarse_x a + 32 * (nt a mod 2).
Definition vpos (a : Z) : Z := 8 * coarse_y a + fine_y a.
Definition vtable (a : Z) : Z := nt a / 2.

(** Toggling one bit of the nametable number. *)
Lemma nt_toggle n : 0 <= n < 4 ->
  u64 (Z.lxor n 1) mod 2 ^ 2 = 2 * (n / 2) + (1 - n mod 2) /\
  u64 (Z.lxor n 2) mod 2 ^ 2 = 2 * (1 - n / 2) + n mod 2.
Proof.
  intros Hn. set (f := fun n => (u64 (Z.lxor n 1) mod 2 ^ 2 =? 2 * (n / 2) + (1 - n mod 2)) &&
    (u64 (Z.lxor n 2) mod 2 ^ 2 =? 2 * (1 - n / 2) + n mod 2)).
  assert (Hf : forallb f (Z.of_nat <$> seq 0 (Z.to_nat 4)) = true) by (vm_compute; reflexivity).
  pose proof (range_forall 4 f Hf n Hn) as H. unfold f in H. bool_hyps. done.
Qed.

Lemma inc_horz_spec p : bg_show (io p) = true ->
  let a := addr (vram p) in let a' := addr (vram (inc_v_horzpos p)) in
  hpos a' = (hpos a + 1) mod 64 /\ vpos a' = vpos a /\ vtable a' = vtable a.
Proof.
  intros Hs. cbv zeta. unfold inc_v_horzpos. rewrite Hs. cbn [negb].
  set (a := addr (vram p)). pose proof (nt_range a) as Hn. pose proof (coarse_x_range a) as Hx.
  destruct (nt_toggle (nt a) Hn) as [E1 _].
  unfold hpos, vpos, vtable. destruct (Z.eqb_spec (coarse_x a) 31) as [E31 | N31];
    cbn [addr vram set_vaddr on_vram set_addr set_vram]; autorewrite with ppu_fields.
  - rewrite E1, E31. change (0 mod 2 ^ 5) with 0. split_and!; [dlia | done | dlia].
  - rewrite u64_small, (Z.mod_small (coarse_x a + 1)) by lia. split_and!; [dlia | done | done].
Qed.

(** The vertical step: down one pixel row, over the 30 rows of tiles into the
    other nametable; the two rows of attributes wrap without leaving it. *)
Lemma inc_vert_spec p : bg_show (io p) = true ->
  let a := addr (vram p) in let a' := addr (vram (inc_v_vertpos p)) in
  hpos a' = hpos a /\
  (vpos a', vtable a') =
    if vpos a =? 239 then (0, 1 - vtable a)
    else if vpos a =? 255 then (0, vtable a) else (vpos a + 1, vtable a).
Proof.
  intros Hs. cbv zeta. unfold inc_v_vertpos. rewrite Hs. cbn [negb].
  set (a := addr (vram p)). pose proof (nt_range a) as Hn. pose proof (coarse_y_range a) as Hy.
  pose proof (fine_y_range a) as Hf. destruct (nt_toggle (nt a) Hn) as [_ E2].
  unfold hpos, vpos, vtable. destruct (Z.ltb_spec (fine_y a) 7) as [Hlt | Hge].
  { cbn [addr vram set_vaddr on_vram set_addr set_vram]. autorewrite with ppu_fields.
    rewrite u64_small, (Z.mod_small (fine_y a + 1)) by lia. split; [done |].
    zdecide_false (8 * coarse_y a + fine_y a =? 239). zdecide_false (8 * coarse_y a + fine_y a =? 255).
    f_equal. lia. }
  assert (Ef : fine_y a = 7) by lia. autorewrite with ppu_fields.
  destruct (Z.eqb_spec (coarse_y a) 29) as [E29 | N29].
  { cbn [addr vram set_vaddr on_vram set_addr set_vram]. autorewrite with ppu_fields.
    rewrite E2, E29, Ef. change (0 mod 2 ^ 5) with 0. change (0 mod 2 ^ 3) with 0. cbn [Z.eqb Z.add Z.mul].
    split; [dlia |]. f_equal. dlia. }
  destruct (Z.eqb_spec (coarse_y a) 31) as [E31 | N31];
    cbn [addr vram set_vaddr on_vram set_addr set_vram]; autorewrite with ppu_fields; (split; [done |]).
  - rewrite E31, Ef. done.
  - rewrite Ef. zdecide_false (8 * coarse_y a + 7 =? 239). zdecide_false (8 * coarse_y a + 7 =? 255).
    rewrite (u16_id (coarse_y a + 1)), (Z.mod_small (coarse_y a + 1)) by (unfold word; lia).
    change (0 mod 2 ^ 3) with 0. f_equal. lia.
Qed.

Lemma setbit_nt n b : 0 <= n < 4 ->
  setbit n 0 b mod 2 ^ 2 = 2 * (n / 2) + Z.b2z b /\ setbit n 1 b mod 2 ^ 2 = 2 * Z.b2z b + n mod 2.
Proof.
  intros Hn. set (f := fun n => (setbit n 0 b mod 2 ^ 2 =? 2 * (n / 2) + Z.b2z b) &&
    (setbit n 1 b mod 2 ^ 2 =? 2 * Z.b2z b + n mod 2)).
  assert (Hf : forallb f (Z.of_nat <$> seq 0 (Z.to_nat 4)) = true)
    by (destruct b; vm_compute; reflexivity).
  pose proof (range_forall 4 f Hf n Hn) as H. unfold f in H. bool_hyps. done.
Qed.

Lemma nt_bits n : 0 <= n < 4 ->
  Z.b2z (tobool (Z.land n 1)) = n mod 2 /\ Z.b2z (tobool (Z.land (Z.shiftr n 1) 1)) = n / 2.
Proof.
  intros Hn. set (f := fun n => (Z.b2z (tobool (Z.land n 1)) =? n mod 2) &&
    (Z.b2z (tobool (Z.land (Z.shiftr n 1) 1)) =? n / 2)).
  assert (Hf : forallb f (Z.of_nat <$> seq 0 (Z.to_nat 4)) = true) by (vm_compute; reflexivity).
  pose proof (range_forall 4 f Hf n Hn) as H. unfold f in H. bool_hyps. done.
Qed.

Lemma coarse_x_mod a : coarse_x a = a mod 2 ^ 5.
Proof.
  unfold coarse_x, bf_get. rewrite Z.shiftr_0_r, mask_ones, Z.land_ones by lia. done.
Qed.

(** At the end of a line the horizontal position is taken from [tmp]. *)
Lemma copy_horz_spec p : bg_show (io p) = true ->
  let a := addr (vram p) in let a' := addr (vram (copy_v_horzpos p)) in
  hpos a' = hpos (tmp (vram p)) /\ vpos a' = vpos a /\ vtable a' = vtable a.
Proof.
  intros Hs. cbv zeta. unfold copy_v_horzpos. rewrite Hs. cbn [negb].
  set (a := addr (vram p)). set (t := tmp (vram p)).
  cbn [addr vram set_vaddr on_vram set_addr set_vram]. unfold hpos, vpos, vtable. autorewrite with ppu_fields.
  pose proof (nt_range a) as Hn. destruct (setbit_nt (nt a) (tobool (Z.land (nt t) 1)) Hn) as [-> _].
  destruct (nt_bits (nt t) (nt_range t)) as [-> _]. rewrite <- coarse_x_mod.
  pose proof (Z.mod_pos_bound (nt t) 2 ltac:(lia)). split_and!; [dlia | done | dlia].
Qed.

(** Before the first line the vertical position should be taken from [tmp] too.
    The nametable is; the row is taken from the low bits of [tmp], which hold
    the column. *)
Lemma copy_vert_spec p : bg_show (io p) = true ->
  let t := tmp (vram p) in let a' := addr (vram (copy_v_vertpos p)) in
  vtable a' = vtable t /\ coarse_y a' = coarse_x t /\ fine_y a' = coarse_x t mod 8 /\
  hpos a' = hpos (addr (vram p)).
Proof.
  intros Hs. cbv zeta. unfold copy_v_vertpos. rewrite Hs. cbn [negb].
  set (a := addr (vram p)). set (t := tmp (vram p)).
  cbn [addr vram set_vaddr on_vram set_addr set_vram]. unfold hpos, vtable. autorewrite with ppu_fields.
  pose proof (nt_range a) as Hn.
  destruct (setbit_nt (nt a) (tobool (Z.land (Z.shiftr (nt t) 1) 1)) Hn) as [_ ->].
  destruct (nt_bits (nt t) (nt_range t)) as [_ ->]. rewrite coarse_x_mod.
  pose proof (Z.mod_pos_bound (nt a) 2 ltac:(lia)). pose proof (nt_range t).
  split_and!; [dlia | done | | dlia].
  change 8 with (2 ^ 3). symmetry. apply Z.mod_mod_divide. by exists (2 ^ 2).
Qed.

(** ** Status and data *)

(** A read of the status register. *)
Lemma status_read vb c p : exists p', readreg vb c 0x2002 p =
    Ok (u8 (Z.lor (latch (io p)) (status_bits (io p))), p') /\
  vblank (io p') = false /\ scroll_latch (io p') = false /\
  latch (io p') = u8 (Z.lor (latch (io p)) (status_bits (io p))).
Proof. eexists. split; [reflexivity | done]. Qed.

(** Bit 7 of what the status register returns. *)
Lemma status_bit7 l b : byte l -> Z.testbit (u8 (Z.lor l (status_bits b))) 7 = Z.testbit l 7 || vblank b.
Proof.
  intros Hl. unfold u8. rewrite Z.mod_pow2_bits_low by lia. rewrite Z.lor_spec. f_equal.
  unfold status_bits. by destruct (vblank b), (sp_zero_hit b), (sp_overflow b).
Qed.

Section Data.
Context (vb : Bus VHandler) (cart : Cartridge) (m : Mirroring).
Hypothesis Hbus : vbus_ok vb.
Hypothesis Hchr : chr_ok cart.
Hypothesis Hnt : forall a, 0x2000 <= a < 0x3F00 ->
  Bus.reader vb a = Ok (VNtMirror m) /\ Bus.writer vb a = Ok (VNtMirror m).

(** Nametable memory through its mirrors. *)
Lemma nt_write_read p a b d : ppu_ok p -> 0x2000 <= a < 0x3F00 -> 0x2000 <= b < 0x3F00 -> byte d ->
  exists p', vwrite vb p a d = Ok p' /\ good p p' /\ vram p' = vram p /\ io p' = io p /\
    vread vb cart p' b = if decode m b =? decode m a then Ok d else vread vb cart p b.
Proof.
  intros Hp Ha Hb Hd. destruct (vwrite_ok vb Hbus p a d Hp) as (p' & E & Hg & Ev & Ei);
    [unfold PPUBUS_SIZE; lia | done |].
  exists p'. split_and!; try done. revert E. unfold vwrite, vread.
  rewrite !u16_id by (unfold word; lia). destruct (Hnt a Ha) as [_ ->]. destruct (Hnt b Hb) as [-> _].
  cbn [rbind]. pose proof (decode_range m a ltac:(unfold word; lia)).
  pose proof (decode_range m b ltac:(unfold word; lia)) as Hrb.
  zdecide_true (decode m a <? VRAM_SIZE). zdecide_true (decode m b <? VRAM_SIZE).
  intros (mem & Es & [= <-])%rbind_Ok. cbn [vrammem set_vrammem].
  apply set_Ok in Es as (_ & Hl & Hc). destruct (ok_vrammem p Hp) as [Hlen _].
  rewrite !get_in by lia. rewrite Hc. by case_match.
Qed.

(** A read of the data register below the palettes: the buffer is returned, and
    filled with the byte addressed. *)
Definition data_read_state (x : Z) (p : PPU) : PPU :=
  inc_addr (on_io (set_data_buf x) (on_io (fun i => set_latch (data_buf i) i) p)).

Lemma data_read p x : addr (vram p) < 0x3F00 -> vread vb cart p (addr (vram p)) = Ok x ->
  readreg vb cart 0x2007 p = Ok (data_buf (io p), data_read_state x p).
Proof.
  intros Ha E. unfold readreg. zdecide_true (addr (vram p) <? 0x3F00). cbv zeta.
  change (vread vb cart (on_io _ p) (addr (vram (on_io (fun i => set_latch (data_buf i) i) p))))
    with (vread vb cart p (addr (vram p))). by rewrite E.
Qed.

Lemma good_data_read x p : byte x -> ppu_ok p -> good p (data_read_state x p).
Proof.
  intros Hx Hp. set (q := on_io (fun i => set_latch (data_buf i) i) p).
  assert (Hq : good p q) by (apply good_io; [done | intros []; by constructor]).
  assert (Ht : good q (on_io (set_data_buf x) q)) by (apply good_io; [apply Hq | intros []; by constructor]).
  eapply good_trans; [exact Hq |]. eapply good_trans; [exact Ht |]. apply good_inc_addr, Ht.
Qed.

(** *** Sequences of register accesses, as programs make them *)

(** Setting the VRAM address, and accessing the byte there. *)
Definition set_address (a : Z) (p : PPU) : Res PPU :=
  let? p := writereg vb 0x2006 (a / 256) p in writereg vb 0x2006 (a mod 256) p.
Definition poke_vram (a d : Z) (p : PPU) : Res PPU :=
  let? p := set_address a p in writereg vb 0x2007 d p.
Definition peek_vram (a : Z) (p : PPU) : Res (Z * PPU) :=
  let? p := set_address a p in
  let? '(_, p) := readreg vb cart 0x2007 p in readreg vb cart 0x2007 p.

Lemma set_address_ok a p : ppu_ok p -> scroll_latch (io p) = false -> 0 <= a < PPUBUS_SIZE ->
  exists p', set_address a p = Ok p' /\ ppu_ok p' /\ addr (vram p') = a /\
    scroll_latch (io p') = false /\ vrammem p' = vrammem p /\ palmem p' = palmem p.
Proof.
  unfold PPUBUS_SIZE. intros Hp Hl Ha. assert (Hh : byte (a / 256)) by dlia.
  assert (Hlo : byte (a mod 256)) by dlia.
  destruct (addr_pair vb (a / 256) (a mod 256) p Hl) as (p' & E & Ev & Ei & Evm & Epm). exists p'.
  split; [exact E |]. split.
  { destruct (writereg_ok vb Hbus 0x2006 (a / 256) p Hp) as (p1 & E1 & Hg1); [done .. |].
    destruct (writereg_ok vb Hbus 0x2006 (a mod 256) p1) as (p2 & E2 & Hg2); [apply Hg1 | done .. |].
    rewrite E1 in E. cbn [rbind] in E. rewrite E2 in E. injection E as <-. apply Hg2. }
  destruct (addr_writes (a / 256) (a mod 256) p) as (E1 & _ & E2); [done | done | apply Hp | done |].
  rewrite Ev, Ei, E1. split_and!; [dlia | exact E2 | done | done].
Qed.

(** Reading the data register twice returns the byte addressed at the start. *)
Lemma data_read_twice p x : ppu_ok p -> 0x2000 <= addr (vram p) -> addr (vram p) + 32 < 0x3F00 ->
  vread vb cart p (addr (vram p)) = Ok x -> byte x ->
  exists p', (let? '(_, p) := readreg vb cart 0x2007 p in readreg vb cart 0x2007 p) = Ok (x, p') /\ ppu_ok p'.
Proof.
  intros Hp Ha Ha2 E Hx. rewrite (data_read p x) by (lia || done). cbn [rbind].
  set (t := data_read_state x p). pose proof (good_data_read x p Hx Hp) as [Ht _]. fold t in Ht.
  assert (Hta : 0 <= addr (vram t) < 0x3F00).
  { change (addr (vram t)) with (u16 (addr (vram p) + Z.shiftl 1 (5 * Z.b2z (vram_inc (io p))))).
    assert (Hi : 0 <= Z.shiftl 1 (5 * Z.b2z (vram_inc (io p))) <= 32) by (by destruct (vram_inc (io p))).
    rewrite u16_id; unfold word; lia. }
  destruct (vread_ok vb cart Hbus Hchr t (addr (vram t)) Ht) as (y & Ey & Hy); [unfold PPUBUS_SIZE; lia |].
  rewrite (data_read t y) by (lia || done).
  exists (data_read_state y t). split; [done |]. by apply good_data_read.
Qed.

(** Writing a byte of the nametables and reading one. *)
Lemma poke_peek p a b d : ppu_ok p -> scroll_latch (io p) = false ->
  0x2000 <= a < 0x3F00 -> 0x2000 <= b < 0x3EE0 -> byte d ->
  exists p1 p2 v, poke_vram a d p = Ok p1 /\ peek_vram b p1 = Ok (v, p2) /\ ppu_ok p2 /\
    (if decode m b =? decode m a then Ok d else vread vb cart p b) = Ok v.
Proof.
  intros Hp Hl Ha Hb Hd. unfold poke_vram, peek_vram.
  destruct (set_address_ok a p Hp Hl) as (p0 & -> & Hp0 & Ea & El & Ev & Epal); [unfold PPUBUS_SIZE; lia |].
  cbn [rbind]. set (q := on_io (set_latch d) p0).
  assert (Hq : ppu_ok q) by (apply good_io; [done | intros []; by constructor]).
  destruct (nt_write_read q a b d Hq Ha ltac:(lia) Hd) as (q1 & E & Hg & _ & Ei & Er).
  assert (Hi : ppu_ok (inc_addr q1)) by (apply good_inc_addr, Hg).
  exists (inc_addr q1).
  destruct (set_address_ok b (inc_addr q1) Hi) as (s & -> & Hs & Eb & _ & Esv & Esp);
    [by rewrite <- El; cbn; rewrite Ei | unfold PPUBUS_SIZE; lia |]. cbn [rbind].
  assert (Ers : vread vb cart s b = if decode m b =? decode m a then Ok d else vread vb cart p b).
  { transitivity (vread vb cart q1 b); [unfold vread; by rewrite Esv, Esp |]. rewrite Er.
    destruct (decode m b =? decode m a); [done |]. unfold vread. cbn [vrammem palmem q on_io set_io].
    by rewrite Ev, Epal. }
  destruct (vread_ok vb cart Hbus Hchr s b Hs) as (v & Hv & Hbv); [unfold PPUBUS_SIZE; lia |].
  rewrite <- Eb in Hv. destruct (data_read_twice s v Hs) as (p2 & -> & Hp2); [lia | lia | done | done |].
  exists p2, v. split_and!; [| done | done | by rewrite <- Ers, <- Eb].
  unfold writereg. fold q. change (addr (vram q)) with (addr (vram p0)). rewrite Ea, E. done.
Qed.
End Data.
