(* ===== verification/PpuPicture.v ===== *)
(** * The background picture

    What one frame of the PPU draws, described without its pipeline: the address
    unit, the fetches, the shift registers and the beam together paint every
    pixel with a bit of a tile row that is found from the scroll position, the
    nametables and the pattern tables. *)

From S2P Require Import Prelude Bits HeapArray Bus Cartridge Video Ppu PpuInv PpuSched PpuRegs.
Open Scope Z_scope.

(** ** The reference *)

(** The colour of a background pixel, from its two pattern bits: the program
    draws white for the entry $30 of the palette and black for any other. *)
Definition shade (pal : HeapArray) (lo hi : bool) : Z :=
  if cell pal (2 * Z.b2z hi + Z.b2z lo) =? 0x30 then 0xFFFFFFFF else 0.

Lemma shade_range pal lo hi : 0 <= shade pal lo hi < 2 ^ 32.
Proof. unfold shade. destruct (cell pal _ =? 0x30); lia. Qed.

(** A position of the background: column of tiles over two nametables, row of
    pixels within one, and the upper or the lower pair of nametables. *)
Record Pos := mkPos { ph : Z; pv : Z; pt : Z }.

(** The position that an address of the VRAM unit stands for. *)
Definition pos_of (a : Z) : Pos := mkPos (hpos a) (vpos a) (vtable a).

(** [k] columns to the right. *)
Definition right (k : Z) (s : Pos) : Pos := mkPos ((ph s + k) mod 64) (pv s) (pt s).

(** One row of pixels down: from the last row of a nametable to the first one of
    the other; the rows of the attribute table wrap without changing it. *)
Definition down (s : Pos) : Pos :=
  if pv s =? 239 then mkPos (ph s) 0 (1 - pt s)
  else if pv s =? 255 then mkPos (ph s) 0 (pt s) else mkPos (ph s) (pv s + 1) (pt s).

(** Where the name of a tile and the first byte of its row are stored. *)
Definition name_addr (s : Pos) : Z :=
  0x2000 + 0x400 * (2 * pt s + ph s / 32) + 32 * (pv s / 8) + ph s mod 32.
Definition row_addr (table : bool) (name : Z) (s : Pos) : Z :=
  0x1000 * Z.b2z table + 16 * name + pv s mod 8.

(** The tile, counted from the one at the start of the line, and the bit of its
    rows that column [x] shows.  The registers are shifted seven times for every
    eight columns, so from the fourth group of columns on bit 7 of a tile is
    never shown and bit 6 is shown twice; bits 8 and 9 are clear. *)
Definition source_bit (g i : Z) : Z * Z :=
  if g =? 0 then (if i <? 5 then (0, i + 2) else (1, i - 5))
  else if 8 <=? i then (g + 1, i - 8)
  else if g =? 1 then (1, i + 2)
  else if i =? 0 then (if g =? 2 then (1, 9) else (g - 1, 6))
  else (g, i - 1).
Definition source (fine x : Z) : Z * Z :=
  source_bit ((x - 1) / 8) (fine + Z.max 0 ((x - 1) mod 8 - 1)).

(** ** Addresses *)

Lemma fields_div a : word a ->
  coarse_x a = a mod 32 /\ coarse_y a = a / 32 mod 32 /\ nt a = a / 1024 mod 4 /\ fine_y a = a / 4096 mod 8.
Proof.
  intros Ha. unfold coarse_x, coarse_y, nt, fine_y, bf_get. rewrite !mask_ones by lia.
  rewrite !Z.land_ones, !Z.shiftr_div_pow2 by lia. change (2 ^ 0) with 1. rewrite Z.div_1_r. done.
Qed.

Lemma fetch_nt_addr a : word a -> Z.lor 0x2000 (Z.land a 0x0FFF) = name_addr (pos_of a).
Proof.
  intros Ha. pose proof (land_below a 0x0FFF 12 ltac:(lia) ltac:(lia)).
  rewrite lor_2000 by done. change 0x0FFF with (Z.ones 12). rewrite Z.land_ones by lia. change (2 ^ 12) with 4096.
  destruct (fields_div a Ha) as (E1 & E2 & E3 & E4).
  unfold name_addr, pos_of, hpos, vpos, vtable. cbn [ph pv pt]. rewrite E1, E2, E3, E4. clear -Ha. dlia.
Qed.

(** Three fields side by side. *)
Lemma lor_fields b n f : 0 <= f < 2 ^ 4 -> 0 <= n < 2 ^ 8 ->
  Z.lor (Z.lor (Z.shiftl b 12) (Z.shiftl n 4)) f = 0x1000 * b + 16 * n + f.
Proof.
  intros Hf Hn. rewrite <- Z.lor_assoc, (Z.lor_comm (Z.shiftl n 4)), lor_shiftl, Z.lor_comm, lor_shiftl by lia.
  lia.
Qed.

(** The two bytes of a row of a tile. *)
Lemma fetch_row_addr (b : bool) n a : word a -> byte n ->
  u16 (Z.lor (Z.lor (Z.shiftl (Z.b2z b) 12) (Z.shiftl n 4)) (fine_y a)) = row_addr b n (pos_of a) /\
  u16 (Z.lor (Z.lor (Z.lor (Z.shiftl (Z.b2z b) 12) (Z.shiftl n 4)) (Z.shiftl 1 3)) (fine_y a))
    = row_addr b n (pos_of a) + 8.
Proof.
  intros Ha Hn. pose proof (fine_y_range a) as Hf. unfold row_addr, pos_of, vpos. cbn [pv].
  replace ((8 * coarse_y a + fine_y a) mod 8) with (fine_y a) by (clear -Hf; dlia).
  set (f := fine_y a) in *. clearbody f.
  assert (E : Z.lor (Z.shiftl 1 3) f = f + 8) by (rewrite Z.lor_comm, lor_shiftl by lia; lia).
  rewrite <- (Z.lor_assoc _ (Z.shiftl 1 3)), E, !lor_fields by (unfold byte in Hn; lia).
  unfold byte in Hn. rewrite !u16_id by (unfold word; destruct b; cbn [Z.b2z]; lia). lia.
Qed.

Lemma row_addr_range b n s : byte n -> 0 <= row_addr b n s /\ row_addr b n s + 8 < 0x2000.
Proof. unfold row_addr. intros Hn. destruct b; cbn [Z.b2z]; dlia. Qed.

(** What the address unit does, in positions. *)
Lemma pos_horz p : bg_show (io p) = true ->
  pos_of (addr (vram (inc_v_horzpos p))) = right 1 (pos_of (addr (vram p))).
Proof.
  intros Hb. destruct (inc_horz_spec p Hb) as (E1 & E2 & E3).
  unfold pos_of, right. cbn [ph pv pt]. by rewrite E1, E2, E3.
Qed.

Lemma pos_vert p : bg_show (io p) = true ->
  pos_of (addr (vram (inc_v_vertpos p))) = down (pos_of (addr (vram p))).
Proof.
  intros Hb. destruct (inc_vert_spec p Hb) as (E1 & E2). cbv zeta in E1, E2.
  unfold pos_of, down. cbn [ph pv pt]. rewrite E1. revert E2.
  destruct (vpos (addr (vram p)) =? 239); [by intros [= -> ->] |].
  destruct (vpos (addr (vram p)) =? 255); by intros [= -> ->].
Qed.

Lemma pos_copy_horz p : bg_show (io p) = true ->
  pos_of (addr (vram (copy_v_horzpos p))) =
    mkPos (hpos (tmp (vram p))) (vpos (addr (vram p))) (vtable (addr (vram p))).
Proof.
  intros Hb. destruct (copy_horz_spec p Hb) as (E1 & E2 & E3). cbv zeta in E1, E2, E3.
  unfold pos_of. by rewrite E1, E2, E3.
Qed.

(** Both steps only assign the address. *)
Lemma set_vaddr_id p : set_vaddr (addr (vram p)) p = p.
Proof. by destruct p as [? ? ? ? ? ? ? ? []]. Qed.

Lemma inc_horz_vaddr p : exists a, inc_v_horzpos p = set_vaddr a p /\ (ppu_ok p -> word a).
Proof.
  unfold inc_v_horzpos. destruct (bg_show (io p)); cbn [negb].
  - case_match; eexists; (split; [reflexivity |]); intros _; apply bf_set_word.
  - exists (addr (vram p)). rewrite set_vaddr_id. split; [done |]. intros Hp. apply Hp.
Qed.

Lemma inc_vert_vaddr p : exists a, inc_v_vertpos p = set_vaddr a p /\ (ppu_ok p -> word a).
Proof.
  unfold inc_v_vertpos. destruct (bg_show (io p)); cbn [negb].
  - repeat case_match; eexists; (split; [reflexivity |]); intros _; apply bf_set_word.
  - exists (addr (vram p)). rewrite set_vaddr_id. split; [done |]. intros Hp. apply Hp.
Qed.

(** ** One cycle *)

(** What rendering does not change, and what decides the picture. *)
Definition setup (p : PPU) : HeapArray * HeapArray * (bool * bool) * (Z * Z) :=
  (vrammem p, palmem p, (bg_show (io p), bg_pt_addr (io p)), (fine_x (vram p), tmp (vram p))).

(** The attribute registers never receive a palette: the low one stays clear, and
    of the high one only bit 7 is ever set. *)
Definition stuck (s : Shift) : Prop := alow s = 0 /\ (ahigh s = 0 \/ ahigh s = 128).

(** The picture on the screen, as a function of the pixel. *)
Definition shows (p : PPU) (pic : Z -> Z -> Z) : Prop :=
  exists scr, screen p = Some scr /\
    forall x y, 0 <= x < 256 -> 0 <= y < 240 -> pixel scr x y = pic x y.

Lemma shows_ext p f g : shows p f -> (forall x y, 0 <= x < 256 -> 0 <= y < 240 -> f x y = g x y) -> shows p g.
Proof. intros (scr & E & H) Hfg. exists scr. split; [done |]. intros x y Hx Hy. rewrite H; auto. Qed.

(** The picture with one more pixel, if the beam is where it draws. *)
Definition beam_on (x y : Z) : bool := (4 <=? x) && (x <? 256) && (y <? 240).
Definition paint (x y color : Z) (pic : Z -> Z -> Z) : Z -> Z -> Z :=
  fun x' y' => if (x' =? x) && (y' =? y) && beam_on x y then color else pic x' y'.

Section Picture.
Context (vbus : Bus VHandler) (cart : Cartridge) (shl_undefined : Z -> Z -> Z).
Hypothesis Hbus : vbus_ok vbus.
Hypothesis Hchr : chr_ok cart.

(** What a read of video memory returns. *)
Definition video (p : PPU) (a : Z) : Z :=
  match vread vbus cart p a with Ok v => v | Err _ => 0 end.

Lemma vread_video p a : ppu_ok p -> 0 <= a < PPUBUS_SIZE -> vread vbus cart p a = Ok (video p a) /\ byte (video p a).
Proof.
  intros Hp Ha. destruct (vread_ok vbus cart Hbus Hchr p a Hp Ha) as (v & E & Hv). unfold video. by rewrite E.
Qed.

Lemma video_mem p q a : vrammem q = vrammem p -> palmem q = palmem p -> video q a = video p a.
Proof. intros Ev Ep. unfold video, vread. by rewrite Ev, Ep. Qed.

Lemma video_setup p q : setup q = setup p -> forall a, video q a = video p a.
Proof. intros [= Ev Ep _ _ _ _] a. by apply video_mem. Qed.

(** The row of pattern bytes shown at a position: low and high bit planes. *)
Definition row_low (p : PPU) (s : Pos) : Z :=
  video p (row_addr (bg_pt_addr (io p)) (video p (name_addr s)) s).
Definition row_high (p : PPU) (s : Pos) : Z :=
  video p (row_addr (bg_pt_addr (io p)) (video p (name_addr s)) s + 8).

Lemma rows_setup p q s : setup q = setup p -> row_low q s = row_low p s /\ row_high q s = row_high p s.
Proof.
  intros E. unfold row_low, row_high. rewrite !(video_setup p q E). injection E as _ _ _ -> _ _. done.
Qed.

(** The fetch of a cycle, [m] its number modulo 8. *)
Record fetched (m : Z) (p : PPU) (tl : Tile) : Prop := {
  fe_nt : t_nt tl = if m =? 2 then video p (name_addr (pos_of (addr (vram p)))) else t_nt (tile p);
  fe_low : t_low tl =
    if m =? 6 then video p (row_addr (bg_pt_addr (io p)) (t_nt (tile p)) (pos_of (addr (vram p)))) else t_low (tile p);
  fe_high : t_high tl =
    if m =? 0 then video p (row_addr (bg_pt_addr (io p)) (t_nt (tile p)) (pos_of (addr (vram p))) + 8)
    else t_high (tile p);
}.

Lemma background_fetches m p : ppu_ok p -> 0 <= m < 8 ->
  exists tl, background_cycle vbus cart m p = Ok (set_tile tl p) /\ fetched m p tl.
Proof.
  intros Hp Hm. pose proof (ok_addr _ (ok_vram p Hp)) as Ha. pose proof (ok_nt _ (ok_tile p Hp)) as Hn.
  destruct (fetch_row_addr (bg_pt_addr (io p)) (t_nt (tile p)) (addr (vram p)) Ha Hn) as [El Eh].
  destruct (row_addr_range (bg_pt_addr (io p)) (t_nt (tile p)) (pos_of (addr (vram p))) Hn) as [R0 R8].
  assert (Hid : Ok p = Ok (set_tile (tile p) p)) by (by destruct p).
  assert (m = 0 \/ m = 1 \/ m = 2 \/ m = 3 \/ m = 4 \/ m = 5 \/ m = 6 \/ m = 7) as Hc by lia.
  destruct Hc as [-> | [-> | [-> | [-> | [-> | [-> | [-> | ->]]]]]]]; cbn [background_cycle];
    unfold cycle_fetchnt, cycle_fetchattr, cycle_fetchlowbg, cycle_fetchhighbg, fetch_nt, fetch_attr,
      fetch_lowbg, fetch_highbg; cbn [negb];
    try (exists (tile p); split; [exact Hid | by constructor]).
  - rewrite Eh. destruct (vread_video p (row_addr (bg_pt_addr (io p)) (t_nt (tile p)) (pos_of (addr (vram p))) + 8) Hp)
      as [-> _]; [unfold PPUBUS_SIZE; lia |]. eexists. split; [reflexivity | by constructor].
  - pose proof (nt_addr_range (addr (vram p))) as R.
    match type of R with _ <= ?a < _ => set (nt_addr := a) in * end.
    destruct (vread_video p nt_addr Hp) as [-> _]; [unfold PPUBUS_SIZE; lia |].
    eexists. split; [reflexivity |]. constructor; [| done | done]. cbn. unfold nt_addr. by rewrite fetch_nt_addr.
  - pose proof (attr_addr_range (addr (vram p))) as R.
    match type of R with _ <= ?a < _ => set (at_addr := a) in * end.
    destruct (vread_video p at_addr Hp) as [-> _]; [unfold PPUBUS_SIZE; lia |].
    eexists. split; [reflexivity | by constructor].
  - rewrite El. destruct (vread_video p (row_addr (bg_pt_addr (io p)) (t_nt (tile p)) (pos_of (addr (vram p)))) Hp)
      as [-> _]; [unfold PPUBUS_SIZE; lia |].
    eexists. split; [reflexivity | by constructor].
Qed.

(** The palette entry of a pixel, once the attribute registers are stuck. *)
Lemma getcolor_entry p n : ppu_ok p -> 0 <= n < 4 -> getcolor vbus cart p false 0 n = Ok (cell (palmem p) n).
Proof.
  intros Hp Hn. unfold getcolor, vread.
  assert (En : u8 (Z.lor (Z.lor (Z.shiftl (Z.b2z false) 4) (Z.shiftl 0 2)) n) = n)
    by (cbn [Z.b2z]; rewrite !Z.shiftl_0_l, !Z.lor_0_l; apply u8_id; unfold byte; lia).
  cbv zeta. rewrite En, u16_id by (unfold word; lia).
  destruct (vb_pal _ Hbus (0x3F00 + n)) as [-> _]; [lia |]. cbn [rbind].
  assert (El : Z.land (0x3F00 + n) 0x1F = n).
  { change 0x1F with (Z.ones 5). rewrite Z.land_ones by lia. clear -Hn. dlia. }
  rewrite El. unfold PAL_SIZE at 1. zdecide_true (n <? 32). apply get_in. destruct (ok_palmem p Hp) as [-> _].
  unfold PAL_SIZE. lia.
Qed.

Lemma stuck_bits s f : stuck s -> 0 <= f < 7 -> Z.testbit (alow s) f = false /\ Z.testbit (ahigh s) f = false.
Proof.
  intros [-> Hh] Hf. rewrite Z.bits_0. split; [done |].
  destruct Hh as [-> | ->]; [apply Z.bits_0 |]. change 128 with (2 ^ 7). by apply Z.pow2_bits_false; lia.
Qed.

Lemma bg_output_entry p : ppu_ok p -> fine_x (vram p) < 7 -> stuck (shift p) ->
  bg_output vbus cart p = Ok (cell (palmem p)
    (2 * Z.b2z (Z.testbit (thigh (shift p)) (fine_x (vram p))) + Z.b2z (Z.testbit (tlow (shift p)) (fine_x (vram p))))).
Proof.
  intros Hp Hf Hs. pose proof (ok_fine_x _ (ok_vram p Hp)) as Hf0.
  destruct (stuck_bits (shift p) (fine_x (vram p)) Hs) as [E1 E2]; [lia |].
  assert (Em : u8 (Z.shiftl 1 (fine_x (vram p))) = 2 ^ fine_x (vram p)).
  { rewrite Z.shiftl_1_l. apply u8_id. unfold byte.
    assert (2 ^ fine_x (vram p) < 2 ^ 8) by (apply Z.pow_lt_mono_r; lia).
    assert (0 < 2 ^ fine_x (vram p)) by (apply Z.pow_pos_nonneg; lia). lia. }
  unfold bg_output. cbv zeta. rewrite Em, !tobool_land_pow2 by lia. rewrite E1, E2.
  set (lo := Z.testbit (tlow (shift p)) (fine_x (vram p))). set (hi := Z.testbit (thigh (shift p)) (fine_x (vram p))).
  change (Z.lor (Z.shiftl (Z.b2z false) 1) (Z.b2z false)) with 0.
  assert (En : Z.lor (Z.shiftl (Z.b2z hi) 1) (Z.b2z lo) = 2 * Z.b2z hi + Z.b2z lo) by (by destruct hi, lo).
  by rewrite En, getcolor_entry by (done || (destruct hi, lo; cbn [Z.b2z]; lia)).
Qed.

(** The beam draws at its position, where it draws at all. *)
Lemma output_paints p pic x y : ppu_ok p -> fine_x (vram p) < 7 -> stuck (shift p) -> shows p pic ->
  p_cycles p mod 341 = x -> p_lines p mod 262 = y -> 4 <= x <= 256 -> y < 240 \/ y = 261 ->
  exists scr, output vbus cart p = Ok (set_screen (Some scr) p) /\
    shows (set_screen (Some scr) p) (paint x y (shade (palmem p)
      (Z.testbit (tlow (shift p)) (fine_x (vram p))) (Z.testbit (thigh (shift p)) (fine_x (vram p)))) pic) /\
    ppu_ok (set_screen (Some scr) p).
Proof.
  intros Hp Hf Hs (scr & Escr & Hpic) Ex Ey Hx Hy. unfold output. rewrite Escr.
  rewrite (bg_output_entry p Hp Hf Hs). cbn [rbind]. rewrite Ex, Ey.
  fold (shade (palmem p) (Z.testbit (tlow (shift p)) (fine_x (vram p))) (Z.testbit (thigh (shift p)) (fine_x (vram p)))).
  set (col := shade _ _ _). assert (Hcol : 0 <= col < 2 ^ 32) by apply shade_range.
  assert (Hy0 : 0 <= y) by (subst y; apply Z.mod_pos_bound; lia).
  destruct (ok_screen p Hp scr Escr) as (Hc & Ew & Eh).
  replace (((y <=? 239) || (y =? 261)) && (x <=? 256)) with true by (symmetry; zcases). cbn [negb].
  assert (Hsame : beam_on x y = false -> exists scr0, Ok p = Ok (set_screen (Some scr0) p) /\
    shows (set_screen (Some scr0) p) (paint x y col pic) /\ ppu_ok (set_screen (Some scr0) p)).
  { intros Hb. exists scr. assert (Ep : set_screen (Some scr) p = p) by (rewrite <- Escr; by destruct p).
    rewrite Ep. split; [done |]. split; [| done]. exists scr. split; [done |].
    intros x' y' Hx' Hy'. rewrite Hpic by done. unfold paint. by rewrite Hb, andb_false_r. }
  destruct (Z.eqb_spec x 256); [apply Hsame; unfold beam_on; zcases |].
  destruct (Z.eqb_spec y 261); [apply Hsame; unfold beam_on; zcases |].
  assert (Hb : beam_on x y = true) by (unfold beam_on; zcases).
  destruct (drawpixel_spec scr x y col) as (c' & -> & Hc' & Et & Epx & Eoth);
    [done | lia | lia | done | intros [= ->]; lia |].
  cbn [rbind]. exists c'. split; [done |]. split.
  - exists c'. split; [done |]. intros x' y' Hx' Hy'. unfold paint. rewrite Hb, andb_true_r.
    destruct (Z.eqb_spec x' x) as [-> | Nx]; cbn [andb]; [destruct (Z.eqb_spec y' y) as [-> | Ny] |].
    + exact Epx.
    + rewrite Eoth by (lia || congruence). by apply Hpic.
    + rewrite Eoth by (lia || congruence). by apply Hpic.
  - destruct Hp. constructor; try done. intros c0 [= <-]. rewrite Et. done.
Qed.

(** The shift registers take a byte into their upper half. *)
Definition fill (r b : Z) : Z := u16 (setbits r 8 8 b).

Definition next_reg (c : Z) (r b : Z) : Z :=
  if c mod 8 =? 1 then (if c =? 1 then r else fill r b) else Z.shiftr r 1.

(** The effect of a rendering cycle, the beam apart. *)
Record cycled (c : Z) (p p' : PPU) : Prop := {
  cy_ok : ppu_ok p';
  cy_setup : setup p' = setup p;
  cy_stuck : stuck (shift p');
  cy_tile : fetched (c mod 8) p (tile p');
  cy_pos : pos_of (addr (vram p')) =
    (if c mod 8 =? 0 then if c =? 256 then down else right 1 else fun s => s) (pos_of (addr (vram p)));
  cy_low : tlow (shift p') = next_reg c (tlow (shift p)) (t_low (tile p));
  cy_high : thigh (shift p') = next_reg c (thigh (shift p)) (t_high (tile p));
}.

(** The cycles that fetch, and the position of the beam in them. *)
Definition fetching (c : Z) : Prop := 1 <= c <= 256 \/ 321 <= c <= 340.
Definition beam_at (c y : Z) (p : PPU) : Prop :=
  p_cycles p mod 341 = c /\ p_lines p mod 262 = y /\ (0 <= y < 240 \/ y = 261).

Lemma stuck_run p : stuck (shift p) -> stuck (shift (shift_run p)).
Proof.
  intros [Ea _]. cbn. rewrite Ea. split; [done |].
  destruct (feed_low (shift p)); [right | left]; reflexivity.
Qed.

(** After the output and the fetch of a cycle, its registers and its address. *)
Lemma cycle_tail c p s tl : fetching c -> stuck (shift p) -> bg_show (io p) = true ->
  ppu_ok (set_tile tl (set_screen s p)) -> fetched (c mod 8) p tl ->
  let q := set_tile tl (set_screen s p) in
  let q := if (c mod 8 =? 1) && negb (c =? 1) then shift_fill shl_undefined q else q in
  let q := if negb (c mod 8 =? 1) then shift_run q else q in
  let q := if (c mod 8 =? 0) && negb (c =? 256) then inc_v_horzpos q else q in
  let q := if c =? 256 then inc_v_vertpos q else q in
  cycled c p q /\ screen q = s.
Proof.
  intros Hc Hs Hb Hok Hf. cbv zeta.
  assert (E257 : c = 256 -> c mod 8 = 0) by (intros ->; reflexivity).
  set (q0 := set_tile tl (set_screen s p)) in *.
  set (q1 := if (c mod 8 =? 1) && negb (c =? 1) then shift_fill shl_undefined q0 else q0).
  assert (H1 : ppu_ok q1 /\ setup q1 = setup p /\ stuck (shift q1) /\ tile q1 = tl /\ vram q1 = vram p /\
    bg_show (io q1) = true /\ screen q1 = s /\
    tlow (shift q1) = (if (c mod 8 =? 1) && negb (c =? 1) then fill (tlow (shift p)) (t_low tl) else tlow (shift p)) /\
    thigh (shift q1) = (if (c mod 8 =? 1) && negb (c =? 1) then fill (thigh (shift p)) (t_high tl) else thigh (shift p))).
  { unfold q1. destruct ((c mod 8 =? 1) && negb (c =? 1)); [| done].
    split; [by apply good_shift_fill |]. done. }
  clearbody q1. destruct H1 as (Ok1 & Es1 & St1 & Et1 & Ev1 & Eb1 & Esc1 & El1 & Eh1).
  set (q2 := if negb (c mod 8 =? 1) then shift_run q1 else q1).
  assert (H2 : ppu_ok q2 /\ setup q2 = setup p /\ stuck (shift q2) /\ tile q2 = tl /\ vram q2 = vram p /\
    bg_show (io q2) = true /\ screen q2 = s /\
    tlow (shift q2) = next_reg c (tlow (shift p)) (t_low (tile p)) /\
    thigh (shift q2) = next_reg c (thigh (shift p)) (t_high (tile p))).
  { unfold q2, next_reg. destruct (Z.eqb_spec (c mod 8) 1) as [E1 | N1]; cbn [negb andb] in *.
    - destruct Hf as [_ Hl Hh]. rewrite E1 in Hl, Hh.
      change (1 =? 6) with false in Hl. change (1 =? 0) with false in Hh. rewrite <- Hl, <- Hh.
      destruct (c =? 1); done.
    - split; [by apply good_shift_run |]. split; [done |]. split; [by apply stuck_run |].
      cbn. rewrite El1, Eh1. done. }
  clearbody q2. clear q1 Ok1 Es1 St1 Et1 Ev1 Eb1 Esc1 El1 Eh1.
  destruct H2 as (Ok2 & Es2 & St2 & Et2 & Ev2 & Eb2 & Esc2 & El2 & Eh2).
  assert (Hfin : forall a, word a -> pos_of a =
      (if c mod 8 =? 0 then if c =? 256 then down else right 1 else fun s => s) (pos_of (addr (vram p))) ->
    cycled c p (set_vaddr a q2) /\ screen (set_vaddr a q2) = s).
  { intros a Ha Ep. split; [| done]. constructor; try done; [by apply good_vaddr | by rewrite <- Et2 in Hf]. }
  destruct (inc_horz_vaddr q2) as (ah & Eh & Hh), (inc_vert_vaddr q2) as (av & Ev & Hv).
  pose proof (pos_horz q2 Eb2) as Ph. pose proof (pos_vert q2 Eb2) as Pv. rewrite Ev2 in Ph, Pv.
  destruct (Z.eqb_spec c 256) as [-> | N256]; [| destruct (Z.eqb_spec (c mod 8) 0) as [E0 | N0]];
    rewrite ?E0; cbn [andb negb].
  - change (256 mod 8 =? 0) with true. cbn [andb]. rewrite Ev in Pv |- *. apply Hfin; [by apply Hv | exact Pv].
  - rewrite Eh in Ph |- *. apply Hfin; [by apply Hh | exact Ph].
  - rewrite <- (set_vaddr_id q2). apply Hfin; [apply Ok2 | by rewrite Ev2].
Qed.

(** The PPU while it renders the background. *)
Record rendering (p : PPU) : Prop := {
  re_ok : ppu_ok p;
  re_show : bg_show (io p) = true;
  re_fine : fine_x (vram p) < 7;
  re_stuck : stuck (shift p);
}.

Lemma cycled_rendering c p p' : rendering p -> cycled c p p' -> rendering p'.
Proof.
  intros [Hp Hb Hf Hs] [Hok Es Hs' _ _ _ _]. injection Es as _ _ Eb _ Ef _.
  constructor; [done | by rewrite Eb | by rewrite Ef | done].
Qed.

(** The colour that the registers select. *)
Definition beam_color (p : PPU) : Z :=
  shade (palmem p) (Z.testbit (tlow (shift p)) (fine_x (vram p))) (Z.testbit (thigh (shift p)) (fine_x (vram p))).

Lemma paint_off x y col pic : beam_on x y = false -> forall x' y', paint x y col pic x' y' = pic x' y'.
Proof. intros E x' y'. unfold paint. by rewrite E, andb_false_r. Qed.

Lemma ccycle_spec c y p pic : fetching c -> rendering p -> shows p pic -> beam_at c y p ->
  exists p', ccycle vbus cart shl_undefined c p = Ok p' /\ cycled c p p' /\
    shows p' (paint c y (beam_color p) pic).
Proof.
  intros Hc [Hp Hb Hf Hs] Hpic (Ex & Ey & Hy). unfold ccycle, cycle_outputpixel, cycle_fillshifts, cycle_shift,
    cycle_incvhorz, cycle_incvvert, cycle_copyhorz.
  replace (((1 <=? c) && (c <=? 256)) || ((321 <=? c) && (c <=? 340))) with true
    by (symmetry; destruct Hc; [zdecide_true (1 <=? c); zdecide_true (c <=? 256) |
      zdecide_true (321 <=? c); zdecide_true (c <=? 340)]; by rewrite ?orb_true_r).
  assert (H1 : exists s, (if (4 <=? c) && (c <=? 256) then output vbus cart p else Ok p) = Ok (set_screen s p) /\
    shows (set_screen s p) (paint c y (beam_color p) pic) /\ ppu_ok (set_screen s p)).
  { destruct ((4 <=? c) && (c <=? 256)) eqn:E.
    - apply andb_true_iff in E as [?%Z.leb_le ?%Z.leb_le].
      destruct (output_paints p pic c y Hp Hf Hs Hpic Ex Ey) as (scr & Hscr); [lia | lia |]. by exists (Some scr).
    - exists (screen p). assert (Ep : set_screen (screen p) p = p) by (by destruct p). rewrite Ep.
      split; [done |]. split; [| done]. eapply shows_ext; [exact Hpic |]. intros x' y' _ _. symmetry.
      apply paint_off. unfold beam_on. apply andb_false_iff in E as [?%Z.leb_gt | ?%Z.leb_gt]; zcases. }
  destruct H1 as (s & -> & Hshow & Hok). cbn [rbind].
  pose proof (Z.mod_pos_bound c 8 ltac:(lia)) as Hm.
  destruct (background_fetches (c mod 8) (set_screen s p) Hok Hm) as (tl & E & Hfe). rewrite E. cbn [rbind].
  destruct (good_background vbus cart Hbus Hchr (c mod 8) (set_screen s p) Hok) as (q & Eq & Hq).
  rewrite E in Eq. injection Eq as <-.
  assert (Hfe' : fetched (c mod 8) p tl) by (destruct Hfe; by constructor).
  destruct (cycle_tail c p s tl Hc Hs Hb (proj1 Hq) Hfe') as [Hcy Hscr]. cbv zeta in Hcy, Hscr.
  assert (E257 : (c =? 257) = false) by (destruct Hc; zdecide_false (c =? 257); done). rewrite E257.
  eexists. split; [reflexivity |]. split; [exact Hcy |].
  destruct Hshow as (scr & Es & Hpx). exists scr. split; [| exact Hpx]. rewrite Hscr. exact Es.
Qed.

Lemma cycletab_fetching c : fetching c -> run_cycletab vbus cart shl_undefined c = ccycle vbus cart shl_undefined c.
Proof.
  intros Hc. unfold run_cycletab. rewrite cycletab_spec by (destruct Hc; lia).
  replace (((1 <=? c) && (c <=? 257)) || (321 <=? c)) with true; [done |].
  symmetry. destruct Hc; [zdecide_true (1 <=? c); zdecide_true (c <=? 257) | zdecide_true (321 <=? c)];
    by rewrite ?orb_true_r.
Qed.

End Picture.

(** ** The attribute registers *)

Section Attributes.
Context (vbus : Bus VHandler) (cart : Cartridge) (shl_undefined : Z -> Z -> Z).

(** No operation changes that they are stuck: register accesses leave them alone,
    filling sets only the feeds, and shifting keeps the low one clear. *)
Lemma fetch_keeps (r : Res Z) (f : Z -> Tile -> Tile) p q : (let? v := r in Ok (on_tile (f v) p)) = Ok q -> shift q = shift p.
Proof. intros (v & _ & [= <-])%rbind_Ok. done. Qed.

Lemma background_keeps c p q : background_cycle vbus cart c p = Ok q -> shift q = shift p.
Proof.
  unfold background_cycle, cycle_fetchnt, cycle_fetchattr, cycle_fetchlowbg, cycle_fetchhighbg, fetch_nt, fetch_attr,
    fetch_lowbg, fetch_highbg. cbn [negb].
  repeat case_match; first [apply (fetch_keeps _ set_t_nt) | apply (fetch_keeps _ set_t_attr)
    | apply (fetch_keeps _ set_t_low) | apply (fetch_keeps _ set_t_high) | by intros [= <-]].
Qed.

Lemma output_keeps p q : output vbus cart p = Ok q -> shift q = shift p.
Proof.
  unfold output. destruct (screen p) as [scr |]; [| by intros [= <-]].
  intros (px & _ & E)%rbind_Ok. revert E. repeat case_match; try (by intros [= <-]).
  all: by intros (s & _ & [= <-])%rbind_Ok.
Qed.

Lemma ccycle_stuck c p q : stuck (shift p) -> ccycle vbus cart shl_undefined c p = Ok q -> stuck (shift q).
Proof.
  intros Hs (r & E & [= <-])%rbind_Ok.
  assert (Hr : stuck (shift r)).
  { revert E. destruct (_ || _); [intros E | by intros [= <-]].
    apply rbind_Ok in E as (p1 & E1 & (p2 & E2 & [= <-])%rbind_Ok).
    assert (H1 : stuck (shift p1)).
    { revert E1. destruct (_ && _); [by intros ->%output_keeps | by intros [= <-]]. }
    assert (H2 : stuck (shift p2)) by (by rewrite (background_keeps _ _ _ E2)).
    assert (Hv : forall u, stuck (shift u) -> stuck (shift (inc_v_vertpos u)) /\ stuck (shift (inc_v_horzpos u))).
    { intros u Hu. unfold inc_v_vertpos, inc_v_horzpos. repeat case_match; done. }
    assert (Hif : forall (b : bool) (f : PPU -> PPU) u, (stuck (shift u) -> stuck (shift (f u))) -> stuck (shift u) ->
      stuck (shift (if b then f u else u))) by (intros [] f u Hf Hu; auto).
    unfold cycle_incvvert, cycle_incvhorz, cycle_shift.
    repeat (match goal with |- stuck (shift (if ?b then ?f ?u else ?u)) => apply (Hif b f u) end; [intros Hu; first [by apply Hv | by apply stuck_run | exact Hu] |]). exact H2. }
  destruct (c =? 257); [| done]. unfold cycle_copyhorz, copy_v_horzpos. by destruct (bg_show (io r)).
Qed.

Lemma cycletab_stuck c p q : stuck (shift p) -> run_cycletab vbus cart shl_undefined c p = Ok q -> stuck (shift q).
Proof.
  intros Hs. unfold run_cycletab. destruct (cycletab !! _) as [[| m] |]; [by intros [= <-] | by apply ccycle_stuck | done].
Qed.

Lemma lcycle_stuck {X} (f : option (X -> X)) l c p x q x' : stuck (shift p) ->
  lcycle vbus cart shl_undefined f l c (p, x) = Ok (q, x') -> stuck (shift q).
Proof.
  intros Hs. unfold lcycle. destruct (c <=? 340); [cbn [negb] | done].
  destruct (l <? 240). { intros (u & Eu & [= <- _])%rbind_Ok. by eapply cycletab_stuck. }
  destruct (l =? 241). { destruct (c =? 1), f; try done; by intros [= <- _]. }
  destruct (l =? 261); [| by intros [= <- _]].
  intros (u & (v & Ev & Eu)%rbind_Ok & [= <- _])%rbind_Ok. apply cycletab_stuck in Ev; [| done]. revert Eu.
  set (w1 := if c =? 1 then vblank_end v else v).
  assert (H1 : stuck (shift w1)) by (unfold w1; by destruct (c =? 1)). clearbody w1.
  set (w2 := if (280 <=? c) && (c <=? 304) then cycle_copyvert w1 else w1).
  assert (H2 : stuck (shift w2)).
  { unfold w2. destruct ((280 <=? c) && (c <=? 304)); [| done]. unfold cycle_copyvert, copy_v_vertpos.
    by destruct (bg_show (io w1)). }
  clearbody w2. destruct (c =? 340); [| by intros [= <-]]. unfold begin_frame.
  destruct (negb _); [done |]. intros [= <-]. by destruct (odd_frame w2).
Qed.

Lemma run_stuck {X} (f : option (X -> X)) p x q x' : stuck (shift p) ->
  Ppu.run vbus cart shl_undefined f (p, x) = Ok (q, x') -> stuck (shift q).
Proof.
  intros Hs. unfold run. cbn [fst]. destruct (linetab !! _) as [[n] |]; [| done].
  intros ([r xr] & E & [= <- _])%rbind_Ok. cbn [shift set_p_lines set_p_cycles]. by eapply lcycle_stuck.
Qed.

Lemma readreg_keeps which p v q : readreg vbus cart which p = Ok (v, q) -> shift q = shift p.
Proof.
  intros (r & E & [= _ <-])%rbind_Ok. revert E.
  repeat case_match; try (by intros [= <-]); by intros (w & _ & [= <-])%rbind_Ok.
Qed.

Lemma vwrite_keeps a d p q : vwrite vbus p a d = Ok q -> shift q = shift p.
Proof.
  intros (h & _ & E)%rbind_Ok. revert E. destruct h as [| | mir |]; [| by intros [= <-] | | by intros [= <-]].
  - destruct (_ <? PAL_SIZE); [| done]. by intros (mem & _ & [= <-])%rbind_Ok.
  - cbv zeta. destruct (_ <? VRAM_SIZE); [| done]. by intros (mem & _ & [= <-])%rbind_Ok.
Qed.

(** What a register write does to the state, its bus access apart. *)
Lemma write_keeps d p : shift (write_ctrl d p) = shift p /\ shift (write_mask d p) = shift p /\
  shift (write_scroll d p) = shift p /\ shift (write_addr d p) = shift p.
Proof.
  split_and!; [done | done | |]; [unfold write_scroll | unfold write_addr]; by destruct (scroll_latch (io p)).
Qed.

Lemma writereg_keeps which d p q : writereg vbus which d p = Ok q -> shift q = shift p.
Proof.
  destruct (write_keeps d (on_io (set_latch d) p)) as (E1 & E2 & E3 & E4).
  assert (Hok : forall r, shift r = shift p -> Ok r = Ok q -> shift q = shift p) by (intros r Hr [= <-]; exact Hr).
  unfold writereg. repeat case_match; try (apply Hok; first [exact E1 | exact E2 | exact E3 | exact E4 | reflexivity]).
  intros (u & Eu & [= <-])%rbind_Ok. apply vwrite_keeps in Eu. exact Eu.
Qed.
End Attributes.

Lemma power_keeps p q : power p = Ok q -> shift q = shift p.
Proof. unfold power. cbv zeta. intros (a & _ & (b & _ & (c & _ & [= <-])%rbind_Ok)%rbind_Ok)%rbind_Ok. done. Qed.

Lemma reset_keeps p q : Ppu.reset p = Ok q -> shift q = shift p.
Proof. unfold Ppu.reset. cbv zeta. intros (a & _ & [= <-])%rbind_Ok. done. Qed.
