(* ===== verification/PpuLine.v ===== *)
(** * The lines of the picture

    Ticks of the PPU in sequence: the groups of eight cycles that fetch a tile
    and show one, and the 32 groups of the visible part of a line. *)

From S2P Require Import Prelude Bits HeapArray Bus Cartridge Video Ppu PpuInv PpuSched PpuRegs PpuPicture.
Open Scope Z_scope.

Section Line.
Context (vbus : Bus VHandler) (cart : Cartridge) (shl_undefined : Z -> Z -> Z).
Hypothesis Hbus : vbus_ok vbus.
Hypothesis Hchr : chr_ok cart.

Local Abbreviation video := (PpuPicture.video vbus cart).
Local Abbreviation video_setup := (PpuPicture.video_setup vbus cart).
Local Abbreviation row_low := (PpuPicture.row_low vbus cart).
Local Abbreviation row_high := (PpuPicture.row_high vbus cart).
Local Abbreviation cycled := (PpuPicture.cycled vbus cart).
Local Abbreviation cycled_rendering := (PpuPicture.cycled_rendering vbus cart).
Local Abbreviation ccycle_spec := (PpuPicture.ccycle_spec vbus cart shl_undefined Hbus Hchr).
Local Abbreviation cycletab_fetching := (PpuPicture.cycletab_fetching vbus cart shl_undefined).

(** ** One tick *)

(** Equal, the counters and the flags of the status register apart. *)
Definition alike (p q : PPU) : Prop :=
  setup q = setup p /\ shift q = shift p /\ tile q = tile p /\ vram q = vram p /\ screen q = screen p.

Lemma alike_trans p q r : alike p q -> alike q r -> alike p r.
Proof. unfold alike. intros (? & ? & ? & ? & ?) (? & ? & ? & ? & ?). split_and!; congruence. Qed.

Lemma alike_shows p q pic : alike p q -> shows p pic -> shows q pic.
Proof. intros (_ & _ & _ & _ & E) (scr & Es & H). exists scr. split; [by rewrite E | done]. Qed.

Lemma alike_rendering p q : alike p q -> ppu_ok q -> rendering p -> rendering q.
Proof.
  intros (Es & Esh & _ & _ & _) Hq [Hp Hb Hf Hs]. injection Es as _ _ Eb _ Ef _.
  constructor; [done | by rewrite Eb | by rewrite Ef | by rewrite Esh].
Qed.

Lemma alike_cycled c p q r : cycled c p q -> alike q r -> ppu_ok r -> cycled c p r.
Proof.
  intros [Hok Es Hs Ht Hp Hl Hh] (Fs & Fsh & Ft & Fv & _) Hr.
  constructor; rewrite ?Fsh, ?Ft, ?Fv; try done. by rewrite Fs.
Qed.

Context {X : Type} (fire : X -> X).

(** The work of a tick, by its line. *)
Definition works (t : Z) (p q : PPU) : Prop :=
  let c := t mod 341 in let y := (t / 341) mod 262 in
  (y < 240 /\ run_cycletab vbus cart shl_undefined c p = Ok q) \/
  (240 <= y < 261 /\ q = p) \/
  (y = 261 /\ exists r, run_cycletab vbus cart shl_undefined c p = Ok r /\
    q = if (280 <=? c) && (c <=? 304) then copy_v_vertpos r else r).

Lemma alike_next q r : alike q r -> alike q
  (set_p_lines (u64 (p_lines (set_p_cycles (u64 (p_cycles r + 1)) r) +
     (if p_cycles (set_p_cycles (u64 (p_cycles r + 1)) r) mod 341 =? 0 then 1 else 0)))
     (set_p_cycles (u64 (p_cycles r + 1)) r)).
Proof. done. Qed.

Lemma alike_end_blank q : alike q (vblank_end q).
Proof. done. Qed.

Lemma begin_frame_alike q r : begin_frame q = Ok r -> alike q r.
Proof. unfold begin_frame. repeat case_match; intros [= <-]; done. Qed.

Lemma copy_vert_alike q r : alike q r -> alike (copy_v_vertpos q) (copy_v_vertpos r).
Proof.
  intros (Es & Esh & Et & Ev & Esc). pose proof Es as Es'. injection Es' as _ _ Eb _ _ _. unfold copy_v_vertpos.
  rewrite Eb, Ev. destruct (negb (bg_show (io q))); [done |].
  split_and!; try done. unfold set_vaddr, on_vram, set_addr. cbn [vram set_vram]. by rewrite Ev.
Qed.

Lemma run_works t p x : ppu_ok p -> pos_at t p ->
  exists p', run vbus cart shl_undefined (Some fire) (p, x) = Ok (p', if nmi_tick t then fire x else x) /\
    ppu_ok p' /\ pos_at (next_tick t) p' /\ exists q, works t p q /\ alike q p'.
Proof.
  intros Hp Hpos. destruct (run_tick vbus cart shl_undefined Hbus Hchr fire t p x Hp Hpos)
    as (p' & E & Hp' & Hpos' & _).
  exists p'. split_and!; try done. revert E. destruct (pos_dot t p Hpos) as [Ec El].
  pose proof (Z.mod_pos_bound t 341 ltac:(lia)). pose proof (Z.mod_pos_bound (t / 341) 262 ltac:(lia)).
  unfold run. cbn [fst]. rewrite El, linetab_spec, Ec by done.
  intros ([r x'] & E & [= <- _])%rbind_Ok. revert E. unfold works, lcycle, on_ppu.
  set (c := t mod 341) in *. set (y := (t / 341) mod 262) in *.
  zdecide_true (c <=? 340). cbn [negb].
  destruct (Z.ltb_spec y 240).
  { intros (q & E & [= <- _])%rbind_Ok. exists q. split; [by left | done]. }
  destruct (Z.eqb_spec y 241).
  { intros E. exists p. split; [right; left; split; [lia | done] |].
    destruct (c =? 1); injection E as <- _; done. }
  destruct (Z.eqb_spec y 261).
  - intros (q & (r0 & E0 & E)%rbind_Ok & [= <- _])%rbind_Ok.
    exists (if (280 <=? c) && (c <=? 304) then copy_v_vertpos r0 else r0).
    split; [right; right; split; [done |]; by exists r0 |]. apply alike_next.
    assert (A1 : alike r0 (if c =? 1 then vblank_end r0 else r0)) by (by destruct (c =? 1)).
    eapply alike_trans; [| destruct (c =? 340); [by eapply begin_frame_alike | injection E as <-; done]].
    destruct ((280 <=? c) && (c <=? 304)); [by apply copy_vert_alike | done].
  - intros [= <- _]. exists p. split; [right; left; split; [lia | done] | done].
Qed.

(** *** Sequences of ticks *)

Fixpoint calls (n : nat) (s : PPU * X) : Res (PPU * X) :=
  match n with
  | O => Ok s
  | S n' => let? s' := run vbus cart shl_undefined (Some fire) s in calls n' s'
  end.

(** [n] ticks lead from [p] to a state with [P], without an interrupt. *)
Definition leads (n : nat) (p : PPU) (P : PPU -> Prop) : Prop :=
  forall x, exists p', calls n (p, x) = Ok (p', x) /\ P p'.

Lemma leads_0 p (P : PPU -> Prop) : P p -> leads 0 p P.
Proof. intros H x. by exists p. Qed.

Lemma calls_app n m s : calls (n + m) s = let? s' := calls n s in calls m s'.
Proof.
  revert s. induction n as [| n IH]; intros s; simpl; [done |].
  destruct (run vbus cart shl_undefined (Some fire) s) as [s' |]; simpl; [apply IH | done].
Qed.

Lemma leads_app n m p P Q : leads n p P -> (forall q, P q -> leads m q Q) -> leads (n + m) p Q.
Proof.
  intros H1 H2 x. destruct (H1 x) as (q & E & Hq). destruct (H2 q Hq x) as (r & F & Hr).
  exists r. rewrite calls_app, E. done.
Qed.

Lemma leads_mono n p (P Q : PPU -> Prop) : leads n p P -> (forall q, P q -> Q q) -> leads n p Q.
Proof. intros H1 H2 x. destruct (H1 x) as (q & E & Hq). exists q. auto. Qed.

(** The beam at cycle [c] of line [y], in either frame. *)
Definition at_dot (c y : Z) (p : PPU) : Prop :=
  exists t, pos_at t p /\ t mod 341 = c /\ (t / 341) mod 262 = y.

Lemma at_dot_beam c y p : at_dot c y p -> 0 <= y < 240 \/ y = 261 -> beam_at c y p.
Proof.
  intros (t & Hpos & Ec & Ey) Hy. destruct (pos_dot t p Hpos) as [E1 E2].
  unfold beam_at. rewrite E1, E2. done.
Qed.

(** The successor of a dot within its line. *)
Lemma at_dot_next t p c y : pos_at (next_tick t) p -> 0 <= t <= last_tick -> t mod 341 = c ->
  (t / 341) mod 262 = y -> c < 340 -> at_dot (c + 1) y p.
Proof.
  intros Hpos Ht Ec Ey Hc. exists (next_tick t). split; [done |].
  unfold next_tick. destruct (Z.eqb_spec t last_tick) as [-> | _].
  - unfold last_tick, frame_cycles in Ec. vm_compute in Ec. lia.
  - assert (E : (t + 1) / 341 = t / 341) by (clear -Ec Hc; dlia). rewrite E, Ey. split; [| done].
    clear -Ec Hc. dlia.
Qed.

(** One tick that fetches. *)
Lemma tick_fetching c y p pic : fetching c -> rendering p -> shows p pic -> at_dot c y p ->
  0 <= y < 240 \/ y = 261 ->
  leads 1 p (fun p' => rendering p' /\ cycled c p p' /\ shows p' (paint c y (beam_color p) pic) /\
    (c < 340 -> at_dot (c + 1) y p') /\ exists t, t mod 341 = c /\ (t / 341) mod 262 = y /\
      0 <= t <= last_tick /\ pos_at (next_tick t) p').
Proof.
  intros Hc Hr Hs Hd Hy x. pose proof (at_dot_beam c y p Hd Hy) as Hbeam.
  destruct Hd as (t & Hpos & Ec & Ey). pose proof (pa_range _ _ Hpos) as Ht.
  destruct (run_works t p x (re_ok p Hr) Hpos) as (p' & E & Hp' & Hpos' & q & Hw & Ha).
  rewrite nmi_tick_dot in E by done. rewrite Ey in E. replace (y =? 241) with false in E
    by (symmetry; apply Z.eqb_neq; lia). cbn [andb] in E.
  destruct (ccycle_spec c y p pic Hc Hr Hs Hbeam) as (r & Er & Hcy & Hsh).
  assert (q = r) as ->.
  { unfold works in Hw. rewrite Ec, Ey, cycletab_fetching, Er in Hw by done.
    destruct Hw as [[_ [= ->]] | [[? _] | [_ (r' & [= <-] & ->)]]]; [done | lia |].
    replace ((280 <=? c) && (c <=? 304)) with false; [done |]. symmetry. destruct Hc; zcases. }
  exists p'. cbn [calls]. rewrite E. cbn [rbind]. split; [done |]. split_and!.
  - eapply alike_rendering; [exact Ha | done |]. by eapply cycled_rendering.
  - by eapply alike_cycled.
  - by eapply alike_shows.
  - intros Hc'. by eapply at_dot_next.
  - by exists t.
Qed.

(** ** Groups of eight cycles *)

Section Group.
Context (p0 : PPU).

(** The colour of column [x] in the group that follows cycle [b], when the
    registers hold [F] and [G] after their filling. *)
Definition group_color (b F G x : Z) : Z :=
  let i := fine_x (vram p0) + Z.max 0 (x - b - 2) in
  shade (palmem p0) (Z.testbit F i) (Z.testbit G i).

(** The picture after [r] cycles of a group. *)
Definition strip (b y r : Z) (color : Z -> Z) (pic : Z -> Z -> Z) : Z -> Z -> Z :=
  fun x' y' => if (y' =? y) && (b <? x') && (x' <=? b + r) && beam_on x' y then color x' else pic x' y'.

(** Between two groups: a position, the registers, and the row in the latches. *)
Record latched (s : Pos) (A B L H : Z) (p : PPU) : Prop := {
  la_re : rendering p;
  la_setup : setup p = setup p0;
  la_pos : pos_of (addr (vram p)) = s;
  la_tlow : tlow (shift p) = A;
  la_thigh : thigh (shift p) = B;
  la_low : t_low (tile p) = L;
  la_high : t_high (tile p) = H;
}.

(** After [r] cycles of the group, with the registers [F] and [G] at its start. *)
Record midway (b y : Z) (s : Pos) (F G : Z) (r : Z) (pic : Z -> Z -> Z) (p : PPU) : Prop := {
  mi_re : rendering p;
  mi_setup : setup p = setup p0;
  mi_pos : pos_of (addr (vram p)) = s;
  mi_tlow : tlow (shift p) = Z.shiftr F (r - 1);
  mi_thigh : thigh (shift p) = Z.shiftr G (r - 1);
  mi_nt : 2 <= r -> t_nt (tile p) = video p0 (name_addr s);
  mi_low : 6 <= r -> t_low (tile p) = row_low p0 s;
  mi_shows : shows p (strip b y r (group_color b F G) pic);
}.

Lemma setup_video p : setup p = setup p0 ->
  (forall a, video p a = video p0 a) /\ bg_pt_addr (io p) = bg_pt_addr (io p0) /\
  fine_x (vram p) = fine_x (vram p0) /\ palmem p = palmem p0.
Proof. intros E. split; [by apply video_setup |]. by injection E as _ -> _ -> -> _. Qed.

Lemma fill_low r b f : 0 <= f < 8 -> Z.testbit (fill r b) f = Z.testbit r f.
Proof.
  intros Hf. unfold fill. rewrite testbit_u16 by lia. zdecide_true (f <? 16). cbn [andb].
  rewrite setbits_testbit_gen by lia. unfold in_field. by zdecide_false (8 <=? f).
Qed.

(** The beam's colour in terms of the group. *)
Lemma beam_group p b F G r : setup p = setup p0 -> 1 <= r ->
  0 <= fine_x (vram p0) ->
  tlow (shift p) = Z.shiftr F (r - 1) -> thigh (shift p) = Z.shiftr G (r - 1) ->
  beam_color p = group_color b F G (b + 1 + r).
Proof.
  intros Es Hr Hf El Eh. destruct (setup_video p Es) as (_ & _ & Ef & Epal).
  unfold beam_color, group_color. rewrite El, Eh, Ef, Epal, !Z.shiftr_spec by done.
  replace (Z.max 0 (b + 1 + r - b - 2)) with (r - 1) by lia. done.
Qed.

(** One more pixel of a strip. *)
Lemma strip_paint b y r color col pic : color (b + 1 + r) = col -> 0 <= r ->
  forall x' y', paint (b + 1 + r) y col (strip b y r color pic) x' y' = strip b y (r + 1) color pic x' y'.
Proof.
  intros Hcol Hr x' y'. unfold paint, strip. destruct (Z.eqb_spec y' y) as [-> | _]; [| by rewrite andb_false_r].
  destruct (Z.eqb_spec x' (b + 1 + r)) as [-> | Hx]; cbn [andb].
  - zdecide_true (b <? b + 1 + r). zdecide_false (b + 1 + r <=? b + r). zdecide_true (b + 1 + r <=? b + (r + 1)).
    cbn [andb]. by destruct (beam_on (b + 1 + r) y).
  - by replace (x' <=? b + (r + 1)) with (x' <=? b + r) by (symmetry; zcases).
Qed.

Lemma fine_range p : setup p = setup p0 -> ppu_ok p -> 0 <= fine_x (vram p0) < 8.
Proof. intros Es Hp. destruct (setup_video p Es) as (_ & _ & <- & _). apply Hp. Qed.

(** The first cycle fills the registers, except at the start of a line. *)
Lemma group_first b y s A B L H pic p : b mod 8 = 0 -> fetching (b + 1) -> 0 <= y < 240 \/ y = 261 ->
  latched s A B L H p -> at_dot (b + 1) y p -> shows p pic ->
  let F := if b =? 0 then A else fill A L in
  let G := if b =? 0 then B else fill B H in
  leads 1 p (fun q => midway b y s F G 1 pic q /\ at_dot (b + 2) y q).
Proof.
  intros Hb Hc Hy [Hre Hsu Hpos El Eh Etl Eth] Hd Hs. cbv zeta.
  pose proof (fine_range p Hsu (re_ok p Hre)) as Hf. destruct (setup_video p Hsu) as (_ & _ & Ef & Epal).
  assert (Em : (b + 1) mod 8 = 1) by (clear -Hb; dlia).
  eapply leads_mono; [by apply (tick_fetching (b + 1) y p pic) |].
  intros q (Hq & Hcy & Hsh & Hd' & _). destruct Hcy as [_ Es _ [Fn Fl Fh] Ep El' Eh'].
  rewrite Em in Ep. change (1 =? 0) with false in Ep. unfold next_reg in El', Eh'. rewrite Em in El', Eh'.
  change (1 =? 1) with true in El', Eh'. cbn iota in El', Eh'.
  replace (b + 1 =? 1) with (b =? 0) in El', Eh' by zcases. rewrite El, Etl in El'. rewrite Eh, Eth in Eh'.
  split; [| replace (b + 2) with (b + 1 + 1) by lia; apply Hd'; clear -Hb Hc; destruct Hc; dlia].
  constructor; try lia; try done.
  - by rewrite Es.
  - by rewrite Ep.
  - eapply shows_ext; [exact Hsh |]. intros x' y' _ _.
    rewrite <- (strip_paint b y 0 _ (beam_color p)); [| | lia].
    + rewrite Z.add_0_r. unfold paint, strip. destruct (_ && _); [done |].
      by replace ((y' =? y) && (b <? x') && (x' <=? b + 0)) with false by (symmetry; zcases; by rewrite ?andb_false_r).
    + unfold group_color, beam_color. rewrite El, Eh, Ef, Epal.
      replace (Z.max 0 (b + 1 + 0 - b - 2)) with 0 by lia. rewrite Z.add_0_r.
      destruct (b =? 0); [done |]. by rewrite !fill_low.
Qed.

(** The six that follow. *)
Lemma group_mid b y s F G r pic p : b mod 8 = 0 -> fetching (b + 1 + r) -> 0 <= y < 240 \/ y = 261 ->
  1 <= r <= 6 -> midway b y s F G r pic p -> at_dot (b + 1 + r) y p ->
  leads 1 p (fun q => midway b y s F G (r + 1) pic q /\ (b + 1 + r < 340 -> at_dot (b + 1 + (r + 1)) y q) /\
    exists t, t mod 341 = b + 1 + r /\ (t / 341) mod 262 = y /\ 0 <= t <= last_tick /\ pos_at (next_tick t) q).
Proof.
  intros Hb Hc Hy Hr [Hre Hsu Hpos El Eh Hnt Hlow Hs] Hd.
  pose proof (fine_range p Hsu (re_ok p Hre)) as Hf. destruct (setup_video p Hsu) as (Ev & Ebg & Ef & Epal).
  assert (Em : (b + 1 + r) mod 8 = r + 1) by (clear -Hb Hr; dlia).
  eapply leads_mono; [by apply (tick_fetching (b + 1 + r) y p _ Hc Hre Hs) |].
  intros q (Hq & Hcy & Hsh & Hd' & Ht). destruct Hcy as [_ Es _ [Fn Fl Fh] Ep El' Eh'].
  rewrite Em in Ep, Fn, Fl. unfold next_reg in El', Eh'. rewrite Em in El', Eh'.
  zdecide_false (r + 1 =? 1). replace (r + 1 =? 0) with false in Ep by (symmetry; zcases).
  replace (r + 1 =? 1) with false in El', Eh' by (symmetry; zcases). rewrite El in El'. rewrite Eh in Eh'.
  split; [| split; [intros Hlt; replace (b + 1 + (r + 1)) with (b + 1 + r + 1) by lia; by apply Hd' | exact Ht]].
  assert (Esh : forall R, Z.shiftr (Z.shiftr R (r - 1)) 1 = Z.shiftr R (r + 1 - 1))
    by (intros R; rewrite Z.shiftr_shiftr by lia; f_equal; lia).
  rewrite Esh in El', Eh'. constructor; try done.
  - by rewrite Es.
  - by rewrite Ep.
  - intros _. rewrite Fn. destruct (Z.eqb_spec (r + 1) 2); [by rewrite Ev, Hpos | apply Hnt; lia].
  - intros H6. rewrite Fl. destruct (Z.eqb_spec (r + 1) 6).
    + rewrite Ev, Hpos, Hnt, Ebg by lia. done.
    + apply Hlow; lia.
  - eapply shows_ext; [exact Hsh |]. intros x' y' _ _. apply strip_paint; [| lia].
    symmetry. apply beam_group; (done || lia).
Qed.

(** The last one completes the row and moves the address. *)
Lemma group_last b y s F G pic p : b mod 8 = 0 -> fetching (b + 8) -> 0 <= y < 240 \/ y = 261 -> b + 8 < 340 ->
  midway b y s F G 7 pic p -> at_dot (b + 8) y p ->
  leads 1 p (fun q => latched (if b =? 248 then down s else right 1 s) (Z.shiftr F 7) (Z.shiftr G 7)
      (row_low p0 s) (row_high p0 s) q /\ at_dot (b + 9) y q /\
    shows q (strip b y 8 (group_color b F G) pic)).
Proof.
  intros Hb Hc Hy Hlt [Hre Hsu Hpos El Eh Hnt Hlow Hs] Hd.
  pose proof (fine_range p Hsu (re_ok p Hre)) as Hf. destruct (setup_video p Hsu) as (Ev & Ebg & Ef & Epal).
  assert (Em : (b + 8) mod 8 = 0) by (clear -Hb; dlia).
  eapply leads_mono; [by apply (tick_fetching (b + 8) y p _ Hc Hre Hs) |].
  intros q (Hq & Hcy & Hsh & Hd' & Ht). destruct Hcy as [_ Es _ [Fn Fl Fh] Ep El' Eh'].
  rewrite Em in Ep, Fl, Fh. unfold next_reg in El', Eh'. rewrite Em in El', Eh'.
  change (0 =? 0) with true in Ep, Fh. change (0 =? 6) with false in Fl. change (0 =? 1) with false in El', Eh'.
  cbn iota in El', Eh', Ep, Fl, Fh. rewrite El in El'. rewrite Eh in Eh'.
  assert (Esh : forall R, Z.shiftr (Z.shiftr R (7 - 1)) 1 = Z.shiftr R 7)
    by (intros R; rewrite Z.shiftr_shiftr by lia; done).
  rewrite Esh in El', Eh'. split; [| split; [replace (b + 9) with (b + 8 + 1) by lia; by apply Hd' |]].
  - constructor; try done.
    + by rewrite Es.
    + rewrite Ep, Hpos. replace (b + 8 =? 256) with (b =? 248) by zcases. by destruct (b =? 248).
    + rewrite Fl. apply Hlow. lia.
    + rewrite Fh, Ev, Hpos, Hnt, Ebg by lia. done.
  - eapply shows_ext; [exact Hsh |]. intros x' y' _ _.
    replace (b + 8) with (b + 1 + 7) by lia. change 8 with (7 + 1). apply strip_paint; [| lia].
    symmetry. apply beam_group; (done || lia).
Qed.

(** A group is ready when its registers will hold [F] and [G] once filled. *)
Definition ready (b : Z) (s : Pos) (F G : Z) (p : PPU) : Prop :=
  exists A B L H, latched s A B L H p /\
    F = (if b =? 0 then A else fill A L) /\ G = (if b =? 0 then B else fill B H).

(** The first [1 + k] cycles of a group. *)
Lemma group_upto k b y s F G pic p : b mod 8 = 0 -> fetching (b + 1) -> fetching (b + 1 + Z.of_nat k) ->
  b + 1 + Z.of_nat k < 340 -> 0 <= y < 240 \/ y = 261 ->
  (k <= 6)%nat -> ready b s F G p -> at_dot (b + 1) y p -> shows p pic ->
  leads (1 + k) p (fun q => midway b y s F G (1 + Z.of_nat k) pic q /\ at_dot (b + 2 + Z.of_nat k) y q).
Proof.
  intros Hb Hc1 Hck Hlt Hy Hk (A & B & L & H & Hla & -> & ->) Hd Hs.
  induction k as [| k IH].
  - rewrite !Z.add_0_r in *. by apply (group_first b y s A B L H).
  - replace (1 + S k)%nat with (1 + k + 1)%nat by lia. eapply leads_app.
    { apply IH; [| lia | lia]. unfold fetching in *. clear -Hc1 Hck Hk. lia. }
    intros q [Hq Hdq]. eapply leads_mono.
    + eapply (group_mid b y s _ _ (1 + Z.of_nat k) pic q Hb); try done; try lia.
      * replace (b + 1 + (1 + Z.of_nat k)) with (b + 1 + Z.of_nat (S k)) by lia. done.
      * by replace (b + 1 + (1 + Z.of_nat k)) with (b + 2 + Z.of_nat k) by lia.
    + intros r (Hr & Hdr & _). replace (1 + Z.of_nat (S k)) with (1 + Z.of_nat k + 1) by lia. split; [done |].
      replace (b + 2 + Z.of_nat (S k)) with (b + 1 + (1 + Z.of_nat k + 1)) by lia. apply Hdr. lia.
Qed.

(** A whole group. *)
Lemma group_run b y s F G pic p : b mod 8 = 0 -> 0 <= b <= 248 \/ 320 <= b <= 328 -> 0 <= y < 240 \/ y = 261 ->
  ready b s F G p -> at_dot (b + 1) y p -> shows p pic ->
  leads 8 p (fun q => ready (b + 8) (if b =? 248 then down s else right 1 s)
      (fill (Z.shiftr F 7) (row_low p0 s)) (fill (Z.shiftr G 7) (row_high p0 s)) q /\
    at_dot (b + 9) y q /\ shows q (strip b y 8 (group_color b F G) pic)).
Proof.
  intros Hb Hc Hy Hready Hd Hs.
  assert (Hfe : forall r, 1 <= r <= 8 -> fetching (b + r)) by (intros r Hr; unfold fetching; clear -Hc Hr; lia).
  change 8%nat with (1 + 6 + 1)%nat. eapply leads_app.
  { apply (group_upto 6 b y s F G pic p); try done; [apply Hfe; lia | | lia].
    rewrite <- Z.add_assoc. apply Hfe. lia. }
  change (Z.of_nat 6) with 6. intros q [Hq Hdq]. eapply leads_mono.
  { apply (group_last b y s F G pic q Hb); try done; [apply Hfe; lia | lia |].
    by replace (b + 8) with (b + 2 + 6) by lia. }
  intros r (Hr & Hdr & Hsr). split; [| done]. eexists _, _, _, _. split; [exact Hr |].
  by zdecide_false (b + 8 =? 0).
Qed.

(** ** The visible part of a line *)

(** The register [r] after the filling of group [n], the bytes coming from [row]. *)
Fixpoint regs (row : nat -> Z) (r : Z) (n : nat) : Z :=
  match n with O => r | S n' => fill (Z.shiftr (regs row r n') 7) (row n') end.

Lemma regs_ext f g r n : (forall k, f k = g k) -> regs f r n = regs g r n.
Proof. intros E. induction n as [| n IH]; cbn [regs]; [done |]. by rewrite IH, E. Qed.

(** The colours of a line that starts at position [s] with registers [A] and [B]. *)
Definition line_color (s : Pos) (A B x : Z) : Z :=
  let g := (x - 1) / 8 in
  group_color (8 * g) (regs (fun k => row_low p0 (right (Z.of_nat k) s)) A (Z.to_nat g))
    (regs (fun k => row_high p0 (right (Z.of_nat k) s)) B (Z.to_nat g)) x.

Definition line_pic (y n : Z) (color : Z -> Z) (pic : Z -> Z -> Z) : Z -> Z -> Z :=
  fun x' y' => if (y' =? y) && (x' <=? 8 * n) && beam_on x' y then color x' else pic x' y'.

Lemma line_strip y n s A B pic : 0 <= n -> forall x' y',
  strip (8 * n) y 8 (group_color (8 * n)
      (regs (fun k => row_low p0 (right (Z.of_nat k) s)) A (Z.to_nat n))
      (regs (fun k => row_high p0 (right (Z.of_nat k) s)) B (Z.to_nat n)))
    (line_pic y n (line_color s A B) pic) x' y' = line_pic y (n + 1) (line_color s A B) pic x' y'.
Proof.
  intros Hn x' y'. unfold strip, line_pic. destruct (Z.eqb_spec y' y) as [-> | _]; cbn [andb]; [| done].
  destruct (Z.ltb_spec (8 * n) x'); cbn [andb].
  - zdecide_false (x' <=? 8 * n). replace (x' <=? 8 * (n + 1)) with (x' <=? 8 * n + 8) by (f_equal; lia).
    destruct (Z.leb_spec x' (8 * n + 8)); cbn [andb]; [| done].
    unfold line_color. replace ((x' - 1) / 8) with n by dlia. done.
  - zdecide_true (x' <=? 8 * n). zdecide_true (x' <=? 8 * (n + 1)). done.
Qed.

Lemma right_right j k s : right j (right k s) = right (k + j) s.
Proof. unfold right. cbn [ph pv pt]. f_equal. rewrite Zplus_mod_idemp_l. f_equal. lia. Qed.

Lemma right_0 s : 0 <= ph s < 64 -> right 0 s = s.
Proof. intros H. unfold right. rewrite Z.add_0_r, Z.mod_small by done. by destruct s. Qed.

Lemma line_groups n y s A B pic p : (n <= 31)%nat -> 0 <= y < 240 \/ y = 261 -> 0 <= ph s < 64 ->
  ready 0 s A B p -> at_dot 1 y p -> shows p pic ->
  leads (8 * n) p (fun q => ready (8 * Z.of_nat n) (right (Z.of_nat n) s)
      (regs (fun k => row_low p0 (right (Z.of_nat k) s)) A n)
      (regs (fun k => row_high p0 (right (Z.of_nat k) s)) B n) q /\
    at_dot (8 * Z.of_nat n + 1) y q /\ shows q (line_pic y (Z.of_nat n) (line_color s A B) pic)).
Proof.
  intros Hn Hy Hph Hr Hd Hs. induction n as [| n IH].
  - apply leads_0. cbn [regs]. rewrite right_0 by done. split_and!; [done | done |].
    eapply shows_ext; [exact Hs |]. intros x' y' Hx _. unfold line_pic, beam_on. zcases; by rewrite ?andb_false_r.
  - replace (8 * S n)%nat with (8 * n + 8)%nat by lia. eapply leads_app; [apply IH; lia |].
    intros q (Hq & Hdq & Hsq). eapply leads_mono.
    { eapply (group_run (8 * Z.of_nat n)); [| | done | exact Hq | exact Hdq | exact Hsq].
      - clear. dlia.
      - left. lia. }
    intros r (Hrr & Hdr & Hsr). revert Hrr. zdecide_false (8 * Z.of_nat n =? 248). rewrite right_right. intros Hrr.
    replace (8 * Z.of_nat (S n)) with (8 * Z.of_nat n + 8) by lia.
    replace (Z.of_nat (S n)) with (Z.of_nat n + 1) by lia. split_and!; [exact Hrr | |].
    + by replace (8 * Z.of_nat n + 8 + 1) with (8 * Z.of_nat n + 9) by lia.
    + eapply shows_ext; [exact Hsr |]. intros x' y' _ _. pose proof (line_strip y (Z.of_nat n) s A B pic) as E.
      rewrite Nat2Z.id in E. apply E. lia.
Qed.

(** All 32 groups: the position moves to the next row. *)
Lemma line_visible y s A B pic p : 0 <= y < 240 \/ y = 261 -> 0 <= ph s < 64 ->
  ready 0 s A B p -> at_dot 1 y p -> shows p pic ->
  leads 256 p (fun q => rendering q /\ setup q = setup p0 /\ pos_of (addr (vram q)) = down (right 31 s) /\
    at_dot 257 y q /\ shows q (line_pic y 32 (line_color s A B) pic)).
Proof.
  intros Hy Hph Hr Hd Hs. change 256%nat with (8 * 31 + 8)%nat. eapply leads_app.
  { apply (line_groups 31 y s A B pic p); try done. }
  change (Z.of_nat 31) with 31. change (8 * 31) with 248. intros q (Hq & Hdq & Hsq). eapply leads_mono.
  { eapply (group_run 248); [reflexivity | by left | exact Hy | exact Hq | exact Hdq | exact Hsq]. }
  intros r ((A' & B' & L & H & [Hre Hsu Hpos _ _ _ _] & _) & Hdr & Hsr). split_and!; try done.
  eapply shows_ext; [exact Hsr |]. intros x' y' _ _. by apply (line_strip y 31 s A B pic).
Qed.

End Group.
End Line.
