(* ===== verification/PpuFrame.v ===== *)
(** * A frame of the picture

    The blank between two lines, the tiles fetched ahead there, which bit of which
    tile a pixel shows, and a frame from the vertical blank to its last line. *)

From S2P Require Import Prelude Bits HeapArray Bus Cartridge Video Ppu PpuInv PpuSched PpuRegs PpuPicture PpuLine.
Open Scope Z_scope.

Section Frame.
Context (vbus : Bus VHandler) (cart : Cartridge) (shl_undefined : Z -> Z -> Z).
Hypothesis Hbus : vbus_ok vbus.
Hypothesis Hchr : chr_ok cart.
Context {X : Type} (fire : X -> X).
Context (p0 : PPU).

Local Abbreviation video := (PpuPicture.video vbus cart).
Local Abbreviation vread_video := (PpuPicture.vread_video vbus cart Hbus Hchr).
Local Abbreviation row_low := (PpuPicture.row_low vbus cart).
Local Abbreviation row_high := (PpuPicture.row_high vbus cart).
Local Abbreviation rows_setup := (PpuPicture.rows_setup vbus cart).
Local Abbreviation cy_setup := (PpuPicture.cy_setup vbus cart).
Local Abbreviation works := (PpuLine.works vbus cart shl_undefined).
Local Abbreviation run_works := (PpuLine.run_works vbus cart shl_undefined Hbus Hchr fire).
Local Abbreviation calls := (PpuLine.calls vbus cart shl_undefined fire).
Local Abbreviation leads := (PpuLine.leads vbus cart shl_undefined fire).
Local Abbreviation leads_0 := (PpuLine.leads_0 vbus cart shl_undefined fire).
Local Abbreviation calls_app := (PpuLine.calls_app vbus cart shl_undefined fire).
Local Abbreviation leads_app := (PpuLine.leads_app vbus cart shl_undefined fire).
Local Abbreviation leads_mono := (PpuLine.leads_mono vbus cart shl_undefined fire).
Local Abbreviation tick_fetching := (PpuLine.tick_fetching vbus cart shl_undefined Hbus Hchr fire).
Local Abbreviation group_color := (PpuLine.group_color p0).
Local Abbreviation setup_video := (PpuLine.setup_video vbus cart p0).
Local Abbreviation fine_range := (PpuLine.fine_range vbus cart p0).
Local Abbreviation group_mid := (PpuLine.group_mid vbus cart shl_undefined Hbus Hchr fire p0).
Local Abbreviation ready := (PpuLine.ready p0).
Local Abbreviation group_upto := (PpuLine.group_upto vbus cart shl_undefined Hbus Hchr fire p0).
Local Abbreviation group_run := (PpuLine.group_run vbus cart shl_undefined Hbus Hchr fire p0).
Local Abbreviation line_color := (PpuLine.line_color vbus cart p0).
Local Abbreviation line_visible := (PpuLine.line_visible vbus cart shl_undefined Hbus Hchr fire p0).

(** ** Between the lines *)

(** Where a line starts, and where the first one does.  The row of the first
    line is taken from the field of [tmp] that holds the column. *)
Definition line_start (s : Pos) : Pos := mkPos (hpos (tmp (vram p0))) (pv s) (pt s).
Definition top : Pos :=
  let t := tmp (vram p0) in mkPos (hpos t) (8 * coarse_x t + coarse_x t mod 8) (vtable t).

Lemma pos_copy_vert p : bg_show (io p) = true -> tmp (vram p) = tmp (vram p0) ->
  hpos (addr (vram p)) = hpos (tmp (vram p0)) -> pos_of (addr (vram (copy_v_vertpos p))) = top.
Proof.
  intros Hb Et Eh. destruct (copy_vert_spec p Hb) as (E1 & E2 & E3 & E4). cbv zeta in E1, E2, E3, E4.
  unfold pos_of, top, vpos. by rewrite E1, E2, E3, E4, Et, Eh.
Qed.

(** A tick that neither fetches nor draws, the two copies apart. *)
Lemma tick_other c y p pic : c = 0 \/ 257 <= c <= 320 -> 0 <= y < 240 \/ y = 261 -> at_dot c y p ->
  rendering p -> setup p = setup p0 -> shows p pic ->
  (y = 261 -> 280 <= c -> hpos (addr (vram p)) = hpos (tmp (vram p0))) ->
  leads 1 p (fun q => rendering q /\ setup q = setup p0 /\ shift q = shift p /\ at_dot (c + 1) y q /\ shows q pic /\
    pos_of (addr (vram q)) =
      if c =? 257 then line_start (pos_of (addr (vram p)))
      else if (y =? 261) && (280 <=? c) && (c <=? 304) then top else pos_of (addr (vram p))).
Proof.
  intros Hc Hy (t & Hpos & Ec & Ey) Hr Hs Hsh Hh x. pose proof (pa_range _ _ Hpos) as Ht.
  assert (Et : tmp (vram p) = tmp (vram p0)) by (injection Hs; congruence).
  destruct (run_works t p x (re_ok p Hr) Hpos) as (p' & E & Hp' & Hpos' & q & Hw & Ha).
  rewrite nmi_tick_dot in E by done. rewrite Ey in E. replace (y =? 241) with false in E
    by (symmetry; apply Z.eqb_neq; lia). cbn [andb] in E.
  exists p'. cbn [calls]. rewrite E. cbn [rbind]. split; [done |].
  assert (Hd' : at_dot (c + 1) y p') by (eapply at_dot_next; [exact Hpos' | done | done | done | lia]).
  set (r := if c =? 257 then copy_v_horzpos p else p).
  assert (Hcyc : run_cycletab vbus cart shl_undefined c p = Ok r).
  { unfold run_cycletab, r. rewrite cycletab_spec by lia.
    destruct (Z.eqb_spec c 257) as [-> |]; [reflexivity |].
    replace (((1 <=? c) && (c <=? 257)) || (321 <=? c)) with false by (symmetry; zcases). done. }
  assert (Hcopy : forall f, (f = copy_v_horzpos \/ f = copy_v_vertpos) ->
    setup (f p) = setup p /\ shift (f p) = shift p /\ screen (f p) = screen p).
  { intros f [-> | ->]; [unfold copy_v_horzpos | unfold copy_v_vertpos]; by destruct (negb (bg_show (io p))). }
  assert (Hq : q = if (c =? 257) then copy_v_horzpos p
    else if (y =? 261) && (280 <=? c) && (c <=? 304) then copy_v_vertpos p else p).
  { unfold works in Hw. rewrite Ec, Ey, Hcyc in Hw.
    destruct Hw as [[? [= <-]] | [[? _] | [-> (r' & [= <-] & ->)]]]; [| lia |].
    - unfold r. replace (y =? 261) with false by (symmetry; apply Z.eqb_neq; lia). by cbn [andb].
    - change (261 =? 261) with true. cbn [andb]. unfold r. destruct (Z.eqb_spec c 257) as [-> |]; done. }
  assert (Hq2 : setup q = setup p /\ shift q = shift p /\ screen q = screen p).
  { rewrite Hq. destruct (c =? 257); [by apply Hcopy; left |].
    destruct (_ && _); [by apply Hcopy; right | done]. }
  destruct Hq2 as (Q1 & Q2 & Q3). pose proof Ha as (A1 & A2 & A3 & A4 & A5).
  assert (Hrp : rendering p').
  { destruct Hr as [Hp Hb Hf Hst]. rewrite Q1 in A1. injection A1 as _ _ Eb _ Ef _.
    constructor; [done | by rewrite Eb | by rewrite Ef | by rewrite A2, Q2]. }
  split_and!; try done.
  - by rewrite A1, Q1.
  - by rewrite A2.
  - destruct Hsh as (scr & Es & Hpx). exists scr. split; [by rewrite A5, Q3 | done].
  - rewrite A4, Hq. destruct (Z.eqb_spec c 257) as [-> | N].
    + rewrite pos_copy_horz by apply Hr. by rewrite Et.
    + destruct ((y =? 261) && (280 <=? c) && (c <=? 304)) eqn:E3; [| done].
      apply andb_true_iff in E3 as [[E3%Z.eqb_eq ?%Z.leb_le]%andb_true_iff _].
      apply pos_copy_vert; [apply Hr | done | by apply Hh].
Qed.

(** From the end of the visible part to the fetches for the next line. *)
Lemma hblank y p s pic : 0 <= y < 240 \/ y = 261 -> at_dot 257 y p -> rendering p -> setup p = setup p0 ->
  shows p pic -> pos_of (addr (vram p)) = s ->
  leads 64 p (fun q => rendering q /\ setup q = setup p0 /\ at_dot 321 y q /\ shows q pic /\
    pos_of (addr (vram q)) = if y =? 261 then top else line_start s).
Proof.
  intros Hy Hd Hr Hs Hsh Hp.
  assert (H : forall k : nat, (k <= 63)%nat -> leads (1 + k) p (fun q => rendering q /\ setup q = setup p0 /\
    at_dot (258 + Z.of_nat k) y q /\ shows q pic /\
    pos_of (addr (vram q)) = if (y =? 261) && (280 <? 258 + Z.of_nat k) then top else line_start s)).
  { intros k Hk. induction k as [| k IH].
    - eapply leads_mono; [apply (tick_other 257 y p pic); try done; lia |].
      intros q (H1 & H2 & _ & H4 & H5 & H6). split_and!; try done.
      rewrite H6, Hp. by destruct (y =? 261).
    - replace (1 + S k)%nat with (1 + k + 1)%nat by lia. eapply leads_app; [apply IH; lia |].
      intros q (H1 & H2 & H3 & H4 & H5).
      assert (Hh : hpos (addr (vram q)) = hpos (tmp (vram p0))).
      { change (ph (pos_of (addr (vram q))) = hpos (tmp (vram p0))). rewrite H5. by destruct (_ && _). }
      eapply leads_mono; [apply (tick_other (258 + Z.of_nat k) y q pic); try done; lia |].
      intros r (K1 & K2 & _ & K4 & K5 & K6). replace (258 + Z.of_nat (S k)) with (258 + Z.of_nat k + 1) by lia.
      split_and!; try done. rewrite K6, H5. zdecide_false (258 + Z.of_nat k =? 257).
      destruct (y =? 261); cbn [andb]; [| done].
      destruct (Z.leb_spec 280 (258 + Z.of_nat k)); cbn [andb]; [| by zdecide_false (280 <? 258 + Z.of_nat k);
        zdecide_false (280 <? 258 + Z.of_nat k + 1)].
      zdecide_true (280 <? 258 + Z.of_nat k + 1).
      destruct (Z.leb_spec (258 + Z.of_nat k) 304); [done |]. by zdecide_true (280 <? 258 + Z.of_nat k). }
  eapply leads_mono; [apply (H 63%nat); lia |]. intros q (H1 & H2 & H3 & H4 & H5). split_and!; try done.
  rewrite H5. change (280 <? 258 + Z.of_nat 63) with true. by rewrite andb_true_r.
Qed.

(** The registers at the start of a line, once the first two tiles are in. *)
Definition prefetched (a b : Z) : Z := Z.lor (Z.land (Z.shiftr a 2) 0x1F) (Z.shiftl b 5).

Lemma fill_testbit r b i : 0 <= r -> 0 <= b < 256 -> 0 <= i ->
  Z.testbit (fill r b) i = if i <? 8 then Z.testbit r i else Z.testbit b (i - 8).
Proof.
  intros Hr Hb Hi. unfold fill. rewrite testbit_u16 by lia.
  destruct (Z.ltb_spec i 16); cbn [andb].
  - rewrite setbits_testbit_gen by lia. unfold in_field. destruct (Z.ltb_spec i 8).
    + by zdecide_false (8 <=? i).
    + zdecide_true (8 <=? i). by zdecide_true (i <? 8 + 8).
  - zdecide_false (i <? 8). by rewrite (testbit_above b 8) by lia.
Qed.

Lemma prefetched_testbit a b i : 0 <= a < 256 -> 0 <= b < 256 -> 0 <= i ->
  Z.testbit (prefetched a b) i = if i <? 5 then Z.testbit a (i + 2) else Z.testbit b (i - 5).
Proof.
  intros Ha Hb Hi. unfold prefetched. change 0x1F with (Z.ones 5).
  rewrite Z.lor_spec, Z.land_spec, Z.shiftr_spec, Z.shiftl_spec by lia. destruct (Z.ltb_spec i 5).
  - rewrite Z.ones_spec_low by lia. rewrite (Z.testbit_neg_r _ (i - 5)) by lia. by rewrite andb_true_r, orb_false_r.
  - rewrite Z.ones_spec_high by lia. by rewrite andb_false_r.
Qed.

(** What was in the registers before does not matter. *)
Lemma prefetch_fill r a b : 0 <= r -> 0 <= a < 256 -> 0 <= b < 256 ->
  Z.shiftr (fill (Z.shiftr (fill r a) 7) b) 3 = prefetched a b.
Proof.
  intros Hr Ha Hb. apply Z.bits_inj'. intros i Hi.
  assert (H1 : 0 <= fill r a) by apply u16_word.
  rewrite Z.shiftr_spec, fill_testbit, prefetched_testbit by (done || lia || by apply Z.shiftr_nonneg).
  destruct (Z.ltb_spec i 5).
  - zdecide_true (i + 3 <? 8). rewrite Z.shiftr_spec, fill_testbit by lia. zdecide_false (i + 3 + 7 <? 8). f_equal. lia.
  - zdecide_false (i + 3 <? 8). f_equal. lia.
Qed.

(** Positions that an address can stand for. *)
Definition pos_ok (s : Pos) : Prop := 0 <= ph s < 64 /\ 0 <= pv s < 256 /\ 0 <= pt s < 2.

Lemma pos_of_ok a : pos_ok (pos_of a).
Proof.
  pose proof (nt_range a). pose proof (coarse_x_range a). pose proof (coarse_y_range a). pose proof (fine_y_range a).
  unfold pos_ok, pos_of, hpos, vpos, vtable. cbn [ph pv pt]. dlia.
Qed.

Lemma right_ok k s : pos_ok s -> pos_ok (right k s).
Proof. intros (H1 & H2 & H3). unfold pos_ok, right. cbn [ph pv pt]. split; [dlia | done]. Qed.

Lemma down_ok s : pos_ok s -> pos_ok (down s).
Proof. intros (H1 & H2 & H3). unfold pos_ok, down. zcases. Qed.

Lemma row_bytes p s : setup p = setup p0 -> ppu_ok p -> pos_ok s -> byte (row_low p0 s) /\ byte (row_high p0 s).
Proof.
  intros Es Hp (Hh & Hv & Ht). destruct (rows_setup p p0 s (eq_sym Es)) as [-> ->].
  assert (Hn : byte (video p (name_addr s))).
  { apply vread_video; [done |]. unfold name_addr, PPUBUS_SIZE. clear -Hh Hv Ht. dlia. }
  destruct (row_addr_range (bg_pt_addr (io p)) (video p (name_addr s)) s Hn).
  split; apply vread_video; (done || (unfold PPUBUS_SIZE; lia)).
Qed.

(** The registers are never negative. *)
Lemma ready_range b s F G p : ready b s F G p -> 0 <= F /\ 0 <= G.
Proof.
  intros (A & B & L & H & [Hre _ _ E1 E2 _ _] & -> & ->). pose proof (ok_shift _ (re_ok p Hre)) as [Hl Hh _ _].
  rewrite E1 in Hl. rewrite E2 in Hh. unfold word in *.
  destruct (b =? 0); [lia |]. split; apply u16_word.
Qed.

(** The first two tiles of the next line. *)
Lemma prefetch y s p pic : 0 <= y < 240 \/ y = 261 -> pos_ok s -> rendering p -> setup p = setup p0 ->
  at_dot 321 y p -> shows p pic -> pos_of (addr (vram p)) = s ->
  leads 20 p (fun q => ready 0 (right 2 s)
      (prefetched (row_low p0 s) (row_low p0 (right 1 s)))
      (prefetched (row_high p0 s) (row_high p0 (right 1 s))) q /\ shows q pic /\
    exists t, t mod 341 = 340 /\ (t / 341) mod 262 = y /\ 0 <= t <= last_tick /\ pos_at (next_tick t) q).
Proof.
  intros Hy Hpos Hr Hs Hd Hsh Hp. 
  assert (Hoff : forall b r color, 320 <= b -> forall q, shows q (strip b y r color pic) -> shows q pic).
  { intros b r color Hb q Hq. eapply shows_ext; [exact Hq |]. intros x' y' Hx _. unfold strip.
    zdecide_false (b <? x'). by rewrite andb_false_r. }
  assert (R320 : exists F G, ready 320 s F G p).
  { eexists _, _. eexists _, _, _, _. split; [by constructor |]. split; reflexivity. }
  destruct R320 as (F & G & R320). destruct (ready_range _ _ _ _ _ R320) as [HF HG].
  destruct (row_bytes p s Hs (re_ok p Hr) Hpos) as [B1 B2].
  destruct (row_bytes p (right 1 s) Hs (re_ok p Hr) (right_ok 1 s Hpos)) as [B3 B4]. change 20%nat with (8 + (8 + (3 + 1)))%nat. eapply leads_app.
  { apply (group_run 320 y s F G pic p); try done. by right. }
  change (320 =? 248) with false. intros q1 (R328 & Hd1 & Hs1). eapply leads_app.
  { eapply (group_run 328 y (right 1 s) _ _ pic q1); [reflexivity | by right | done | exact R328 | exact Hd1 |].
    eapply Hoff; [| exact Hs1]. done. }
  change (328 =? 248) with false. intros q2 (R336 & Hd2 & Hs2). eapply leads_app.
  { eapply (group_upto 2 336 y _ _ _ pic q2); [reflexivity | right; lia | right; lia | lia | done | lia | exact R336
      | exact Hd2 |]. eapply Hoff; [| exact Hs2]. done. }
  change (Z.of_nat 2) with 2. intros q3 (M3 & Hd3). eapply leads_mono.
  { eapply (group_mid 336 y _ _ _ 3 pic q3); [reflexivity | right; lia | done | lia | exact M3 | exact Hd3]. }
  intros q4 (M4 & _ & Ht). split; [| split; [| exact Ht]].
  - destruct M4 as [Hre Hsu Hpq El Eh _ _ _]. rewrite right_right in Hpq. eexists _, _, _, _. split; [by constructor |].
    change (0 =? 0) with true. cbn iota. change (3 + 1 - 1) with 3.
    split; symmetry; apply prefetch_fill; (done || by apply Z.shiftr_nonneg).
  - eapply Hoff; [| apply M4]. done.
Qed.

(** ** Which bit a pixel shows *)

Section Bits.
Context (W : Z -> Z).
Hypothesis HW : forall k, byte (W k).

Let init := prefetched (W 0) (W 1).
Let row (k : nat) : Z := W (Z.of_nat k + 2).

Lemma regs_range n : 0 <= regs row init n.
Proof.
  destruct n; cbn [regs]; [| apply u16_word]. apply Z.lor_nonneg. pose proof (HW 0). pose proof (HW 1).
  unfold byte in *. split; [apply Z.land_nonneg; lia | apply Z.shiftl_nonneg; lia].
Qed.

Lemma regs_step n i : 0 <= i -> Z.testbit (regs row init (S n)) i =
  if i <? 8 then Z.testbit (regs row init n) (i + 7) else Z.testbit (W (Z.of_nat n + 2)) (i - 8).
Proof.
  intros Hi. cbn [regs]. pose proof (regs_range n) as Hn.
  rewrite fill_testbit by (try apply Z.shiftr_nonneg; try apply HW; lia).
  destruct (i <? 8); [| done]. by rewrite Z.shiftr_spec by lia.
Qed.

Lemma regs_source n i : 0 <= i <= 14 ->
  Z.testbit (regs row init n) i = let '(k, j) := source_bit (Z.of_nat n) i in Z.testbit (W k) j.
Proof.
  intros Hi.
  assert (H0 : forall i, 0 <= i -> Z.testbit (regs row init 0) i =
    if i <? 5 then Z.testbit (W 0) (i + 2) else Z.testbit (W 1) (i - 5)).
  { intros i' Hi'. cbn [regs]. unfold init. apply prefetched_testbit; try done; apply HW. }
  unfold source_bit. destruct n as [| n].
  { change (Z.of_nat 0 =? 0) with true. cbn iota. rewrite H0 by lia. by destruct (i <? 5). }
  zdecide_false (Z.of_nat (S n) =? 0). rewrite regs_step by lia.
  destruct (Z.ltb_spec i 8); [| zdecide_true (8 <=? i); f_equal; [f_equal; lia]].
  zdecide_false (8 <=? i). destruct n as [| n].
  { change (Z.of_nat 1 =? 1) with true. cbn iota. rewrite H0 by lia. zdecide_false (i + 7 <? 5). f_equal. lia. }
  zdecide_false (Z.of_nat (S (S n)) =? 1). rewrite regs_step by lia.
  destruct (Z.eqb_spec i 0) as [-> | Hne].
  - cbn [Z.add Z.ltb]. change (0 + 7 <? 8) with true. cbn iota. destruct n as [| n].
    + change (Z.of_nat 2 =? 2) with true. cbn iota. by rewrite H0 by lia.
    + zdecide_false (Z.of_nat (S (S (S n))) =? 2). rewrite regs_step by lia. change (0 + 7 + 7 <? 8) with false.
      cbn iota. f_equal. f_equal. lia.
  - zdecide_false (i + 7 <? 8). f_equal; [f_equal; lia | lia].
Qed.
End Bits.

(** The colour of column [x] of the line at position [s]. *)
Definition bg_pixel (s : Pos) (x : Z) : Z :=
  let '(k, j) := source (fine_x (vram p0)) x in
  shade (palmem p0) (Z.testbit (row_low p0 (right k s)) j) (Z.testbit (row_high p0 (right k s)) j).

Lemma line_color_pixel p s x : setup p = setup p0 -> rendering p -> pos_ok s -> 4 <= x < 256 ->
  line_color (right 2 s) (prefetched (row_low p0 s) (row_low p0 (right 1 s)))
    (prefetched (row_high p0 s) (row_high p0 (right 1 s))) x = bg_pixel s x.
Proof.
  intros Es Hr Hs Hx. destruct (setup_video p Es) as (_ & _ & Ef & _).
  pose proof (fine_range p Es (re_ok p Hr)) as Hf. pose proof (re_fine p Hr) as Hf6. rewrite Ef in Hf6.
  unfold line_color, group_color, bg_pixel, source. set (g := (x - 1) / 8).
  assert (Hg : 0 <= g /\ x - 8 * g - 2 = (x - 1) mod 8 - 1 /\ 0 <= (x - 1) mod 8 < 8) by (unfold g; clear -Hx; dlia).
  destruct Hg as (Hg & -> & Hm). set (i := fine_x (vram p0) + Z.max 0 ((x - 1) mod 8 - 1)).
  assert (Hi : 0 <= i <= 14) by (unfold i; lia). clearbody i g.
  set (WL := fun k => row_low p0 (right k s)). set (WH := fun k => row_high p0 (right k s)).
  assert (E0 : right 0 s = s) by (apply right_0, Hs).
  assert (HL : forall k, byte (WL k)) by (intros k; by apply (row_bytes p _ Es (re_ok p Hr) (right_ok k s Hs))).
  assert (HH : forall k, byte (WH k)) by (intros k; by apply (row_bytes p _ Es (re_ok p Hr) (right_ok k s Hs))).
  pose proof (regs_source WL HL (Z.to_nat g) i Hi) as E1. pose proof (regs_source WH HH (Z.to_nat g) i Hi) as E2.
  rewrite Z2Nat.id in E1, E2 by done. unfold WL, WH in E1, E2. rewrite E0 in E1, E2.
  assert (Er : forall k, right (Z.of_nat k) (right 2 s) = right (Z.of_nat k + 2) s)
    by (intros k; rewrite right_right; f_equal; lia).
  rewrite (regs_ext (fun k => row_low p0 (right (Z.of_nat k) (right 2 s)))
    (fun k => row_low p0 (right (Z.of_nat k + 2) s))) by (intros k; by rewrite Er).
  rewrite (regs_ext (fun k => row_high p0 (right (Z.of_nat k) (right 2 s)))
    (fun k => row_high p0 (right (Z.of_nat k + 2) s))) by (intros k; by rewrite Er).
  rewrite E1, E2. by destruct (source_bit g i).
Qed.

(** ** One line *)

(** A state with [P] comes, without an interrupt on the way. *)
Definition reaches (p : PPU) (P : PPU -> Prop) : Prop :=
  forall x, exists n p', calls n (p, x) = Ok (p', x) /\ P p'.

Lemma reaches_leads n p P Q : leads n p P -> (forall q, P q -> reaches q Q) -> reaches p Q.
Proof.
  intros H1 H2 x. destruct (H1 x) as (q & E & Hq). destruct (H2 q Hq x) as (m & r & F & Hr).
  exists (n + m)%nat, r. rewrite calls_app, E. done.
Qed.

Lemma reaches_trans p P Q : reaches p P -> (forall q, P q -> reaches q Q) -> reaches p Q.
Proof.
  intros H1 H2 x. destruct (H1 x) as (n & q & E & Hq). destruct (H2 q Hq x) as (m & r & F & Hr).
  exists (n + m)%nat, r. rewrite calls_app, E. done.
Qed.

Lemma reaches_now p (P : PPU -> Prop) : P p -> reaches p P.
Proof. intros H x. by exists 0%nat, p. Qed.

Lemma leads_reaches n p P : leads n p P -> reaches p P.
Proof. intros H x. exists n. apply H. Qed.

(** At the fetches for a line, whose position is [s], on the line [y] above it. *)
Record line_begin (y : Z) (s : Pos) (pic : Z -> Z -> Z) (p : PPU) : Prop := {
  lb_re : rendering p;
  lb_setup : setup p = setup p0;
  lb_dot : at_dot 321 y p;
  lb_pos : pos_of (addr (vram p)) = s;
  lb_shows : shows p pic;
}.

(** The picture with line [y] painted. *)
Definition with_line (y : Z) (s : Pos) (pic : Z -> Z -> Z) : Z -> Z -> Z :=
  fun x' y' => if (y' =? y) && beam_on x' y then bg_pixel s x' else pic x' y'.

(** The first dot of the line after [y]. *)
Lemma line_end y t q : 0 <= y <= 261 -> t mod 341 = 340 -> (t / 341) mod 262 = y -> 0 <= t <= last_tick ->
  pos_at (next_tick t) q ->
  if y =? 261 then at_dot 0 0 q \/ at_dot 1 0 q else at_dot 0 (y + 1) q.
Proof.
  intros Hy Ec Ey Ht Hpos. destruct (tick_parts t Ht) as (Hq & _ & Et & El). rewrite El in Ey.
  unfold next_tick, last_tick, frame_cycles in *.
  destruct (Z.eqb_spec y 261) as [-> | Hne].
  - destruct (Z.eqb_spec t (2 * (262 * 341) - 1)) as [-> | Hnl].
    + right. exists 1. done.
    + left. exists (t + 1). split; [done |].
      assert (t / 341 = 261) as E by (destruct (Z.ltb_spec (t / 341) 262); lia).
      assert (t + 1 = 262 * 341) as -> by lia. split; reflexivity.
  - exists (t + 1). replace (t =? 2 * (262 * 341) - 1) with false in Hpos
      by (symmetry; apply Z.eqb_neq; intros ->; destruct (Z.ltb_spec ((2 * (262 * 341) - 1) / 341) 262);
          vm_compute in Ey; lia).
    split; [done |]. assert (E1 : (t + 1) / 341 = t / 341 + 1) by (clear -Ec; dlia). rewrite E1.
    split; [clear -Ec; dlia |]. subst y. clear -Hq Hy Hne. destruct (Z.ltb_spec (t / 341) 262); dlia.
Qed.

(** From the fetches for a line to those for the next one. *)
Lemma next_line y s pic p : y = 261 \/ 0 <= y < 239 -> ph s = hpos (tmp (vram p0)) -> pos_ok s ->
  line_begin y s pic p ->
  let y' := if y =? 261 then 0 else y + 1 in
  reaches p (line_begin y' (down s) (with_line y' s pic)).
Proof.
  intros Hy Hph Hs [Hr Hsu Hd Hp Hsh]. cbv zeta. set (y' := if y =? 261 then 0 else y + 1).
  assert (Hy' : 0 <= y' < 240) by (unfold y'; zcases).
  eapply reaches_leads; [apply (prefetch y s p pic); try done; lia |].
  intros q (Hq & Hsq & t & Ec & Ey & Ht & Hpos).
  pose proof (line_end y t q ltac:(lia) Ec Ey Ht Hpos) as He.
  set (A := prefetched _ _) in Hq. set (B := prefetched (row_high _ _) _) in Hq.
  assert (H1 : reaches q (fun r => ready 0 (right 2 s) A B r /\ shows r pic /\ at_dot 1 y' r)).
  { assert (H0 : at_dot 0 y' q -> reaches q (fun r => ready 0 (right 2 s) A B r /\ shows r pic /\ at_dot 1 y' r)).
    { intros H0. destruct Hq as (A' & B' & L & H & [Hre Hsq' Hpq El Eh _ _] & EA & EB).
      eapply leads_reaches, leads_mono; [apply (tick_other 0 y' q pic); try done; lia |].
      intros r (R1 & R2 & R3 & R4 & R5 & R6). split_and!; [| done | done].
      exists A', B', (t_low (tile r)), (t_high (tile r)). split; [| done].
      constructor; rewrite ?R3; try done. rewrite R6. change (0 =? 257) with false.
      rewrite andb_false_r. exact Hpq. }
    unfold y' in *. destruct (y =? 261); [destruct He as [He | He] |]; [by apply H0 | by apply reaches_now | by apply H0]. }
  eapply reaches_trans; [exact H1 |]. intros r (Rr & Rs & Rd).
  eapply reaches_leads; [apply (line_visible y' (right 2 s) A B pic r); try done; [lia | apply right_ok, Hs] |].
  intros v (V1 & V2 & V3 & V4 & V5).
  eapply leads_reaches, leads_mono; [apply (hblank y' v _ _ ltac:(lia) V4 V1 V2 V5 V3) |].
  intros w (W1 & W2 & W3 & W4 & W5). constructor; try done.
  - rewrite W5. zdecide_false (y' =? 261). unfold line_start, down, right. cbn [ph pv pt].
    destruct (pv s =? 239); [cbn; by rewrite Hph |]. destruct (pv s =? 255); cbn; by rewrite Hph.
  - eapply shows_ext; [exact W4 |]. intros x1 y1 Hx1 Hy1. unfold line_pic, with_line.
    change (8 * 32) with 256. zdecide_true (x1 <=? 256). rewrite andb_true_r.
    destruct (y1 =? y'); cbn [andb]; [| done]. destruct (beam_on x1 y') eqn:Eb; [| done].
    apply (line_color_pixel w); try done. unfold beam_on in Eb. bool_hyps. lia.
Qed.

(** ** One frame *)

(** The picture with its first [n] lines painted. *)
Definition frame_pic (n : Z) (pic : Z -> Z -> Z) : Z -> Z -> Z :=
  fun x y => if (y <? n) && beam_on x y then bg_pixel (Nat.iter (Z.to_nat y) down top) x else pic x y.

Lemma iter_down_ph n : ph (Nat.iter n down top) = hpos (tmp (vram p0)).
Proof.
  induction n as [| n IH]; [done |]. rewrite Nat.iter_succ. unfold down.
  destruct (pv _ =? 239); [done |]. by destruct (pv _ =? 255).
Qed.

Lemma top_ok : pos_ok top.
Proof.
  pose proof (pos_of_ok (tmp (vram p0))) as (H1 & _ & H3). pose proof (coarse_x_range (tmp (vram p0))).
  unfold pos_ok, top. cbn [ph pv pt]. split; [exact H1 |]. split; [| exact H3]. dlia.
Qed.

Lemma iter_down_ok n : pos_ok (Nat.iter n down top).
Proof. induction n as [| n IH]; [apply top_ok |]. rewrite Nat.iter_succ. by apply down_ok. Qed.

(** Line [n] of the frame, in the picture. *)
Lemma frame_line (n : nat) pic x y : 0 <= y ->
  with_line (Z.of_nat n) (Nat.iter n down top) (frame_pic (Z.of_nat n) pic) x y = frame_pic (Z.of_nat (S n)) pic x y.
Proof.
  intros Hy. unfold with_line, frame_pic. destruct (Z.eqb_spec y (Z.of_nat n)) as [-> | Hne]; cbn [andb].
  - zdecide_true (Z.of_nat n <? Z.of_nat (S n)). zdecide_false (Z.of_nat n <? Z.of_nat n). cbn [andb].
    by rewrite Nat2Z.id.
  - by replace (y <? Z.of_nat (S n)) with (y <? Z.of_nat n) by (symmetry; zcases).
Qed.

Lemma frame_lines n pic p : (n <= 239)%nat -> line_begin 261 top pic p ->
  reaches p (line_begin (Z.of_nat n) (Nat.iter (S n) down top) (frame_pic (Z.of_nat (S n)) pic)).
Proof.
  intros Hn Hp.
  assert (Hext : forall m q, line_begin (Z.of_nat m) (Nat.iter (S m) down top)
      (with_line (Z.of_nat m) (Nat.iter m down top) (frame_pic (Z.of_nat m) pic)) q ->
    line_begin (Z.of_nat m) (Nat.iter (S m) down top) (frame_pic (Z.of_nat (S m)) pic) q).
  { intros m q [H1 H2 H3 H4 H5]. constructor; try done. eapply shows_ext; [exact H5 |].
    intros x y _ Hy. apply frame_line. lia. }
  induction n as [| n IH].
  - eapply reaches_trans; [apply (next_line 261 top pic p); try done; [by left | apply top_ok] |].
    intros q [H1 H2 H3 H4 H5]. apply reaches_now, Hext. constructor; try done.
    eapply shows_ext; [exact H5 |]. intros x y Hx Hy. unfold with_line, frame_pic. by zdecide_false (y <? Z.of_nat 0).
  - eapply reaches_trans; [apply IH; lia |]. intros q Hq.
    eapply reaches_trans; [apply (next_line (Z.of_nat n) _ _ q ltac:(right; lia) (iter_down_ph _) (iter_down_ok _) Hq) |].
    zdecide_false (Z.of_nat n =? 261). replace (Z.of_nat n + 1) with (Z.of_nat (S n)) by lia.
    intros r Hr. apply reaches_now, Hext. by rewrite Nat.iter_succ.
Qed.

(** In the vertical blank nothing is drawn. *)
Lemma tick_blank c y p pic : 241 <= y <= 261 -> 0 <= c < 341 -> (y = 241 -> 1 < c) -> (y = 261 -> c < 257) ->
  rendering p -> setup p = setup p0 -> shows p pic -> at_dot c y p ->
  leads 1 p (fun q => rendering q /\ setup q = setup p0 /\ shows q pic /\
    if c =? 340 then at_dot 0 (y + 1) q else at_dot (c + 1) y q).
Proof.
  intros Hy Hc H241 H261 Hr Hs Hsh Hd. destruct (Z.eqb_spec y 261) as [-> | Hne].
  - zdecide_false (c =? 340). destruct (Z.eqb_spec c 0) as [-> | Hc0].
    + eapply leads_mono; [apply (tick_other 0 261 p pic); try done; lia |].
      intros q (R1 & R2 & _ & R4 & R5 & _). done.
    + eapply leads_mono; [apply (tick_fetching c 261 p pic); try done; [left; lia | by right] |].
      intros q (R1 & R2 & R3 & R4 & _). split_and!; [done | | | apply R4; lia].
      * by rewrite (cy_setup _ _ _ R2).
      * eapply shows_ext; [exact R3 |]. intros x1 y1 _ _. apply paint_off. unfold beam_on.
        by rewrite andb_false_r.
  - intros x. destruct Hd as (t & Hpos & Ec & Ey). pose proof (pa_range _ _ Hpos) as Ht.
    destruct (run_works t p x (re_ok p Hr) Hpos) as (p' & E & Hp' & Hpos' & q & Hw & Ha).
    rewrite nmi_tick_dot in E by done. rewrite Ey, Ec in E.
    replace ((y =? 241) && (c =? 1)) with false in E by (symmetry; zcases). cbn [andb] in E.
    exists p'. cbn [calls]. rewrite E. cbn [rbind]. split; [done |].
    assert (q = p) as -> by (unfold works in Hw; rewrite Ec, Ey in Hw; destruct Hw as [[? _] | [[_ ->] | [? _]]]; lia || done).
    pose proof Ha as (A1 & _). split_and!; [by eapply alike_rendering | by rewrite A1 | by eapply alike_shows |].
    destruct (Z.eqb_spec c 340) as [-> | Hc2].
    + pose proof (line_end y t p' ltac:(lia) Ec Ey Ht Hpos') as He. rewrite (proj2 (Z.eqb_neq y 261) Hne) in He. exact He.
    + eapply at_dot_next; try done; lia.
Qed.

Lemma blank_end m c y p pic : m = Z.to_nat ((261 - y) * 341 + 257 - c) ->
  241 <= y <= 261 -> 0 <= c < 341 -> (y = 241 -> 1 < c) -> (y = 261 -> c <= 257) ->
  rendering p -> setup p = setup p0 -> shows p pic -> at_dot c y p ->
  leads m p (fun q => rendering q /\ setup q = setup p0 /\ shows q pic /\ at_dot 257 261 q).
Proof.
  revert c y p. induction m as [| m IH]; intros c y p Em Hy Hc H241 H261 Hr Hs Hsh Hd.
  - assert (y = 261 /\ c = 257) as [-> ->] by lia. by apply leads_0.
  - change (S m) with (1 + m)%nat. eapply leads_app; [apply (tick_blank c y p pic); try done; lia |].
    intros q (H1 & H2 & H3 & H4). destruct (Z.eqb_spec c 340) as [-> | Hne].
    + apply (IH 0 (y + 1)); try done; lia.
    + apply (IH (c + 1) y); try done; lia.
Qed.

(** From the vertical blank to the end of the picture. *)
Lemma frame_picture c y p pic :
  241 <= y <= 261 -> 0 <= c < 341 -> (y = 241 -> 1 < c) -> (y = 261 -> c <= 257) ->
  rendering p -> setup p = setup p0 -> shows p pic -> at_dot c y p ->
  reaches p (fun q => rendering q /\ setup q = setup p0 /\ at_dot 0 240 q /\ shows q (frame_pic 240 pic)).
Proof.
  intros Hy Hc H241 H261 Hr Hs Hsh Hd. eapply reaches_leads; [by apply (blank_end _ c y p pic eq_refl) |].
  intros q (H1 & H2 & H3 & H4).
  eapply reaches_leads; [apply (hblank 261 q (pos_of (addr (vram q))) pic); (done || by right) |]. change (261 =? 261) with true. cbn iota.
  intros r (R1 & R2 & R3 & R4 & R5).
  eapply reaches_trans; [apply (frame_lines 239 pic r); [lia | by constructor] |].
  change (Z.of_nat 239) with 239. intros u [U1 U2 U3 U4 U5].
  eapply leads_reaches, leads_mono; [apply (prefetch 239 _ u _ ltac:(lia) (iter_down_ok 240) U1 U2 U3 U5 U4) |].
  intros v ((A & B & L & H & [V1 V2 _ _ _ _ _] & _) & V3 & t & Ec & Ey & Ht & Hpos).
  pose proof (line_end 239 t v ltac:(lia) Ec Ey Ht Hpos) as He. done.
Qed.
End Frame.

(** Where a frame can be followed from: the vertical blank after its interrupt,
    and the line before the picture up to the copy of the column. *)
Definition blanking (c y : Z) : Prop :=
  0 <= c < 341 /\ 241 <= y <= 261 /\ (y = 241 -> 1 < c) /\ (y = 261 -> c <= 257).

(** The picture after a frame: columns 0 to 3 keep what they showed. *)
Definition background vb cart (p : PPU) (pic : Z -> Z -> Z) : Z -> Z -> Z :=
  fun x y => if x <? 4 then pic x y else bg_pixel vb cart p (Nat.iter (Z.to_nat y) down (top p)) x.

Lemma background_rest vb cart p c y pic :
  vbus_ok vb -> chr_ok cart -> rendering p -> shows p pic -> at_dot c y p -> blanking c y ->
  forall shl {X} (fire : X -> X) x, exists n q, calls vb cart shl fire n (p, x) = Ok (q, x) /\
    rendering q /\ setup q = setup p /\ at_dot 0 240 q /\ shows q (background vb cart p pic).
Proof.
  intros Hb Hc Hr Hs Hd (Hc341 & Hy & H241 & H261) shl X fire x.
  destruct (frame_picture vb cart shl Hb Hc fire p c y p pic Hy Hc341 H241 H261 Hr eq_refl Hs Hd x)
    as (n & q & E & Hq & Es & Hdq & Hsq).
  exists n, q. split_and!; try done. eapply shows_ext; [exact Hsq |].
  intros x' y' Hx' Hy'. unfold background, frame_pic, beam_on. zdecide_true (y' <? 240). cbn [andb]. rewrite andb_true_r.
  zdecide_true (x' <? 256). rewrite andb_true_r. by destruct (Z.leb_spec 4 x'), (Z.ltb_spec x' 4); try lia.
Qed.

(** The picture depends on what the frame leaves as it is. *)
Lemma background_setup vb cart p q pic : setup q = setup p ->
  forall x y, background vb cart q pic x y = background vb cart p pic x y.
Proof.
  intros E x y. pose proof E as E'. injection E' as _ Ep _ _ Ef Et. unfold background, bg_pixel, top.
  rewrite Ef, Et, Ep. destruct (x <? 4); [done |]. destruct (source _ _) as [k j].
  by destruct (rows_setup vb cart p q (right k (Nat.iter (Z.to_nat y) down
    (mkPos (hpos (tmp (vram p))) (8 * coarse_x (tmp (vram p)) + coarse_x (tmp (vram p)) mod 8) (vtable (tmp (vram p)))))) E) as [-> ->].
Qed.

(** The columns of a line, from the fourth group on: two neighbours in each group
    show the same bit, and the last bit of a tile is not shown. *)
Lemma source_columns fine : 0 <= fine < 7 ->
  (forall g, 1 <= g <= 31 -> source fine (8 * g + 2) = source fine (8 * g + 1)) /\
  (forall x, 25 <= x < 256 -> 0 <= snd (source fine x) <= 6).
Proof.
  intros Hf. split.
  - intros g Hg. unfold source. f_equal; [dlia |]. f_equal. dlia.
  - set (f := fun x => (x <? 25) || forallb (fun fine => (0 <=? snd (source fine x)) && (snd (source fine x) <=? 6))
      [0; 1; 2; 3; 4; 5; 6]).
    assert (H : forallb f (Z.of_nat <$> seq 0 (Z.to_nat 256)) = true) by (vm_compute; reflexivity).
    intros x Hx. pose proof (range_forall 256 f H x ltac:(lia)) as E. unfold f in E.
    apply orb_true_iff in E as [E%Z.ltb_lt | E]; [lia |]. rewrite forallb_forall in E.
    specialize (E fine). assert (Hin : In fine [0; 1; 2; 3; 4; 5; 6]) by (simpl; lia).
    apply E, andb_true_iff in Hin as [?%Z.leb_le ?%Z.leb_le]. lia.
Qed.
