(* ===== verification/Debugger.v ===== *)
(** * The debugger ([emu/core/debugger.hpp], [emu/core/debugger.cpp])

    Breakpoints, stepping, the backtrace and tracing.  The debugger is a member
    of the emulator and a friend of it: what it reaches through [emu] is the
    class [DebugTarget], over the world behind the CPU's bus, together with the
    bus itself ([Memory]).  The registers of the CPU are given to each operation;
    none of them changes a register.  The callback that [register_callback]
    stores is the section variable [callback]; it may run any operation of the
    debugger before it returns. *)

From Stdlib Require Import Ascii.
From stdpp Require Import strings.
From S2P Require Import Prelude StringOps Fmt InstrInfo Disasm Cpu File.
From S2P Require Ppu.
Open Scope Z_scope.

(** ** State *)

Inductive EventType := FETCH | BREAK.

Record Event := mkEvent { ev_type : EventType; ev_cpu_st : Status; ev_index : Z }.

(** [struct Breakpoint] *)
Record Breakpoint := mkBreakpoint { b_start : Z; b_end : Z; b_mode : ascii }.

Record Debugger := mkDebugger {
  breakvec : list Breakpoint;
  nextstop : option Z;
  btrace : list Status;
  tracefile : File;
  quit : bool;
}.

(** The member initialisers. *)
Definition init_debugger : Debugger := mkDebugger [] (Some 0) [] default_file false.

(** Assignments to one member. *)
Definition with_breakvec v d := mkDebugger v (nextstop d) (btrace d) (tracefile d) (quit d).
Definition with_nextstop v d := mkDebugger (breakvec d) v (btrace d) (tracefile d) (quit d).
Definition with_btrace v d := mkDebugger (breakvec d) (nextstop d) v (tracefile d) (quit d).
Definition with_tracefile v d := mkDebugger (breakvec d) (nextstop d) (btrace d) v (quit d).
Definition with_quit v d := mkDebugger (breakvec d) (nextstop d) (btrace d) (tracefile d) v.

(** The character that stands for an access. *)
Definition mode_char (m : AccessMode) : ascii :=
  match m with AccX => "x" | AccR => "r" | AccW => "w" end.

(** The condition of [std::find_if]. *)
Definition hits (addr : Z) (mode : AccessMode) (p : Breakpoint) : bool :=
  bool_decide (b_mode p = mode_char mode) && (b_start p <=? addr) && (addr <=? b_end p).

(** ** The emulator, as the debugger sees it *)

Class DebugTarget (W : Type) := {
  dbg : W -> Debugger;
  set_dbg : Debugger -> W -> W;
  emit : Output -> W -> W;                       (** something is printed *)
  ppu_status : W -> Res Ppu.PStatus;             (** [emu->ppu.status()] *)
  readreg_no_sideeff : Z -> W -> Res Z;          (** [emu->ppu.readreg_no_sideeff] *)
}.

Section Debugger.
Context `{F : Fmt} {W : Type} `{MemW : Memory W} `{T : DebugTarget W}.
Variable callback : option (Event -> CPU -> W -> Res W).

Definition upd_dbg (f : Debugger -> Debugger) (w : W) : W := set_dbg (f (dbg w)) w.

(** Several prints in a row. *)
Definition emits (l : list Output) (w : W) : W := fold_left (fun w o => emit o w) l w.

(** The inline operations of the header. *)
Definition continue_exec : W -> W := upd_dbg (with_nextstop None).
Definition set_nextstop (addr : Z) : W -> W := upd_dbg (with_nextstop (Some addr)).
Definition set_quit (q : bool) : W -> W := upd_dbg (with_quit q).
Definition setbreak (p : Breakpoint) (w : W) : Z * W :=
  let w := upd_dbg (fun d => with_breakvec (breakvec d ++ [p]) d) w in
  (u32 (Z.of_nat (length (breakvec (dbg w))) - 1), w).
Definition delbreak (index : Z) (w : W) : Res W :=
  if index <? Z.of_nat (length (breakvec (dbg w)))
  then Ok (upd_dbg (fun d => with_breakvec (delete (Z.to_nat index) (breakvec d)) d) w)
  else Err OutOfBounds.
Definition stop_tracing : W -> W := upd_dbg (fun d => with_tracefile (close (tracefile d)) d).

(** [Debugger::start_tracing]; what the argument receives is closed with it. *)
Definition start_tracing (f : File) (w : W) : W :=
  upd_dbg (fun d => with_tracefile (fst (move_assign (tracefile d) f)) d) (stop_tracing w).

(** [Debugger::step], [Debugger::next] *)
Definition step (c : CPU) (w : W) : Res W :=
  let? '(a, (_, w)) := Cpu.nextaddr (c, w) in Ok (set_nextstop a w).

Definition next (c : CPU) (w : W) : Res W :=
  let pc := pc (r c) in
  let? '(id, w) := mread pc w in
  if is_jump id then Ok (set_nextstop (u16 (pc + num_bytes id)) w) else step c w.

(** [Debugger::cpu_status] *)
Definition cpu_status (c : CPU) (w : W) : Res (Status * W) :=
  let? '(st, (_, w)) := Cpu.status (c, w) in Ok (st, w).

(** [Debugger::read], [Debugger::write] *)
Definition read (addr : Z) (w : W) : Res (Z * W) :=
  if (0x2000 <=? addr) && (addr <=? 0x2007)
  then let? v := readreg_no_sideeff addr w in Ok (v, w)
  else mread addr w.

Definition write (addr value : Z) (w : W) : Res W := mwrite addr value w.

(** [Debugger::update_backtrace]: [back] of an empty vector is undefined. *)
Definition update_backtrace (st : Status) (w : W) : Res W :=
  match st_id st with
  | 0x20 | 0x4C | 0x6C => Ok (upd_dbg (fun d => with_btrace (btrace d ++ [st]) d) w)
  | 0x60 =>
      match last (btrace (dbg w)) with
      | None => Err OutOfBounds
      | Some b => Ok (if st_id b =? 0x20
                      then upd_dbg (fun d => with_btrace (removelast (btrace d)) d) w else w)
      end
  | _ => Ok w
  end.

(** The line that [Debugger::trace] prints. *)
Definition trace_line (st : Status) (pst : Ppu.PStatus) : string :=
  let g := st_regs st in
  "PC: $" +:+ fmt_hex 2 (pc g) +:+ " A: $" +:+ fmt_hex 2 (acc g) +:+ " X: $" +:+ fmt_hex 2 (rx g)
  +:+ " Y: $" +:+ fmt_hex 2 (ry g) +:+ " SP: $" +:+ fmt_hex 2 (sp g) +:+ " " +:+ format_flags (flags g)
  +:+ " V: " +:+ fmt_hex 4 (Ppu.addr (Ppu.s_vram pst)) +:+ " "
  +:+ format_instr (st_id st) (low (st_op st)) (high (st_op st)) (pc g) (flags g) +:+ newline.

(** [Debugger::trace] *)
Definition trace (st : Status) (pst : Ppu.PStatus) (w : W) : Res W :=
  if negb (is_open (tracefile (dbg w))) then Ok w
  else let? o := File.print (tracefile (dbg w)) (trace_line st pst) in Ok (emit o w).

(** [Debugger::fetch_callback] *)
Definition fetch_callback (c : CPU) (st : Status) (addr : Z) (mode : AccessMode) (w : W) : Res W :=
  if quit (dbg w) then Ok w
  else
    match callback with
    | None => Ok (emits (warning ("No callback set in the debugger" +:+ newline)) w)
    | Some callback =>
        let? w :=
          match mode with
          | AccX => let? w := update_backtrace st w in
                    let? pst := ppu_status w in
                    trace st pst w
          | _ => Ok w
          end in
        let? w :=
          match list_find (fun p => hits addr mode p = true) (breakvec (dbg w)) with
          | Some (i, _) => callback (mkEvent BREAK st (Z.of_nat i)) c w
          | None => Ok w
          end in
        match nextstop (dbg w) with
        | None => Ok w
        | Some stop =>
            if bool_decide (mode = AccR) && (0xFFFA <=? addr) && (Z.land addr 1 =? 0) then
              let? '(hi, w) := mread (u16 (addr + 1)) w in
              let? '(lo, w) := mread addr w in
              Ok (set_nextstop (u16 (Z.lor (Z.shiftl hi 8) lo)) w)
            else if bool_decide (mode = AccX) && (addr =? stop) then
              callback (mkEvent FETCH st 0) c (upd_dbg (with_nextstop None) w)
            else Ok w
        end
    end.
End Debugger.
