(* ===== verification/DebugInv.v ===== *)
(** * The debugger leaves the machine alone

    [TargetLaws] is what a world promises to its debugger: two worlds that differ
    only in the debugger, the console and what was printed are the [same] machine;
    reads and writes of the bus respect that, and some addresses ([steady]) can be
    read without an effect.  Against that interface: the fetch callback of the
    debugger keeps the machine as long as the instruction and the vectors it looks
    at are steady and the callback that it runs does; hence a run of the CPU with
    the debugger does what a run without it does. *)

From Stdlib Require Import Ascii.
From stdpp Require Import strings.
From S2P Require Import Prelude StringOps Fmt InstrInfo Disasm Cpu CpuFacts CpuSim File Debugger.
From S2P Require Ppu.
Open Scope Z_scope.

Class TargetLaws (W : Type) {MemW : Memory W} {T : DebugTarget W} := {
  same : W -> W -> Prop;
  same_equiv :: Equivalence same;
  steady : Z -> W -> bool;
  dbg_set : forall d w, dbg (set_dbg d w) = d;
  dbg_emit : forall o w, dbg (emit o w) = dbg w;
  same_set_dbg : forall d w, same (set_dbg d w) w;
  same_emit : forall o w, same (emit o w) w;
  dbg_mread : forall a w v w', mread a w = Ok (v, w') -> dbg w' = dbg w;
  dbg_mwrite : forall a v w w', mwrite a v w = Ok w' -> dbg w' = dbg w;
  same_mread : forall a w1 w2 v w1', same w1 w2 -> mread a w1 = Ok (v, w1') ->
    exists w2', mread a w2 = Ok (v, w2') /\ same w1' w2';
  same_mwrite : forall a v w1 w2 w1', same w1 w2 -> mwrite a v w1 = Ok w1' ->
    exists w2', mwrite a v w2 = Ok w2' /\ same w1' w2';
  steady_same : forall a w1 w2, same w1 w2 -> steady a w1 = steady a w2;
  steady_mread : forall a b w v w', mread a w = Ok (v, w') -> steady b w' = steady b w;
  steady_read : forall a w v w', steady a w = true -> mread a w = Ok (v, w') -> same w' w;
}.

(** The addresses that the debugger reads when the CPU notifies it: those of the
    instruction, and both bytes of an interrupt vector. *)
Definition settled {W} `{TargetLaws W} (c : CPU) (addr : Z) (mode : AccessMode) (w : W) : bool :=
  let p := pc (r c) in
  steady p w && steady (u16 (p + 1)) w && steady (u16 (p + 2)) w
  && (if bool_decide (mode = AccR) && (0xFFFA <=? addr) && (Z.land addr 1 =? 0)
      then steady addr w && steady (u16 (addr + 1)) w else true).

(** A fetch callback that stops the run where the debugger's reads could have an
    effect. *)
Definition guard {W} `{TargetLaws W} (f : CPU -> Status -> Z -> AccessMode -> W -> Res W)
    (c : CPU) (st : Status) (addr : Z) (mode : AccessMode) (w : W) : Res W :=
  if settled c addr mode w then f c st addr mode w else Err AssertFailure.

Section Transparent.
Context `{F : Fmt} {W : Type} `{L : TargetLaws W}.
Implicit Types (c : CPU) (w : W).

#[export] Instance set_dbg_same d : Proper (same ==> same) (set_dbg (W := W) d).
Proof. intros w1 w2 E. by rewrite !same_set_dbg. Qed.
#[export] Instance emit_same o : Proper (same ==> same) (emit (W := W) o).
Proof. intros w1 w2 E. by rewrite !same_emit. Qed.

Lemma same_upd f w : same (upd_dbg f w) w.
Proof. apply same_set_dbg. Qed.

Lemma dbg_upd f w : dbg (upd_dbg f w) = f (dbg w).
Proof. apply dbg_set. Qed.

(** *** The parts of the callback *)

Lemma update_backtrace_same st w w' : update_backtrace st w = Ok w' -> same w' w.
Proof.
  unfold update_backtrace. repeat case_match; intros; simplify_eq; try done; apply same_upd.
Qed.

Lemma trace_same st pst w w' : trace st pst w = Ok w' -> same w' w.
Proof.
  unfold trace. case_match; [by intros [= <-] |]. intros (o & _ & [= <-])%rbind_Ok. apply same_emit.
Qed.

(** A callback that changes only the debugger, the console and the output. *)
Definition passive (k : Event -> CPU -> W -> Res W) : Prop :=
  forall ev c w w', k ev c w = Ok w' -> same w' w.

Lemma steady_pair a b w v w1 u w2 : steady a w = true -> steady b w = true ->
  mread a w = Ok (v, w1) -> mread b w1 = Ok (u, w2) -> same w2 w.
Proof.
  intros Ha Hb H1 H2. pose proof (steady_mread a b w v w1 H1) as Hs. rewrite Hb in Hs.
  etransitivity.
  - eapply (steady_read b); [exact Hs | exact H2].
  - eapply (steady_read a); [exact Ha | exact H1].
Qed.

Lemma stop_same c st addr mode k w w' : passive k ->
  (bool_decide (mode = AccR) && (0xFFFA <=? addr) && (Z.land addr 1 =? 0) = true ->
     steady addr w = true /\ steady (u16 (addr + 1)) w = true) ->
  match nextstop (dbg w) with
  | None => Ok w
  | Some stop =>
      if bool_decide (mode = AccR) && (0xFFFA <=? addr) && (Z.land addr 1 =? 0) then
        let? '(hi, w) := mread (u16 (addr + 1)) w in
        let? '(lo, w) := mread addr w in
        Ok (set_nextstop (u16 (Z.lor (Z.shiftl hi 8) lo)) w)
      else if bool_decide (mode = AccX) && (addr =? stop) then
        k (mkEvent FETCH st 0) c (upd_dbg (with_nextstop None) w)
      else Ok w
  end = Ok w' -> same w' w.
Proof.
  intros Hk Hs. destruct (nextstop (dbg w)) as [stop |]; [| by intros [= <-]].
  destruct (_ && (Z.land addr 1 =? 0)).
  - destruct (Hs eq_refl) as [S1 S2].
    intros ([hi w1] & E1 & ([lo w2] & E2 & [= <-])%rbind_Ok)%rbind_Ok.
    unfold set_nextstop. rewrite same_upd.
    exact (steady_pair _ _ _ _ _ _ _ S2 S1 E1 E2).
  - case_match; [| by intros [= <-]]. intros E%Hk. by rewrite E, same_upd.
Qed.

Lemma fetch_callback_same k c st addr mode w w' : passive k -> settled c addr mode w = true ->
  fetch_callback (Some k) c st addr mode w = Ok w' -> same w' w.
Proof.
  intros Hk Hset. unfold fetch_callback. destruct (quit (dbg w)); [by intros [= <-] |].
  intros (w1 & E1 & (w2 & E2 & E3)%rbind_Ok)%rbind_Ok.
  assert (S1 : same w1 w).
  { destruct mode; try by injection E1 as <-.
    apply rbind_Ok in E1 as (w3 & E3'%update_backtrace_same & (pst & _ & ->%trace_same)%rbind_Ok). done. }
  assert (S2 : same w2 w1).
  { destruct (list_find _ _) as [[i b] |]; [by eapply Hk | by injection E2 as <-]. }
  etransitivity; [| by etransitivity].
  eapply (stop_same c st addr mode k); [done | | exact E3].
  intros Hm. unfold settled in Hset. rewrite Hm in Hset.
  apply andb_true_iff in Hset as [_ Hset]. apply andb_true_iff in Hset as [Ha Hb].
  by rewrite !(steady_same _ w2 w) by (by etransitivity).
Qed.

(** [CPU::status] reads three bytes. *)
Lemma status_reads c w st c' w' : status (c, w) = Ok (st, (c', w')) ->
  c' = c /\ dbg w' = dbg w /\ (forall b, steady b w' = steady b w) /\
  (steady (pc (r c)) w = true -> steady (u16 (pc (r c) + 1)) w = true ->
   steady (u16 (pc (r c) + 2)) w = true -> same w' w).
Proof.
  unfold status. intros (p & s1 & [-> ->]%cpu_of_inv & H)%bindM_Ok.
  apply bindM_Ok in H as (rg & s2 & [-> ->]%cpu_of_inv & H).
  apply bindM_Ok in H as (id & s3 & (w1 & -> & H1)%bus_read_inv & H).
  apply bindM_Ok in H as (lo & s4 & (w2 & -> & H2)%bus_read_inv & H).
  apply bindM_Ok in H as (hi & s5 & (w3 & -> & H3)%bus_read_inv & [_ [= -> ->]]%retM_Ok).
  split; [done |]. split.
  { by rewrite (dbg_mread _ _ _ _ H3), (dbg_mread _ _ _ _ H2), (dbg_mread _ _ _ _ H1). }
  split.
  { intros b. by rewrite (steady_mread _ b _ _ _ H3), (steady_mread _ b _ _ _ H2), (steady_mread _ b _ _ _ H1). }
  intros S1 S2 S3.
  etransitivity; [eapply (steady_read _ w2); [| exact H3] |].
  { by rewrite (steady_mread _ _ _ _ _ H2), (steady_mread _ _ _ _ _ H1). }
  exact (steady_pair _ _ _ _ _ _ _ S1 S2 H1 H2).
Qed.

(** *** One notification, and the run *)

Lemma notify_same k a m : passive k ->
  sim same (notify (Some (guard (fetch_callback (Some k)))) a m) (notify None a m).
Proof.
  intros Hk c w1 w2 u c' w1' HR H. unfold notify in H.
  apply bindM_Ok in H as (st & [c1 w3] & Hst & (w4 & H & [= <- <- <-])%rbind_Ok).
  apply status_reads in Hst as (-> & _ & Hsb & Hs). unfold guard in H.
  destruct (settled c a m w3) eqn:Hset; [| done].
  exists w2. split; [done |]. etransitivity; [| exact HR].
  etransitivity; [by eapply fetch_callback_same |]. apply Hs; rewrite <- Hsb;
    unfold settled in Hset; bool_hyps; done.
Qed.

Lemma notify_guard f a m : sim eq (notify (Some (guard f)) a m) (notify (Some f) a m).
Proof.
  intros c w ? u c' w' <- H. exists w'. split; [| done]. unfold notify in *.
  apply bindM_Ok in H as (st & [c1 w3] & Hst & H). rewrite (bindM_run _ _ _ _ _ Hst).
  apply rbind_Ok in H as (w4 & H & [= <- <- <-]). unfold guard in H. case_match; [| done]. by rewrite H.
Qed.

(** A run with the debugger, steady wherever the debugger reads, is a run of the
    CPU alone, but for the debugger, the console and the output. *)
Lemma run_transparent k : passive k ->
  sim same (Cpu.run (Some (guard (fetch_callback (Some k))))) (Cpu.run None).
Proof.
  intros Hk. apply sim_run.
  - intros a w1 w2 v w1'. apply same_mread.
  - intros a d w1 w2 w1'. apply same_mwrite.
  - intros a m. by apply notify_same.
Qed.

Lemma run_guard f : sim eq (Cpu.run (Some (guard f))) (Cpu.run (Some f)).
Proof.
  apply sim_run.
  - intros a w1 ? v w1' <- H. eauto.
  - intros a d w1 ? w1' <- H. eauto.
  - intros a m. apply notify_guard.
Qed.

(** The same machine runs alike. *)
Lemma run_same : sim same (Cpu.run None) (Cpu.run None).
Proof.
  apply sim_run.
  - intros a w1 w2 v w1'. apply same_mread.
  - intros a d w1 w2 w1'. apply same_mwrite.
  - intros a m. apply sim_ret.
Qed.

(** Without the callback the CPU leaves the debugger alone. *)
Lemma run_dbg c w c' w' : Cpu.run None (c, w) = Ok (tt, (c', w')) -> dbg w' = dbg w.
Proof.
  intros H.
  assert (S : sim (fun w1 w2 => w1 = w2 /\ dbg w1 = dbg w) (Cpu.run None) (Cpu.run None)).
  { apply sim_run.
    - intros a w1 ? v w1' [<- E] H1. exists w1'. by rewrite (dbg_mread _ _ _ _ H1).
    - intros a d w1 ? w1' [<- E] H1. exists w1'. by rewrite (dbg_mwrite _ _ _ _ H1).
    - intros a m. apply sim_ret. }
  by destruct (S c w w tt c' w' (conj eq_refl eq_refl) H) as (w2 & _ & -> & ?).
Qed.

(** *** Stopping *)

(** What comes before the search for a breakpoint leaves the breakpoints and the
    stop alone. *)
Lemma prologue_dbg st pst w w1 w2 : update_backtrace st w = Ok w1 -> trace st pst w1 = Ok w2 ->
  breakvec (dbg w2) = breakvec (dbg w) /\ nextstop (dbg w2) = nextstop (dbg w).
Proof.
  intros Eb Et.
  assert (D1 : dbg w2 = dbg w1).
  { unfold trace in Et. destruct (negb (is_open _)); [by injection Et as <- |].
    apply rbind_Ok in Et as (o & _ & [= <-]). apply dbg_emit. }
  rewrite D1. unfold update_backtrace in Eb. repeat case_match; simplify_eq; try done; by rewrite dbg_upd.
Qed.

(** A fetch at the stop address runs the callback, with the stop cleared. *)
Lemma fetch_stops k c st addr w w' : quit (dbg w) = false ->
  nextstop (dbg w) = Some addr -> breakvec (dbg w) = [] ->
  fetch_callback (Some k) c st addr AccX w = Ok w' ->
  exists w1, same w1 w /\ nextstop (dbg w1) = None /\ k (mkEvent FETCH st 0) c w1 = Ok w'.
Proof.
  intros Hq Hn Hb. unfold fetch_callback. rewrite Hq.
  intros (w1 & E1 & (w2 & E2 & E3)%rbind_Ok)%rbind_Ok.
  apply rbind_Ok in E1 as (w3 & Eb & (pst & _ & Et)%rbind_Ok).
  destruct (prologue_dbg _ _ _ _ _ Eb Et) as [D2 D3]. rewrite D2, Hb in E2. injection E2 as <-.
  rewrite D3, Hn in E3. rewrite (bool_decide_eq_false_2 (AccX = AccR)), bool_decide_eq_true_2, Z.eqb_refl in E3 by done.
  simpl in E3. exists (upd_dbg (with_nextstop None) w1). split.
  - rewrite same_upd. etransitivity; [by eapply trace_same | by eapply update_backtrace_same].
  - split; [by rewrite dbg_upd | done].
Qed.

(** A fetch at any other address runs no callback: which one it is does not
    matter. *)
Lemma fetch_passes k k' c st stop addr w : nextstop (dbg w) = Some stop -> addr <> stop -> breakvec (dbg w) = [] ->
  fetch_callback (Some k) c st addr AccX w = fetch_callback (Some k') c st addr AccX w.
Proof.
  intros Hn Ha Hb. unfold fetch_callback. destruct (quit (dbg w)); [done |].
  destruct (update_backtrace st w) as [w1 |] eqn:E1; [| done]. cbn [rbind].
  destruct (ppu_status w1) as [pst |]; [| done]. cbn [rbind].
  destruct (trace st pst w1) as [w2 |] eqn:E2; [| done]. cbn [rbind].
  destruct (prologue_dbg _ _ _ _ _ E1 E2) as [-> D]. rewrite Hb. cbn [list_find rbind]. rewrite D, Hn.
  rewrite (bool_decide_eq_false_2 (AccX = AccR)) by done. cbn [andb].
  by rewrite (proj2 (Z.eqb_neq addr stop) Ha), andb_false_r.
Qed.

(** A breakpoint on the access runs the callback first, with its index. *)
Lemma fetch_breaks k c st addr mode w w' i b : quit (dbg w) = false -> mode <> AccX ->
  list_find (fun p => hits addr mode p = true) (breakvec (dbg w)) = Some (i, b) ->
  fetch_callback (Some k) c st addr mode w = Ok w' ->
  exists w1, k (mkEvent BREAK st (Z.of_nat i)) c w = Ok w1.
Proof.
  intros Hq Hm Hf. unfold fetch_callback. rewrite Hq.
  replace (match mode with AccX => _ | _ => Ok w end) with (Ok w) by (by destruct mode).
  cbn [rbind]. rewrite Hf. intros (w1 & E & _)%rbind_Ok. by exists w1.
Qed.
End Transparent.
