(* ===== verification/DebugStep.v ===== *)
(** * Stepping

    Where the debugger stops: after [step], at the instruction that the CPU
    executes next; when an interrupt is served, at its handler, because the fetch
    callback moves the stop to the vector that is being read. *)

From Stdlib Require Import Ascii.
From stdpp Require Import strings.
From S2P Require Import Prelude StringOps Fmt InstrInfo Disasm Cpu CpuFacts CpuSim CpuInv CpuStack CpuNext.
From S2P Require Import File Debugger DebugInv.
From S2P Require Ppu.
Open Scope Z_scope.

(** The debugger is not in the memory. *)
Class DebugRam (W : Type) {MemW : Memory W} {MemOk : MemoryOk W} {Ram : RamLaws W} {T : DebugTarget W} := {
  winv_set_dbg : forall d w, winv w -> winv (set_dbg d w);
  peek_set_dbg : forall d w a, peek (set_dbg d w) a = peek w a;
}.

Section Step.
Context `{F : Fmt} {W : Type} {MemW : Memory W} {MemOk : MemoryOk W} {Ram : RamLaws W}.
Context {T : DebugTarget W} {L : TargetLaws W} `{DR : !DebugRam W}.
Implicit Types (c : CPU) (w : W).

(** ** [step] *)

(** The stop is where the instruction leads, and setting it does not change what
    the instruction does. *)
Lemma step_run c w c' w' :
  cpu_ok c -> winv w -> in_memory c -> execnmi c = false -> execirq c = false ->
  opcode c w <> 0x00 -> opcode c w <> 0x40 -> (opcode c w = 0x60 -> sp (r c) <= 0xFD) ->
  (opcode c w = 0x6C -> quiet (operand c w) /\ quiet (ind_high_addr (operand c w))) ->
  Cpu.run None (c, w) = Ok (tt, (c', w')) ->
  exists w1 w1', step c w = Ok w1 /\ same w1 w /\
    Cpu.run None (c, w1) = Ok (tt, (c', w1')) /\ same w1' w' /\
    dbg w1' = with_nextstop (Some (pc (r c'))) (dbg w).
Proof.
  intros Hc Hw Hm H1 H2 H3 H4 H5 H6 H.
  pose proof (nextaddr_correct c w c' w' Hc Hw Hm H1 H2 H3 H4 H5 H6 H) as Hn.
  exists (set_nextstop (pc (r c')) w). unfold step. rewrite Hn. cbn [rbind].
  destruct (run_same c w (set_nextstop (pc (r c')) w) tt c' w') as (w1' & E & S); [| exact H |].
  { symmetry. apply same_upd. }
  exists w1'. split_and!; [done | apply same_upd | done | by symmetry |].
  rewrite (run_dbg _ _ _ _ E). apply dbg_upd.
Qed.

(** ** Interrupts *)

Variable k : Event -> CPU -> W -> Res W.
Abbreviation fc := (Some (fetch_callback (Some k))).

(** The bytes that the CPU's status shows are memory, whatever the interrupt
    sequence has loaded into the low half of the program counter. *)
Definition calm c : Prop :=
  word (pc (r c)) /\ forall lo i, byte lo -> 0 <= i <= 2 -> quiet (u16 (set_low (pc (r c)) lo + i)).

(** No breakpoints, and not quit. *)
Definition plain w : Prop := quit (dbg w) = false /\ breakvec (dbg w) = [].

Lemma set_low_low p : word p -> set_low p (low p) = p /\ byte (low p).
Proof. unfold set_low, low. intros. split; dlia. Qed.

Lemma calm_set_low c v : calm c -> byte v -> calm (set_pc (set_low (pc (r c)) v) c).
Proof.
  intros [Hp Hq] Hv. split; cbn [set_pc set_r r pc]; [unfold set_low; dlia |]. intros lo i Hlo Hi.
  replace (set_low (set_low (pc (r c)) v) lo) with (set_low (pc (r c)) lo); [by apply Hq |].
  unfold set_low. rewrite Z.div_add_l, (Z.div_small v 256) by (done || lia). by rewrite Z.add_0_r.
Qed.

Lemma status_calm c w : calm c -> winv w -> exists st, Cpu.status (c, w) = Ok (st, (c, w)).
Proof.
  intros [Hp Hq] Hw. destruct (set_low_low _ Hp) as [E Hb].
  assert (Q : forall i, 0 <= i <= 2 -> quiet (u16 (pc (r c) + i))).
  { intros i Hi. rewrite <- E at 1. by apply Hq. }
  pose proof (Q 0 ltac:(lia)) as Q0. rewrite Z.add_0_r, u16_id in Q0 by done.
  eexists. unfold Cpu.status. rewrite !bindM_cpu_of.
  rewrite (bindM_run _ _ _ _ _ (bus_read_quiet _ c w Hw Q0)).
  rewrite (bindM_run _ _ _ _ _ (bus_read_quiet _ c w Hw (Q 1 ltac:(lia)))).
  rewrite (bindM_run _ _ _ _ _ (bus_read_quiet _ c w Hw (Q 2 ltac:(lia)))). reflexivity.
Qed.

(** Writes are of no interest to a debugger without breakpoints. *)
Lemma notify_write a c w : calm c -> winv w -> plain w -> notify fc a AccW (c, w) = Ok (tt, (c, w)).
Proof.
  intros Hc Hw [Hq Hb]. destruct (status_calm c w Hc Hw) as [st E]. unfold notify.
  rewrite (bindM_run _ _ _ _ _ E). unfold fetch_callback. rewrite Hq. cbn [rbind]. rewrite Hb. cbn [rbind list_find].
  by destruct (nextstop (dbg w)).
Qed.

(** Reading the first byte of a vector moves the stop, the second does not. *)
Lemma notify_vector a x c w : calm c -> winv w -> plain w -> nextstop (dbg w) = Some x ->
  quiet a -> quiet (a + 1) -> u16 (a + 1) = a + 1 -> word a -> 0xFFFA <= a -> Z.land a 1 = 0 ->
  notify fc a AccR (c, w) = Ok (tt, (c, set_nextstop (vector_word w a) w)).
Proof.
  intros Hc Hw [Hq Hb] Hn Q1 Q2 Ea Ha Hge Hev. destruct (status_calm c w Hc Hw) as [st E]. unfold notify.
  rewrite (bindM_run _ _ _ _ _ E). unfold fetch_callback. rewrite Hq. cbn [rbind]. rewrite Hb. cbn [rbind list_find].
  rewrite Hn, Hev, bool_decide_eq_true_2, (proj2 (Z.leb_le _ _) Hge) by done. cbn [andb Z.eqb].
  rewrite Ea, (quiet_read _ _ Hw Q2). cbn [rbind]. rewrite (quiet_read _ _ Hw Q1). cbn [rbind].
  do 3 f_equal. f_equal. pose proof (quiet_byte a w Ha Hw Q1) as B1.
  assert (B2 : byte (peek w (a + 1))) by (apply quiet_byte; [rewrite <- Ea; apply u16_word | done | done]).
  rewrite Z.lor_comm, lor_shiftl by (unfold byte in *; lia). unfold vector_word.
  rewrite u16_id by (unfold byte, word in *; lia). lia.
Qed.

Lemma notify_odd a c w : calm c -> winv w -> plain w -> Z.land a 1 = 1 ->
  notify fc a AccR (c, w) = Ok (tt, (c, w)).
Proof.
  intros Hc Hw [Hq Hb] Hodd. destruct (status_calm c w Hc Hw) as [st E]. unfold notify.
  rewrite (bindM_run _ _ _ _ _ E). unfold fetch_callback. rewrite Hq. cbn [rbind]. rewrite Hb. cbn [rbind list_find].
  destruct (nextstop (dbg w)); [| done]. rewrite Hodd, andb_false_r. done.
Qed.

Lemma push_fc v c w : calm c -> winv w -> plain w -> push fc v (c, w) = push None v (c, w).
Proof.
  intros Hc Hw Hp. unfold push. rewrite !bindM_cpu_of. unfold writemem.
  unfold bindM at 1 2. unfold bindM at 2. by rewrite notify_write.
Qed.

Lemma push_dbg v c w c' w' : push None v (c, w) = Ok (tt, (c', w')) -> dbg w' = dbg w.
Proof.
  unfold push. rewrite bindM_cpu_of. intros (u & s1 & H & H')%bindM_Ok.
  unfold writemem, notify in H. apply bindM_Ok in H as (u1 & s2 & [-> ->]%retM_Ok & H).
  rewrite bindM_upd in H. apply bus_write_inv in H as (w1 & -> & H%dbg_mwrite).
  apply upd_inv in H'. by injection H' as _ <-.
Qed.

(** The vector: even, at the end of memory. *)
Lemma vector_even c : let vec := fst (interrupt_vector c) in
  0xFFFA <= vec /\ word vec /\ Z.land vec 1 = 0 /\ Z.land (vec + 1) 1 = 1.
Proof. unfold interrupt_vector. repeat case_match; simpl; unfold word; split_and!; (done || vm_compute; congruence). Qed.

(** The two halves of the sequence, without the debugger and with it. *)
Lemma push_both v c w : cpu_ok c -> winv w -> byte v -> calm c -> plain w ->
  exists w', push None v (c, w) = Ok (tt, (pushed c, w')) /\ push fc v (c, w) = Ok (tt, (pushed c, w')) /\
    winv w' /\ dbg w' = dbg w.
Proof.
  intros Hc Hw Hv Hcalm Hp. destruct (push_run v c w Hc Hw Hv) as (w' & E & Hw' & _).
  exists w'. rewrite push_fc by done. split_and!; try done. by eapply push_dbg.
Qed.

Abbreviation load cb vec := (lo <- readmem cb vec ;; upd (fun c => set_pc (set_low (pc (r c)) lo) c) ;;
    hi <- readmem cb (u16 (vec + 1)) ;; upd (fun c => set_pc (set_high (pc (r c)) hi) c)).

Lemma load_both c w x c3 : calm c -> winv w -> plain w -> nextstop (dbg w) = Some x ->
  let vec := fst (interrupt_vector c3) in
  exists c1, load None vec (c, w) = Ok (tt, (c1, w)) /\
    load fc vec (c, w) = Ok (tt, (c1, set_nextstop (pc (r c1)) w)).
Proof.
  intros Hcalm Hw Hp Hn vec.
  destruct (vector_quiet c3) as (Q1 & Q2 & Hv & Ev). destruct (vector_even c3) as (Hge & Hword & Hev & Hodd).
  fold vec in Q1, Q2, Hv, Ev, Hge, Hword, Hev, Hodd.
  pose proof (quiet_byte vec w Hword Hw Q1) as B1.
  assert (B2 : byte (peek w (vec + 1))) by (apply quiet_byte; [rewrite <- Ev; apply u16_word | done | done]).
  set (w1 := set_nextstop (vector_word w vec) w).
  assert (Hw1 : winv w1) by (by apply winv_set_dbg).
  assert (P1 : plain w1) by (unfold plain, w1, set_nextstop; rewrite dbg_upd; apply Hp).
  assert (R1 : readmem fc vec (c, w) = Ok (peek w vec, (cycle c, w1))).
  { unfold readmem. rewrite (bindM_run _ _ _ _ _ (notify_vector vec x c w Hcalm Hw Hp Hn Q1 Q2 Ev Hword Hge Hev)).
    rewrite bindM_upd. unfold bus_read. fold w1. rewrite (quiet_read _ _ Hw1 Q1). cbn [rbind].
    unfold w1, set_nextstop, upd_dbg. by rewrite peek_set_dbg. }
  set (c5 := set_pc (set_low (pc (r (cycle c))) (peek w vec)) (cycle c)).
  assert (R2 : readmem fc (u16 (vec + 1)) (c5, w1) = Ok (peek w (vec + 1), (cycle c5, w1))).
  { unfold readmem. rewrite Ev. rewrite (bindM_run _ _ _ _ _ (notify_odd (vec + 1) c5 w1
      (calm_set_low (cycle c) _ Hcalm B1) Hw1 P1 Hodd)).
    rewrite bindM_upd. unfold bus_read. rewrite (quiet_read _ _ Hw1 Q2). cbn [rbind].
    unfold w1, set_nextstop, upd_dbg. by rewrite peek_set_dbg. }
  set (c6 := set_pc (set_high (pc (r (cycle c5))) (peek w (vec + 1))) (cycle c5)).
  assert (Epc : pc (r c6) = vector_word w vec).
  { unfold c6, c5. cbn [set_pc set_r r pc cycle set_cycles]. by rewrite set_low_high. }
  exists c6. rewrite Epc. split.
  - rewrite (bindM_run _ _ _ _ _ (readmem_quiet vec c w Hw Q1)), bindM_upd. fold c5. rewrite Ev.
    by rewrite (bindM_run _ _ _ _ _ (readmem_quiet (vec + 1) c5 w Hw Q2)).
  - rewrite (bindM_run _ _ _ _ _ R1), bindM_upd. fold c5. by rewrite (bindM_run _ _ _ _ _ R2).
Qed.

(** Serving an interrupt with the debugger attached: what the sequence does is
    the same, and a pending stop is moved to the handler. *)
Lemma interrupt_fc c w x : cpu_ok c -> winv w -> calm c -> plain w -> nextstop (dbg w) = Some x ->
  exists c1 w1, interrupt None (c, w) = Ok (tt, (c1, w1)) /\
    interrupt fc (c, w) = Ok (tt, (c1, set_nextstop (pc (r c1)) w1)).
Proof.
  intros Hc Hw Hcalm Hp Hn. pose proof (ok_cycle c Hc) as Hc0.
  assert (K : forall c', pc (r c') = pc (r c) -> calm c') by (intros c' E; unfold calm; by rewrite E).
  assert (PD : forall wa, dbg wa = dbg w -> plain wa) by (unfold plain; intros wa ->; done).
  destruct (push_both (high (pc (r c))) (cycle c) w Hc0 Hw) as (wa & Pa & Fa & Hwa & Da); [auto with emu | by apply K | done |].
  destruct (push_both (low (pc (r c))) (pushed (cycle c)) wa) as (wb & Pb & Fb & Hwb & Db);
    [by apply ok_pushed | done | auto with emu | by apply K | by apply PD |].
  set (c2 := pushed (pushed (cycle c))) in *. rewrite Da in Db.
  destruct (push_both (byte_of_status (flags (r c))) c2 wb) as (wc & Pc & Fc & Hwc & Dc);
    [by apply ok_pushed, ok_pushed | done | auto with emu | by apply K | by apply PD |]. rewrite Db in Dc.
  set (c3 := set_flags (fun p => set_intdis true (set_breakf false p)) (pushed c2)) in *.
  pose proof (K (snd (interrupt_vector c3)) (f_equal pc (interrupt_vector_r c3))) as K4.
  destruct (load_both _ wc x c3 K4 Hwc (PD wc Dc) ltac:(by rewrite Dc)) as (c1 & L0 & L1).
  exists c1, wc. split; unfold interrupt; mrun; [exact L0 | exact L1].
Qed.
End Step.
