(* ===== verification/CliDbg.v ===== *)
(** * The command-line debugger ([emu/core/clidbg.hpp], [emu/core/clidbg.cpp])

    The table of commands, the parser of a line, what each command does to the
    debugger and prints, and the loop that [main] registers as the debugger's
    callback.  The standard input, and the command and arguments that an empty
    line repeats, are the [Console]; the class [Terminal] says where the world
    keeps it.  [fopen] and [strerror] are those of [File]; [fuel] bounds the
    rounds of the loops over blocks of memory. *)

From Stdlib Require Import Ascii.
From stdpp Require Import strings.
From S2P Require Import Prelude StringOps Fmt InstrInfo Disasm Cpu File Debugger.
From S2P Require Ppu.
Open Scope Z_scope.

(** ** Commands *)

Inductive Command :=
  HELP | CONTINUE | RUNFRAME | BREAK | LIST_BREAK | DELBREAK | BACKTRACE | NEXT | STEP
| STATUS | READ_ADDR | WRITE_ADDR | BLOCK | DISASSEMBLE | DISBLOCK | TRACE | STOP_TRACE
| RESET | QUIT | INVALID | LAST.

#[export] Instance Command_eq_dec : EqDecision Command.
Proof. solve_decision. Defined.

(** The macro [O]: name, abbreviation, command, least number of arguments,
    description. *)
Definition O_table : list (string * string * Command * nat * string) := [
  ("help",        "h",    HELP,        0%nat, "prints this help text");
  ("continue",    "c",    CONTINUE,    0%nat, "start/continue execution");
  ("runframe",    "nmi",  RUNFRAME,    0%nat, "run entire frame, stop at nmi handler");
  ("break",       "b",    BREAK,       2%nat, "set a breakpoint");
  ("listbreaks",  "lb",   LIST_BREAK,  0%nat, "list breakpoints");
  ("deletebreak", "dlb",  DELBREAK,    1%nat, "delete a breakpoint");
  ("backtrace",   "bt",   BACKTRACE,   0%nat, "prints the backtrace");
  ("next",        "n",    NEXT,        0%nat, "run next instruction");
  ("step",        "s",    STEP,        0%nat, "step next instruction");
  ("status",      "st",   STATUS,      0%nat, "print current status");
  ("read",        "rd",   READ_ADDR,   1%nat, "read address");
  ("write",       "wr",   WRITE_ADDR,  2%nat, "write address");
  ("block",       "bl",   BLOCK,       2%nat, "read block");
  ("disassemble", "dis",  DISASSEMBLE, 1%nat, "disassemble the current instruction");
  ("disblock",    "disb", DISBLOCK,    2%nat, "disassemble a given block");
  ("trace",       "tr",   TRACE,       1%nat, EmptyString);
  ("stoptrace",   "str",  STOP_TRACE,  0%nat, EmptyString);
  ("reset",       "res",  RESET,       0%nat, "reset the machine");
  ("quit",        "q",    QUIT,        0%nat, "quit the emulator") ]%string.

(** [cmd_strtab] *)
Definition cmd_strtab : gmap string Command :=
  list_to_map (flat_map (fun '(name, abbrev, c, _, _) => [(name, c); (abbrev, c)]) O_table).

Record CommandInfo := mkInfo { i_name : string; i_desc : string; i_abbrev : string; i_minargs : nat }.

(** [cmd_infotab.find(cmd)->second]: there is no entry for [LAST]. *)
Definition cmd_infotab (cmd : Command) : option CommandInfo :=
  match list_find (fun '(_, _, c, _, _) => c = cmd) O_table with
  | Some (_, (name, abbrev, _, minargs, desc)) => Some (mkInfo name desc abbrev minargs)
  | None => if decide (cmd = INVALID) then Some (mkInfo EmptyString EmptyString EmptyString 0) else None
  end.

Definition helpstr : string := "
help, h:            prints this help text
continue, c:        start/continue execution
runframe, nmi:      run entire frame, stop at nmi handler
break, b:           set a breakpoint
listbreaks, lb:     list breakpoints
deletebreak, dlb:   delete a breakpoint
backtrace, bt:      prints the backtrace
next, n:            run next instruction
step, s:            step next instruction
status, st:         print current status
read, rd:           read address
write, wr:          write address
block, bl:          read block
disassemble, dis:   disassemble the current instruction
disblock, disb:     disassemble a given block
trace, tr:          enable tracing
stoptrace, str:     stop tracing
reset, res:         reset the machine
quit, q:            quit the emulator
".

(** ** The terminal *)

(** [class CliDebugger], whose [cmd] starts uninitialised ([None]), and what is
    left of the standard input. *)
Record Console := mkConsole { cli_cmd : option Command; cli_args : list string; input : list Z }.

Definition init_console (stdin : list Z) : Console := mkConsole None [] stdin.

Class Terminal (W : Type) := {
  console : W -> Console;
  set_console : Console -> W -> W;
}.

(** *** The parser *)

Definition parse (s : list Z) : Res (Command * list string * list Z) :=
  let '(got, cmd, s) := getword s in
  if negb got then Ok (QUIT, [], s)
  else
    let '(got, args, s) := getline 10 s in
    if negb got then Ok (QUIT, [], s)
    else if decide (cmd = EmptyString) then Ok (LAST, [], s)
    else match cmd_strtab !! cmd with
         | None => Ok (INVALID, [], s)
         | Some k => let? args := strsplit args " " in Ok (k, args, s)
         end.

Section CliDbg.
Context `{F : Fmt} {W : Type} `{MemW : Memory W} `{T : DebugTarget W} `{Term : Terminal W}.
Variable fopen : string -> FileMode -> option FILE.
Variable strerror : string.
Variable fuel : nat.

(** [fmt::print] to the standard output. *)
Definition print (text : string) : W -> W := emit (Stdout text).
Definition print_line (text : string) : W -> W := print (text +:+ newline).

(** *** Printing *)

(** The inner loop of [print_block]: at most [n] more cells of the row. *)
Fixpoint print_cells (n : nat) (start end_ i : Z) (w : W) : Res (Z * W) :=
  match n with
  | O => Ok (i, w)
  | S n' =>
      if i + start <? end_ then
        let? '(val, w) := read (u16 (i + start)) w in
        print_cells n' start end_ (u16 (i + 1)) (print (fmt_hex 2 val +:+ " ") w)
      else Ok (i, w)
  end.

Fixpoint print_rows (n : nat) (start end_ i : Z) (w : W) : Res W :=
  if i <? end_ - start then
    match n with
    | O => Err OutOfFuel
    | S n' =>
        let? '(i, w) := print_cells 16 start end_ i (print (fmt_hex 4 (i + start) +:+ ": ") w) in
        print_rows n' start end_ i (print newline w)
    end
  else Ok w.

Definition print_block (start end_ : Z) (w : W) : Res W := print_rows fuel start end_ 0 w.

Definition print_cpu_status (st : Status) : W -> W :=
  let g := st_regs st in
  print ("PC: $" +:+ fmt_hex 2 (pc g) +:+ " A: $" +:+ fmt_hex 2 (acc g) +:+ " X: $" +:+ fmt_hex 2 (rx g)
    +:+ " Y: $" +:+ fmt_hex 2 (ry g) +:+ " S: $" +:+ fmt_hex 2 (sp g) +:+ newline
    +:+ "Flags: [" +:+ format_flags (flags g) +:+ "]" +:+ newline
    +:+ "Cycles: " +:+ fmt_dec (cycles g) +:+ newline).

Definition print_ppu_status (st : Ppu.PStatus) : W -> W :=
  print ("Line: " +:+ fmt_dec (Ppu.s_line st) +:+ " Cycle: " +:+ fmt_dec (Ppu.s_cycle st) +:+ newline
    +:+ "VRAM Address: " +:+ fmt_hex 4 (Ppu.addr (Ppu.s_vram st))
    +:+ " TMP Address: " +:+ fmt_hex 4 (Ppu.tmp (Ppu.s_vram st)) +:+ newline).

Definition print_curr_instr (st : Status) : W -> W :=
  let g := st_regs st in
  print_line ("$" +:+ fmt_hex 4 (pc g) +:+ ": "
    +:+ format_instr (st_id st) (low (st_op st)) (high (st_op st)) (pc g) (flags g)).

(** *** The commands

    [args[i]]; [c] holds the registers of the CPU.  The result says whether the
    loop ends. *)

Definition arg (args : list string) (i : nat) : Res string :=
  match args !! i with Some s => Ok s | None => Err OutOfBounds end.

(** [a[0]] of a string: the terminator if it is empty. *)
Definition first_char (s : string) : ascii :=
  match s with String a _ => a | EmptyString => "000"%char end.

(** [case Command::BREAK] *)
Definition exec_break (args : list string) (w : W) : Res W :=
  let? a0 := arg args 0 in
  let? a1 := arg args 1 in
  let mode := first_char a0 in
  if negb (String.length a0 =? 1)%nat || negb (bool_decide (mode = "r"%char) || bool_decide (mode = "w"%char)
       || bool_decide (mode = "x"%char))
  then Ok (print_line "Invalid mode for breakpoint. Try 'help'." w)
  else
    let start := strconv16 a1 in
    let end_ := match args !! 2%nat with Some a2 => strconv16 a2 | None => start end in
    match start, end_ with
    | Some start, Some end_ =>
        if end_ <=? start then Ok (print_line "Invalid range." w)
        else
          let '(i, w) := setbreak (mkBreakpoint start end_ mode) w in
          Ok (print_line ("Set breakpoint #" +:+ fmt_dec i +:+ " to " +:+ fmt_hex 4 start +:+ "-"
                          +:+ fmt_hex 4 end_ +:+ ".") w)
    | _, _ => Ok (print_line "Invalid range." w)
    end.

(** [case Command::DELBREAK] *)
Definition exec_delbreak (args : list string) (w : W) : Res W :=
  let? a0 := arg args 0 in
  match strconv16 a0 with
  | Some index =>
      if Z.of_nat (length (breakvec (dbg w))) <=? index then Ok (print_line "Index not valid." w)
      else
        let? w := delbreak index w in
        Ok (print_line ("Breakpoint #" +:+ fmt_dec index +:+ " deleted.") w)
  | None => Ok (print_line "Index not valid." w)
  end.

(** [case Command::LIST_BREAK] *)
Definition exec_listbreak (w : W) : W :=
  match breakvec (dbg w) with
  | [] => print_line "No breakpoints set." w
  | breaks =>
      fold_left (fun w x => print_line ("#: " +:+ fmt_hex 4 (b_start x) +:+ "-" +:+ fmt_hex 4 (b_end x)
                                        +:+ ", mode: " +:+ char (b_mode x)) w) breaks w
  end.

(** [case Command::BACKTRACE] *)
Definition exec_backtrace (w : W) : W :=
  match btrace (dbg w) with
  | [] => print_line "Backtrace is empty." w
  | buf =>
      fold_left (fun w x => print_line ("$" +:+ fmt_hex 4 (pc (st_regs x)) +:+ ": "
                              +:+ disassemble (st_id x) (low (st_op x)) (high (st_op x))) w) buf w
  end.

(** [case Command::DISASSEMBLE] *)
Definition exec_disassemble (args : list string) (w : W) : Res W :=
  let? a0 := arg args 0 in
  let oplow := match args !! 1%nat with Some a => strconv16 a | None => Some 0 end in
  let ophigh := match args !! 2%nat with Some a => strconv16 a | None => Some 0 end in
  match strconv8 a0, oplow, ophigh with
  | Some id, Some oplow, Some ophigh => Ok (print_line (disassemble id (u8 oplow) (u8 ophigh)) w)
  | _, _, _ => Ok (print_line "Invalid value found while parsing command arguments." w)
  end.

(** [case Command::STATUS] *)
Definition exec_status (c : CPU) (args : list string) (w : W) : Res W :=
  if bool_decide (args !! 0%nat = Some "ppu"%string) then
    let? st := ppu_status w in Ok (print_ppu_status st w)
  else let? '(st, w) := cpu_status c w in Ok (print_cpu_status st w).

(** [case Command::READ_ADDR], [case Command::WRITE_ADDR] *)
Definition exec_read (args : list string) (w : W) : Res W :=
  let? a0 := arg args 0 in
  match strconv16 a0 with
  | None => Ok (print_line ("Invalid address: " +:+ a0 +:+ ".") w)
  | Some addr => let? '(v, w) := read addr w in Ok (print_line (fmt_hex 2 v) w)
  end.

Definition exec_write (args : list string) (w : W) : Res W :=
  let? a0 := arg args 0 in
  let? a1 := arg args 1 in
  match strconv16 a0, strconv8 a1 with
  | Some addr, Some newval =>
      write addr newval (if CARTRIDGE_START <=? addr
                         then print_line "Warning: writes to ROM have no effects" w else w)
  | _, _ => Ok (print_line "Invalid value found while parsing command arguments." w)
  end.

(** [case Command::BLOCK], [case Command::DISBLOCK]: the range, then the loop. *)
Definition exec_range (args : list string) (body : Z -> Z -> W -> Res W) (w : W) : Res W :=
  let? a0 := arg args 0 in
  let? a1 := arg args 1 in
  match strconv16 a0, strconv16 a1 with
  | Some start, Some end_ => if end_ <=? start then Ok (print_line "Invalid range." w) else body start end_ w
  | _, _ => Ok (print_line "Invalid range." w)
  end.

Definition disblock_line (addr : Z) (s : string) (w : W) : Res W :=
  Ok (print_line ("$" +:+ fmt_hex 4 addr +:+ ": " +:+ s) w).

(** [case Command::TRACE] *)
Definition exec_trace (args : list string) (w : W) : Res W :=
  let? a0 := arg args 0 in
  let '(ok, f) := File.open fopen strerror default_file a0 File.WRITE in
  Ok (if ok : bool then start_tracing f w else print_line (errstr f) w).

(** The commands that keep the loop going. *)
Definition stay (w : Res W) : Res (bool * W) := let? w := w in Ok (false, w).
Definition leave (w : Res W) : Res (bool * W) := let? w := w in Ok (true, w).

Definition exec_command (c : CPU) (cmd : Command) (args : list string) (w : W) : Res (bool * W) :=
  match cmd with
  | HELP => stay (Ok (print helpstr w))
  | CONTINUE => leave (Ok (continue_exec (print_line "Continuing." w)))
  | RUNFRAME =>
      leave (let? '(lo, w) := read NMI_VEC w in
             let? '(hi, w) := read (NMI_VEC + 1) w in
             Ok (set_nextstop (u16 (Z.lor lo (Z.shiftl hi 8))) w))
  | BREAK => stay (exec_break args w)
  | DELBREAK => stay (exec_delbreak args w)
  | LIST_BREAK => stay (Ok (exec_listbreak w))
  | BACKTRACE => stay (Ok (exec_backtrace w))
  | DISASSEMBLE => stay (exec_disassemble args w)
  | NEXT => leave (next c w)
  | STEP => leave (step c w)
  | STATUS => stay (exec_status c args w)
  | READ_ADDR => stay (exec_read args w)
  | WRITE_ADDR => stay (exec_write args w)
  | BLOCK => stay (exec_range args print_block w)
  | DISBLOCK => stay (exec_range args (disassemble_block read disblock_line fuel) w)
  | TRACE => stay (exec_trace args w)
  | STOP_TRACE => stay (Ok (stop_tracing w))
  | RESET => stay (Ok w)
  | QUIT => leave (Ok (set_quit true w))
  | INVALID => stay (Ok (print_line "Invalid command. Try 'help'." w))
  | LAST => stay (Ok w)
  end.

(** *** The loop *)

(** [if (input_cmd != Command::LAST) ...] *)
Definition remember (k : Command) (args : list string) (rest : list Z) (w : W) : W :=
  let con := console w in
  set_console (if decide (k = LAST) then mkConsole (cli_cmd con) (cli_args con) rest
               else mkConsole (Some k) args rest) w.

(** One round of the loop of [repl]: whether it is the last. *)
Definition round (c : CPU) (w : W) : Res (bool * W) :=
  let w := print "> " w in
  let? '(input_cmd, input_args, rest) := parse (input (console w)) in
  let w := remember input_cmd input_args rest w in
  match cli_cmd (console w) with
  | None => Err Indeterminate
  | Some cmd =>
      match cmd_infotab cmd with
      | None => Err OutOfBounds
      | Some info =>
          if (length (cli_args (console w)) <? i_minargs info)%nat then
            Ok (false, print_line ("Not enough arguments for command " +:+ i_name info +:+ ". Try 'help'.") w)
          else exec_command c cmd (cli_args (console w)) w
      end
  end.

Fixpoint repl_loop (n : nat) (c : CPU) (w : W) : Res W :=
  match n with
  | O => Err OutOfFuel
  | S n' => let? '(exit, w) := round c w in if exit : bool then Ok w else repl_loop n' c w
  end.

(** What [CliDebugger::repl] prints before the loop. *)
Definition announce (ev : Event) (w : W) : W :=
  let w := match ev_type ev with
           | Debugger.BREAK => print_line ("Breakpoint #" +:+ fmt_dec (ev_index ev) +:+ " reached.") w
           | Debugger.FETCH => w
           end in
  print_curr_instr (ev_cpu_st ev) w.

(** [CliDebugger::repl]; every round takes a byte of the input, or is the last. *)
Definition repl (ev : Event) (c : CPU) (w : W) : Res W :=
  let w := announce ev w in repl_loop (S (length (input (console w)))) c w.
End CliDbg.
