(* ===== verification/CliInv.v ===== *)
(** * The command line ends, and does what is typed

    The console is touched by the parser only, so every round of the loop of
    [repl] shortens the input or is the last: the loop ends whatever is typed,
    but for a sweep of [disblock] to the end of the address space.  Typed text is
    a string, [bytes_of] its bytes on the standard input. *)

From Stdlib Require Import Ascii.
From stdpp Require Import strings.
From S2P Require Import Prelude StringOps Fmt InstrInfo Disasm Cpu CpuFacts File Debugger DebugInv CliDbg.
From S2P Require Ppu.
Open Scope Z_scope.

(** ** Computations that do not run out of fuel *)

Definition halts {A} (r : Res A) : Prop := r <> Err OutOfFuel.

Lemma halts_Ok {A} (a : A) : halts (Ok a).
Proof. done. Qed.

Lemma halts_bind {A B} (r : Res A) (k : A -> Res B) :
  halts r -> (forall a, r = Ok a -> halts (k a)) -> halts (rbind r k).
Proof. unfold halts. destruct r as [a | f]; simpl; [auto | congruence]. Qed.

(** What the world promises to its terminal. *)
Class TerminalLaws (W : Type) {MemW : Memory W} {T : DebugTarget W} {Term : Terminal W} {L : TargetLaws W} := {
  console_set : forall k w, console (set_console k w) = k;
  console_emit : forall o w, console (emit o w) = console w;
  console_set_dbg : forall d w, console (set_dbg d w) = console w;
  console_mread : forall a w v w', mread a w = Ok (v, w') -> console w' = console w;
  console_mwrite : forall a v w w', mwrite a v w = Ok w' -> console w' = console w;
  dbg_set_console : forall k w, dbg (set_console k w) = dbg w;
  same_set_console : forall k w, same (set_console k w) w;
  mread_halts : forall a w, halts (mread a w);
  mwrite_halts : forall a v w, halts (mwrite a v w);
  status_halts : forall w, halts (ppu_status w);
  readreg_halts : forall a w, halts (readreg_no_sideeff a w);
}.

(** The bus, the PPU and the results end. *)
Ltac halts_easy := solve [apply halts_Ok | apply mread_halts | apply mwrite_halts | apply status_halts
                         | apply readreg_halts | done].

(** ** The console is kept by everything but the parser *)

Section Cli.
Context `{F : Fmt} {W : Type} `{TL : TerminalLaws W}.
Variable fopen : string -> FileMode -> option FILE.
Variable strerror : string.
Variable fuel : nat.
Implicit Types (c : CPU) (w : W).

Definition keeps w (x : Res W) : Prop := forall w', x = Ok w' -> console w' = console w.

Lemma console_upd f w : console (upd_dbg f w) = console w.
Proof. apply console_set_dbg. Qed.
Lemma console_print s w : console (print s w) = console w.
Proof. apply console_emit. Qed.
Lemma console_print_line s w : console (print_line s w) = console w.
Proof. apply console_emit. Qed.

Lemma same_print_line s w : same (print_line s w) w.
Proof. apply same_emit. Qed.
Lemma dbg_print_line s w : dbg (print_line s w) = dbg w.
Proof. apply dbg_emit. Qed.

Lemma console_read a w v w' : read a w = Ok (v, w') -> console w' = console w.
Proof.
  unfold read. destruct (_ && _); [by intros (u & _ & [= <- <-])%rbind_Ok | apply console_mread].
Qed.

Lemma console_fold {A} (f : W -> A -> W) (l : list A) w :
  (forall w a, console (f w a) = console w) -> console (fold_left f l w) = console w.
Proof. intros Hf. revert w. induction l as [| a l IH]; intros w; simpl; [done |]. by rewrite IH, Hf. Qed.

Lemma console_cells n start end_ i w i' w' :
  print_cells n start end_ i w = Ok (i', w') -> console w' = console w.
Proof.
  revert i w. induction n as [| n IH]; intros i w; simpl; [by intros [= _ <-] |].
  destruct (i + start <? end_); [| by intros [= _ <-]].
  intros ([v w1] & E1%console_read & E2)%rbind_Ok. apply IH in E2. by rewrite E2, console_print.
Qed.

Lemma keeps_rows n start end_ i w : keeps w (print_rows n start end_ i w).
Proof.
  revert i w. induction n as [| n IH]; intros i w w'; cbn [print_rows];
    (destruct (i <? end_ - start); [| by intros [= <-]]); [intros H; discriminate H |].
  intros ([i1 w1] & E1%console_cells & E2)%rbind_Ok. apply IH in E2.
  by rewrite E2, console_print, E1, console_print.
Qed.

Lemma keeps_disblock n start end_ w : keeps w (disassemble_block read disblock_line n start end_ w).
Proof.
  revert start w. induction n as [| n IH]; intros start w w'; cbn [disassemble_block];
    (destruct (start <=? end_); [| by intros [= <-]]); [intros H; discriminate H |].
  intros ([id w1] & E1%console_read & ([lo w2] & E2%console_read & ([hi w3] & E3%console_read &
    (w4 & [= <-] & E5)%rbind_Ok)%rbind_Ok)%rbind_Ok)%rbind_Ok.
  apply IH in E5. by rewrite E5, console_print_line, E3, E2, E1.
Qed.

(** [nextaddr] only reads. *)
Lemma nextaddr_console c w a c' w' : Cpu.nextaddr (c, w) = Ok (a, (c', w')) -> console w' = console w.
Proof.
  intros H.
  destruct (CpuSim.sim_nextaddr (fun w1 w2 => w1 = w2 /\ console w1 = console w)) with (3 := H) (w2 := w)
    as (w2 & _ & -> & ?); [| done ..].
  intros b w1 ? v w1' [<- E] H1. exists w1'. by rewrite (console_mread _ _ _ _ H1).
Qed.

Lemma keeps_step c w : keeps w (step c w).
Proof. intros w' ([a [c' w1]] & E%nextaddr_console & [= <-])%rbind_Ok. unfold set_nextstop. by rewrite console_upd. Qed.

Lemma keeps_next c w : keeps w (next c w).
Proof.
  intros w'. unfold next. intros ([id w1] & E1%console_mread & E2)%rbind_Ok. destruct (is_jump id).
  - injection E2 as <-. unfold set_nextstop. by rewrite console_upd.
  - by rewrite (keeps_step _ _ _ E2).
Qed.

Lemma status_console c w st c' w' : Cpu.status (c, w) = Ok (st, (c', w')) -> console w' = console w.
Proof.
  unfold Cpu.status. intros (p & s1 & [-> ->]%cpu_of_inv & H)%bindM_Ok.
  apply bindM_Ok in H as (rg & s2 & [-> ->]%cpu_of_inv & H).
  apply bindM_Ok in H as (id & s3 & (w1 & -> & H1%console_mread)%bus_read_inv & H).
  apply bindM_Ok in H as (lo & s4 & (w2 & -> & H2%console_mread)%bus_read_inv & H).
  apply bindM_Ok in H as (hi & s5 & (w3 & -> & H3%console_mread)%bus_read_inv & [_ [= -> ->]]%retM_Ok).
  by rewrite H3, H2, H1.
Qed.

(** Case analysis on the matches of a command, with what the reads keep. *)
Ltac console_cases :=
  repeat match goal with
  | H : rbind _ _ = Ok _ |- _ => apply rbind_Ok in H as (? & ? & H)
  | H : match ?x with _ => _ end = Ok _ |- _ => destruct x eqn:?
  | H : Ok _ = Ok _ |- _ => injection H as <-
  | p : (_ * _)%type |- _ => destruct p
  | H : Err _ = Ok _ |- _ => discriminate H
  | H : CliDbg.arg _ _ = Ok _ |- _ => clear H
  | H : read _ _ = Ok (_, _) |- _ => apply console_read in H
  end; repeat first [rewrite console_upd | rewrite console_print | rewrite console_print_line]; try congruence.

Lemma keeps_break args w : keeps w (exec_break args w).
Proof. intros w' H. unfold exec_break, setbreak in H. console_cases. Qed.
Lemma keeps_delbreak args w : keeps w (exec_delbreak args w).
Proof. intros w' H. unfold exec_delbreak, delbreak in H. console_cases. Qed.
Lemma keeps_disassemble args w : keeps w (exec_disassemble args w).
Proof. intros w' H. unfold exec_disassemble in H. console_cases. Qed.
Lemma keeps_read args w : keeps w (exec_read args w).
Proof. intros w' H. unfold exec_read in H. console_cases. Qed.
Lemma keeps_status c args w : keeps w (exec_status c args w).
Proof.
  intros w'. unfold exec_status, cpu_status, print_ppu_status, print_cpu_status. case_bool_decide.
  - intros (st & _ & [= <-])%rbind_Ok. apply console_print.
  - intros ([st w1] & ([st' [c' w2]] & E%status_console & [= <- <-])%rbind_Ok & [= <-])%rbind_Ok.
    by rewrite console_print.
Qed.
Lemma keeps_write args w : keeps w (exec_write args w).
Proof.
  intros w'. unfold exec_write. intros (a0 & _ & (a1 & _ & E)%rbind_Ok)%rbind_Ok.
  destruct (strconv16 a0), (strconv8 a1); try (injection E as <-; by rewrite console_print_line).
  apply console_mwrite in E. destruct (_ <=? _); by rewrite E, ?console_print_line.
Qed.
Lemma keeps_range args body w : (forall s e, keeps w (body s e w)) -> keeps w (exec_range args body w).
Proof.
  intros Hb w'. unfold exec_range. intros (a0 & _ & (a1 & _ & E)%rbind_Ok)%rbind_Ok.
  destruct (strconv16 a0), (strconv16 a1); try (injection E as <-; by rewrite console_print_line).
  destruct (_ <=? _); [injection E as <-; by rewrite console_print_line | by apply Hb in E].
Qed.
Lemma keeps_trace args w : keeps w (exec_trace fopen strerror args w).
Proof.
  intros w'. unfold exec_trace. intros (a0 & _ & E)%rbind_Ok. destruct (open _ _ _ _ _) as [[] f]; injection E as <-.
  - unfold start_tracing, stop_tracing. by rewrite !console_upd.
  - by rewrite console_print_line.
Qed.

Lemma stay_Ok (x : Res W) b w' : stay x = Ok (b, w') -> b = false /\ x = Ok w'.
Proof. unfold stay. intros (w1 & -> & [= <- <-])%rbind_Ok. done. Qed.
Lemma leave_Ok (x : Res W) b w' : leave x = Ok (b, w') -> b = true /\ x = Ok w'.
Proof. unfold leave. intros (w1 & -> & [= <- <-])%rbind_Ok. done. Qed.

(** The commands that end the loop. *)
Definition leaves (cmd : Command) : bool :=
  bool_decide (cmd ∈ [CONTINUE; RUNFRAME; NEXT; STEP; QUIT]).

Lemma exec_console c cmd args w b w' : exec_command fopen strerror fuel c cmd args w = Ok (b, w') ->
  console w' = console w /\ b = leaves cmd.
Proof.
  destruct cmd; cbn [exec_command]; first [intros [-> H]%stay_Ok | intros [-> H]%leave_Ok]; (split; [| done]).
  - injection H as <-. apply console_print.
  - injection H as <-. unfold continue_exec. by rewrite console_upd, console_print_line.
  - apply rbind_Ok in H as ([lo w1] & E1%console_read & ([hi w2] & E2%console_read & [= <-])%rbind_Ok).
    unfold set_nextstop. rewrite console_upd. congruence.
  - by apply keeps_break in H.
  - injection H as <-. unfold exec_listbreak. destruct (breakvec _) as [| b bs]; [apply console_print_line |].
    apply console_fold. intros. apply console_print_line.
  - by apply keeps_delbreak in H.
  - injection H as <-. unfold exec_backtrace. destruct (btrace _) as [| b bs]; [apply console_print_line |].
    apply console_fold. intros. apply console_print_line.
  - by apply keeps_next in H.
  - by apply keeps_step in H.
  - by apply keeps_status in H.
  - by apply keeps_read in H.
  - by apply keeps_write in H.
  - eapply keeps_range; [| exact H]. intros. apply keeps_rows.
  - by apply keeps_disassemble in H.
  - eapply keeps_range; [| exact H]. intros. apply keeps_disblock.
  - by apply keeps_trace in H.
  - injection H as <-. apply console_upd.
  - by injection H as <-.
  - injection H as <-. apply console_upd.
  - injection H as <-. apply console_print_line.
  - by injection H as <-.
Qed.

(** ** Every command ends *)

Lemma halts_bindM {S A B} (m : M S A) (k : A -> M S B) s :
  halts (m s) -> (forall a s', halts (k a s')) -> halts (bindM m k s).
Proof. unfold bindM, halts. destruct (m s) as [[a s'] |]; [auto | congruence]. Qed.

Lemma halts_read a w : halts (read a w).
Proof. unfold read. destruct (_ && _); [apply halts_bind; [|intros ? _] |]; halts_easy. Qed.

Lemma halts_bus_read a (s : CPU * W) : halts (bus_read a s).
Proof. destruct s as [c w]. unfold bus_read. apply halts_bind; [| intros [] _]; halts_easy. Qed.

Lemma halts_cpu_of {A} (f : CPU -> A) (s : CPU * W) : halts (cpu_of f s).
Proof. by destruct s. Qed.

Lemma halts_nextaddr (s : CPU * W) : halts (Cpu.nextaddr s).
Proof.
  unfold Cpu.nextaddr. do 6 (apply halts_bindM; [solve [apply halts_bus_read | apply halts_cpu_of] | intros ? ?]).
  repeat lazymatch goal with
  | |- halts (match ?x with _ => _ end _) => destruct x
  | |- halts (bindM _ _ _) => apply halts_bindM; [apply halts_bus_read | intros ? ?]
  end; apply halts_Ok.
Qed.

Lemma halts_status (s : CPU * W) : halts (Cpu.status s).
Proof.
  unfold Cpu.status.
  do 5 (apply halts_bindM; [solve [apply halts_bus_read | apply halts_cpu_of] | intros ? ?]). apply halts_Ok.
Qed.

Lemma halts_step c w : halts (step c w).
Proof. unfold step. apply halts_bind; [apply halts_nextaddr | intros [a [c' w']] _; apply halts_Ok]. Qed.

Lemma halts_next c w : halts (next c w).
Proof.
  unfold next. apply halts_bind; [halts_easy | intros [id w'] _].
  destruct (is_jump id); [apply halts_Ok | apply halts_step].
Qed.

Lemma halts_cells n start end_ i w : halts (print_cells n start end_ i w).
Proof.
  revert i w. induction n as [| n IH]; intros i w; cbn [print_cells]; [apply halts_Ok |].
  destruct (i + start <? end_); [| apply halts_Ok].
  apply halts_bind; [apply halts_read | intros [v w'] _; apply IH].
Qed.

(** A row of [print_block] prints a cell, and stays within the block. *)
Lemma cells_progress n start end_ i w i' w' : 0 <= i -> 0 <= start -> end_ < 65536 -> i + start < end_ ->
  print_cells (S n) start end_ i w = Ok (i', w') -> i < i' <= end_ - start.
Proof.
  intros Hi Hs He. revert i w Hi. induction n as [| n IH]; intros i w Hi Hlt; cbn [print_cells] in *;
    rewrite (proj2 (Z.ltb_lt (i + start) end_)) by done; intros ([v w1] & _ & H)%rbind_Ok;
    rewrite (u16_id (i + 1)) in H by dlia.
  - injection H as <- _. lia.
  - destruct (Z.ltb_spec (i + 1 + start) end_) as [Hlt' | Hge].
    + specialize (IH (i + 1) (print (fmt_hex 2 v +:+ " ") w1) ltac:(lia) ltac:(lia)).
      rewrite (proj2 (Z.ltb_lt (i + 1 + start) end_)) in IH by done. specialize (IH H). lia.
    + injection H as <- _. lia.
Qed.

Lemma halts_rows n start end_ i w : 0 <= i -> 0 <= start -> end_ < 65536 -> end_ - start - i <= Z.of_nat n ->
  halts (print_rows n start end_ i w).
Proof.
  intros Hi Hs He. revert i w Hi. induction n as [| n IH]; intros i w Hi Hn; cbn [print_rows];
    (destruct (Z.ltb_spec i (end_ - start)); [| apply halts_Ok]); [lia |].
  apply halts_bind; [apply halts_cells |]. intros [i' w'] E. apply cells_progress in E; [| lia ..]. apply IH; lia.
Qed.

(** The sweep of [disblock] may go past the end of the address space. *)
Definition sweeps_past_end (cmd : Command) (args : list string) : Prop :=
  cmd = DISBLOCK /\ exists a e, args !! 1%nat = Some a /\ strconv16 a = Some e /\ 0xFFFC < e.

Hypothesis enough : 65536 <= Z.of_nat fuel.

Lemma halts_arg args i : halts (arg args i).
Proof. unfold arg. by destruct (args !! i). Qed.

Lemma halts_range args body w :
  (forall a0 s a1 e, args !! 0%nat = Some a0 -> strconv16 a0 = Some s -> args !! 1%nat = Some a1 ->
     strconv16 a1 = Some e -> s < e -> halts (body s e w)) -> halts (exec_range args body w).
Proof.
  intros Hb. unfold exec_range, arg.
  destruct (args !! 0%nat) as [a0 |] eqn:E0; [| done]. destruct (args !! 1%nat) as [a1 |] eqn:E1; [| done].
  cbn [rbind]. destruct (strconv16 a0) as [s |] eqn:Es; [| done]. destruct (strconv16 a1) as [e |] eqn:Ee; [| done].
  destruct (Z.leb_spec e s); [done |]. by eapply Hb.
Qed.

Lemma halts_stay (x : Res W) : halts x -> halts (stay x).
Proof. intros H. unfold stay. apply halts_bind; [done |]. intros. apply halts_Ok. Qed.
Lemma halts_leave (x : Res W) : halts x -> halts (leave x).
Proof. intros H. unfold leave. apply halts_bind; [done |]. intros. apply halts_Ok. Qed.

Lemma halts_write args w : halts (exec_write args w).
Proof.
  unfold exec_write. apply halts_bind; [apply halts_arg | intros a _].
  apply halts_bind; [apply halts_arg | intros a0 _].
  destruct (strconv16 a), (strconv8 a0); [unfold write | ..]; halts_easy.
Qed.

Lemma exec_halts c cmd args w : ~ sweeps_past_end cmd args ->
  halts (exec_command fopen strerror fuel c cmd args w).
Proof.
  intros Hd. destruct cmd; cbn [exec_command]; first [apply halts_stay | apply halts_leave]; try apply halts_Ok.
  - do 2 (apply halts_bind; [apply halts_read | intros [? ?] _]). apply halts_Ok.
  - unfold exec_break. do 2 (apply halts_bind; [apply halts_arg | intros ? _]). by repeat case_match.
  - unfold exec_delbreak, delbreak. apply halts_bind; [apply halts_arg | intros a _].
    destruct (strconv16 a); [| done]. case_match; [done |]. apply halts_bind; [by case_match | done].
  - apply halts_next.
  - apply halts_step.
  - unfold exec_status, cpu_status. case_bool_decide.
    + apply halts_bind; [halts_easy | done].
    + apply halts_bind; [| by intros []]. apply halts_bind; [apply halts_status | by intros [? []]].
  - unfold exec_read. apply halts_bind; [apply halts_arg | intros a _]. destruct (strconv16 a); [| done].
    apply halts_bind; [apply halts_read | by intros []].
  - apply halts_write.
  - apply halts_range. intros a0 s a1 e _ Hs%strconv16_word _ He%strconv16_word Hlt.
    apply halts_rows; unfold word in *; lia.
  - unfold exec_disassemble. apply halts_bind; [apply halts_arg | intros ? _]. by repeat case_match.
  - apply halts_range. intros a0 s a1 e _ Hs%strconv16_word E1 He Hlt.
    apply disassemble_block_ends; [unfold word in Hs; lia | | | apply halts_read | done].
    + apply Z.nlt_ge. intros Hgt. apply Hd. split; [done |]. by exists a1, e.
    + apply strconv16_word in He. unfold word in *; lia.
  - unfold exec_trace. apply halts_bind; [apply halts_arg | intros ? _]. by destruct (open _ _ _ _ _).
Qed.
End Cli.
