(* ===== verification/CliRepl.v ===== *)
(** * The loop of the command line

    One round of [repl] shortens the input or is the last, so the loop ends; and
    the command [break], typed with an address range, sets the breakpoint that
    the fetch callback looks for. *)

From Stdlib Require Import Ascii.
From stdpp Require Import strings.
From S2P Require Import Prelude StringOps Fmt InstrInfo Disasm Cpu File Debugger DebugInv CliDbg CliInv.
Open Scope Z_scope.

(** ** The parser *)

Lemma parse_total s : exists k args rest, parse s = Ok (k, args, rest).
Proof.
  unfold parse. destruct (getword s) as [[got cmd] s1]. destruct got; cbn [negb]; [| by do 3 eexists].
  destruct (getline 10 s1) as [[got2 args] s2]. destruct got2; cbn [negb]; [| by do 3 eexists].
  destruct (decide (cmd = EmptyString)); [by do 3 eexists |].
  destruct (cmd_strtab !! cmd); [| by do 3 eexists].
  rewrite strsplit_split_on. by do 3 eexists.
Qed.

(** A line takes at least its end off the input; at the end of the input the
    command is [quit]. *)
Lemma parse_shorter s k args rest : parse s = Ok (k, args, rest) -> k = QUIT \/ (length rest < length s)%nat.
Proof.
  unfold parse. destruct (getword s) as [[got cmd] s1] eqn:E1.
  destruct got; cbn [negb]; [| intros [= <- _ _]; by left].
  destruct (getline 10 s1) as [[got2 a] s2] eqn:E2. destruct got2; cbn [negb]; [| intros [= <- _ _]; by left].
  apply getword_shorter in E1. apply getline_shorter in E2. assert (length s2 < length s)%nat by lia.
  destruct (decide (cmd = EmptyString)); [intros [= _ _ <-]; by right |].
  destruct (cmd_strtab !! cmd); [| intros [= _ _ <-]; by right].
  rewrite strsplit_split_on. cbn [rbind]. intros [= _ _ <-]. by right.
Qed.

Lemma all_chars_imp P Q s : (forall c, P c = true -> Q c = true) -> all_chars P s = true -> all_chars Q s = true.
Proof.
  intros H. induction s as [| c s IH]; simpl; [done |]. intros [Hc Hs]%andb_true_iff.
  apply andb_true_iff. auto.
Qed.

(** A command line, as it is typed: a word and its arguments. *)
Lemma parse_typed a word b args k rest :
  all_chars (fun x => negb (isdelim (byte_of x))) (String a word) = true ->
  all_chars (fun x => negb (byte_of x =? 10)) (String b args) = true -> is_space (byte_of b) = false ->
  cmd_strtab !! String a word = Some k ->
  parse (bytes_of (String a word +:+ " " +:+ String b args) ++ 10 :: rest) =
  Ok (k, split_on " " (String b args), rest).
Proof.
  intros Hw Ha Hb Hk. unfold parse. rewrite bytes_of_app, <- app_assoc.
  change (bytes_of (" " +:+ String b args) ++ 10 :: rest) with (32 :: (bytes_of (String b args) ++ 10 :: rest)).
  rewrite getword_bytes by done. cbn [negb].
  replace (getline 10 (32 :: (bytes_of (String b args) ++ 10 :: rest)))
    with (getline 10 (bytes_of (String b args) ++ 10 :: rest)) by done.
  rewrite getline_bytes by done. cbn [negb]. rewrite decide_False by done. rewrite Hk.
  by rewrite strsplit_split_on.
Qed.

Section Repl.
Context `{F : Fmt} {W : Type} `{TL : TerminalLaws W}.
Variable fopen : string -> FileMode -> option FILE.
Variable strerror : string.
Variable fuel : nat.
Implicit Types (c : CPU) (w : W).

Abbreviation round := (round fopen strerror fuel).

Lemma infotab_some cmd : cmd <> LAST -> exists info, cmd_infotab cmd = Some info.
Proof. destruct cmd; try done; eexists; vm_compute; reflexivity. Qed.

(** ** One round *)

Lemma console_remember k args rest w : console (remember k args rest w) =
  (if decide (k = LAST) then mkConsole (cli_cmd (console w)) (cli_args (console w)) rest
   else mkConsole (Some k) args rest).
Proof. apply console_set. Qed.

Lemma dbg_remember k args rest w : dbg (remember k args rest w) = dbg w.
Proof. apply dbg_set_console. Qed.

Lemma same_remember k args rest w : same (remember k args rest w) w.
Proof. apply same_set_console. Qed.

Lemma round_spec c w b w' : round c w = Ok (b, w') ->
  exists cmd, cli_cmd (console w') = Some cmd /\ (b = true -> leaves cmd = true) /\
    (b = true \/ (length (input (console w')) < length (input (console w)))%nat).
Proof.
  unfold CliDbg.round. rewrite console_print. intros ([[k args] rest] & E & H)%rbind_Ok.
  pose proof (parse_shorter _ _ _ _ E) as Hk. set (w1 := print "> " w) in *.
  destruct (cli_cmd (console (remember k args rest w1))) as [cmd |] eqn:Ec; [| done].
  destruct (cmd_infotab cmd) as [info |] eqn:Ei; [| done]. exists cmd.
  pose proof (console_remember k args rest w1) as Er.
  assert (Hi : input (console (remember k args rest w1)) = rest) by (rewrite Er; by case_decide).
  destruct (_ <? _)%nat eqn:El.
  - injection H as <- <-. rewrite console_print_line, Hi. split_and!; [done | done |].
    destruct Hk as [-> |]; [| by right]. rewrite Er in Ec. simpl in Ec. injection Ec as <-.
    vm_compute in Ei. injection Ei as <-. done.
  - apply exec_console in H as [Hc Hb]. rewrite Hc, Hi. split_and!; [done | by intros <- |].
    destruct Hk as [-> |]; [| by right]. left. rewrite Er in Ec. simpl in Ec. injection Ec as <-. by rewrite Hb.
Qed.

(** The command that the next round executes sweeps past the end of memory. *)
Definition sweeping w : Prop :=
  exists k args rest cmd, parse (input (console w)) = Ok (k, args, rest) /\
    cli_cmd (console (remember k args rest w)) = Some cmd /\
    sweeps_past_end cmd (cli_args (console (remember k args rest w))).

Hypothesis enough : 65536 <= Z.of_nat fuel.

Lemma round_halts c w : ~ sweeping w -> halts (round c w).
Proof.
  intros Hs. unfold CliDbg.round. rewrite console_print.
  destruct (parse_total (input (console w))) as (k & args & rest & E). rewrite E. cbn [rbind].
  assert (Hr : console (remember k args rest (print "> " w)) = console (remember k args rest w))
    by (by rewrite !console_remember, console_print).
  rewrite Hr. destruct (cli_cmd (console (remember k args rest w))) as [cmd |] eqn:Ec; [| done].
  destruct (cmd_infotab cmd); [| done]. destruct (_ <? _)%nat; [done |].
  apply exec_halts; [done |]. intros Hp. apply Hs. by exists k, args, rest, cmd.
Qed.

(** ** The loop *)

(** The worlds at the prompt, after any number of rounds. *)
Inductive reaches c : W -> W -> Prop :=
| reaches_here w : reaches c w w
| reaches_round w w1 w2 : round c w = Ok (false, w1) -> reaches c w1 w2 -> reaches c w w2.

Lemma repl_loop_ends n c w : (length (input (console w)) < n)%nat ->
  (forall w1, reaches c w w1 -> ~ sweeping w1) ->
  (exists w' cmd, repl_loop fopen strerror fuel n c w = Ok w' /\
     cli_cmd (console w') = Some cmd /\ leaves cmd = true) \/
  (exists f, repl_loop fopen strerror fuel n c w = Err f /\ f <> OutOfFuel).
Proof.
  revert w. induction n as [| n IH]; intros w Hn Hs; [lia |]. cbn [repl_loop].
  pose proof (round_halts c w (Hs w (reaches_here c w))) as Hh.
  destruct (round c w) as [[b w1] | f] eqn:E; cbn [rbind].
  - destruct (round_spec c w b w1 E) as (cmd & Hc & Hl & Hi). destruct b.
    + left. exists w1, cmd. auto.
    + apply IH; [destruct Hi; [done | lia] |]. intros w2 H2. apply Hs. by eapply reaches_round.
  - right. exists f. split; [done |]. intros ->. by apply Hh.
Qed.

(** ** The command [break] *)

Context `{FL : !FmtLaws}.

(** The line: the mode, and the bounds in hexadecimal. *)
Definition break_args (m : ascii) (bounds : list Z) : list string := char m :: (fmt_hex 4 <$> bounds).
Definition break_line (m : ascii) (bounds : list Z) : string := "break " +:+ join " " (break_args m bounds).

Lemma hex_no_space x d : is_hex x = true -> byte_of d < 48 -> x <> d.
Proof.
  intros H Hc ->. unfold is_hex in H. unfold byte_of in Hc.
  apply orb_true_iff in H as [H | H]; apply andb_true_iff in H as [H _]; apply Z.leb_le in H; lia.
Qed.

Lemma join_chars P d fs : P d = true -> Forall (fun f => all_chars P f = true) fs -> all_chars P (join d fs) = true.
Proof.
  intros Hd. induction fs as [| f fs IH]; intros Hf; [done |]. inversion_clear Hf as [| ? ? H1 H2].
  destruct fs as [| g fs]; [done |]. change (join d (f :: g :: fs)) with (f +:+ String d (join d (g :: fs))).
  rewrite all_chars_app, H1. simpl. rewrite Hd. by apply IH.
Qed.

(** The characters that a mode can be. *)
Definition is_mode (m : ascii) : bool :=
  bool_decide (m = "r"%char) || bool_decide (m = "w"%char) || bool_decide (m = "x"%char).

Lemma is_mode_cases m : is_mode m = true -> m = "r"%char \/ m = "w"%char \/ m = "x"%char.
Proof. unfold is_mode. repeat case_bool_decide; naive_solver. Qed.

Lemma parse_break m bounds rest : is_mode m = true -> bounds <> [] -> Forall word bounds ->
  parse (bytes_of (break_line m bounds) ++ 10 :: rest) = Ok (BREAK, break_args m bounds, rest).
Proof.
  intros Hm Hne Hb. unfold break_line. destruct bounds as [| b0 bs]; [done |].
  set (fs := fmt_hex 4 <$> b0 :: bs).
  change (break_args m (b0 :: bs)) with (char m :: fs).
  assert (Hx : Forall (fun f => all_chars is_hex f = true) fs).
  { apply Forall_fmap. eapply Forall_impl; [exact Hb |]. intros z [Hz _]. by apply hex_chars. }
  assert (Hj : join " " (char m :: fs) = String m (String " " (join " " fs))) by done.
  rewrite Hj. change ("break " +:+ ?s) with (String "b" "reak" +:+ " " +:+ s).
  rewrite (parse_typed "b" "reak" m (String " " (join " " fs)) BREAK rest); [| done | | | by vm_compute].
  - do 3 f_equal. rewrite <- Hj. apply split_join.
    + constructor; [by destruct (is_mode_cases m Hm) as [-> | [-> | ->]] |].
      eapply Forall_impl; [exact Hx |]. intros f Hf.
      by apply (all_chars_lacks is_hex).
    + change (char m :: fs) with ([char m] ++ fs). rewrite last_app.
      destruct (last fs) as [f |] eqn:El; [| by destruct (is_mode_cases m Hm) as [-> | [-> | ->]]].
      unfold fs in El. rewrite fmap_last in El. destruct (last (b0 :: bs)) as [z |] eqn:Ez; [| done].
      injection El as <-. intros [= E]. apply (hex_nonempty 4 z); [| done].
      apply last_Some_elem_of in Ez. by eapply Forall_forall in Hb as [? _].
  - assert (Hm' : negb (byte_of m =? 10) = true) by (by destruct (is_mode_cases m Hm) as [-> | [-> | ->]]).
    rewrite <- Hj. apply join_chars; [done |]. constructor; [simpl; by rewrite Hm' |].
    eapply Forall_impl; [exact Hx |]. intros f.
    apply all_chars_imp. intros x Hxx. apply negb_true_iff, Z.eqb_neq. intros E.
    apply (hex_no_space x x Hxx); [lia | done].
  - by destruct (is_mode_cases m Hm) as [-> | [-> | ->]].
Qed.

(** What the round does with that line. *)
Lemma break_typed c w m bounds rest :
  is_mode m = true -> bounds <> [] -> Forall word bounds ->
  input (console w) = bytes_of (break_line m bounds) ++ 10 :: rest ->
  round c w = stay (exec_break (break_args m bounds) (remember BREAK (break_args m bounds) rest (print "> " w))).
Proof.
  intros Hm Hne Hb Hi. unfold CliDbg.round. rewrite console_print, Hi, parse_break by done. cbn [rbind].
  rewrite console_remember. rewrite decide_False by done. cbn [cli_cmd cli_args].
  replace (cmd_infotab BREAK) with (Some (mkInfo "break" "set a breakpoint" "b" 2)) by (by vm_compute).
  destruct bounds; [done |]. done.
Qed.

Lemma exec_break_range m a rest w : is_mode m = true -> word a -> Forall word rest ->
  exec_break (break_args m (a :: rest)) w =
  match head rest with
  | Some b => if b <=? a then Ok (print_line "Invalid range." w)
              else let '(i, w) := setbreak (mkBreakpoint a b m) w in
                   Ok (print_line ("Set breakpoint #" +:+ fmt_dec i +:+ " to " +:+ fmt_hex 4 a +:+ "-"
                                   +:+ fmt_hex 4 b +:+ ".") w)
  | None => Ok (print_line "Invalid range." w)
  end.
Proof.
  intros Hm Ha Hr. unfold exec_break. cbn [break_args fmap list_fmap arg lookup list_lookup rbind].
  assert (Hmode : negb (bool_decide (m = "r"%char) || bool_decide (m = "w"%char) || bool_decide (m = "x"%char)) = false)
    by (apply negb_false_iff; exact Hm).
  cbn [first_char char String.length]. rewrite Hmode, strconv16_hex by done. simpl.
  destruct rest as [| b rest]; simpl.
  - by rewrite Z.leb_refl.
  - inversion_clear Hr. by rewrite strconv16_hex.
Qed.
End Repl.
