(* ===== verification/Emulator.v ===== *)
(** * The emulator ([emu/core/emulator.hpp], [emu/core/emulator.cpp])

    The machine put together: the two buses with the closures of the CPU, the
    PPU and the cartridge, the constructor, [insert_rom], and the main loop that
    runs the PPU three cycles for each cycle of the CPU.

    Everything behind the CPU's bus is the record [World]; it is an instance of
    the interface [Memory] that the CPU is written against.  The callbacks of the
    CPU act on it too, so it holds the debugger, which is a member of the
    emulator, and what the callback that [main] gives the debugger captures: the
    console and the text printed.  [World] is an instance of [DebugTarget] and
    [Terminal], the interfaces of the debugger and of its command line. *)

From stdpp Require Import strings.
From S2P Require Import Prelude HeapArray Bus Fmt InstrInfo Cpu File Cartridge Video Ppu.
From S2P Require Debugger CliDbg.
Open Scope Z_scope.

Definition CPUBUS_SIZE : Z := 0x10000.
Definition RAM_SIZE : Z := 0x800.
Definition RAM_START : Z := 0.
Definition PPUREG_START : Z := 0x2000.
Definition APU_START : Z := 0x4000.

(** ** Behind the CPU's bus *)

(** The closures on the RAM bus: internal RAM and the sound registers
    ([CPU::attach_bus]), the PPU registers ([PPU::attach_bus]), the two areas of
    the cartridge ([Cartridge::attach_bus]). *)
Inductive CHandler := CRam | CApu | CPpuReg | CCartNone | CPrg.

#[export] Instance CHandler_eq_dec : EqDecision CHandler.
Proof. solve_decision. Defined.

Record World := mkWorld {
  rammem : HeapArray;
  rambus : Bus CHandler;
  vrambus : Bus VHandler;
  cartridge : Cartridge;
  ppu : PPU;
  debugger : Debugger.Debugger;
  console : CliDbg.Console;       (** of [main], not of the emulator *)
  output : list Output;           (** what was printed, latest first *)
}.

Definition set_rammem m w :=
  mkWorld m (rambus w) (vrambus w) (cartridge w) (ppu w) (debugger w) (console w) (output w).
Definition set_ppu p w :=
  mkWorld (rammem w) (rambus w) (vrambus w) (cartridge w) p (debugger w) (console w) (output w).
Definition set_debugger d w :=
  mkWorld (rammem w) (rambus w) (vrambus w) (cartridge w) (ppu w) d (console w) (output w).
Definition set_console c w :=
  mkWorld (rammem w) (rambus w) (vrambus w) (cartridge w) (ppu w) (debugger w) c (output w).
Definition add_output o w :=
  mkWorld (rammem w) (rambus w) (vrambus w) (cartridge w) (ppu w) (debugger w) (console w) (o :: output w).
Definition set_slots (b : Bus CHandler) (vb : Bus VHandler) (c : Cartridge) w :=
  mkWorld (rammem w) b vb c (ppu w) (debugger w) (console w) (output w).

(** [CPU::read_apu_reg], [CPU::write_apu_reg] *)
Definition read_apu_reg (addr : Z) : Z := 0.
Definition write_apu_reg (addr data : Z) (w : World) : World := w.

#[export] Instance World_Memory : Memory World := {
  mread addr w :=
    let? h := Bus.reader (rambus w) addr in
    match h with
    | CRam => let? v := get (rammem w) (Z.land addr 0x7FF) in Ok (v, w)
    | CApu => Ok (read_apu_reg addr, w)
    | CPpuReg =>
        let? '(v, p) := readreg (vrambus w) (cartridge w) (0x2000 + Z.land addr 0x7) (ppu w) in
        Ok (v, set_ppu p w)
    | CCartNone => Ok (0, w)
    | CPrg => let? v := read_prgrom (cartridge w) addr in Ok (v, w)
    end;
  mwrite addr data w :=
    let? h := Bus.writer (rambus w) addr in
    match h with
    | CRam => let? m := set (rammem w) (Z.land addr 0x7FF) data in Ok (set_rammem m w)
    | CApu => Ok (write_apu_reg addr data w)
    | CPpuReg =>
        let? p := writereg (vrambus w) (0x2000 + Z.land addr 0x7) data (ppu w) in
        Ok (set_ppu p w)
    | CCartNone => Ok w
    | CPrg => Ok w
    end;
}.

(** What the debugger, a friend class, reaches through its pointer [emu]. *)
#[export] Instance World_DebugTarget : Debugger.DebugTarget World := {
  Debugger.dbg := debugger;
  Debugger.set_dbg := set_debugger;
  Debugger.emit := add_output;
  Debugger.ppu_status w := Ppu.status (vrambus w) (cartridge w) (ppu w);
  Debugger.readreg_no_sideeff a w := Ppu.readreg_no_sideeff (vrambus w) (cartridge w) a (ppu w);
}.

#[export] Instance World_Terminal : CliDbg.Terminal World := {
  CliDbg.console := console;
  CliDbg.set_console := set_console;
}.

(** [CPU::attach_bus] *)
Definition attach_cpu (b : Bus CHandler) : Res (Bus CHandler) :=
  let? b := Bus.map b RAM_START PPUREG_START CRam CRam in
  Bus.map b APU_START CARTRIDGE_START CApu CApu.

(** [PPU::attach_bus], the RAM bus; [Ppu.attach_vrambus] is the VRAM bus. *)
Definition attach_ppu_regs (b : Bus CHandler) : Res (Bus CHandler) :=
  Bus.map b PPUREG_START APU_START CPpuReg CPpuReg.

(** [Cartridge::attach_bus] *)
Definition attach_cartridge (b : Bus CHandler) (vb : Bus VHandler) : Res (Bus CHandler * Bus VHandler) :=
  let? b := Bus.map b CARTRIDGE_START 0x8000 CCartNone CCartNone in
  let? b := Bus.map b 0x8000 CPUBUS_SIZE CPrg CPrg in
  let? vb := Bus.map vb PT_START NT_START VChr VChr in
  Ok (b, vb).

(** ** The machine *)

Record Emulator := mkEmulator {
  cpu : CPU;
  world : World;
  ecycle : Z;    (** [int cycle] *)
  nmi : bool;
}.

(** [Emulator()]; [fr1] and [fr2] are the contents of the lookup tables. *)
Definition new_emulator (fr1 fr2 : Z -> Z) : Res Emulator :=
  let? b := attach_cpu (Bus.new_bus fr1 CPUBUS_SIZE) in
  let? b := attach_ppu_regs b in
  let? vb := attach_vrambus (Bus.new_bus fr2 PPUBUS_SIZE) in
  Ok (mkEmulator init_cpu (mkWorld (static_array RAM_SIZE) b vb init_cartridge init_ppu
    Debugger.init_debugger (CliDbg.init_console []) []) 0 false).

(** [Emulator::insert_rom]; a rejected file has still changed the cartridge. *)
Definition insert_rom (fr : Z -> Z) (e : Emulator) (romfile : File) : Res (bool * Emulator * File) :=
  let w := world e in
  let? '(ok, c, f) := parse fr (cartridge w) romfile in
  if negb ok then
    Ok (false, mkEmulator (cpu e) (set_slots (rambus w) (vrambus w) c w) (ecycle e) (nmi e), f)
  else
    let? vb := set_mirroring (vrambus w) (mirroring c) in
    let? '(b, vb) := attach_cartridge (rambus w) vb in
    Ok (true, mkEmulator (cpu e) (set_slots b vb c w) (ecycle e) (nmi e), f).

(** [Emulator::set_screen], [Emulator::power], [Emulator::reset] *)
Definition set_screen (c : option Canvas) (e : Emulator) : Emulator :=
  mkEmulator (cpu e) (set_ppu (Ppu.set_screen c (ppu (world e))) (world e)) (ecycle e) (nmi e).

(** [Emulator::enable_debugger]: the fetch callback that the CPU gets when
    [callb] is registered with the debugger. *)
Definition enable_debugger `{F : Fmt} (callb : Debugger.Event -> CPU -> World -> Res World)
    : option (CPU -> Status -> Z -> AccessMode -> World -> Res World) :=
  Some (Debugger.fetch_callback (Some callb)).

Section Run.
Variable cb : option (CPU -> Status -> Z -> AccessMode -> World -> Res World).
Variable shl_undefined : Z -> Z -> Z.

Definition power (e : Emulator) : Res Emulator :=
  let? '(_, (c, w)) := Cpu.power cb (cpu e, world e) in
  let? p := Ppu.power (ppu w) in
  Ok (mkEmulator c (set_ppu p w) (ecycle e) (nmi e)).

Definition reset (e : Emulator) : Res Emulator :=
  let? '(_, (c, w)) := Cpu.reset cb (cpu e, world e) in
  let? p := Ppu.reset (ppu w) in
  Ok (mkEmulator c (set_ppu p w) (ecycle e) (nmi e)).

(** The interrupt callback: [nmi = true; cpu.fire_nmi();] *)
Definition on_nmi (x : bool * CPU) : bool * CPU := (true, fire_nmi (snd x)).

(** [for (int i = 0; i < n; i++) ppu.run();] *)
Fixpoint ppu_runs (n : nat) (vb : Bus VHandler) (cart : Cartridge) (s : PPU * (bool * CPU))
    : Res (PPU * (bool * CPU)) :=
  match n with
  | O => Ok s
  | S n' => let? s' := Ppu.run vb cart shl_undefined (Some on_nmi) s in ppu_runs n' vb cart s'
  end.

(** The result of a signed 32-bit operation. *)
Definition int32 (z : Z) : Res Z :=
  if (- 2 ^ 31 <=? z) && (z <? 2 ^ 31) then Ok z else Err SignedOverflow.

(** [Emulator::run] *)
Definition run (e : Emulator) : Res Emulator :=
  let? '(_, (c, w)) := Cpu.run cb (cpu e, world e) in
  let curr_cycle := s32 (cycles (r c)) in
  let? cycle_diff := int32 (curr_cycle - ecycle e) in
  let? n := int32 (cycle_diff * 3) in
  let? '(p, (nm, c)) := ppu_runs (Z.to_nat n) (vrambus w) (cartridge w) (ppu w, (nmi e, c)) in
  Ok (mkEmulator c (set_ppu p w) curr_cycle nm).

(** The loop of [Emulator::run_frame]: [while (!nmi) run();] *)
Fixpoint run_until_nmi (fuel : nat) (e : Emulator) : Res Emulator :=
  if nmi e then Ok e
  else match fuel with
       | O => Err OutOfFuel
       | S n => let? e' := run e in run_until_nmi n e'
       end.

(** Rounds of the loop of [run_frame] that are always enough: a third of a frame,
    each round being at least three ticks. *)
Definition frame_fuel : nat := Z.to_nat 29781.

(** [Emulator::debugger_has_quit] *)
Definition debugger_has_quit (e : Emulator) : bool := Debugger.quit (debugger (world e)).

(** [Emulator::run_frame] *)
Definition run_frame (fuel : nat) (e : Emulator) : Res Emulator :=
  if debugger_has_quit e then Ok e
  else
    let? e' := run_until_nmi fuel e in
    Ok (mkEmulator (cpu e') (world e') (ecycle e') false).
End Run.
