(* ===== verification/EmulatorInv.v ===== *)
(** * The assembled machine satisfies the interfaces of its parts

    The buses that the constructor and [insert_rom] build route every address to
    the component that owns it; the world behind them satisfies what the CPU
    ([MemoryOk], [RamLaws]) and the PPU ([vbus_ok], [chr_ok]) rely on. *)

From stdpp Require Import strings.
From S2P Require Import Prelude HeapArray Bus InstrInfo Cpu CpuInv CpuStack File Cartridge.
From S2P Require Import Video Ppu PpuInv PpuSched Emulator.
Open Scope Z_scope.

(** ** The invariant of the world *)

(** The owner of each address of the CPU's bus. *)
Definition owner (a : Z) : CHandler :=
  if a <? PPUREG_START then CRam else if a <? APU_START then CPpuReg
  else if a <? CARTRIDGE_START then CApu else if a <? 0x8000 then CCartNone else CPrg.

Definition rambus_ok (b : Bus CHandler) : Prop :=
  forall a, word a -> Bus.reader b a = Ok (owner a) /\ Bus.writer b a = Ok (owner a).

(** PRG ROM of one to four banks. *)
Definition prg_ok (c : Cartridge) : Prop :=
  0x4000 <= len (prgrom c) <= 0x10000 /\ forall i, 0 <= i < len (prgrom c) -> byte (cell (prgrom c) i).

Record world_ok (w : World) : Prop := {
  wo_ram : mem_ok RAM_SIZE (rammem w);
  wo_rambus : rambus_ok (rambus w);
  wo_vrambus : vbus_ok (vrambus w);
  wo_prg : prg_ok (cartridge w);
  wo_chr : chr_ok (cartridge w);
  wo_ppu : ppu_ok (ppu w);
}.

Lemma land_7ff a : 0 <= a -> Z.land a 0x7FF = a mod 0x800 /\ 0 <= Z.land a 0x7FF < RAM_SIZE.
Proof.
  intros Ha. change 0x7FF with (Z.ones 11). rewrite Z.land_ones by lia. change (2 ^ 11) with 0x800.
  split; [done |]. by apply (Z.mod_pos_bound a 0x800).
Qed.

(** ** PPU registers behind the bus *)

(** Outside its size the VRAM bus faults. *)
Lemma vread_out vb c p a : vbus_ok vb -> PPUBUS_SIZE <= a < 65536 -> vread vb c p a = Err OutOfBounds.
Proof.
  intros Hb Ha. unfold vread, Bus.reader, Bus.route. pose proof (vb_size _ Hb) as Hs.
  unfold Bus.size, HeapArray.size, PPUBUS_SIZE in *. rewrite u16_id by dlia.
  by rewrite get_out by lia.
Qed.

Lemma vwrite_out vb p a d : vbus_ok vb -> PPUBUS_SIZE <= a < 65536 -> vwrite vb p a d = Err OutOfBounds.
Proof.
  intros Hb Ha. unfold vwrite, Bus.writer, Bus.route. pose proof (vb_size _ Hb) as Hs.
  unfold Bus.size, HeapArray.size, PPUBUS_SIZE in *. rewrite u16_id by dlia.
  by rewrite get_out by lia.
Qed.

Lemma readreg_inv vb c which p v p' : vbus_ok vb -> chr_ok c -> ppu_ok p ->
  readreg vb c which p = Ok (v, p') -> byte v /\ good p p'.
Proof.
  intros Hb Hc Hp H. pose proof (ok_addr _ (ok_vram p Hp)) as Hw.
  destruct (readreg_ok vb c Hb Hc which p Hp) as (v1 & p1 & E & ?).
  - intros ->. destruct (decide (addr (vram p) < PPUBUS_SIZE)) as [| Hge]; [done | exfalso].
    unfold PPUBUS_SIZE in Hge. unfold readreg in H.
    replace (addr (vram p) <? 0x3F00) with false in H by (symmetry; apply Z.ltb_ge; lia).
    rewrite vread_out in H; [done | done | unfold PPUBUS_SIZE; unfold word in Hw; lia].
  - rewrite E in H. by simplify_eq.
Qed.

Lemma writereg_inv vb c which d p p' : vbus_ok vb -> chr_ok c -> ppu_ok p -> byte d ->
  writereg vb which d p = Ok p' -> good p p'.
Proof.
  intros Hb Hc Hp Hd H. pose proof (ok_addr _ (ok_vram p Hp)) as Hw.
  destruct (writereg_ok vb Hb which d p Hp) as (p1 & E & ?); [| done | rewrite E in H; by simplify_eq].
  intros ->. destruct (decide (addr (vram p) < PPUBUS_SIZE)) as [| Hge]; [done | exfalso].
  unfold writereg in H. rewrite vwrite_out in H; [done | done |].
  change (PPUBUS_SIZE <= addr (vram p) < 65536). unfold word in Hw. lia.
Qed.

(** ** The CPU's interface *)

Lemma mread_world w a : world_ok w -> word a ->
  mread a w = match owner a with
    | CRam => Ok (cell (rammem w) (a mod 0x800), w)
    | CPpuReg => let? '(v, p) := readreg (vrambus w) (cartridge w) (0x2000 + Z.land a 0x7) (ppu w) in
                 Ok (v, set_ppu p w)
    | CPrg => let? v := read_prgrom (cartridge w) a in Ok (v, w)
    | _ => Ok (0, w)
    end.
Proof.
  intros Hw Ha. cbn [mread World_Memory]. destruct (wo_rambus w Hw a Ha) as [-> _]. cbn [rbind].
  destruct (land_7ff a ltac:(apply Ha)) as [E Hr].
  destruct (owner a); try done. rewrite get_in by (rewrite (proj1 (wo_ram w Hw)); done).
  by rewrite E.
Qed.

Lemma mwrite_world w a d : world_ok w -> word a ->
  mwrite a d w = match owner a with
    | CRam => let? m := set (rammem w) (a mod 0x800) d in Ok (set_rammem m w)
    | CPpuReg => let? p := writereg (vrambus w) (0x2000 + Z.land a 0x7) d (ppu w) in Ok (set_ppu p w)
    | _ => Ok w
    end.
Proof.
  intros Hw Ha. cbn [mwrite World_Memory]. destruct (wo_rambus w Hw a Ha) as [_ ->]. cbn [rbind].
  destruct (land_7ff a ltac:(apply Ha)) as [-> _]. by destruct (owner a).
Qed.

Lemma world_set_ppu w p : world_ok w -> ppu_ok p -> world_ok (set_ppu p w).
Proof. intros [] Hp. by constructor. Qed.

(** The bytes of PRG ROM. *)
Lemma read_prgrom_high c a : prg_ok c -> 0xC000 <= a < 0x10000 ->
  read_prgrom c a = Ok (cell (prgrom c) (len (prgrom c) - 0x4000 + (a - 0xC000))).
Proof.
  intros [Hs _] Ha. unfold read_prgrom, HeapArray.size.
  replace (u16 (u16 (len (prgrom c) - 0x8000) + u16 (a - 0x8000)))
    with (len (prgrom c) - 0x4000 + (a - 0xC000)) by dlia.
  apply get_in. lia.
Qed.

Lemma read_prgrom_byte c a v : prg_ok c -> read_prgrom c a = Ok v -> byte v.
Proof. intros [_ Hb] H. unfold read_prgrom in H. apply get_Ok in H as [Hi ->]. by apply Hb. Qed.

#[export, refine] Instance World_MemoryOk : MemoryOk World := { winv := world_ok }.
Proof.
  - intros a w v w' Ha Hw H. rewrite mread_world in H by done.
    destruct (owner a); [| | | |].
    + injection H as <- <-. split; [| done]. apply (wo_ram w Hw). by apply (Z.mod_pos_bound a 0x800).
    + injection H as <- <-. split; [unfold byte; lia | done].
    + apply rbind_Ok in H as ([v1 p1] & E & [= <- <-]).
      apply readreg_inv in E as [Hv Hg]; [| apply Hw ..].
      split; [done | apply world_set_ppu; [done | apply Hg]].
    + injection H as <- <-. split; [unfold byte; lia | done].
    + apply rbind_Ok in H as (v1 & E & [= <- <-]). split; [| done].
      eapply read_prgrom_byte; [apply Hw | done].
  - intros a d w w' Ha Hd Hw H. rewrite mwrite_world in H by done.
    destruct (owner a); try by simplify_eq.
    + apply rbind_Ok in H as (m & E & [= <-]).
      destruct (mem_set _ (rammem w) (a mod 0x800) d (wo_ram w Hw)) as (m' & E' & Hm);
        [apply (Z.mod_pos_bound a 0x800); lia | done |].
      rewrite E in E'. simplify_eq. destruct Hw. by constructor.
    + apply rbind_Ok in H as (p & E & [= <-]). eapply writereg_inv in E; [| apply Hw .. | done].
      apply world_set_ppu; [done | apply E].
Defined.

(** The byte at an address of RAM or of the upper half of PRG ROM. *)
Definition world_peek (w : World) (a : Z) : Z :=
  if a <? 0x2000 then cell (rammem w) (a mod 0x800)
  else cell (prgrom (cartridge w)) (len (prgrom (cartridge w)) - 0x4000 + (a - 0xC000)).

#[export, refine] Instance World_RamLaws : RamLaws World := {
  quiet a := 0 <= a < 0x2000 \/ 0xC000 <= a < 0x10000;
  peek := world_peek;
}.
Proof.
  - by left.
  - unfold NMI_VEC, IRQ_BRK_VEC. intros a Ha. right. lia.
  - intros a w Hw Ha. rewrite mread_world by (done || unfold word; lia).
    unfold world_peek, owner, PPUREG_START, APU_START, CARTRIDGE_START. destruct Ha as [Ha | Ha].
    + by zdecide_true (a <? 0x2000).
    + zdecide_false (a <? 0x2000). zdecide_false (a <? 0x4000). zdecide_false (a <? 0x4020).
      zdecide_false (a <? 0x8000). rewrite read_prgrom_high; [done | apply Hw | lia].
  - intros a v w Hw Ha Hv. rewrite mwrite_world by (done || unfold word; lia).
    unfold owner, PPUREG_START. zdecide_true (a <? 0x2000).
    destruct (mem_set _ (rammem w) (a mod 0x800) v (wo_ram w Hw)) as (m & E & Hm);
      [apply (Z.mod_pos_bound a 0x800); lia | done |].
    rewrite E. cbn [rbind]. eexists. split; [done |]. split; [destruct Hw; by constructor |].
    apply set_Ok in E as (_ & _ & Hc). unfold world_peek. simpl. split.
    + intros b Hb. zdecide_true (b <? 0x2000). apply Hc.
    + intros b _ Hb. by zdecide_false (b <? 0x2000).
  - intros a v w Hw Ha Hv. rewrite mwrite_world by (done || unfold word; lia).
    unfold owner, PPUREG_START, APU_START, CARTRIDGE_START.
    zdecide_false (a <? 0x2000). zdecide_false (a <? 0x4000). zdecide_true (a <? 0x4020). by exists w.
  - intros a w v w' Hw Ha H b Hb. rewrite mread_world in H by done.
    destruct (owner a); try by simplify_eq.
    + by apply rbind_Ok in H as ([v1 p1] & _ & [= <- <-]).
    + by apply rbind_Ok in H as (v1 & _ & [= <- <-]).
Defined.

(** ** The buses that the constructor and [insert_rom] build *)

Ltac consts := unfold owner, RAM_START, PPUREG_START, APU_START, CARTRIDGE_START, CPUBUS_SIZE,
  PPUBUS_SIZE, PAL_START, NT_START, PT_START, TABSIZ in *.

(** Both closures of an address, for the areas mapped so far. *)
Definition routed {H} (b : Bus H) (f : Z -> H) (a : Z) : Prop :=
  Bus.reader b a = Ok (f a) /\ Bus.writer b a = Ok (f a) /\ Bus.mapped b a.

(** One more area: those already routed outside it stay so. *)
Lemma routed_next {H} (b : Bus H) n f (P : Z -> Prop) start end_ h :
  (forall a, P a -> routed b f a) -> Bus.areas b n ->
  0 <= n < TABSIZ -> 0 <= start <= end_ -> end_ <= Bus.size b ->
  (forall a, start <= a < end_ -> f a = h) ->
  exists b', Bus.map b start end_ h h = Ok b' /\ Bus.areas b' (n + 1) /\ Bus.size b' = Bus.size b /\
    (forall a, cell (Bus.lookup b') a = if (start <=? a) && (a <? end_) then n else cell (Bus.lookup b) a) /\
    (forall a, P a \/ start <= a < end_ -> routed b' f a).
Proof.
  intros Hold Ha Hn Hse He Hnew.
  destruct (map_next b n start end_ h h Ha Hn Hse He) as (b' & E & Ha' & Hs & Hc & Hin & Hout).
  exists b'. split_and!; try done. intros a HP. unfold routed.
  destruct (decide (start <= a < end_)) as [Hra | Hra].
  - rewrite Hnew by done. by apply Hin.
  - destruct HP as [HP | HP]; [| done]. destruct (Hold a HP) as (E1 & E2 & E3).
    destruct (Hout a E3 Hra) as (-> & -> & E3'). done.
Qed.

(** The owners of the areas. *)
Lemma owner_areas a :
  (RAM_START <= a < PPUREG_START -> owner a = CRam) /\
  (APU_START <= a < CARTRIDGE_START -> owner a = CApu) /\
  (PPUREG_START <= a < APU_START -> owner a = CPpuReg) /\
  (CARTRIDGE_START <= a < 0x8000 -> owner a = CCartNone) /\
  (0x8000 <= a < CPUBUS_SIZE -> owner a = CPrg).
Proof. consts. split_and!; intros Ha; zcases; exfalso; lia. Qed.

(** The RAM bus after the constructor. *)
Lemma constructor_rambus fr :
  exists b, (let? b := attach_cpu (Bus.new_bus fr CPUBUS_SIZE) in attach_ppu_regs b) = Ok b /\
    Bus.areas b 3 /\ Bus.size b = CPUBUS_SIZE /\
    forall a, 0 <= a < CARTRIDGE_START -> routed b owner a.
Proof.
  destruct (areas_new (H := CHandler) fr CPUBUS_SIZE) as (A0 & S0 & _). unfold attach_cpu, attach_ppu_regs.
  set (b0 := Bus.new_bus fr CPUBUS_SIZE) in *. clearbody b0.
  destruct (routed_next b0 0 owner (fun _ => False) RAM_START PPUREG_START CRam ltac:(done) A0)
    as (b1 & -> & A1 & S1 & _ & R1);
    [by consts | by consts | rewrite S0; by consts | intros; by apply owner_areas |].
  cbn [rbind]. rewrite S0 in S1.
  destruct (routed_next b1 1 owner _ APU_START CARTRIDGE_START CApu R1 A1)
    as (b2 & -> & A2 & S2 & _ & R2);
    [by consts | by consts | rewrite S1; by consts | intros; by apply owner_areas |].
  cbn [rbind]. rewrite S1 in S2.
  destruct (routed_next b2 2 owner _ PPUREG_START APU_START CPpuReg R2 A2)
    as (b3 & -> & A3 & S3 & _ & R3);
    [by consts | by consts | rewrite S2; by consts | intros; by apply owner_areas |].
  rewrite S2 in S3. exists b3. split_and!; [done | done | done |].
  intros a Ha. apply R3. consts. lia.
Qed.

(** The VRAM bus after the constructor. *)
Definition vowner (a : Z) : VHandler :=
  if a <? NT_START then VChr else if a <? PAL_START then VNtNone else VPal.

Lemma constructor_vrambus fr :
  exists b, attach_vrambus (Bus.new_bus fr PPUBUS_SIZE) = Ok b /\
    Bus.areas b 2 /\ Bus.size b = PPUBUS_SIZE /\
    (forall a, NT_START <= a < PPUBUS_SIZE -> routed b vowner a) /\
    (forall a, NT_START <= a < PAL_START -> cell (Bus.lookup b) a = 1) /\
    (forall a, PAL_START <= a < PPUBUS_SIZE -> cell (Bus.lookup b) a = 0) /\
    (forall a, a < NT_START -> cell (Bus.lookup b) a = fr a).
Proof.
  destruct (areas_new (H := VHandler) fr PPUBUS_SIZE) as (A0 & S0 & C0). unfold attach_vrambus.
  set (b0 := Bus.new_bus fr PPUBUS_SIZE) in *. clearbody b0.
  destruct (routed_next b0 0 vowner (fun _ => False) PAL_START 0x4000 VPal ltac:(done) A0)
    as (b1 & -> & A1 & S1 & C1 & R1);
    [by consts | by consts | rewrite S0; by consts | unfold vowner; consts; intros; zcases; exfalso; lia |].
  cbn [rbind]. rewrite S0 in S1.
  destruct (routed_next b1 1 vowner _ NT_START PAL_START VNtNone R1 A1)
    as (b2 & -> & A2 & S2 & C2 & R2);
    [by consts | by consts | rewrite S1; by consts | unfold vowner; consts; intros; zcases; exfalso; lia |].
  rewrite S1 in S2. exists b2. split_and!; [done | done | done | ..].
  - intros a Ha. apply R2. consts. lia.
  - intros a Ha. rewrite C2. consts. zcases.
  - intros a Ha. rewrite C2, C1. consts. zcases.
  - intros a Ha. rewrite C2, C1, C0. consts. zcases.
Qed.

(** The mirroring and the cartridge. *)
Lemma cartridge_rambus b : Bus.areas b 3 -> Bus.size b = CPUBUS_SIZE ->
  (forall a, 0 <= a < CARTRIDGE_START -> routed b owner a) ->
  exists b', (let? b := Bus.map b CARTRIDGE_START 0x8000 CCartNone CCartNone in
              Bus.map b 0x8000 CPUBUS_SIZE CPrg CPrg) = Ok b' /\ rambus_ok b'.
Proof.
  intros A0 S0 R0.
  destruct (routed_next b 3 owner _ CARTRIDGE_START 0x8000 CCartNone R0 A0)
    as (b1 & -> & A1 & S1 & _ & R1);
    [by consts | by consts | rewrite S0; by consts | intros; by apply owner_areas |].
  cbn [rbind]. rewrite S0 in S1.
  destruct (routed_next b1 4 owner _ 0x8000 CPUBUS_SIZE CPrg R1 A1)
    as (b2 & -> & A2 & S2 & _ & R2);
    [by consts | by consts | rewrite S1; by consts | intros; by apply owner_areas |].
  exists b2. split; [done |]. intros a Ha.
  destruct (R2 a) as (? & ? & _); [unfold word in Ha; consts; lia | done].
Qed.

(** The handler of the nametables after [set_mirroring]: the new one, unless the
    uninitialised entry before the area happens to hold its number. *)
Definition nt_handler (fr : Z -> Z) (m : Mirroring) : VHandler :=
  if fr 0x1FFF =? 1 then VNtNone else VNtMirror m.

Lemma mirrored_vrambus fr b m :
  m <> OTHER -> Bus.areas b 2 -> Bus.size b = PPUBUS_SIZE ->
  (forall a, NT_START <= a < PPUBUS_SIZE -> routed b vowner a) ->
  (forall a, NT_START <= a < PAL_START -> cell (Bus.lookup b) a = 1) ->
  (forall a, PAL_START <= a < PPUBUS_SIZE -> cell (Bus.lookup b) a = 0) ->
  (forall a, a < NT_START -> cell (Bus.lookup b) a = fr a) ->
  exists b', set_mirroring b m = Ok b' /\ Bus.areas b' 2 /\ Bus.size b' = PPUBUS_SIZE /\
    forall a, NT_START <= a < PPUBUS_SIZE ->
      routed b' (fun a => if a <? PAL_START then nt_handler fr m else VPal) a.
Proof.
  intros Hm [Hwf Ha] Hs Hr Cnt Cpal Clow.
  assert (E : set_mirroring b m = Bus.remap b NT_START PAL_START (VNtMirror m) (VNtMirror m))
    by (by destruct m).
  rewrite E. unfold nt_handler. destruct (Z.eqb_spec (fr 0x1FFF) 1) as [E1 | N1].
  - rewrite remap_refuses; [| by consts | rewrite Hs; by consts |].
    2: { rewrite Clow, Cnt by (by consts). exact E1. }
    exists b. split_and!; try done. intros a Hra. destruct (Hr a Hra) as (R1 & R2 & R3).
    unfold routed. rewrite R1, R2. unfold vowner in *.
    zdecide_false (a <? NT_START). by case_match.
  - destruct (remap_accepts b 1 NT_START PAL_START (VNtMirror m) (VNtMirror m) Hwf)
      as (b' & -> & Hwf' & Hs' & El & Ea & Hin & Hout); [by consts | rewrite Hs; by consts | by consts | done
      | rewrite Clow by (by consts); exact N1 |].
    exists b'. split_and!; [done | split; [done | by rewrite Ea] | congruence |].
    intros a Hra. destruct (Hr a Hra) as (R1 & R2 & R3). unfold routed.
    assert (Hmap : Bus.mapped b' a) by (unfold Bus.mapped in *; by rewrite Hs', El, Ea).
    assert (Hsz : 0 <= a < Bus.size b) by apply R3.
    destruct (Z.ltb_spec a PAL_START) as [Hlt | Hge].
    + destruct (Hin a) as [-> ->]; [done | apply Cnt; lia | done].
    + destruct (Hout a) as [-> ->]; [done | rewrite Cpal by lia; lia |]. rewrite R1, R2.
      unfold vowner. zdecide_false (a <? PAL_START).
      by replace (a <? NT_START) with false by (symmetry; consts; lia).
Qed.

Lemma cartridge_vrambus b h : h <> VChr -> h <> VPal -> Bus.areas b 2 -> Bus.size b = PPUBUS_SIZE ->
  (forall a, NT_START <= a < PPUBUS_SIZE ->
     routed b (fun a => if a <? PAL_START then h else VPal) a) ->
  exists b', Bus.map b PT_START NT_START VChr VChr = Ok b' /\ vbus_ok b' /\
    forall a, NT_START <= a < PAL_START -> Bus.reader b' a = Ok h /\ Bus.writer b' a = Ok h.
Proof.
  intros H1 H2 A0 S0 R0.
  set (f := fun a => if a <? NT_START then VChr else if a <? PAL_START then h else VPal).
  destruct (routed_next b 2 f (fun a => NT_START <= a < PPUBUS_SIZE) PT_START NT_START VChr)
    as (b' & E & A1 & S1 & _ & R1); [| done | by consts | by consts | rewrite S0; by consts
    | intros a Ha; unfold f; by zdecide_true (a <? NT_START) |].
  { intros a Ha. destruct (R0 a Ha) as (E1 & E2 & E3). unfold routed, f.
    zdecide_false (a <? NT_START). done. }
  assert (R : forall a, 0 <= a < PPUBUS_SIZE -> Bus.reader b' a = Ok (f a) /\ Bus.writer b' a = Ok (f a)).
  { intros a Ha. destruct (R1 a) as (? & ? & _); [consts; lia | done]. }
  exists b'. split; [done |].
  assert (Hnt : forall a, NT_START <= a < PAL_START -> Bus.reader b' a = Ok h /\ Bus.writer b' a = Ok h).
  { intros a Ha. destruct (R a) as [-> ->]; [consts; lia |]. unfold f.
    zdecide_false (a <? NT_START). by zdecide_true (a <? PAL_START). }
  split; [| done]. constructor.
  - intros a Ha. destruct (R a) as [-> ->]; [consts; lia |]. unfold f. consts. by zdecide_true (a <? 0x2000).
  - by exists h.
  - intros a Ha. destruct (R a) as [-> ->]; [consts; lia |]. unfold f. consts.
    zdecide_false (a <? 0x2000). by zdecide_false (a <? 0x3F00).
  - congruence.
Qed.

(** ** From nothing to a machine with a cartridge *)

(** An image whose PRG ROM the CPU can address, made of bytes. *)
Record playable (im : Image) : Prop := {
  pl_ok : image_ok im;
  pl_banks : 1 <= im_prg_banks im <= 4;
  pl_prg : Forall byte (im_prg im);
  pl_chr : Forall byte (im_chr im);
}.

Lemma holds_bytes a l : holds a l -> Forall byte l ->
  forall i, 0 <= i < len a -> byte (cell a i).
Proof.
  intros [Hs Hg] Hb i Hi. unfold HeapArray.size in Hs.
  destruct (lookup_lt_is_Some_2 l (Z.to_nat i)) as [v Hv]; [lia |].
  specialize (Hg i v ltac:(lia) Hv). rewrite get_in in Hg by lia. injection Hg as ->.
  by eapply Forall_lookup in Hv.
Qed.

Lemma holds_prg_ok c im : playable im -> holds (prgrom c) (im_prg im) -> prg_ok c.
Proof.
  intros [Him Hb Hp _] Hh. split; [| by apply (holds_bytes _ (im_prg im))].
  destruct Hh as [Hs _]. unfold HeapArray.size in Hs. rewrite Hs, (io_prg im Him). lia.
Qed.

Lemma holds_chr_ok c im : playable im -> holds (chrrom c) (im_chr im) -> chr_ok c.
Proof.
  intros [Him _ _ Hp] Hh. split; [| by apply (holds_bytes _ (im_chr im))].
  destruct Hh as [Hs _]. unfold HeapArray.size in Hs. rewrite Hs, (io_chr im Him).
  pose proof (io_chr_banks im Him). lia.
Qed.

Lemma static_mem_ok n : mem_ok n (static_array n).
Proof. split; [done |]. intros i _. unfold cell. cbn. rewrite lookup_empty. cbn. unfold byte. lia. Qed.

Lemma init_ppu_ok : ppu_ok init_ppu /\ pos_at 0 init_ppu.
Proof.
  split; constructor; try apply static_mem_ok; try done.
Qed.

Lemma init_cpu_ok : cpu_ok init_cpu.
Proof. constructor; simpl; unfold word, byte; lia. Qed.

(** The machine the constructor builds. *)
Record fresh_machine (fr2 : Z -> Z) (e : Emulator) : Prop := {
  fm_cpu : cpu e = init_cpu;
  fm_ppu : ppu (world e) = init_ppu;
  fm_ram : rammem (world e) = static_array RAM_SIZE;
  fm_cart : cartridge (world e) = init_cartridge;
  fm_counters : ecycle e = 0 /\ nmi e = false;
  fm_debugger : debugger (world e) = Debugger.init_debugger;
  fm_rambus : Bus.areas (rambus (world e)) 3 /\ Bus.size (rambus (world e)) = CPUBUS_SIZE /\
    forall a, 0 <= a < CARTRIDGE_START -> routed (rambus (world e)) owner a;
  fm_vrambus : forall m, m <> OTHER -> exists vb', set_mirroring (vrambus (world e)) m = Ok vb' /\
    Bus.areas vb' 2 /\ Bus.size vb' = PPUBUS_SIZE /\
    forall a, NT_START <= a < PPUBUS_SIZE ->
      routed vb' (fun a => if a <? PAL_START then nt_handler fr2 m else VPal) a;
}.

Lemma new_emulator_spec fr1 fr2 : exists e, new_emulator fr1 fr2 = Ok e /\ fresh_machine fr2 e.
Proof.
  destruct (constructor_rambus fr1) as (b & Eb & Ab & Sb & Rb).
  destruct (constructor_vrambus fr2) as (vb & Ev & Av & Sv & Rv & C1 & C0 & Cl).
  unfold new_emulator. apply rbind_Ok in Eb as (b0 & -> & Eb). cbn [rbind]. rewrite Eb, Ev. cbn [rbind].
  eexists. split; [reflexivity |]. constructor; cbn [cpu world ecycle nmi rammem rambus cartridge ppu vrambus debugger].
  1-4: reflexivity.
  - split; reflexivity.
  - reflexivity.
  - split_and!; assumption.
  - intros m Hm. by apply mirrored_vrambus.
Qed.

(** Inserting a playable image into it gives a working machine. *)
Lemma insert_rom_spec fr fr2 e im fname err std s : fresh_machine fr2 e -> playable im ->
  exists e', insert_rom fr e (mkFile (Some (mkFILE std (ines_file im ++ s))) fname err)
      = Ok (true, e', mkFile (Some (mkFILE std s)) fname err) /\
    world_ok (world e') /\ cpu e' = init_cpu /\ ppu (world e') = init_ppu /\
    ecycle e' = 0 /\ nmi e' = false /\
    holds (prgrom (cartridge (world e'))) (im_prg im) /\
    holds (chrrom (cartridge (world e'))) (im_chr im) /\
    (forall a, NT_START <= a < PAL_START ->
      Bus.reader (vrambus (world e')) a = Ok (nt_handler fr2 (if im_vert im then VERT else HORZ))) /\
    debugger (world e') = Debugger.init_debugger.
Proof.
  intros [] Hp. unfold insert_rom, parse. cbn [filbuf rest is_std filname errstr].
  destruct (parse_ines_spec fr (with_name fname (cartridge (world e))) im s) as (c' & -> & H1 & H2 & Hd & _);
    [by rewrite fm_cart0 | apply Hp |].
  cbn [rbind negb]. unfold mirroring. destruct Hd as (_ & Em & _). rewrite Em.
  set (m := if im_vert im then VERT else HORZ).
  destruct (fm_vrambus0 m) as (vb & -> & Av & Sv & Rv); [unfold m; by case_match |]. cbn [rbind].
  destruct fm_rambus0 as (A & S & R). destruct (cartridge_rambus _ A S R) as (b & Eb & Hb).
  unfold attach_cartridge. apply rbind_Ok in Eb as (b1 & -> & Eb). cbn [rbind]. rewrite Eb. cbn [rbind].
  destruct (cartridge_vrambus vb (nt_handler fr2 m)) as (vb' & -> & Hvb & Hnt); [..| done | done | done |].
  1, 2: unfold nt_handler; by destruct (fr2 0x1FFF =? 1).
  cbn [rbind]. eexists. split; [reflexivity |]. cbn [world cpu ecycle nmi ppu cartridge vrambus set_slots].
  destruct fm_counters0. split_and!; try assumption; [| intros a Ha; by apply Hnt].
  constructor; cbn [rammem rambus vrambus cartridge ppu set_slots]; try assumption.
  - rewrite fm_ram0. apply static_mem_ok.
  - by eapply holds_prg_ok.
  - by eapply holds_chr_ok.
  - rewrite fm_ppu0. apply init_ppu_ok.
Qed.

(** ** The accesses that fault *)

(** An access to the data register of the PPU with its address past the VRAM bus. *)
Definition bad_data_access (w : World) (a : Z) : Prop :=
  0x2000 <= a < 0x4000 /\ a mod 8 = 7 /\ PPUBUS_SIZE <= addr (vram (ppu w)).

Lemma readreg_fault vb c which p f : vbus_ok vb -> chr_ok c -> ppu_ok p ->
  readreg vb c which p = Err f <-> f = OutOfBounds /\ which = 0x2007 /\ PPUBUS_SIZE <= addr (vram p).
Proof.
  intros Hb Hc Hp. pose proof (ok_addr _ (ok_vram p Hp)) as Hw. split.
  - intros H. destruct (decide (which = 0x2007 /\ PPUBUS_SIZE <= addr (vram p))) as [[-> Hge] | Hn].
    + unfold readreg in H. unfold PPUBUS_SIZE in Hge.
      replace (addr (vram p) <? 0x3F00) with false in H by (symmetry; apply Z.ltb_ge; lia).
      rewrite vread_out in H by (done || (unfold PPUBUS_SIZE, word in *; lia)).
      injection H as <-. split_and!; [done | done | exact Hge].
    + destruct (readreg_ok vb c Hb Hc which p Hp) as (v & p' & E & _); [intros ->; lia |]. congruence.
  - intros (-> & -> & Hge). unfold readreg.
    replace (addr (vram p) <? 0x3F00) with false by (symmetry; apply Z.ltb_ge; unfold PPUBUS_SIZE in Hge; lia).
    by rewrite vread_out by (done || (unfold PPUBUS_SIZE, word in *; lia)).
Qed.

Lemma writereg_fault vb which d p f : vbus_ok vb -> ppu_ok p -> byte d ->
  writereg vb which d p = Err f <-> f = OutOfBounds /\ which = 0x2007 /\ PPUBUS_SIZE <= addr (vram p).
Proof.
  intros Hb Hp Hd. pose proof (ok_addr _ (ok_vram p Hp)) as Hw. split.
  - intros H. destruct (decide (which = 0x2007 /\ PPUBUS_SIZE <= addr (vram p))) as [[-> Hge] | Hn].
    + unfold writereg in H. rewrite vwrite_out in H by (done || (simpl; unfold PPUBUS_SIZE, word in *; lia)).
      injection H as <-. split_and!; [done | done | exact Hge].
    + destruct (writereg_ok vb Hb which d p Hp) as (p' & E & _); [intros ->; lia | done |]. congruence.
  - intros (-> & -> & Hge). unfold writereg. by rewrite vwrite_out by (done || (simpl; unfold PPUBUS_SIZE, word in *; lia)).
Qed.

(** The register an address of the PPU's area selects. *)
Lemma ppu_register a : 0 <= a -> (0x2000 + Z.land a 0x7 = 0x2007 <-> a mod 8 = 7).
Proof.
  intros Ha. replace (Z.land a 7) with (a mod 8) by (symmetry; apply (Z.land_ones a 3); lia). lia.
Qed.

Lemma read_prgrom_fault c a f : prg_ok c -> 0x8000 <= a < 0x10000 ->
  read_prgrom c a = Err f <-> f = OutOfBounds /\ a + len (prgrom c) < 0x10000.
Proof.
  intros [Hs _] Ha. unfold read_prgrom, HeapArray.size.
  destruct (decide (a + len (prgrom c) < 0x10000)).
  - rewrite get_out by dlia. split; [by intros [= <-] | by intros [-> _]].
  - rewrite get_in by dlia. split; [done | lia].
Qed.

Lemma rbind_Err {A B} (x : Res A) (k : A -> Res B) f :
  (forall a g, k a <> Err g) -> (let? a := x in k a) = Err f <-> x = Err f.
Proof. intros Hk. destruct x as [a | g]; simpl; [split; [intros H; by apply Hk in H | done] |]. split; by intros [= ->]. Qed.

Lemma world_read_fault w a f : world_ok w -> word a ->
  mread a w = Err f <-> f = OutOfBounds /\
    (bad_data_access w a \/ (0x8000 <= a /\ a + len (prgrom (cartridge w)) < 0x10000)).
Proof.
  intros Hw Ha. rewrite mread_world by done. unfold word in Ha. unfold bad_data_access.
  pose proof (wo_prg w Hw) as Hprg. destruct (decide (0x2000 <= a < 0x4000)) as [Hr | Hr].
  { replace (owner a) with CPpuReg by (symmetry; apply owner_areas; done).
    rewrite rbind_Err by (by intros []). rewrite readreg_fault by apply Hw.
    rewrite ppu_register by lia. split; [intros (? & ? & ?) | intros (? & [? | ?])]; split_and!; try tauto; lia. }
  destruct (decide (0x8000 <= a)) as [Hh | Hh].
  { replace (owner a) with CPrg by (symmetry; apply owner_areas; split; [done | apply Ha]).
    rewrite rbind_Err by done. rewrite read_prgrom_fault by (done || lia). tauto. }
  split; [| intros (_ & [? | ?]); exfalso; lia]. intros H. exfalso. revert H. unfold owner.
  repeat case_match; bool_hyps; try done; unfold PPUREG_START, APU_START in *; lia.
Qed.

Lemma world_write_fault w a d f : world_ok w -> word a -> byte d ->
  mwrite a d w = Err f <-> f = OutOfBounds /\ bad_data_access w a.
Proof.
  intros Hw Ha Hd. rewrite mwrite_world by done. unfold word in Ha. unfold bad_data_access.
  destruct (decide (0x2000 <= a < 0x4000)) as [Hr | Hr].
  { replace (owner a) with CPpuReg by (symmetry; apply owner_areas; done).
    rewrite rbind_Err by done. rewrite writereg_fault by (apply Hw || done).
    rewrite ppu_register by lia. split; [intros (? & ? & ?) | intros (? & ?)]; split_and!; try tauto; lia. }
  split; [| intros (_ & ?); exfalso; lia]. intros H. exfalso. revert H. unfold owner.
  repeat case_match; bool_hyps; try done; unfold PPUREG_START, APU_START in *; try lia.
  destruct (mem_set _ (rammem w) (a mod 0x800) d (wo_ram w Hw)) as (m' & -> & _);
    [apply (Z.mod_pos_bound a 0x800); lia | done | done].
Qed.

(** Every fault of the CPU in the machine is one of these. *)
Lemma cpu_fault_oob c w f : cpu_ok c -> world_ok w -> Cpu.run None (c, w) = Err f -> f = OutOfBounds.
Proof.
  intros Hc Hw H.
  destruct (run_faults (MemOk := World_MemoryOk) None ltac:(done) c w f Hc Hw H)
    as [a w1 Ha Hw1 E | a d w1 Ha Hd Hw1 E | ? ? ? ? ? ? [=]].
  - by apply world_read_fault in E as [-> _].
  - by apply world_write_fault in E as [-> _].
Qed.

