(* ===== verification/EmulatorRun.v ===== *)
(** * The main loop

    [Emulator::run] keeps the PPU three ticks ahead for every CPU cycle, and
    [Emulator::run_frame] ends: whatever the program in the cartridge does, the
    interrupt of the PPU comes within one frame. *)

From S2P Require Import Prelude HeapArray Bus InstrInfo Cpu CpuFacts CpuCycles CpuInv CpuStack.
From S2P Require Import Cartridge Video Ppu PpuInv PpuSched Emulator EmulatorInv.
Open Scope Z_scope.

(** ** Many ticks *)

Fixpoint ticks (n : nat) (t : Z) : Z :=
  match n with O => t | S n' => ticks n' (next_tick t) end.

(** One of the next [n] ticks raises the interrupt. *)
Fixpoint fires (n : nat) (t : Z) : bool :=
  match n with O => false | S n' => nmi_tick t || fires n' (next_tick t) end.

Lemma ticks_range n t : 0 <= t <= last_tick -> 0 <= ticks n t <= last_tick.
Proof.
  revert t. induction n as [| n IH]; intros t Ht; simpl; [done |]. by apply IH, next_tick_range.
Qed.

(** The interrupt comes exactly when [until_nmi] says. *)
Lemma fires_until n t : 0 <= t <= last_tick -> fires n t = (until_nmi t <=? Z.of_nat n).
Proof.
  revert t. induction n as [| n IH]; intros t Ht; simpl fires.
  - pose proof (until_nmi_bound t Ht). symmetry. apply Z.leb_gt. lia.
  - pose proof (until_nmi_step t Ht) as Hs. pose proof (until_nmi_bound t Ht).
    destruct (nmi_tick t); simpl.
    + symmetry. apply Z.leb_le. lia.
    + rewrite IH by (by apply next_tick_range). rewrite Hs.
      destruct (Z.leb_spec (until_nmi t - 1) (Z.of_nat n)), (Z.leb_spec (until_nmi t) (Z.of_nat (S n)));
        done || lia.
Qed.

(** While it has not come, the distance shrinks tick by tick. *)
Lemma ticks_until n t : 0 <= t <= last_tick -> fires n t = false ->
  until_nmi (ticks n t) = until_nmi t - Z.of_nat n.
Proof.
  revert t. induction n as [| n IH]; intros t Ht Hf; simpl in *; [lia |].
  apply orb_false_iff in Hf as [Hn Hf]. pose proof (until_nmi_step t Ht) as Hs. rewrite Hn in Hs.
  rewrite IH by (try done; by apply next_tick_range). lia.
Qed.

Section PpuRuns.
Context (vb : Bus VHandler) (cart : Cartridge) (shl : Z -> Z -> Z).
Hypothesis Hbus : vbus_ok vb.
Hypothesis Hchr : chr_ok cart.

Lemma fire_nmi_idem c : fire_nmi (fire_nmi c) = fire_nmi c.
Proof. done. Qed.

(** The loop over the PPU: never a fault, and the two flags say whether the
    interrupt came. *)
Lemma ppu_runs_ok n t p nm c : ppu_ok p -> pos_at t p ->
  exists p', ppu_runs shl n vb cart (p, (nm, c)) =
      Ok (p', (nm || fires n t, if fires n t then fire_nmi c else c)) /\
    ppu_ok p' /\ pos_at (ticks n t) p' /\ shown p' = shown p.
Proof.
  revert t p nm c. induction n as [| n IH]; intros t p nm c Hp Hpos; simpl.
  - exists p. by rewrite orb_false_r.
  - destruct (run_tick vb cart shl Hbus Hchr on_nmi t p (nm, c) Hp Hpos) as (p1 & -> & Hp1 & Hpos1 & <-).
    cbn [rbind]. destruct (nmi_tick t).
    + destruct (IH (next_tick t) p1 true (fire_nmi c) Hp1 Hpos1) as (p2 & E & H2).
      exists p2. split; [| done]. unfold on_nmi. cbn [snd]. rewrite E. simpl.
      rewrite orb_true_r. by case_match.
    + by apply IH.
Qed.
End PpuRuns.

(** ** Counting in [int] *)

Lemma u32_u64 z : u32 (u64 z) = u32 z.
Proof.
  unfold u32, u64. apply Z.mod_mod_divide. exists (2 ^ 32). reflexivity.
Qed.

Lemma s32_range z : - 2 ^ 31 <= s32 z < 2 ^ 31.
Proof.
  unfold s32. pose proof (Z.mod_pos_bound z (2 ^ 32) ltac:(lia)). unfold u32.
  destruct (Z.ltb_spec (z mod 2 ^ 32) (2 ^ 31)); lia.
Qed.

Lemma s32_add z n : 0 <= n < 2 ^ 31 ->
  s32 (u64 (z + n)) = if s32 z + n <? 2 ^ 31 then s32 z + n else s32 z + n - 2 ^ 32.
Proof.
  intros Hn. assert (E : s32 (u64 (z + n)) = s32 (z + n)) by (unfold s32; by rewrite u32_u64).
  rewrite E. unfold s32. assert (E2 : u32 (z + n) = u32 (u32 z + n)) by (unfold u32; by rewrite Zplus_mod_idemp_l).
  rewrite E2. pose proof (Z.mod_pos_bound z (2 ^ 32) ltac:(lia)) as Hb. fold (u32 z) in Hb.
  set (m := u32 z) in *. clearbody m. unfold u32. clear E E2.
  assert (Em : (m + n) mod 2 ^ 32 = if m + n <? 2 ^ 32 then m + n else m + n - 2 ^ 32).
  { destruct (Z.ltb_spec (m + n) (2 ^ 32)); [apply Z.mod_small; lia |].
    symmetry. apply Z.mod_unique with 1; [left |]; lia. }
  rewrite Em. zcases.
Qed.

Lemma int32_in z : - 2 ^ 31 <= z < 2 ^ 31 -> int32 z = Ok z.
Proof. intros Hz. unfold int32. zcases. Qed.

(** ** One call of [run] *)

(** The machine between two calls of [run]; [t] is the tick of the PPU, and [lag]
    the cycles of the CPU that the main loop has not counted yet: zero after a
    call of [run], six more after [power] or [reset]. *)
Record emu_at (lag t : Z) (e : Emulator) : Prop := {
  ea_cpu : cpu_ok (cpu e);
  ea_signals : signals_ok (cpu e);
  ea_world : world_ok (world e);
  ea_pos : pos_at t (ppu (world e));
  ea_cycle : ecycle e + lag = s32 (cycles (r (cpu e)));
  ea_lag : 0 <= lag;
}.

(** What the machine leaves as it is: the debugger, and the texture of the screen. *)
Definition beside (w : World) : Debugger.Debugger * option Texture := (debugger w, shown (ppu w)).

(** What the CPU does keeps the PPU at its tick, and all of that. *)
#[refine] Definition World_MemoryOk_at (t : Z) (d : Debugger.Debugger * option Texture) : MemoryOk World :=
  {| winv w := world_ok w /\ pos_at t (ppu w) /\ beside w = d |}.
Proof.
  - intros a w v w' Ha (Hw & Hp & Hd) H.
    destruct (mread_ok (MemoryOk := World_MemoryOk) a w v w' Ha Hw H) as [Hv Hw'].
    split; [done |]. split; [done |]. rewrite mread_world in H by done.
    destruct (owner a); try by simplify_eq.
    + apply rbind_Ok in H as ([v1 p1] & E & [= <- <-]).
      apply readreg_inv in E as [_ Hg]; [| apply Hw ..]. split; [by eapply pos_good |].
      rewrite <- Hd. unfold beside. cbn [debugger ppu set_ppu]. f_equal. apply Hg.
    + by apply rbind_Ok in H as (v1 & _ & [= <- <-]).
  - intros a b w w' Ha Hb (Hw & Hp & Hd) H. split; [by eapply (mwrite_ok (MemoryOk := World_MemoryOk)) |].
    rewrite mwrite_world in H by done. destruct (owner a); try by simplify_eq.
    + by apply rbind_Ok in H as (m & _ & [= <-]).
    + apply rbind_Ok in H as (p & E & [= <-]). eapply writereg_inv in E; [| apply Hw .. | done].
      split; [by eapply pos_good |].
      rewrite <- Hd. unfold beside. cbn [debugger ppu set_ppu]. f_equal. apply E.
Defined.

Section Loop.
Variable shl : Z -> Z -> Z.

(** The CPU step inside [run]: between 1 and 7 cycles, everything else as before. *)
Lemma cpu_step lag t e c w : emu_at lag t e -> Cpu.run None (cpu e, world e) = Ok (tt, (c, w)) ->
  cpu_ok c /\ signals_ok c /\ world_ok w /\ pos_at t (ppu w) /\ beside w = beside (world e) /\
  exists n, 1 <= n <= 7 /\ cycles (r c) = u64 (cycles (r (cpu e)) + n).
Proof.
  intros [Hc Hs Hw Hp _ _] H.
  destruct (pres_run (MemOk := World_MemoryOk_at t (beside (world e))) None ltac:(done)
    _ _ _ _ _ Hc (conj Hw (conj Hp eq_refl)) H) as (Hc' & (Hw' & Hp' & Hd') & _).
  pose proof (sig_run None _ _ _ _ _ Hs H) as Hs'.
  destruct (run_elapsed None _ _ _ _ H) as (n & Hn & E).
  split_and!; try done. exists n. split; [done |].
  unfold elapsed in E. rewrite <- E. symmetry. apply Z.mod_small. apply Hc'.
Qed.

Lemma ok_fire_nmi c : cpu_ok c -> cpu_ok (fire_nmi c).
Proof. intros []. by constructor. Qed.

Lemma signals_fire_nmi c : signals_ok c -> signals_ok (fire_nmi c).
Proof. unfold signals_ok, fire_nmi. simpl. naive_solver. Qed.

(** A lag that one call of [run] can catch up with. *)
Definition max_lag : Z := 2 ^ 29.

(** [run] when the CPU does not fault and [int] does not overflow: the PPU runs
    three ticks per cycle, behind the world that the CPU leaves. *)
Lemma run_exact lag t e c w : emu_at lag t e -> Cpu.run None (cpu e, world e) = Ok (tt, (c, w)) ->
  lag < max_lag -> ecycle e + lag + 7 < 2 ^ 31 ->
  exists n e', run None shl e = Ok e' /\ 1 <= n <= 7 /\ ecycle e' = ecycle e + lag + n /\
    ppu_runs shl (Z.to_nat (3 * (lag + n))) (vrambus w) (cartridge w) (ppu w, (nmi e, c)) =
      Ok (ppu (world e'), (nmi e', cpu e')) /\
    world e' = set_ppu (ppu (world e')) w /\
    emu_at 0 (ticks (Z.to_nat (3 * (lag + n))) t) e' /\
    nmi e' = nmi e || fires (Z.to_nat (3 * (lag + n))) t /\
    cpu e' = (if fires (Z.to_nat (3 * (lag + n))) t then fire_nmi c else c) /\
    beside (world e') = beside (world e).
Proof.
  intros He H Hlag Hov. destruct (cpu_step lag t e c w He H) as (Hc & Hs & Hw & Hp & Hd & n & Hn & Ecyc).
  pose proof (ea_cycle lag t e He) as Ee. pose proof (ea_lag lag t e He).
  pose proof (s32_range (cycles (r (cpu e)))). unfold max_lag in Hlag.
  assert (Es : s32 (cycles (r c)) = ecycle e + lag + n).
  { rewrite Ecyc, s32_add by lia. rewrite <- Ee. zcases. }
  destruct (ppu_runs_ok (vrambus w) (cartridge w) shl (wo_vrambus w Hw) (wo_chr w Hw)
    (Z.to_nat (3 * (lag + n))) t (ppu w) (nmi e) c (wo_ppu w Hw) Hp) as (p & Er & Hpp & Hpos & Hsh).
  unfold run. rewrite H. cbn [rbind]. rewrite Es.
  replace (ecycle e + lag + n - ecycle e) with (lag + n) by lia.
  rewrite (int32_in (lag + n)) by lia. cbn [rbind].
  replace ((lag + n) * 3) with (3 * (lag + n)) by lia.
  rewrite int32_in by lia. cbn [rbind]. rewrite Er. cbn [rbind].
  exists n. eexists. split_and!; [done | lia | lia | done | exact Er | done | | done | done |].
  2: { rewrite <- Hd. unfold beside. cbn [world debugger ppu set_ppu]. by rewrite Hsh. }
  constructor; cbn [cpu world ecycle]; [| | by apply world_set_ppu | done | | done].
  - case_match; [by apply ok_fire_nmi | done].
  - case_match; [by apply signals_fire_nmi | done].
  - rewrite Z.add_0_r, <- Es. by case_match.
Qed.

Lemma run_ok lag t e c w : emu_at lag t e -> Cpu.run None (cpu e, world e) = Ok (tt, (c, w)) ->
  lag < max_lag -> ecycle e + lag + 7 < 2 ^ 31 ->
  exists n e', run None shl e = Ok e' /\ 1 <= n <= 7 /\ ecycle e' = ecycle e + lag + n /\
    emu_at 0 (ticks (Z.to_nat (3 * (lag + n))) t) e' /\
    nmi e' = nmi e || fires (Z.to_nat (3 * (lag + n))) t /\
    cpu e' = (if fires (Z.to_nat (3 * (lag + n))) t then fire_nmi c else c) /\
    beside (world e') = beside (world e).
Proof.
  intros He H Hlag Hov.
  destruct (run_exact lag t e c w He H Hlag Hov) as (n & e' & H1 & H2 & H3 & _ & _ & H4). by exists n, e'.
Qed.

(** [run] faults exactly when the CPU does, as long as [int] does not overflow. *)
Lemma run_fault lag t e f : emu_at lag t e -> lag < max_lag -> ecycle e + lag + 7 < 2 ^ 31 ->
  run None shl e = Err f <-> Cpu.run None (cpu e, world e) = Err f.
Proof.
  intros He Hlag Hov. destruct (Cpu.run None (cpu e, world e)) as [[[] [c w]] | g] eqn:E.
  - destruct (run_ok lag t e c w He E Hlag Hov) as (n & e' & -> & _). done.
  - unfold run. rewrite E. cbn [rbind]. split; congruence.
Qed.

(** Past 2^31 cycles the subtraction leaves [int]. *)
Lemma run_overflow t e c w : emu_at 0 t e -> Cpu.run None (cpu e, world e) = Ok (tt, (c, w)) ->
  ecycle e = 2 ^ 31 - 1 -> run None shl e = Err SignedOverflow.
Proof.
  intros He H Hov. destruct (cpu_step 0 t e c w He H) as (Hc & Hs & Hw & Hp & Hd & n & Hn & Ecyc).
  pose proof (ea_cycle 0 t e He) as Ee. rewrite Z.add_0_r in Ee.
  assert (Es : s32 (cycles (r c)) = ecycle e + n - 2 ^ 32).
  { rewrite Ecyc, s32_add by lia. rewrite <- Ee. zcases. }
  unfold run. rewrite H. cbn [rbind]. rewrite Es.
  assert (Ei : int32 (ecycle e + n - 2 ^ 32 - ecycle e) = Err SignedOverflow)
    by (unfold int32; zcases).
  by rewrite Ei.
Qed.

(** *** The frame loop *)

(** [k] calls of [run] in a row. *)
Fixpoint runs (k : nat) (e : Emulator) : Res Emulator :=
  match k with O => Ok e | S k' => let? e' := run None shl e in runs k' e' end.

Lemma run_until_stop fuel e : nmi e = true -> run_until_nmi None shl fuel e = Ok e.
Proof. intros E. destruct fuel; simpl; by rewrite E. Qed.

(** The loop ends: after at most a third of the ticks to the interrupt it has
    returned, unless a call of [run] stopped in a fault. *)
Lemma loop_ends fuel lag t e : emu_at lag t e -> lag < max_lag ->
  (nmi e = false -> until_nmi t <= 3 * Z.of_nat fuel) ->
  ecycle e + lag + 7 * Z.of_nat fuel < 2 ^ 31 ->
  (exists k e', (k <= fuel)%nat /\ runs k e = Ok e' /\ run_until_nmi None shl fuel e = Ok e' /\
     nmi e' = true /\ (nmi e = false -> exists t', emu_at 0 t' e') /\
     beside (world e') = beside (world e) /\
     ecycle e <= ecycle e' <= ecycle e + lag + 7 * Z.of_nat k) \/
  (exists k e', (k < fuel)%nat /\ runs k e = Ok e' /\ Cpu.run None (cpu e', world e') = Err OutOfBounds /\
     run_until_nmi None shl fuel e = Err OutOfBounds).
Proof.
  revert lag t e. induction fuel as [| fuel IH]; intros lag t e He Hlag Hu Hov; simpl;
    pose proof (ea_lag _ _ _ He) as Hl0.
  - left. exists 0%nat, e. destruct (nmi e) eqn:En; [split_and!; lia || done |].
    pose proof (until_nmi_bound t (pa_range _ _ (ea_pos _ _ _ He))). specialize (Hu eq_refl). lia.
  - destruct (nmi e) eqn:En; [left; exists 0%nat, e; split_and!; lia || done |].
    destruct (Cpu.run None (cpu e, world e)) as [[[] [c w]] | f] eqn:E.
    + destruct (run_ok lag t e c w He E Hlag ltac:(lia)) as (n & e1 & Er & Hn & Ec & He1 & Enmi & _ & Ed).
      rewrite Er. cbn [rbind].
      destruct (IH _ _ e1 He1) as [(k & e' & Hk & H1 & H2 & H3 & H4 & H5 & H6) | (k & e' & Hk & H1 & H2)].
      * unfold max_lag. lia.
      * intros En1. rewrite En1, En in Enmi. simpl in Enmi. specialize (Hu eq_refl).
        rewrite ticks_until by (try done; apply (ea_pos _ _ _ He)). lia.
      * lia.
      * left. exists (S k), e'. split; [lia |]. simpl. rewrite Er, H5.
        split_and!; try done || lia. intros _.
        destruct (nmi e1) eqn:En1; [| by apply H4].
        destruct k; simpl in H1; [injection H1 as <-; by eauto |].
        rewrite (run_until_stop fuel e1 En1) in H2. injection H2 as <-. eauto.
      * right. exists (S k), e'. split; [lia |]. simpl. by rewrite Er.
    + pose proof (cpu_fault_oob _ _ f (ea_cpu _ _ _ He) (ea_world _ _ _ He) E) as ->.
      right. exists 0%nat, e. split_and!; [lia | done | done |].
      rewrite (proj2 (run_fault lag t e OutOfBounds He Hlag ltac:(lia)) E). done.
Qed.
End Loop.

(** ** [power], [reset] and [set_screen] *)

(** Six cycles later, on the 32-bit counter. *)
Lemma s32_elapsed c c' : cpu_ok c' -> elapsed 6 c c' -> s32 (cycles (r c)) + 6 < 2 ^ 31 ->
  s32 (cycles (r c')) = s32 (cycles (r c)) + 6.
Proof.
  intros Hc' He Hov. unfold elapsed in He.
  assert (E : cycles (r c') = u64 (cycles (r c) + 6)).
  { rewrite <- He. symmetry. apply Z.mod_small. apply Hc'. }
  rewrite E, s32_add by lia. zcases.
Qed.

(** The word at the reset vector, as the CPU reads it. *)
Definition reset_target (w : World) : Z := vector_word w RESET_VEC.

Lemma power_machine lag t e : emu_at lag t e -> ecycle e + lag + 6 < 2 ^ 31 ->
  exists e', power None e = Ok e' /\ emu_at (lag + 6) 0 e' /\ nmi e' = nmi e /\ ecycle e' = ecycle e /\
    pc (r (cpu e')) = reset_target (world e) /\ sp (r (cpu e')) = 0xFD /\
    flags (r (cpu e')) = set_intdis true (set_breakf false reset_status) /\
    beside (world e') = beside (world e).
Proof.
  intros [Hc Hs Hw Hp Hcy Hlag] Hov.
  destruct (power_run (Ram := World_RamLaws) (cpu e) (world e) Hc Hw) as (c1 & w1 & E1 & Hc1 & Hw1 & Hsp & Hpc & Hfl & Hel & Hsig).
  destruct (power_ok (ppu w1) (wo_ppu w1 Hw1)) as (p' & E2 & Hp' & Hpos & Hscr & _).
  destruct (proj1 (sound_power (MemOk := World_MemoryOk_at t (beside (world e))) None ltac:(done))
    _ _ _ _ _ Hc (conj Hw (conj Hp eq_refl)) E1) as (_ & (_ & _ & Hd) & _).
  unfold power. rewrite E1. cbn [rbind]. rewrite E2. cbn [rbind]. eexists. split; [reflexivity |].
  split; [| split_and!; try assumption; try reflexivity].
  2: { rewrite <- Hd. unfold beside, shown. cbn [world debugger ppu set_ppu]. by rewrite Hscr. }
  constructor; cbn [cpu world ecycle]; [done | by apply Hsig | by apply world_set_ppu | done | | lia].
  rewrite (s32_elapsed (cpu e) c1) by (done || lia). lia.
Qed.

Lemma reset_machine lag t e : emu_at lag t e -> ecycle e + lag + 6 < 2 ^ 31 ->
  exists e', reset None e = Ok e' /\ emu_at (lag + 6) 0 e' /\ nmi e' = nmi e /\ ecycle e' = ecycle e /\
    pc (r (cpu e')) = reset_target (world e) /\ sp (r (cpu e')) = u8 (sp (r (cpu e)) - 3) /\
    flags (r (cpu e')) = set_intdis true (set_breakf false (flags (r (cpu e)))).
Proof.
  intros [Hc Hs Hw Hp Hcy Hlag] Hov.
  destruct (reset_run (Ram := World_RamLaws) (cpu e) (world e) Hc Hw) as (c1 & w1 & E1 & Hc1 & Hw1 & Hsp & Hpc & Hfl & Hel & Hsig).
  destruct (reset_ok (ppu w1) (wo_ppu w1 Hw1)) as (p' & E2 & Hp' & Hpos & _).
  unfold reset. rewrite E1. cbn [rbind]. rewrite E2. cbn [rbind]. eexists. split; [reflexivity |].
  split; [| by split_and!].
  constructor; cbn [cpu world ecycle]; [done | by apply Hsig | by apply world_set_ppu | done | | lia].
  rewrite (s32_elapsed (cpu e) c1) by (done || lia). lia.
Qed.

Lemma screen_machine lag t e scr : emu_at lag t e -> screen_ok scr -> emu_at lag t (set_screen scr e).
Proof.
  intros [Hc Hs Hw Hp Hcy Hlag] Hscr. constructor; try assumption.
  - apply world_set_ppu; [done |]. destruct (wo_ppu _ Hw). by constructor.
  - destruct Hp. by constructor.
Qed.
