(* ===== verification/EmulatorPicture.v ===== *)
(** * The picture of a running machine

    A program that leaves the PPU alone between two interrupts, over
    [Emulator::run_frame]: the ticks of the PPU that the loop makes, in bursts of
    three for each cycle of the CPU, are one run of the PPU, so the frame is the
    one that [PpuFrame] describes. *)

From S2P Require Import Prelude HeapArray Bus Cpu CpuInv Cartridge Video Ppu PpuInv PpuSched PpuPicture PpuLine PpuFrame.
From S2P Require Import Emulator EmulatorInv EmulatorRun.
Open Scope Z_scope.

(** ** Runs of the PPU alone *)

Lemma ticks_app n m t : ticks (n + m) t = ticks m (ticks n t).
Proof. revert t. induction n as [| n IH]; intros t; [done | apply IH]. Qed.

Section Moves.
Context (vb : Bus VHandler) (cart : Cartridge) (shl : Z -> Z -> Z).
Hypothesis Hbus : vbus_ok vb.
Hypothesis Hchr : chr_ok cart.

(** [n] ticks lead from [p] to [q], whatever the interrupt callback does. *)
Definition moves (n : nat) (p q : PPU) : Prop := calls vb cart shl (fun u : unit => u) n (p, tt) = Ok (q, tt).

Lemma tick_callback {X Y} (f : X -> X) (g : Y -> Y) p x y q x' :
  Ppu.run vb cart shl (Some f) (p, x) = Ok (q, x') -> exists y', Ppu.run vb cart shl (Some g) (p, y) = Ok (q, y').
Proof.
  unfold Ppu.run. cbn [fst]. destruct (linetab !! _) as [[n] |]; [| done].
  intros ([r x1] & E & [= <- <-])%rbind_Ok.
  assert (exists y', lcycle vb cart shl (Some g) n (p_cycles p mod 341) (p, y) = Ok (r, y')) as (y' & ->).
  { revert E. unfold lcycle, on_ppu, vblank_begin.
    destruct (negb _), (n <? 240), (n =? 241), (p_cycles p mod 341 =? 1), (n =? 261); try done;
      try (intros (r0 & -> & [= <- _])%rbind_Ok; by exists y); intros [= <- _]; by eexists. }
  by exists y'.
Qed.

Lemma calls_moves {X} (f : X -> X) n p x q x' : calls vb cart shl f n (p, x) = Ok (q, x') -> moves n p q.
Proof.
  revert p x. unfold moves. induction n as [| n IH]; intros p x; cbn [calls].
  - by intros [= -> _].
  - intros ([r x1] & E & Hr)%rbind_Ok. destruct (tick_callback f (fun u : unit => u) p x tt r x1 E) as ([] & ->).
    by apply (IH r x1).
Qed.

Lemma moves_det n p q r : moves n p q -> moves n p r -> q = r.
Proof. unfold moves. intros -> [= ->]. done. Qed.

Lemma moves_app n m p q r : moves n p q -> moves m q r -> moves (n + m) p r.
Proof. unfold moves. intros H1 H2. by rewrite calls_app, H1. Qed.

Lemma ppu_runs_calls n s : ppu_runs shl n vb cart s = calls vb cart shl on_nmi n s.
Proof.
  revert s. induction n as [| n IH]; intros s; [done |]. cbn [ppu_runs calls].
  destruct (Ppu.run vb cart shl (Some on_nmi) s); [apply IH | done].
Qed.

(** A run that the callback does not notice raises no interrupt. *)
Lemma reaches_ticks n t p q : ppu_ok p -> pos_at t p ->
  calls vb cart shl on_nmi n (p, (false, init_cpu)) = Ok (q, (false, init_cpu)) ->
  fires n t = false /\ ppu_ok q /\ pos_at (ticks n t) q.
Proof.
  intros Hp Hpos E. rewrite <- ppu_runs_calls in E.
  destruct (ppu_runs_ok vb cart shl Hbus Hchr n t p false init_cpu Hp Hpos) as (q' & E' & Hq & Hpos' & _).
  rewrite E' in E. injection E as -> Ef _. done.
Qed.

Lemma ticks_add n t : 0 <= t -> t + Z.of_nat n <= last_tick -> ticks n t = t + Z.of_nat n.
Proof.
  revert t. induction n as [| n IH]; intros t H0 Ht; cbn [ticks]; [lia |].
  assert (E : next_tick t = t + 1) by (unfold next_tick; zcases). rewrite E, IH by lia. lia.
Qed.

(** Below the picture nothing is drawn, also while the interrupt is raised. *)
Lemma moves_below n t p : rendering p -> pos_at t p ->
  (forall i, t <= i < t + Z.of_nat n -> 240 <= (i / 341) mod 262 <= 241) -> t + Z.of_nat n <= last_tick ->
  exists q, moves n p q /\ rendering q /\ setup q = setup p /\ (forall pic, shows p pic -> shows q pic).
Proof.
  revert t p. induction n as [| n IH]; intros t p Hr Hpos Hy Ht.
  - exists p. by split_and!.
  - destruct (run_works vb cart shl Hbus Hchr (fun u : unit => u) t p tt (re_ok p Hr) Hpos)
      as (q & E & Hq & Hpos' & q0 & Hw & Ha).
    pose proof (Hy t ltac:(lia)) as Hyt.
    assert (q0 = p) as -> by (unfold works in Hw; destruct Hw as [[? _] | [[_ ->] | [? _]]]; lia || done).
    assert (En : next_tick t = t + 1) by (unfold next_tick; zcases). rewrite En in Hpos'.
    destruct (IH (t + 1) q (alike_rendering _ _ Ha Hq Hr) Hpos') as (s & Hm & Hs & Es & Hsh); [| lia |].
    { intros i Hi. apply Hy. lia. }
    exists s. split_and!; [| done | rewrite Es; apply Ha | intros pic Hpic; by apply Hsh, (alike_shows p q)].
    unfold moves. cbn [calls]. rewrite E. by destruct (nmi_tick t).
Qed.
End Moves.

(** ** Programs that leave the PPU alone *)

(** States of the CPU and its world from which every instruction and interrupt
    runs without a fault, touches nothing that the PPU uses, and leads to such a
    state, whatever the PPU does in between. *)
Class QuietProgram (Q : CPU -> World -> Prop) : Prop := {
  quiet_step c w : cpu_ok c -> signals_ok c -> world_ok w -> Q c w ->
    exists c' w', Cpu.run None (c, w) = Ok (tt, (c', w')) /\ Q c' w' /\
      ppu w' = ppu w /\ vrambus w' = vrambus w /\ cartridge w' = cartridge w;
  quiet_ppu c w p : Q c w -> Q c (set_ppu p w);
  quiet_nmi c w : Q c w -> Q (fire_nmi c) w;
}.

Section Quiet.
Context (shl : Z -> Z -> Z) (Q : CPU -> World -> Prop) `{QuietProgram Q}.

Abbreviation moved n e e' := (moves (vrambus (world e)) (cartridge (world e)) shl n (ppu (world e)) (ppu (world e'))).

(** The machine at tick [t], running such a program, with everything counted. *)
Record quiet_at (t : Z) (e : Emulator) : Prop := {
  qa_emu : emu_at 0 t e;
  qa_prog : Q (cpu e) (world e);
}.

(** What the PPU reads besides its own state. *)
Definition same_video (e e' : Emulator) : Prop :=
  vrambus (world e') = vrambus (world e) /\ cartridge (world e') = cartridge (world e).

Lemma quiet_run t e : quiet_at t e -> ecycle e + 7 < 2 ^ 31 ->
  exists n e', run None shl e = Ok e' /\ 1 <= n <= 7 /\ ecycle e' = ecycle e + n /\
    moved (Z.to_nat (3 * n)) e e' /\ same_video e e' /\ quiet_at (ticks (Z.to_nat (3 * n)) t) e' /\
    nmi e' = nmi e || fires (Z.to_nat (3 * n)) t /\ beside (world e') = beside (world e).
Proof.
  intros [He Hq] Hov.
  destruct (quiet_step (cpu e) (world e) (ea_cpu _ _ _ He) (ea_signals _ _ _ He) (ea_world _ _ _ He) Hq)
    as (c & w & E & Hq' & Ep & Ev & Ec).
  destruct (run_exact shl 0 t e c w He E ltac:(unfold max_lag; lia) ltac:(lia))
    as (n & e' & Er & Hn & Ecy & Eppu & Ew & He' & En & Ecpu & Eb).
  exists n, e'. rewrite Ep, Ev, Ec in Eppu. rewrite !Z.add_0_l in *. rewrite Z.add_0_r in Ecy.
  split; [done |]. split; [done |]. split; [lia |].
  rewrite ppu_runs_calls in Eppu. apply calls_moves in Eppu. split; [done |].
  split; [split; by rewrite Ew |]. split; [| done].
  constructor; [done |]. rewrite Ecpu, Ew. case_match; [apply quiet_nmi |]; by apply quiet_ppu.
Qed.

(** The loop of a frame is one run of the PPU, up to at most 20 ticks past the
    interrupt. *)
Lemma quiet_loop fuel t e : quiet_at t e -> nmi e = false -> until_nmi t <= 3 * Z.of_nat fuel ->
  ecycle e + 7 * Z.of_nat fuel < 2 ^ 31 ->
  exists n e', run_until_nmi None shl fuel e = Ok e' /\ nmi e' = true /\
    moved n e e' /\ same_video e e' /\ quiet_at (ticks n t) e' /\
    until_nmi t <= Z.of_nat n <= until_nmi t + 20 /\ 3 * (ecycle e' - ecycle e) = Z.of_nat n /\
    beside (world e') = beside (world e).
Proof.
  revert t e. induction fuel as [| fuel IH]; intros t e Hq En Hu Hov; cbn [run_until_nmi]; rewrite En;
    pose proof (pa_range _ _ (ea_pos _ _ _ (qa_emu _ _ Hq))) as Ht.
  - pose proof (until_nmi_bound t Ht). lia.
  - destruct (quiet_run t e Hq ltac:(lia)) as (n & e1 & -> & Hn & Ecy & Hm & [Ev Ec] & Hq1 & En1 & Eb).
    cbn [rbind]. rewrite En in En1. cbn [orb] in En1.
    pose proof (fires_until (Z.to_nat (3 * n)) t Ht) as Ef. rewrite Z2Nat.id in Ef by lia.
    destruct (nmi e1) eqn:Ei.
    + rewrite run_until_stop by done. exists (Z.to_nat (3 * n)), e1. rewrite Z2Nat.id by lia.
      rewrite <- En1 in Ef. symmetry in Ef. apply Z.leb_le in Ef.
      split_and!; try done; try lia.
      destruct (Z.le_gt_cases (3 * n) (until_nmi t + 20)); [done |].
      pose proof (until_nmi_bound t Ht). lia.
    + rewrite <- En1 in Ef. symmetry in Ef. apply Z.leb_gt in Ef.
      pose proof (ticks_until (Z.to_nat (3 * n)) t Ht ltac:(by rewrite <- En1)) as Et.
      rewrite Z2Nat.id in Et by lia.
      destruct (IH _ e1 Hq1 Ei) as (m & e' & Er & Hnm & Hm' & [Ev' Ec'] & Hq' & Hb & Hcy & Eb'); [lia | lia |].
      exists (Z.to_nat (3 * n) + m)%nat, e'. rewrite Ev, Ec in Hm'. rewrite Nat2Z.inj_add, Z2Nat.id by lia.
      split_and!; try done; try lia; try congruence.
      * by eapply moves_app.
      * split; congruence.
      * by rewrite ticks_app.
Qed.
(** Between two frames: the machine is in the vertical blank, with the background
    shown, and its interrupt flag was cleared. *)
Record between (t : Z) (e : Emulator) : Prop := {
  be_quiet : quiet_at t e;
  be_nmi : nmi e = false;
  be_quit : debugger_has_quit e = false;
  be_render : rendering (ppu (world e));
  be_blank : blanking (t mod 341) ((t / 341) mod 262);
}.

Lemma pos_unique t t' p : pos_at t p -> pos_at t' p -> t = t'.
Proof. intros [_ <- _ _] [_ <- _ _]. done. Qed.

(** Where the lines below the picture are. *)
Lemma line240 t : 0 <= t <= last_tick -> t mod 341 = 0 -> (t / 341) mod 262 = 240 ->
  until_nmi t = 343 /\ t + 681 <= last_tick /\
  (forall i, t <= i < t + 681 -> 240 <= (i / 341) mod 262 <= 241) /\
  (forall i, 341 <= i < 681 -> (t + i) mod 341 = i - 341 /\ ((t + i) / 341) mod 262 = 241).
Proof.
  intros Ht Hc Hy. destruct (tick_parts t Ht) as (_ & _ & E & Ey). rewrite Hy, Hc in *.
  assert (Et : t = 81840 \/ t = 171182).
  { destruct (Z.ltb_spec (t / 341) 262); lia. }
  clear E Ey Hy Hc. unfold until_nmi, frame_cycles, last_tick.
  destruct Et as [-> | ->]; (split; [reflexivity |]; split; [done |]; split; intros i Hi; dlia).
Qed.

(** A frame of the machine. *)
Lemma quiet_frame t e pic : between t e -> shows (ppu (world e)) pic -> ecycle e + 7 * 29781 < 2 ^ 31 ->
  exists t' e', run_frame None shl frame_fuel e = Ok e' /\ between t' e' /\ same_video e e' /\
    setup (ppu (world e')) = setup (ppu (world e)) /\ beside (world e') = beside (world e) /\
    shows (ppu (world e')) (background (vrambus (world e)) (cartridge (world e)) (ppu (world e)) pic) /\
    ecycle e' <= ecycle e + 29788.
Proof.
  intros [Hq En Hquit Hr Hbl] Hs Hov. pose proof (qa_emu _ _ Hq) as He.
  pose proof (ea_pos _ _ _ He) as Hpos. pose proof (pa_range _ _ Hpos) as Ht.
  pose proof (wo_vrambus _ (ea_world _ _ _ He)) as Hvb. pose proof (wo_chr _ (ea_world _ _ _ He)) as Hch.
  pose proof (until_nmi_bound t Ht) as Hu. unfold frame_cycles in Hu.
  destruct (quiet_loop frame_fuel t e Hq En) as (n & e' & Er & En' & Hm & Hv & Hq' & Hn & Hcy & Hb);
    [unfold frame_fuel; lia .. |].
  destruct (background_rest _ _ (ppu (world e)) (t mod 341) ((t / 341) mod 262) pic Hvb Hch Hr Hs
    ltac:(by exists t) Hbl shl on_nmi (false, init_cpu)) as (k & q & Ek & Hrq & Eq & (t1 & Hp1 & Ec1 & Ey1) & Hsq).
  destruct (reaches_ticks _ _ shl Hvb Hch k t (ppu (world e)) q (re_ok _ Hr) Hpos Ek) as (Hf & _ & Hpk).
  pose proof (ticks_until k t Ht Hf) as Et. rewrite (pos_unique _ _ _ Hpk Hp1) in Et.
  destruct (line240 t1 (pa_range _ _ Hp1) Ec1 Ey1) as (Eu & Hlast & Hlines & Hdots). rewrite Eu in Et.
  set (m := (n - k)%nat). assert (Em : n = (k + m)%nat) by (unfold m; lia).
  destruct (moves_below _ _ shl Hvb Hch m t1 q Hrq Hp1) as (q' & Hmq & Hrq' & Eq' & Hsq').
  { intros i Hi. apply Hlines. lia. }
  { lia. }
  assert (ppu (world e') = q') as Ep.
  { eapply moves_det; [exact Hm |]. rewrite Em. eapply moves_app; [| exact Hmq]. by eapply calls_moves. }
  assert (Etn : ticks n t = t1 + Z.of_nat m).
  { rewrite <- (ticks_add m t1) by (pose proof (pa_range _ _ Hp1); lia).
    by rewrite Em, ticks_app, (pos_unique _ _ _ Hpk Hp1). }
  exists (ticks n t), (mkEmulator (cpu e') (world e') (ecycle e') false).
  unfold run_frame. rewrite Hquit, Er. cbn [rbind]. split; [done |]. split.
  - constructor; cbn [world nmi]; [| done | | by rewrite Ep |].
    + destruct Hq' as [He' Hp']. constructor; [| done]. by destruct He'; constructor.
    + unfold debugger_has_quit in *. cbn [world]. injection Hb as -> _. done.
    + rewrite Etn. destruct (Hdots (Z.of_nat m) ltac:(lia)) as [-> ->]. unfold blanking. lia.
  - cbn [world ecycle]. split; [done |]. rewrite Ep. split; [congruence |]. split; [exact Hb |].
    split; [by apply Hsq' | lia].
Qed.
End Quiet.
