(* ===== verification/TinyMachine.v ===== *)
(** * A machine for concrete runs

    The world of the emulator with its arrays given by functions, so that whole
    frames of it can be evaluated: one bank of PRG ROM that holds a program from
    $C000 on (and the vectors, which point to $C000), CHR ROM of zeros, and the
    buses that the emulator builds, as tables.  The theorems about the debugger,
    its command line and the main loop are exercised on it. *)

From stdpp Require Import strings.
From S2P Require Import Prelude HeapArray Bus InstrInfo Cpu CpuFacts CpuInv File Cartridge Video Ppu PpuInv PpuSched.
From S2P Require Import FlatMemory Emulator EmulatorInv EmulatorRun EmulatorPicture CpuStack CpuNext.
From S2P Require Debugger CliDbg.
Open Scope Z_scope.

(** A bus with the areas of [handlers], numbered by [which]. *)
Definition tab_bus {H} (size : Z) (which : Z -> Z) (handlers : list H) : Bus H :=
  let tab := (Some <$> handlers) ++ replicate (16 - length handlers) None in
  mkBus (mkArray size ∅ which) tab tab (replicate 16 true).

Definition tiny_rambus : Bus CHandler :=
  tab_bus 0x10000 (fun a => if a <? 0x2000 then 0 else if a <? 0x4000 then 1 else if a <? 0x4020 then 2
                            else if a <? 0x8000 then 3 else 4) [CRam; CPpuReg; CApu; CCartNone; CPrg].
Definition tiny_vrambus : Bus VHandler :=
  tab_bus 0x4000 (fun a => if a <? 0x2000 then 0 else if a <? 0x3F00 then 1 else 2) [VChr; VNtMirror HORZ; VPal].

(** The cartridge with a program. *)
Definition tiny_cartridge (prog : list Z) : Cartridge :=
  with_chrrom (static_array 0x2000)
    (with_prgrom (mkArray 0x4000 ∅ (fun i => flat (flat_program 0xC000 prog) (0xC000 + i))) init_cartridge).

(** The console with some input, and the PPU. *)
Definition tiny_world (prog : list Z) (typed : string) (p : PPU) : World :=
  mkWorld (static_array RAM_SIZE) tiny_rambus tiny_vrambus (tiny_cartridge prog) p
    Debugger.init_debugger (CliDbg.init_console (bytes_of typed)) [].

Definition tiny_cpu : CPU := cpu_at 0xC000.

Definition tiny (prog : list Z) (typed : string) (p : PPU) : Emulator :=
  mkEmulator tiny_cpu (tiny_world prog typed p) 0 false.

(** A PPU that raises its interrupt after eleven calls. *)
Definition late_ppu : PPU := set_p_lines 240 (set_p_cycles 82172 init_ppu).

(** ** It satisfies the invariant of the emulator *)

Lemma tab_bus_route {H} size which (hs : list H) a h : 0 <= a < size -> 0 <= which a ->
  hs !! Z.to_nat (which a) = Some h ->
  Bus.reader (tab_bus size which hs) a = Ok h /\ Bus.writer (tab_bus size which hs) a = Ok h.
Proof.
  intros Ha Hw Hh. unfold Bus.reader, Bus.writer, Bus.route. cbn [Bus.lookup tab_bus Bus.readtab Bus.writetab].
  rewrite get_in by done. cbn [rbind]. unfold cell. cbn [cells fresh]. rewrite lookup_empty. cbn [default].
  unfold Bus.tab_get. rewrite (proj2 (Z.ltb_ge (which a) 0)) by done.
  rewrite (lookup_app_l_Some _ _ _ (Some h)); [done |]. by rewrite list_lookup_fmap, Hh.
Qed.

Lemma tiny_world_ok prog typed p : Forall byte prog -> ppu_ok p -> world_ok (tiny_world prog typed p).
Proof.
  intros Hb Hp. constructor; cbn [rammem rambus vrambus cartridge ppu tiny_world].
  - apply static_mem_ok.
  - intros a Ha. unfold word in Ha. apply tab_bus_route; [done | by repeat case_match |].
    unfold owner, PPUREG_START, APU_START, CARTRIDGE_START. by repeat case_match.
  - constructor.
    + intros a Ha. apply tab_bus_route; [lia | by repeat case_match |]. by zdecide_true (a <? 0x2000).
    + exists (VNtMirror HORZ). split_and!; [done | done |]. intros a Ha.
      apply tab_bus_route; [lia | by repeat case_match |].
      zdecide_false (a <? 0x2000). by zdecide_true (a <? 0x3F00).
    + intros a Ha. apply tab_bus_route; [lia | by repeat case_match |].
      zdecide_false (a <? 0x2000). by zdecide_false (a <? 0x3F00).
    + done.
  - split; [simpl; lia |]. intros i _. unfold cell. cbn [cells fresh prgrom tiny_cartridge with_prgrom with_chrrom].
    rewrite lookup_empty. by apply flat_program_ok.
  - split; [simpl; lia |]. intros i _. unfold cell. simpl. rewrite lookup_empty. unfold byte. simpl. lia.
  - done.
Qed.

Lemma late_ppu_ok : ppu_ok late_ppu /\ pos_at 82172 late_ppu.
Proof. split; [| by constructor]. destruct init_ppu_ok as [H _]. destruct H. by constructor. Qed.

Lemma tiny_cpu_ok : cpu_ok tiny_cpu /\ signals_ok tiny_cpu.
Proof. split; [constructor; simpl; unfold word, byte; lia | done]. Qed.

Lemma tiny_at prog typed p t : Forall byte prog -> ppu_ok p -> pos_at t p -> emu_at 0 t (tiny prog typed p).
Proof.
  intros Hb Hp Ht. destruct tiny_cpu_ok. constructor; cbn [cpu world ecycle tiny ppu tiny_world]; try done.
  by apply tiny_world_ok.
Qed.

(** ** A program that leaves the PPU alone

    A jump to itself, which interrupts restart. *)

Definition spin_prog : list Z := [0x4C; 0x00; 0xC0].

Record spinning (c : CPU) (w : World) : Prop := {
  spin_pc : pc (r c) = 0xC000;
  spin_jump : world_peek w 0xC000 = 0x4C /\ world_peek w 0xC001 = 0x00 /\ world_peek w 0xC002 = 0xC0;
  spin_vectors : forall c', vector_word w (fst (interrupt_vector c')) = 0xC000;
}.

Lemma spinning_ram c c' w m : spinning c w -> pc (r c') = 0xC000 -> spinning c' (set_rammem m w).
Proof.
  intros [_ J Hv] Epc. constructor; [done | exact J |]. intros c2. rewrite <- (Hv c2).
  unfold interrupt_vector. by repeat case_match.
Qed.

(** Pushing changes RAM only. *)
Lemma push_world v c w : cpu_ok c -> world_ok w -> byte v ->
  exists m, push None v (c, w) = Ok (tt, (pushed c, set_rammem m w)) /\ world_ok (set_rammem m w).
Proof.
  intros Hc Hw Hv. destruct (stack_addr _ (ok_sp c Hc)) as [Ha E].
  destruct (mem_set _ (rammem w) ((sp (r c) + STACK_BASE) mod 0x800) v (wo_ram w Hw)) as (m & Em & Hm);
    [apply (Z.mod_pos_bound _ 0x800); lia | done |].
  exists m. split; [| by destruct Hw; constructor].
  unfold push, writemem, bindM, cpu_of, notify, upd, bus_write, retM. rewrite E.
  rewrite mwrite_world by (done || unfold word; lia).
  unfold owner, PPUREG_START. zdecide_true (sp (r c) + STACK_BASE <? 0x2000). by rewrite Em.
Qed.

Lemma interrupt_world c w : cpu_ok c -> world_ok w -> exists c1 m,
  interrupt None (c, w) = Ok (tt, (c1, set_rammem m w)) /\
  pc (r c1) = vector_word w (fst (interrupt_vector c)).
Proof.
  intros Hc Hw. pose proof (ok_cycle c Hc) as Hc0.
  destruct (interrupt_run (Ram := World_RamLaws) c w Hc Hw) as (c1 & w1 & E & _ & _ & _ & Epc & _).
  destruct (push_world (high (pc (r c))) (cycle c) w) as (m1 & P1 & H1); [auto with emu .. |].
  destruct (push_world (low (pc (r c))) (pushed (cycle c)) (set_rammem m1 w)) as (m2 & P2 & H2);
    [by apply ok_pushed | done | auto with emu |].
  destruct (push_world (byte_of_status (flags (r c))) (pushed (pushed (cycle c))) (set_rammem m2 (set_rammem m1 w)))
    as (m3 & P3 & H3); [by apply ok_pushed, ok_pushed | done | auto with emu |].
  set (c3 := set_flags (fun p => set_intdis true (set_breakf false p)) (pushed (pushed (pushed (cycle c))))).
  destruct (vector_quiet (Ram := World_RamLaws) c3) as (Q1 & Q2 & Hv & Ev).
  destruct (load_pc_run (Ram := World_RamLaws) (snd (interrupt_vector c3)) (set_rammem m3 w) (fst (interrupt_vector c3)))
    as (c4 & L & _); [destruct Hw; constructor; try done; apply H3 | auto with emu .. |].
  assert (E' : interrupt None (c, w) = Ok (tt, (c4, set_rammem m3 w))) by (unfold interrupt; mrun; exact L).
  exists c1, m3. rewrite E' in E. injection E as -> _. done.
Qed.

#[export] Instance spinning_quiet : QuietProgram spinning.
Proof.
  constructor; [| by intros c w p [] | by intros c w []].
  intros c w Hc Hs Hw Hsp. pose proof Hsp as [Hpc (J0 & J1 & J2) Hv]. unfold Cpu.run. rewrite bindM_cpu_of.
  assert (Hi : forall k, exists c' m, (upd cycle ;; interrupt None ;; upd k) (c, w) = Ok (tt, (k c', set_rammem m w)) /\
    pc (r c') = 0xC000).
  { intros k. destruct (interrupt_world (cycle c) w (ok_cycle c Hc) Hw) as (c1 & m & E & Epc).
    exists c1, m. rewrite bindM_upd, (bindM_run _ _ _ _ _ E). split; [done |]. by rewrite Epc. }
  destruct (execnmi c) eqn:En; [| rewrite bindM_cpu_of; destruct (execirq c) eqn:Eq].
  - destruct (Hi (set_execnmi false)) as (c' & m & -> & Epc). exists (set_execnmi false c'), (set_rammem m w).
    split; [done |]. split; [by eapply spinning_ram | done].
  - destruct (Hi (set_execirq false)) as (c' & m & -> & Epc). exists (set_execirq false c'), (set_rammem m w).
    split; [done |]. split; [by eapply spinning_ram | done].
  - destruct (next_jmp (Ram := World_RamLaws) c w Hc Hw) as (c' & E & Epc); try done.
    + unfold in_memory. rewrite Hpc. split_and!; by right.
    + unfold opcode. by rewrite Hpc.
    + exists c', w. split; [| split; [constructor; [| done | done] | done]].
      * revert E. unfold Cpu.run. rewrite bindM_cpu_of, En, bindM_cpu_of, Eq. done.
      * rewrite Epc. unfold operand, oplo, ophi. rewrite Hpc.
        change (u16 (0xC000 + 1)) with 0xC001. change (u16 (0xC000 + 2)) with 0xC002.
        cbn [peek World_RamLaws]. by rewrite J1, J2.
Qed.

Lemma tiny_spinning typed p : spinning tiny_cpu (tiny_world spin_prog typed p).
Proof.
  constructor; [done | by vm_compute |]. intros c'. unfold interrupt_vector. by repeat case_match.
Qed.
