(* ===== verification/EmulatorDebug.v ===== *)
(** * The emulator under its debugger

    The world of the emulator keeps the promises that the debugger and its command
    line rely on ([TargetLaws], [TerminalLaws]): the debugger, the console and the
    text printed are beside the machine, and only the registers of the PPU have
    reads with an effect.  Hence [Emulator::run] and [run_frame] do the same with
    a debugger that looks at nothing else. *)

From Stdlib Require Import Ascii.
From stdpp Require Import strings.
From S2P Require Import Prelude HeapArray Bus Fmt InstrInfo Cpu CpuFacts CpuSim CpuInv CpuStack File Cartridge Video.
From S2P Require Import Ppu Emulator EmulatorInv Debugger DebugInv DebugStep CliDbg CliInv.
Open Scope Z_scope.

(** ** The interfaces *)

(** Everything but the debugger, the console and the output. *)
Definition same_machine (w1 w2 : World) : Prop :=
  rammem w1 = rammem w2 /\ rambus w1 = rambus w2 /\ vrambus w1 = vrambus w2 /\
  cartridge w1 = cartridge w2 /\ ppu w1 = ppu w2.

#[export] Instance same_machine_equiv : Equivalence same_machine.
Proof.
  split.
  - by intros w.
  - intros w1 w2 (? & ? & ? & ? & ?). by split_and!.
  - intros w1 w2 w3 (? & ? & ? & ? & ?) (? & ? & ? & ? & ?). split_and!; congruence.
Qed.

(** Not a register of the PPU. *)
Definition steady_addr (a : Z) (w : World) : bool :=
  match Bus.reader (rambus w) a with Ok CPpuReg => false | _ => true end.

(** What an access changes: nothing but the RAM and the PPU. *)
Definition touches (w w' : World) : Prop :=
  rambus w' = rambus w /\ debugger w' = debugger w /\ Emulator.console w' = Emulator.console w.

Lemma mread_touches a w v w' : mread a w = Ok (v, w') ->
  touches w w' /\ (steady_addr a w = true -> w' = w).
Proof.
  cbn [mread World_Memory]. unfold steady_addr. intros (h & E & H)%rbind_Ok. rewrite E.
  destruct h; try (apply rbind_Ok in H as (u & _ & H)); try (injection H as _ <-; done).
  destruct u as [u p]. injection H as _ <-. done.
Qed.

Lemma mwrite_touches a v w w' : mwrite a v w = Ok w' -> touches w w'.
Proof.
  cbn [mwrite World_Memory]. intros (h & E & H)%rbind_Ok.
  destruct h; try (apply rbind_Ok in H as (u & _ & H)); injection H as <-; done.
Qed.

(** An access depends on the machine only. *)
Lemma mread_same a w1 w2 v w1' : same_machine w1 w2 -> mread a w1 = Ok (v, w1') ->
  exists w2', mread a w2 = Ok (v, w2') /\ same_machine w1' w2'.
Proof.
  intros (E1 & E2 & E3 & E4 & E5) H. cbn [mread World_Memory] in *.
  rewrite <- ?E1, <- ?E2, <- ?E3, <- ?E4, <- ?E5. apply rbind_Ok in H as (h & -> & H). cbn [rbind].
  destruct h; try (apply rbind_Ok in H as (u & -> & H)); cbn [rbind];
    try (injection H as <- <-; eexists; split; [reflexivity | by split_and!]).
  destruct u as [u p]. injection H as <- <-. eexists. split; [reflexivity |]. by split_and!.
Qed.

Lemma mwrite_same a v w1 w2 w1' : same_machine w1 w2 -> mwrite a v w1 = Ok w1' ->
  exists w2', mwrite a v w2 = Ok w2' /\ same_machine w1' w2'.
Proof.
  intros (E1 & E2 & E3 & E4 & E5) H. cbn [mwrite World_Memory] in *.
  rewrite <- ?E1, <- ?E2, <- ?E3, <- ?E4, <- ?E5. apply rbind_Ok in H as (h & -> & H). cbn [rbind].
  destruct h; try (apply rbind_Ok in H as (u & -> & H)); cbn [rbind];
    injection H as <-; eexists; (split; [reflexivity | by split_and!]).
Qed.

#[export, refine] Instance World_TargetLaws : TargetLaws World :=
  { same := same_machine; steady := steady_addr }.
Proof.
  - done.
  - done.
  - intros d w. by split_and!.
  - intros o w. by split_and!.
  - intros a w v w' [(_ & H & _) _]%mread_touches. done.
  - intros a v w w' (_ & H & _)%mwrite_touches. done.
  - exact mread_same.
  - exact mwrite_same.
  - intros a w1 w2 (_ & E & _). unfold steady_addr. by rewrite E.
  - intros a b w v w' [(E & _) _]%mread_touches. unfold steady_addr. by rewrite E.
  - intros a w v w' Hs [_ H]%mread_touches. by rewrite H.
Defined.

#[export] Instance World_DebugRam : DebugRam World.
Proof. constructor; [| done]. intros d w []. by constructor. Qed.

(** *** No access runs out of fuel *)

Lemma halts_get a i : halts (get a i).
Proof. unfold get. by case_match. Qed.
Lemma halts_set a i v : halts (set a i v).
Proof. unfold set. by case_match. Qed.
Lemma halts_route {H} tab (b : Bus H) a : halts (Bus.route tab b a).
Proof.
  unfold Bus.route. apply halts_bind; [apply halts_get | intros id _].
  apply halts_bind; [unfold Bus.tab_get; repeat case_match; done | by intros []].
Qed.
Lemma halts_reader {H} (b : Bus H) a : halts (Bus.reader b a).
Proof. apply halts_route. Qed.
Lemma halts_writer {H} (b : Bus H) a : halts (Bus.writer b a).
Proof. apply halts_route. Qed.
Lemma halts_vread vb cart p a : halts (vread vb cart p a).
Proof.
  unfold vread. apply halts_bind; [apply halts_reader | intros h _].
  destruct h; try case_match; first [done | apply halts_get | unfold read_chrrom; apply halts_get].
Qed.
Lemma halts_vwrite vb p a d : halts (vwrite vb p a d).
Proof.
  unfold vwrite. apply halts_bind; [apply halts_writer | intros h _].
  destruct h; try case_match; try done; apply halts_bind; first [apply halts_set | done].
Qed.

(** The cases of a register number. *)
Ltac reg_cases := repeat lazymatch goal with |- halts (match ?x with _ => _ end) => destruct x end.

Lemma halts_data vb cart p which : halts (readreg vb cart which p).
Proof.
  unfold readreg. apply halts_bind; [| done]. reg_cases; try done;
    (apply halts_bind; [apply halts_vread | done]).
Qed.
Lemma halts_writereg vb p which d : halts (writereg vb which d p).
Proof.
  unfold writereg. reg_cases; try done. apply halts_bind; [apply halts_vwrite | done].
Qed.
Lemma halts_no_sideeff vb cart p which : halts (Ppu.readreg_no_sideeff vb cart which p).
Proof.
  unfold Ppu.readreg_no_sideeff. reg_cases; try done; apply halts_vread.
Qed.

#[export] Instance World_TerminalLaws : TerminalLaws World.
Proof.
  constructor.
  - done.
  - done.
  - done.
  - intros a w v w' [(_ & _ & H) _]%mread_touches. exact H.
  - intros a v w w' (_ & _ & H)%mwrite_touches. exact H.
  - done.
  - intros k w. by split_and!.
  - intros a w. cbn [mread World_Memory]. apply halts_bind; [apply halts_reader | intros h _].
    destruct h; try done; (apply halts_bind;
      [first [apply halts_get | apply halts_data | unfold read_prgrom; apply halts_get] | try done; by intros []]).
  - intros a v w. cbn [mwrite World_Memory]. apply halts_bind; [apply halts_writer | intros h _].
    destruct h; try done; (apply halts_bind; [first [apply halts_set | apply halts_writereg] | done]).
  - intros w. apply halts_bind; [apply halts_no_sideeff | done].
  - intros a w. apply halts_no_sideeff.
Qed.

(** ** The main loop under the debugger *)

Definition same_emu (e1 e2 : Emulator) : Prop :=
  cpu e1 = cpu e2 /\ same_machine (world e1) (world e2) /\ ecycle e1 = ecycle e2 /\ nmi e1 = nmi e2.

Section Lift.
Variables cb1 cb2 : option (CPU -> Status -> Z -> AccessMode -> World -> Res World).
Hypothesis cpu_sim : sim same_machine (Cpu.run cb1) (Cpu.run cb2).
Variable shl : Z -> Z -> Z.

(** A simulation of the CPU carries over to [Emulator::run] ... *)
Lemma run_sim e1 e2 e1' : same_emu e1 e2 -> run cb1 shl e1 = Ok e1' ->
  exists e2', run cb2 shl e2 = Ok e2' /\ same_emu e1' e2'.
Proof.
  intros (Ec & Ew & Ey & En) H. unfold run in *.
  apply rbind_Ok in H as ([[] [c w1]] & Hr & H). rewrite Ec in Hr.
  destruct (cpu_sim _ _ _ _ _ _ Ew Hr) as (w2 & -> & Ew'). cbn [rbind].
  apply rbind_Ok in H as (d & Hd & H). rewrite <- Ey, Hd. cbn [rbind].
  apply rbind_Ok in H as (n & Hn & H). rewrite Hn. cbn [rbind].
  destruct Ew' as (E1 & E2 & E3 & E4 & E5). rewrite <- E3, <- E4, <- E5, <- En.
  apply rbind_Ok in H as ([p [nm c2]] & Hp & [= <-]). rewrite Hp. cbn [rbind].
  eexists. split; [reflexivity |]. by split_and!.
Qed.

(** ... to its loop, and to [run_frame], unless the debugger has quit. *)
Lemma run_until_nmi_sim n e1 e2 e1' : same_emu e1 e2 -> run_until_nmi cb1 shl n e1 = Ok e1' ->
  exists e2', run_until_nmi cb2 shl n e2 = Ok e2' /\ same_emu e1' e2'.
Proof.
  revert e1 e2. induction n as [| n IH]; intros e1 e2 He H; simpl in *;
    pose proof He as (_ & _ & _ & En); rewrite <- En.
  - destruct (nmi e1); [| done]. injection H as <-. by exists e2.
  - destruct (nmi e1); [injection H as <-; by exists e2 |].
    apply rbind_Ok in H as (e3 & H1 & H2). destruct (run_sim _ _ _ He H1) as (e4 & -> & He').
    cbn [rbind]. by eapply IH.
Qed.

Lemma run_frame_sim n e1 e2 e1' : same_emu e1 e2 ->
  debugger_has_quit e1 = false -> debugger_has_quit e2 = false ->
  run_frame cb1 shl n e1 = Ok e1' -> exists e2', run_frame cb2 shl n e2 = Ok e2' /\ same_emu e1' e2'.
Proof.
  intros He Q1 Q2 H. unfold run_frame in *. rewrite Q1 in H. rewrite Q2.
  apply rbind_Ok in H as (e3 & H & [= <-]). destruct (run_until_nmi_sim _ _ _ _ He H) as (e4 & -> & He').
  cbn [rbind]. eexists. split; [reflexivity |]. destruct He' as (? & ? & ? & ?). by split_and!.
Qed.
End Lift.

(** The debugger as [enable_debugger] installs it, stopping where it would read a
    register of the PPU. *)
Definition guarded `{F : Fmt} (k : Event -> CPU -> World -> Res World)
    : option (CPU -> Status -> Z -> AccessMode -> World -> Res World) :=
  match enable_debugger k with Some f => Some (guard f) | None => None end.

Lemma frame_transparent `{F : Fmt} k shl n e1 e2 e1' : passive k -> same_emu e1 e2 ->
  debugger_has_quit e1 = false -> debugger_has_quit e2 = false ->
  run_frame (guarded k) shl n e1 = Ok e1' ->
  exists e2', run_frame None shl n e2 = Ok e2' /\ same_emu e1' e2'.
Proof.
  intros Hk He Q1 Q2. apply run_frame_sim; [| done ..]. exact (run_transparent k Hk).
Qed.

(** The guard itself changes nothing in such a run. *)
Lemma frame_guarded `{F : Fmt} k shl n e e' : run_frame (guarded k) shl n e = Ok e' ->
  run_frame (enable_debugger k) shl n e = Ok e'.
Proof.
  unfold run_frame. destruct (debugger_has_quit e); [done |].
  intros (e1 & H & [= <-])%rbind_Ok.
  assert (G : run_until_nmi (enable_debugger k) shl n e = Ok e1); [| by rewrite G].
  clear -H. revert e H. induction n as [| n IH]; intros e H; simpl in *; [done |].
  destruct (nmi e); [done |]. apply rbind_Ok in H as (e2 & H1 & H2).
  assert (G : run (enable_debugger k) shl e = Ok e2); [| rewrite G; by apply IH].
  unfold run in *. apply rbind_Ok in H1 as ([[] [c w]] & Hr & H1).
  destruct (run_guard (fetch_callback (Some k)) _ _ _ _ _ _ eq_refl Hr) as (w2 & E & <-).
  unfold enable_debugger. rewrite E. exact H1.
Qed.
