(* ===== verification/DebugProps.v ===== *)
(** * Properties of the debugger

    What the debugger and its command line promise: they leave the machine alone,
    stop where they were told to, do what is typed, and end. *)

From Stdlib Require Import Ascii.
From stdpp Require Import strings.
From S2P Require Import Prelude HeapArray Bus StringOps Fmt InstrInfo Disasm Cpu CpuFacts CpuSim CpuInv CpuStack CpuNext.
From S2P Require Import File Cartridge Video Ppu PpuInv PpuSched Emulator EmulatorInv EmulatorRun TinyMachine.
From S2P Require Import Debugger DebugInv DebugStep CliDbg CliInv CliRepl EmulatorDebug.
Open Scope Z_scope.

(** ** The machine under the debugger *)

(** C12: a frame under the debugger is a frame without it.  For any callback that
    changes nothing but the debugger, the console and what is printed, a frame
    that ends with the debugger attached, and in which the debugger never looked
    at a register of the PPU ([guarded] stops there), is the frame that the
    emulator runs with the debugger disabled: the same CPU, memories, PPU and
    cycle counter. *)
Theorem debugger_transparent `{F : Fmt} (k : Event -> CPU -> World -> Res World) shl n e e' :
  passive k -> debugger_has_quit e = false -> run_frame (guarded k) shl n e = Ok e' ->
  run_frame (enable_debugger k) shl n e = Ok e' /\
  exists e2, run_frame None shl n e = Ok e2 /\ same_emu e' e2.
Proof.
  intros Hk Hq H. split; [by apply frame_guarded |].
  by apply (frame_transparent k shl n e e e' Hk); [split_and! | ..].
Qed.

(** A callback that prints and steps, in a frame of two [LDA #$2A]. *)
Definition print_and_step (ev : Event) (c : CPU) (w : World) : Res World :=
  Ok (set_nextstop 0xC002 (add_output (Stdout "stop") w)).

Lemma debugger_transparent_witness :
  let e := tiny [0xA9; 0x2A; 0xA9; 0x2B] EmptyString late_ppu in
  let e0 := mkEmulator (cpu e) (set_nextstop 0xC002 (world e)) 0 false in
  exists e1 e2, run_frame (enable_debugger (F := DigitFmt) print_and_step) (fun _ _ => 0) 9 e0 = Ok e1 /\
    output (world e1) = [Stdout "stop"] /\
    run_frame None (fun _ _ => 0) 9 e0 = Ok e2 /\ same_emu e1 e2 /\ acc (r (cpu e2)) = 0x2B.
Proof.
  intros e e0.
  assert (G : match run_frame (guarded (F := DigitFmt) print_and_step) (fun _ _ => 0) 9 e0 with
              | Ok e1 => output (world e1) = [Stdout "stop"] /\ acc (r (cpu e1)) = 0x2B
              | Err _ => False end) by (vm_compute; split; reflexivity).
  destruct (run_frame (guarded print_and_step) (fun _ _ => 0) 9 e0) as [e1 |] eqn:E; [| destruct G].
  destruct G as [Go Ga].
  destruct (debugger_transparent (F := DigitFmt) print_and_step (fun _ _ => 0) 9 e0 e1) as (H1 & e2 & H2 & S).
  - intros ev c w w' [= <-]. by split_and!.
  - reflexivity.
  - exact E.
  - exists e1, e2. split; [exact H1 |]. split; [exact Go |]. split; [exact H2 |]. split; [exact S |].
    destruct S as (<- & _). exact Ga.
Defined.

(** ** Stepping *)

(** C16: [step] stops at the next instruction.  If the instruction at the program
    counter runs in memory (and is not one whose successor [nextaddr] mistakes),
    then [step] sets the stop to the address where that run ends and leaves the
    machine and its run as they are.  Without breakpoints, the fetch callback
    then runs the user's callback at a fetch from that address, with the stop
    cleared, and at no fetch from another. *)
Theorem step_stops_next `{F : Fmt} {W} `{MemOk : MemoryOk W} {Ram : RamLaws W} {T : DebugTarget W}
    {L : TargetLaws W} {DR : DebugRam W} (c : CPU) (w : W) c' w' :
  cpu_ok c -> winv w -> in_memory c -> execnmi c = false -> execirq c = false ->
  opcode c w <> 0x00 -> opcode c w <> 0x40 -> (opcode c w = 0x60 -> sp (r c) <= 0xFD) ->
  (opcode c w = 0x6C -> quiet (operand c w) /\ quiet (ind_high_addr (operand c w))) ->
  Cpu.run None (c, w) = Ok (tt, (c', w')) ->
  exists w1 w1', step c w = Ok w1 /\ same w1 w /\
    Cpu.run None (c, w1) = Ok (tt, (c', w1')) /\ same w1' w' /\
    (quit (dbg w) = false -> breakvec (dbg w) = [] ->
     (forall k st w2, fetch_callback (Some k) c' st (pc (r c')) AccX w1' = Ok w2 ->
        exists w3, same w3 w' /\ nextstop (dbg w3) = None /\ k (mkEvent FETCH st 0) c' w3 = Ok w2) /\
     (forall k k' st a, a <> pc (r c') ->
        fetch_callback (Some k) c' st a AccX w1' = fetch_callback (Some k') c' st a AccX w1')).
Proof.
  intros Hc Hw Hm H1 H2 H3 H4 H5 H6 H.
  destruct (step_run c w c' w' Hc Hw Hm H1 H2 H3 H4 H5 H6 H) as (w1 & w1' & E1 & S1 & E2 & S2 & D).
  exists w1, w1'. split_and!; try done. intros Hq Hb. split.
  - intros k st w2 (w3 & S3 & Hn & Hk)%fetch_stops; [| by rewrite D ..].
    exists w3. split; [by rewrite S3 |]. done.
  - intros k k' st a Ha. by apply (fetch_passes k k' c' st (pc (r c'))); rewrite ?D.
Qed.

(** [JMP $C000] at $C000, stepped. *)
Lemma step_stops_next_witness :
  let w := tiny_world [0x4C; 0x00; 0xC0] EmptyString init_ppu in
  exists c' w', Cpu.run None (tiny_cpu, w) = Ok (tt, (c', w')) /\ pc (r c') = 0xC000 /\
  exists w1, step tiny_cpu w = Ok w1 /\ same w1 w.
Proof.
  intros w.
  assert (G : match Cpu.run None (tiny_cpu, w) with Ok (_, (c', _)) => pc (r c') = 0xC000 | Err _ => False end)
    by (vm_compute; reflexivity).
  destruct (Cpu.run None (tiny_cpu, w)) as [[[] [c' w']] |] eqn:E; [| destruct G].
  exists c', w'. split; [reflexivity |]. split; [exact G |].
  destruct (step_stops_next (F := DigitFmt) tiny_cpu w c' w') as (w1 & w1' & H1 & S1 & _).
  - exact (proj1 tiny_cpu_ok).
  - apply tiny_world_ok; [repeat constructor; lia | apply init_ppu_ok].
  - split; [right | split; right]; (split; vm_compute; [discriminate | reflexivity]).
  - reflexivity.
  - reflexivity.
  - vm_compute. discriminate.
  - vm_compute. discriminate.
  - vm_compute. discriminate.
  - vm_compute. discriminate.
  - exact E.
  - exists w1. split; [exact H1 | exact S1].
Defined.

(** C17: interrupts do not lose the debugger.  Serving an interrupt with the
    debugger attached and a stop pending does what it does without the debugger,
    and moves the stop to the first instruction of the handler. *)
Theorem interrupt_moves_stop `{F : Fmt} {W} `{MemOk : MemoryOk W} {Ram : RamLaws W} {T : DebugTarget W}
    {L : TargetLaws W} {DR : DebugRam W} (k : Event -> CPU -> W -> Res W) (c : CPU) (w : W) x :
  cpu_ok c -> winv w -> calm c -> plain w -> nextstop (dbg w) = Some x ->
  exists c1 w1, interrupt None (c, w) = Ok (tt, (c1, w1)) /\
    interrupt (Some (fetch_callback (Some k))) (c, w) = Ok (tt, (c1, set_nextstop (pc (r c1)) w1)).
Proof. intros. by apply (interrupt_fc k c w x). Qed.

(** The interrupt of a machine whose vectors point to $C000; the stop was 0. *)
Lemma interrupt_moves_stop_witness :
  let w := tiny_world [] EmptyString init_ppu in
  exists c1 w1, interrupt (Some (fetch_callback (F := DigitFmt) (Some print_and_step))) (tiny_cpu, w)
    = Ok (tt, (c1, set_nextstop 0xC000 w1)).
Proof.
  intros w.
  destruct (interrupt_moves_stop (F := DigitFmt) print_and_step tiny_cpu w 0) as (c1 & w1 & E0 & E1).
  - exact (proj1 tiny_cpu_ok).
  - apply tiny_world_ok; [constructor | apply init_ppu_ok].
  - split; [split; simpl; lia |]. intros lo i Hlo Hi. right. unfold set_low, byte in *. simpl. dlia.
  - split; reflexivity.
  - reflexivity.
  - exists c1, w1. rewrite E1. do 5 f_equal.
    assert (G : match interrupt None (tiny_cpu, w) with Ok (_, (c1, _)) => pc (r c1) = 0xC000 | Err _ => False end)
      by (vm_compute; reflexivity).
    rewrite E0 in G. exact G.
Defined.

(** ** The command line *)

(** C18: the command line ends.  Whatever is typed, the loop of [repl] comes to a
    command that leaves it (the end of the input counts as [quit]), or faults; it
    cannot go on forever unless a [disblock] up to one of the last three
    addresses of memory is typed.  The loops over blocks need no more rounds
    than there are addresses. *)
Theorem repl_ends `{F : Fmt} {W} `{TL : TerminalLaws W} fopen strerror fuel ev (c : CPU) (w : W) :
  65536 <= Z.of_nat fuel ->
  (forall w1, reaches fopen strerror fuel c (announce ev w) w1 -> ~ sweeping w1) ->
  (exists w' cmd, repl fopen strerror fuel ev c w = Ok w' /\
     cli_cmd (console w') = Some cmd /\ leaves cmd = true) \/
  (exists f, repl fopen strerror fuel ev c w = Err f /\ f <> OutOfFuel).
Proof.
  intros Hf Hs. unfold repl. apply repl_loop_ends; [done | | done]. apply Nat.lt_succ_diag_r.
Qed.

(** [step] is typed: the loop ends in the first round. *)
Lemma repl_ends_witness :
  let w := tiny_world [0xEA] ("step" +:+ newline) init_ppu in
  let ev := mkEvent FETCH (mkStatus (r tiny_cpu) 0xEA 0) 0 in
  exists w' cmd, repl (F := DigitFmt) (fun _ _ => None) EmptyString (Z.to_nat 65536) ev tiny_cpu w = Ok w' /\
    cli_cmd (CliDbg.console w') = Some cmd /\ leaves cmd = true.
Proof.
  intros w ev.
  set (f := Z.to_nat 65536).
  assert (G : match repl (F := DigitFmt) (fun _ _ => None) EmptyString f ev tiny_cpu w with
              | Ok _ => True | Err _ => False end) by (vm_compute; exact I).
  destruct (repl_ends (F := DigitFmt) (fun _ _ => None) EmptyString f ev tiny_cpu w) as [H | (e & E & _)].
  - unfold f. rewrite Z2Nat.id; lia.
  - intros w1 H. inversion H as [? E | ? w2 ? E _]; subst.
    + intros (k & args & rest & cmd & P & C & [-> _]). vm_compute in P. injection P as <- <- <-.
      vm_compute in C. discriminate C.
    + assert (G2 : match CliDbg.round (F := DigitFmt) (fun _ _ => None) EmptyString f tiny_cpu
                (announce (F := DigitFmt) ev w) with Ok (b, _) => b = true | Err _ => False end)
        by (vm_compute; reflexivity).
      rewrite E in G2. discriminate G2.
  - exact H.
  - rewrite E in G. destruct G.
Defined.

(** C19: the command [break], typed with a mode and an address range, sets that
    breakpoint: printing the line and parsing it are inverse, the machine is left
    alone, and the search of the fetch callback then finds a breakpoint for every
    access of that mode in the range.  A range of a single address, given by one
    bound or twice the same, is rejected. *)
Theorem break_sets_breakpoint `{F : Fmt} {FL : FmtLaws} {W} `{TL : TerminalLaws W} fopen strerror fuel
    (c : CPU) (w : W) m a bs rest :
  is_mode m = true -> word a -> Forall word bs ->
  input (console w) = bytes_of (break_line m (a :: bs)) ++ 10 :: rest ->
  exists w', CliDbg.round fopen strerror fuel c w = Ok (false, w') /\ same w' w /\
    input (console w') = rest /\
    match bs with
    | b :: _ => if a <? b
                then breakvec (dbg w') = breakvec (dbg w) ++ [mkBreakpoint a b m] /\
                     forall mode x, mode_char mode = m -> a <= x <= b ->
                       exists i p, list_find (fun p => hits x mode p = true) (breakvec (dbg w')) = Some (i, p)
                else dbg w' = dbg w
    | [] => dbg w' = dbg w
    end.
Proof.
  intros Hm Ha Hbs Hi. rewrite (break_typed fopen strerror fuel c w m (a :: bs) rest Hm) by (done || by constructor).
  rewrite exec_break_range by done. set (w1 := remember BREAK _ rest _).
  assert (S1 : same w1 w) by (unfold w1; rewrite same_remember; apply same_emit).
  assert (D1 : dbg w1 = dbg w) by (unfold w1; rewrite dbg_remember; apply dbg_emit).
  assert (I1 : input (console w1) = rest) by (unfold w1; rewrite console_remember; by case_decide).
  destruct bs as [| b bs]; cbn [head].
  { eexists. split; [reflexivity |]. rewrite console_print_line, dbg_print_line. by rewrite same_print_line. }
  rewrite Z.ltb_antisym. destruct (b <=? a) eqn:Eb; cbn [negb].
  { eexists. split; [reflexivity |]. rewrite console_print_line, dbg_print_line. by rewrite same_print_line. }
  unfold setbreak. eexists. split; [reflexivity |].
  rewrite console_print_line, dbg_print_line, console_upd, dbg_upd.
  split; [by rewrite same_print_line, same_upd |]. split; [done |]. cbn [breakvec with_breakvec]. rewrite D1.
  split; [done |]. intros mode x Hmode Hx.
  destruct (list_find_elem_of (fun p => hits x mode p = true) (breakvec (dbg w) ++ [mkBreakpoint a b m])
    (mkBreakpoint a b m)) as [[i p] E].
  - apply elem_of_app. right. by apply list_elem_of_singleton.
  - unfold hits. cbn [b_mode b_start b_end]. rewrite <- Hmode, bool_decide_eq_true_2 by done.
    apply andb_true_iff. split; [apply Z.leb_le | apply Z.leb_le]; lia.
  - by exists i, p.
Qed.

(** [break r 2000 2007] *)
Lemma break_sets_breakpoint_witness :
  let w := tiny_world [] (break_line (F := DigitFmt) "r" [0x2000; 0x2007] +:+ newline) init_ppu in
  exists w', CliDbg.round (F := DigitFmt) (fun _ _ => None) EmptyString 0 tiny_cpu w = Ok (false, w') /\
    breakvec (dbg w') = [mkBreakpoint 0x2000 0x2007 "r"].
Proof.
  intros w.
  destruct (break_sets_breakpoint (F := DigitFmt) (FL := DigitFmtLaws) (fun _ _ => None) EmptyString 0 tiny_cpu w
    "r" 0x2000 [0x2007] []) as (w' & E & _ & _ & Hb).
  - reflexivity.
  - split; lia.
  - repeat constructor; lia.
  - vm_compute. reflexivity.
  - exists w'. split; [exact E |]. exact (proj1 Hb).
Defined.

(** ** Disassembly *)

(** C32: the sweep of [disassemble_block] up to $FFFC prints the instructions of
    the block, each starting where the one before ends, in one round per address
    at most.  With the end $FFFF it never returns, from any start and whatever
    its callables do. *)
Theorem disassembly_sweep `{F : Fmt} :
  (forall mem start end_ n, 0 <= start -> end_ <= 0xFFFC -> end_ - start + 1 <= Z.of_nat n ->
     exists l, disassemble_block (peek_at mem) collect n start end_ [] = Ok l /\ listing mem end_ start l) /\
  (forall S (readval : Z -> S -> Res (Z * S)) process n start s s', word start ->
     disassemble_block readval process n start 0xFFFF s <> Ok s').
Proof.
  split.
  - intros mem start end_ n Hs He Hn.
    destruct (disassemble_block_listing mem n start end_ [] Hs He Hn) as (l & E & H). by exists l.
  - intros S readval process n start s s'. apply disassemble_block_loops.
Qed.

(** Three [NOP]s and a [JMP]. *)
Lemma disassembly_sweep_witness : exists l,
  disassemble_block (F := DigitFmt) (peek_at (fun a => if a =? 3 then 0x4C else 0xEA)) collect 6 0 5 [] = Ok l /\
  listing (F := DigitFmt) (fun a => if a =? 3 then 0x4C else 0xEA) 5 0 l.
Proof.
  destruct (disassembly_sweep (F := DigitFmt)) as [H _]. apply H; [lia | lia | simpl; lia].
Defined.
