(* ===== verification/MachineProps.v ===== *)
(** * Properties of the machine

    Booting, the main loop and its end, and the limits of the counters, for the
    emulator put together from its components; and the bus and the cartridge it
    is built of. *)

From stdpp Require Import strings.
From S2P Require Import Prelude HeapArray Bus InstrInfo Cpu CpuInv CpuStack File Cartridge.
From S2P Require Import Video Ppu PpuInv PpuSched Emulator EmulatorInv EmulatorRun CpuNext.
Open Scope Z_scope.

(** ** An example image: one bank of each ROM, zeroed *)

Definition im0 : Image := mkImage (replicate (Z.to_nat 16384) 0) (replicate (Z.to_nat 8192) 0) 1 1 0 false false 0 None.

Lemma im0_playable : playable im0.
Proof.
  constructor.
  - constructor; cbn [im_prg im_chr im_prg_banks im_chr_banks im_mapper im_prgram_size im_trainer im0].
    + rewrite length_replicate. reflexivity.
    + rewrite length_replicate. reflexivity.
    + unfold byte. lia.
    + lia.
    + unfold byte. lia.
    + unfold byte. lia.
    + done.
  - simpl. lia.
  - apply Forall_replicate. unfold byte. lia.
  - apply Forall_replicate. unfold byte. lia.
Qed.

(** The file with this image, and what follows it. *)
Definition rom_file (im : Image) (fname : string) (s : list Z) : File :=
  mkFile (Some (mkFILE false (ines_file im ++ s))) fname EmptyString.

(** ** Booting *)

Lemma holds_last_16k c im a : playable im -> holds (prgrom c) (im_prg im) -> 0xC000 <= a < 0x10000 ->
  exists v, im_prg im !! (length (im_prg im) - Z.to_nat (0x10000 - a))%nat = Some v /\
    read_prgrom c a = Ok v.
Proof.
  intros Hp Hh Ha. pose proof (holds_prg_ok c im Hp Hh) as Hok. rewrite read_prgrom_high by done.
  destruct Hok as [Hl _]. destruct Hh as [Hs Hg]. unfold HeapArray.size in Hs.
  set (i := len (prgrom c) - 0x4000 + (a - 0xC000)).
  assert (Ei : (length (im_prg im) - Z.to_nat (0x10000 - a))%nat = Z.to_nat i) by (unfold i; lia).
  destruct (lookup_lt_is_Some_2 (im_prg im) (Z.to_nat i)) as [v Hv]; [unfold i; lia |].
  exists v. split; [by rewrite Ei |]. specialize (Hg i v ltac:(unfold i; lia) Hv).
  rewrite get_in in Hg by (unfold i; lia). done.
Qed.

Lemma mread_rom w a v : world_ok w -> 0xC000 <= a < 0x10000 -> read_prgrom (cartridge w) a = Ok v ->
  mread a w = Ok (v, w).
Proof.
  intros Hw Ha Hr. rewrite mread_world by (done || unfold word; lia).
  assert (Eo : owner a = CPrg) by (apply owner_areas; unfold CPUBUS_SIZE; lia).
  by rewrite Eo, Hr.
Qed.

(** C3: the constructed emulator accepts any iNES image with one to four PRG
    banks and CHR ROM, whatever uninitialised memory holds.  It consumes exactly
    the image; the machine it leaves satisfies the invariant that the main loop
    preserves; the CPU reads the last 16 KiB of PRG ROM at $C000, and the
    nametables are mirrored as the header says unless the uninitialised lookup
    entry below them holds the number of their area. *)
Theorem machine_boots fr fr1 fr2 im fname s : playable im ->
  exists e e', new_emulator fr1 fr2 = Ok e /\
    insert_rom fr e (rom_file im fname s) = Ok (true, e', mkFile (Some (mkFILE false s)) fname EmptyString) /\
    emu_at 0 0 e' /\ nmi e' = false /\
    (forall a, 0xC000 <= a < 0x10000 -> exists v,
       im_prg im !! (length (im_prg im) - Z.to_nat (0x10000 - a))%nat = Some v /\
       mread a (world e') = Ok (v, world e')) /\
    (forall a, NT_START <= a < PAL_START -> Bus.reader (vrambus (world e')) a =
       Ok (if fr2 0x1FFF =? 1 then VNtNone else VNtMirror (if im_vert im then VERT else HORZ))).
Proof.
  intros Hp. destruct (new_emulator_spec fr1 fr2) as (e & E & Hm).
  destruct (insert_rom_spec fr fr2 e im fname EmptyString false s Hm Hp)
    as (e' & Ei & Hw & Ec & Ep & Ecy & En & Hprg & Hchr & Hnt & _).
  exists e, e'. split; [exact E |]. split; [exact Ei |]. split.
  { constructor; rewrite ?Ec, ?Ep, ?Ecy; [apply init_cpu_ok | by split | exact Hw | apply init_ppu_ok | reflexivity | reflexivity]. }
  split; [exact En |]. split; [| exact Hnt]. intros a Ha.
  destruct (holds_last_16k _ im a Hp Hprg Ha) as (v & Hv & Hr). exists v. split; [done |].
  exact (mread_rom (world e') a v Hw Ha Hr).
Qed.

(** A machine with the example image. *)
Lemma machine_boots_witness : exists e e',
  new_emulator (fun _ => 7) (fun _ => 7) = Ok e /\
  insert_rom (fun _ => 0) e (rom_file im0 "rom.nes" []) =
    Ok (true, e', mkFile (Some (mkFILE false [])) "rom.nes" EmptyString) /\
  emu_at 0 0 e' /\ nmi e' = false /\
  (forall a, NT_START <= a < PAL_START -> Bus.reader (vrambus (world e')) a = Ok (VNtMirror HORZ)).
Proof.
  destruct (machine_boots (fun _ => 0) (fun _ => 7) (fun _ => 7) im0 "rom.nes" [] im0_playable)
    as (e & e' & E & Ei & He & En & _ & Hnt).
  exists e, e'. split; [exact E |]. split; [exact Ei |]. split; [exact He |]. split; [exact En | exact Hnt].
Defined.

(** The machine that the other concrete runs use. *)
Lemma demo_machine : exists e, emu_at 0 0 e /\ nmi e = false /\ cpu e = init_cpu /\ ecycle e = 0 /\
  debugger (world e) = Debugger.init_debugger.
Proof.
  destruct (new_emulator_spec (fun _ => 7) (fun _ => 7)) as (e & E & Hm).
  destruct (insert_rom_spec (fun _ => 0) (fun _ => 7) e im0 "rom.nes" EmptyString false [] Hm im0_playable)
    as (e' & Ei & Hw & Ec & Ep & Ecy & En & _ & _ & _ & Ed).
  exists e'. split_and!; [| assumption ..].
  constructor; rewrite ?Ec, ?Ep, ?Ecy; [apply init_cpu_ok | by split | exact Hw | apply init_ppu_ok | reflexivity | reflexivity].
Qed.

(** ** Power *)

(** C39: from any machine in its invariant, powering it on or resetting it
    succeeds; the PPU starts at its first tick, the CPU at the reset vector with
    interrupts disabled, and the six cycles that this took are left for the
    next call of [run] to count. *)
Theorem power_and_reset lag t e : emu_at lag t e -> ecycle e + lag + 6 < 2 ^ 31 ->
  (exists e', power None e = Ok e' /\ emu_at (lag + 6) 0 e' /\ nmi e' = nmi e /\ ecycle e' = ecycle e /\
     pc (r (cpu e')) = reset_target (world e) /\ sp (r (cpu e')) = 0xFD /\
     flags (r (cpu e')) = set_intdis true (set_breakf false reset_status)) /\
  (exists e', reset None e = Ok e' /\ emu_at (lag + 6) 0 e' /\ nmi e' = nmi e /\ ecycle e' = ecycle e /\
     pc (r (cpu e')) = reset_target (world e) /\ sp (r (cpu e')) = u8 (sp (r (cpu e)) - 3) /\
     flags (r (cpu e')) = set_intdis true (set_breakf false (flags (r (cpu e))))).
Proof. intros He Hov. split; [| by eapply reset_machine].
  destruct (power_machine lag t e He Hov) as (e' & E & H1 & H2 & H3 & H4 & H5 & H6 & _). by exists e'. Qed.

Lemma power_and_reset_witness : exists e e1 e2,
  power None e = Ok e1 /\ sp (r (cpu e1)) = 0xFD /\ reset None e = Ok e2 /\ sp (r (cpu e2)) = 0xFD.
Proof.
  destruct demo_machine as (e & He & _ & Ec & Ecy & _).
  destruct (power_and_reset 0 0 e He) as [(e1 & E1 & H1) (e2 & E2 & H2)]; [rewrite Ecy; reflexivity |].
  exists e, e1, e2. split; [exact E1 |]. split; [apply H1 |]. split; [exact E2 |].
  destruct H2 as (_ & _ & _ & _ & -> & _). by rewrite Ec.
Defined.

(** The machine that [main] starts: booted, with a screen, and powered on. *)
Lemma demo_started : exists e, emu_at 6 0 e /\ nmi e = false /\ ecycle e = 0 /\ debugger_has_quit e = false.
Proof.
  destruct demo_machine as (e & He & En & _ & Ecy & Ed).
  set (scr := Some (new_canvas 1 (fun _ => 0) 256 240)).
  assert (Hs : screen_ok scr) by (intros c [= <-]; split; [by apply new_canvas_ok | done]).
  destruct (power_machine 0 0 (set_screen scr e)) as (e1 & _ & He1 & En1 & Ec1 & _ & _ & _ & Ed1).
  - exact (screen_machine 0 0 e scr He Hs).
  - cbn [ecycle set_screen]. rewrite Ecy. reflexivity.
  - exists e1. split; [exact He1 |]. split; [rewrite En1; exact En |]. split; [rewrite Ec1; exact Ecy |].
    unfold debugger_has_quit. injection Ed1 as -> _. cbn [world set_screen debugger set_ppu]. by rewrite Ed.
Qed.

(** ** The main loop *)

(** C4: one call of [Emulator::run] keeps the machine in its invariant.  The PPU
    advances exactly three ticks for each of the one to seven cycles that the CPU
    took and for each cycle it lagged behind, after which it lags no more; the
    interrupt reaches the CPU and the frame flag exactly when one of these ticks
    raises it.  The call faults only if the CPU does, in an access out of
    bounds. *)
Theorem run_keeps_step shl lag t e : emu_at lag t e -> lag < max_lag -> ecycle e + lag + 7 < 2 ^ 31 ->
  (forall f, run None shl e = Err f <-> f = OutOfBounds /\ Cpu.run None (cpu e, world e) = Err f) /\
  (forall c w, Cpu.run None (cpu e, world e) = Ok (tt, (c, w)) ->
   exists n e', run None shl e = Ok e' /\ 1 <= n <= 7 /\ ecycle e' = ecycle e + lag + n /\
     emu_at 0 (ticks (Z.to_nat (3 * (lag + n))) t) e' /\
     nmi e' = nmi e || fires (Z.to_nat (3 * (lag + n))) t /\
     cpu e' = (if fires (Z.to_nat (3 * (lag + n))) t then fire_nmi c else c)).
Proof.
  intros He Hl Hov. split.
  { intros f. rewrite (run_fault shl lag t e f He Hl Hov). split; [| tauto]. intros H. split; [| done].
    by apply (cpu_fault_oob _ _ f (ea_cpu _ _ _ He) (ea_world _ _ _ He)). }
  intros c w H.
  destruct (run_ok shl lag t e c w He H Hl Hov) as (n & e' & H1 & H2 & H3 & H4 & H5 & H6 & _).
  by exists n, e'.
Qed.

Lemma run_keeps_step_witness : exists e, ecycle e = 0 /\
  forall c w, Cpu.run None (cpu e, world e) = Ok (tt, (c, w)) ->
  exists n e', run None (fun _ _ => 0) e = Ok e' /\ 1 <= n <= 7 /\ ecycle e' = 6 + n.
Proof.
  destruct demo_started as (e & He & _ & Ecy & _). exists e. split; [exact Ecy |]. intros c w H.
  destruct (run_keeps_step (fun _ _ => 0) 6 0 e He) as [_ H2]; [reflexivity | rewrite Ecy; reflexivity |].
  destruct (H2 c w H) as (n & e' & E & Hn & Ec & _). exists n, e'. rewrite Ecy in Ec.
  split; [exact E |]. split; [exact Hn | exact Ec].
Defined.

(** C2: [run_frame] ends.  From any machine in its invariant, whatever the
    program does, 29781 rounds of the loop are enough: the loop returns at the
    first round in which the PPU raised its interrupt, with the machine in its
    invariant again, or a call of the CPU's [run] reads or writes out of bounds
    on the way, which is the only way the loop can fail. *)
Theorem run_frame_terminates shl lag t e :
  emu_at lag t e -> lag < max_lag -> nmi e = false -> debugger_has_quit e = false ->
  ecycle e + lag + 7 * 29781 < 2 ^ 31 ->
  (exists k e1 t', Z.of_nat k <= 29781 /\ runs shl k e = Ok e1 /\ nmi e1 = true /\
     run_frame None shl frame_fuel e = Ok (mkEmulator (cpu e1) (world e1) (ecycle e1) false) /\
     emu_at 0 t' (mkEmulator (cpu e1) (world e1) (ecycle e1) false)) \/
  (exists k e1, Z.of_nat k < 29781 /\ runs shl k e = Ok e1 /\
     Cpu.run None (cpu e1, world e1) = Err OutOfBounds /\
     run_frame None shl frame_fuel e = Err OutOfBounds).
Proof.
  intros He Hl Hn Hq Hov. pose proof (until_nmi_bound t (pa_range _ _ (ea_pos _ _ _ He))) as Hb.
  assert (E3 : Z.of_nat frame_fuel = 29781) by (by apply Z2Nat.id).
  destruct (loop_ends shl frame_fuel lag t e He Hl)
    as [(k & e1 & Hk & Hr & Hl1 & Hn1 & Hat & _) | (k & e1 & Hk & Hr & Hc & Hl1)].
  - intros _. rewrite E3. unfold frame_cycles in Hb. lia.
  - rewrite E3. exact Hov.
  - left. destruct (Hat Hn) as [t' He1]. exists k, e1, t'. unfold run_frame. rewrite Hq, Hl1. cbn [rbind].
    split_and!; [lia | done | done | done |]. destruct He1. by constructor.
  - right. exists k, e1. unfold run_frame. rewrite Hq, Hl1. cbn [rbind]. split_and!; [lia | done ..].
Qed.

Lemma run_frame_terminates_witness : exists e, nmi e = false /\
  ((exists e1, run_frame None (fun _ _ => 0) frame_fuel e = Ok e1) \/
   run_frame None (fun _ _ => 0) frame_fuel e = Err OutOfBounds).
Proof.
  destruct demo_started as (e & He & En & Ecy & Eq). exists e. split; [exact En |].
  destruct (run_frame_terminates (fun _ _ => 0) 6 0 e He eq_refl En Eq)
    as [(k & e1 & t' & _ & _ & _ & E & _) | (k & e1 & _ & _ & _ & E)].
  - rewrite Ecy. reflexivity.
  - left. eexists. exact E.
  - right. exact E.
Defined.




(** ** Memory accesses *)

(** C23: in a machine with a cartridge, a read by the CPU faults exactly if it
    addresses the data register of the PPU while the VRAM address is $4000 or
    more, or PRG ROM below the start of the image; a write faults exactly in the
    former case. *)
Theorem access_faults w a : world_ok w -> word a ->
  (forall f, mread a w = Err f <-> f = OutOfBounds /\
     (bad_data_access w a \/ (0x8000 <= a /\ a + len (prgrom (cartridge w)) < 0x10000))) /\
  (forall d f, byte d -> mwrite a d w = Err f <-> f = OutOfBounds /\ bad_data_access w a).
Proof.
  intros Hw Ha. split; [intros f; by apply world_read_fault | intros d f Hd; by apply world_write_fault].
Qed.

(** RAM is always accessible. *)
Lemma access_faults_witness : exists w, world_ok w /\
  (forall f, mread 0x200 w <> Err f) /\ (forall f, mwrite 0x200 0 w <> Err f).
Proof.
  destruct demo_machine as (e & He & _). exists (world e). split; [apply He |].
  destruct (access_faults (world e) 0x200) as [R Wr]; [apply He | by split |].
  split; intros f.
  - intros H. apply R in H as (_ & [([] & _) | []]); lia.
  - intros H. apply (Wr 0 f) in H as (_ & [] & _); [lia | by split].
Defined.

(** ** The bus *)

(** C25: mapping an area on a bus with a free area number succeeds, routes every
    address of the area to the new closures, and leaves every other mapped
    address where it was. *)
Theorem bus_map_routes {H} (b : Bus H) n start end_ rd wr :
  Bus.areas b n -> 0 <= n < TABSIZ -> 0 <= start <= end_ -> end_ <= Bus.size b ->
  exists b', Bus.map b start end_ rd wr = Ok b' /\ Bus.areas b' (n + 1) /\ Bus.size b' = Bus.size b /\
    (forall a, start <= a < end_ -> Bus.reader b' a = Ok rd /\ Bus.writer b' a = Ok wr) /\
    (forall a, Bus.mapped b a -> ~ (start <= a < end_) ->
       Bus.reader b' a = Bus.reader b a /\ Bus.writer b' a = Bus.writer b a).
Proof.
  intros Ha Hn Hse He.
  destruct (map_next b n start end_ rd wr Ha Hn Hse He) as (b' & E & Ha' & Hs & _ & Hin & Hout).
  exists b'. split_and!; try done.
  - intros a Hra. by destruct (Hin a Hra) as (? & ? & _).
  - intros a Hm Hra. by destruct (Hout a Hm Hra) as (? & ? & _).
Qed.

Lemma bus_map_routes_witness : exists b',
  Bus.map (Bus.new_bus (fun _ => 0) 32) 8 16 "ram"%string "ram"%string = Ok b' /\
  Bus.reader b' 12 = Ok "ram"%string.
Proof.
  destruct (areas_new (H := string) (fun _ => 0) 32) as (A & S & _).
  destruct (bus_map_routes (Bus.new_bus (fun _ => 0) 32) 0 8 16 "ram"%string "ram"%string A)
    as (b' & E & _ & _ & Hin & _); [unfold TABSIZ; lia | lia | rewrite S; lia |].
  exists b'. split; [exact E |]. apply (Hin 12). lia.
Defined.

(** The guard of [Bus::map] comes one entry late: a seventeenth mapping does
    not report that the table is exhausted but reads past its end. *)
Theorem bus_map_exhausted {H} (b : Bus H) start end_ rd wr :
  Bus.areas b TABSIZ -> Bus.map b start end_ rd wr = Err OutOfBounds.
Proof.
  intros [Hwf Ha]. apply map_full; [done |]. intros j Hj. rewrite Ha by done. f_equal.
  apply Z.ltb_lt. lia.
Qed.

(** Sixteen areas in use. *)
Lemma bus_map_exhausted_witness :
  Bus.map (mkBus (HeapArray.reset (fun _ => 0) 32) (replicate 16 (Some tt)) (replicate 16 (Some tt))
                 (replicate 16 true)) 0 1 tt tt = Err OutOfBounds.
Proof.
  apply (bus_map_exhausted (mkBus (HeapArray.reset (fun _ => 0) 32) (replicate 16 (Some tt))
    (replicate 16 (Some tt)) (replicate 16 true)) 0 1 tt tt).
  split; [by split_and! |]. intros j Hj. unfold tab_get, TABSIZ in *. simpl.
  zdecide_false (j <? 0). zdecide_true (j <? 16).
  assert (E : replicate 16 true !! Z.to_nat j = Some true) by (apply lookup_replicate_2; lia).
  simpl in E. by rewrite E.
Defined.

(** ** The cartridge *)

(** C24: parsing is the inverse of the iNES encoding: an image with CHR ROM
    written as a file is accepted, and the ROM contents, mapper number, mirroring,
    battery and trainer flags and the PRG RAM size are those of the image; what
    follows the image is left unread. *)
Theorem parse_decodes_image fr c im fname s : slot_ok c -> image_ok im ->
  exists c', parse fr c (rom_file im fname s) = Ok (true, c', mkFile (Some (mkFILE false s)) fname EmptyString) /\
    holds (prgrom c') (im_prg im) /\ holds (chrrom c') (im_chr im) /\ mapper c' = im_mapper im /\
    mirroring c' = (if im_vert im then VERT else HORZ) /\ has_battery c' = im_battery im /\
    has_trainer c' = has_tr im /\ prgram_size c' = im_prgram_size im.
Proof.
  intros Hc Him. unfold parse, rom_file. cbn [filbuf rest is_std filname errstr].
  destruct (parse_ines_spec fr (with_name fname c) im s) as (c' & -> & H1 & H2 & Hd & _); [done .. |].
  cbn [rbind]. exists c'. destruct Hd as (? & ? & ? & ? & ? & _). by split_and!.
Qed.

Lemma parse_decodes_image_witness : exists c',
  parse (fun _ => 0) init_cartridge (rom_file im0 "rom.nes" []) =
    Ok (true, c', mkFile (Some (mkFILE false [])) "rom.nes" EmptyString) /\
  mapper c' = 0 /\ mirroring c' = HORZ.
Proof.
  destruct (parse_decodes_image (fun _ => 0) init_cartridge im0 "rom.nes" []) as (c' & E & _ & _ & Em & Ei & _).
  - by split_and!.
  - apply im0_playable.
  - exists c'. split; [exact E |]. split; [exact Em | exact Ei].
Defined.

(** Where PRG ROM appears: a ROM of 32 to 64 KiB shows its last 32 KiB from
    $8000; a 16 KiB ROM is readable from $C000 only, and reading its mirror at
    $8000, which the hardware has, goes past the end of the array. *)
Theorem prg_rom_window c a : 0x8000 <= a < 0x10000 ->
  (0x8000 <= HeapArray.size (prgrom c) <= 0x10000 ->
     read_prgrom c a = Ok (cell (prgrom c) (HeapArray.size (prgrom c) - 0x8000 + (a - 0x8000)))) /\
  (HeapArray.size (prgrom c) = 0x4000 ->
     read_prgrom c a = if 0xC000 <=? a then Ok (cell (prgrom c) (a - 0xC000)) else Err OutOfBounds).
Proof.
  intros Ha. split; intros Hs; [by apply read_prgrom_last | by apply read_prgrom_16k].
Qed.

(** A 16 KiB ROM, read at $8000 and at $FFFF. *)
Lemma prg_rom_window_witness :
  let c := with_prgrom (static_array 0x4000) init_cartridge in
  read_prgrom c 0x8000 = Err OutOfBounds /\ read_prgrom c 0xFFFF = Ok 0.
Proof.
  set (c := with_prgrom (static_array 0x4000) init_cartridge).
  destruct (prg_rom_window c 0x8000) as [_ H1]; [lia |].
  destruct (prg_rom_window c 0xFFFF) as [_ H2]; [lia |].
  split; [exact (H1 eq_refl) | exact (H2 eq_refl)].
Defined.
