(* ===== verification/PpuProps.v ===== *)
(** * Properties of the PPU

    The clock of the PPU, its registers as the CPU uses them, the scroll unit and
    the canvas it draws on. *)

From stdpp Require Import strings.
From S2P Require Import Prelude Bits HeapArray Bus Cpu Cartridge Video Ppu PpuInv PpuSched.
From S2P Require Import PpuRegs PpuPicture PpuLine PpuFrame Emulator EmulatorInv EmulatorRun MachineProps.
Open Scope Z_scope.

(** The PPU and its bus in the example machine. *)
Lemma demo_ppu : exists vb cart, vbus_ok vb /\ chr_ok cart /\
  forall a, 0x2000 <= a < 0x3F00 ->
    Bus.reader vb a = Ok (VNtMirror HORZ) /\ Bus.writer vb a = Ok (VNtMirror HORZ).
Proof.
  destruct (new_emulator_spec (fun _ => 7) (fun _ => 7)) as (e & E & Hm).
  destruct (insert_rom_spec (fun _ => 0) (fun _ => 7) e im0 "rom.nes" EmptyString false [] Hm im0_playable)
    as (e' & Ei & Hw & _ & _ & _ & _ & _ & _ & Hnt & _).
  exists (vrambus (world e')), (cartridge (world e')). split; [apply Hw |]. split; [apply Hw |].
  intros a Ha. destruct (vb_nt _ (wo_vrambus _ Hw)) as (h & _ & _ & Hh).
  destruct (Hh a Ha) as [R1 W1]. pose proof (Hnt a Ha) as R2. rewrite R1 in R2.
  injection R2 as ->. split; [exact R1 | exact W1].
Qed.

(** ** The clock *)

Section Clock.
Context (vb : Bus VHandler) (cart : Cartridge) (shl : Z -> Z -> Z).


End Clock.



(** ** Power *)

(** Powering the PPU on clears its three memories, the VRAM address and the
    scroll position, disables interrupts, and puts the clock at its first tick;
    the canvas stays connected. *)
Theorem ppu_power_on p : ppu_ok p ->
  exists p', Ppu.power p = Ok p' /\ ppu_ok p' /\ pos_at 0 p' /\ screen p' = screen p /\
    addr (vram p') = 0 /\ tmp (vram p') = 0 /\ fine_x (vram p') = 0 /\
    vblank (io p') = true /\ nmi_enabled (io p') = false /\ scroll_latch (io p') = false /\
    (forall i, 0 <= i < VRAM_SIZE -> cell (vrammem p') i = 0) /\
    (forall i, 0 <= i < OAM_SIZE -> cell (oammem p') i = 0) /\
    (forall i, 0 <= i < PAL_SIZE -> cell (palmem p') i = 0).
Proof. apply power_ok. Qed.

Lemma ppu_power_on_witness : exists p', Ppu.power init_ppu = Ok p' /\ pos_at 0 p' /\ vblank (io p') = true.
Proof.
  destruct (ppu_power_on init_ppu) as (p' & E & _ & H & _ & _ & _ & _ & Hv & _); [apply init_ppu_ok |].
  exists p'. split; [exact E |]. split; [exact H | exact Hv].
Defined.

(** ** Registers *)

(** C26: register accesses are safe.  Every read and write of the eight registers
    keeps the invariant of the PPU and leaves its clock alone, unless it is to
    the data register with the VRAM address at $4000 or more, which the automatic
    increment reaches: then the access goes past the end of the bus. *)
Theorem ppu_registers_safe vb cart which d p :
  vbus_ok vb -> chr_ok cart -> ppu_ok p -> byte d ->
  if (which =? 0x2007) && (PPUBUS_SIZE <=? addr (vram p))
  then readreg vb cart which p = Err OutOfBounds /\ writereg vb which d p = Err OutOfBounds
  else (exists v p', readreg vb cart which p = Ok (v, p') /\ byte v /\ good p p') /\
       (exists p', writereg vb which d p = Ok p' /\ good p p').
Proof.
  intros Hb Hc Hp Hd. destruct (Z.eqb_spec which 0x2007) as [E | N], (Z.leb_spec PPUBUS_SIZE (addr (vram p)));
    cbn [andb].
  - split; [apply readreg_fault | apply writereg_fault]; done.
  - split; [apply readreg_ok | apply writereg_ok]; done.
  - split; [apply readreg_ok | apply writereg_ok]; done.
  - split; [apply readreg_ok | apply writereg_ok]; done.
Qed.

(** A data access at $4000, and a write to the control register. *)
Lemma ppu_registers_safe_witness : exists vb cart,
  readreg vb cart 0x2007 (set_vaddr 0x4000 init_ppu) = Err OutOfBounds /\
  exists p', writereg vb 0x2000 0x80 init_ppu = Ok p' /\ good init_ppu p'.
Proof.
  destruct demo_ppu as (vb & cart & Hb & Hc & _). exists vb, cart. split.
  - apply (ppu_registers_safe vb cart 0x2007 0 (set_vaddr 0x4000 init_ppu) Hb Hc); [| by split].
    apply good_vaddr; [apply init_ppu_ok | by split].
  - apply (ppu_registers_safe vb cart 0x2000 0x80 init_ppu Hb Hc); [apply init_ppu_ok | by split].
Defined.

(** C27: video memory through the registers.  Writing a byte at a nametable
    address, by two writes to the address register and one to the data register,
    and reading one by two writes and two reads, succeeds; it returns the byte
    written if the two addresses are mirrors of each other, and what was there
    before otherwise. *)
Theorem ppudata_roundtrip vb cart m p a b d :
  vbus_ok vb -> chr_ok cart ->
  (forall a, 0x2000 <= a < 0x3F00 -> Bus.reader vb a = Ok (VNtMirror m) /\ Bus.writer vb a = Ok (VNtMirror m)) ->
  ppu_ok p -> scroll_latch (io p) = false -> 0x2000 <= a < 0x3F00 -> 0x2000 <= b < 0x3EE0 -> byte d ->
  exists p1 p2 v, poke_vram vb a d p = Ok p1 /\ peek_vram vb cart b p1 = Ok (v, p2) /\ ppu_ok p2 /\
    (if decode m b =? decode m a then Ok d else vread vb cart p b) = Ok v.
Proof. intros Hb Hc Hm. by apply poke_peek. Qed.

(** Written at $2005, read at its mirror $2405. *)
Lemma ppudata_roundtrip_witness : exists vb cart p1 p2,
  poke_vram vb 0x2005 0x7E init_ppu = Ok p1 /\ peek_vram vb cart 0x2405 p1 = Ok (0x7E, p2).
Proof.
  destruct demo_ppu as (vb & cart & Hb & Hc & Hm). exists vb, cart.
  destruct (ppudata_roundtrip vb cart HORZ init_ppu 0x2005 0x2405 0x7E Hb Hc Hm) as (p1 & p2 & v & E1 & E2 & _ & Ev).
  - apply init_ppu_ok.
  - reflexivity.
  - lia.
  - lia.
  - by split.
  - exists p1, p2. change (Ok 0x7E = Ok v) in Ev. injection Ev as <-. split; [exact E1 | exact E2].
Defined.

(** C28: the two-write registers.  Two writes to the scroll register set the
    scroll position to the two bytes, tile and pixel; two writes to the address
    register set the VRAM address to the 14 low bits of the two bytes, high byte
    first.  Both leave the latch ready for another pair. *)
Theorem scroll_and_address_writes vb p x y :
  ppu_ok p -> byte x -> byte y -> scroll_latch (io p) = false ->
  (exists p', (let? q := writereg vb 0x2005 x p in writereg vb 0x2005 y q) = Ok p' /\
     8 * coarse_x (tmp (vram p')) + fine_x (vram p') = x /\
     8 * coarse_y (tmp (vram p')) + fine_y (tmp (vram p')) = y /\
     nt (tmp (vram p')) = nt (tmp (vram p)) /\ addr (vram p') = addr (vram p) /\
     scroll_latch (io p') = false) /\
  (exists p', (let? q := writereg vb 0x2006 x p in writereg vb 0x2006 y q) = Ok p' /\
     addr (vram p') = (x mod 64) * 256 + y /\ scroll_latch (io p') = false).
Proof.
  intros Hp Hx Hy Hl. split.
  - destruct (scroll_writes x y p Hx Hy Hl) as (E1 & E2 & E3 & E4 & E5 & E6 & E7).
    destruct (scroll_pair vb x y p Hl) as (p' & E & Ev & Ei). exists p'. split; [exact E |].
    rewrite Ev, Ei, E1, E2, E3, E4, E5, E6. split_and!; [dlia | dlia | done | done | exact E7].
  - destruct (addr_writes x y p Hx Hy (ok_tmp _ (ok_vram p Hp)) Hl) as (E1 & _ & E2).
    destruct (addr_pair vb x y p Hl) as (p' & E & Ev & Ei & _). exists p'. split; [exact E |].
    rewrite Ev, Ei. split; [exact E1 | exact E2].
Qed.

Lemma scroll_and_address_writes_witness : exists p',
  (let? q := writereg (Bus.new_bus (fun _ => 0) 0) 0x2006 0x21 init_ppu in
   writereg (Bus.new_bus (fun _ => 0) 0) 0x2006 0x43 q) = Ok p' /\ addr (vram p') = 0x2143.
Proof.
  destruct (scroll_and_address_writes (Bus.new_bus (fun _ => 0) 0) init_ppu 0x21 0x43) as [_ (p' & E & Ha & _)].
  - apply init_ppu_ok.
  - by split.
  - by split.
  - reflexivity.
  - exists p'. split; [exact E | exact Ha].
Defined.

(** The debugger sees the control, mask and OAM address registers as the
    program wrote them. *)
Theorem registers_read_back vb cart p d : byte d ->
  (exists p', writereg vb 0x2000 d p = Ok p' /\ readreg_no_sideeff vb cart 0x2000 p' = Ok d) /\
  (exists p', writereg vb 0x2001 d p = Ok p' /\ readreg_no_sideeff vb cart 0x2001 p' = Ok d) /\
  (exists p', writereg vb 0x2003 d p = Ok p' /\ readreg_no_sideeff vb cart 0x2003 p' = Ok d).
Proof.
  intros Hd. split_and!; (eexists; split; [reflexivity |]); unfold readreg_no_sideeff.
  - by rewrite ctrl_readback.
  - by rewrite mask_readback.
  - done.
Qed.

Lemma registers_read_back_witness : exists p',
  writereg (Bus.new_bus (fun _ => 0) 0) 0x2000 0xB5 init_ppu = Ok p' /\
  readreg_no_sideeff (Bus.new_bus (fun _ => 0) 0) init_cartridge 0x2000 p' = Ok 0xB5.
Proof.
  apply (registers_read_back (Bus.new_bus (fun _ => 0) 0) init_cartridge init_ppu 0xB5). by split.
Defined.

(** Reading the status register does not forget: the latch keeps the bits
    it has returned, so that a second read still reports the vertical blank that
    the first read cleared. *)
Theorem status_sticky vb cart p : ppu_ok p ->
  exists v1 p1 v2 p2, readreg vb cart 0x2002 p = Ok (v1, p1) /\ readreg vb cart 0x2002 p1 = Ok (v2, p2) /\
    Z.testbit v1 7 = Z.testbit (latch (io p)) 7 || vblank (io p) /\
    vblank (io p1) = false /\ Z.testbit v2 7 = Z.testbit v1 7.
Proof.
  intros Hp. destruct (status_read vb cart p) as (p1 & E1 & Hv & _ & Hl).
  destruct (status_read vb cart p1) as (p2 & E2 & _).
  pose proof (ok_latch _ (ok_io p Hp)) as Hb.
  eexists _, p1, _, p2. split; [exact E1 |]. split; [exact E2 |].
  rewrite Hl. rewrite !status_bit7 by auto with emu. rewrite Hv. split_and!; [done | done |].
  by rewrite orb_false_r.
Qed.

(** A PPU in its vertical blank, read twice. *)
Lemma status_sticky_witness : exists v1 p1 v2 p2,
  readreg (Bus.new_bus (fun _ => 0) 0) init_cartridge 0x2002 (on_io (set_vblank true) init_ppu) = Ok (v1, p1) /\
  readreg (Bus.new_bus (fun _ => 0) 0) init_cartridge 0x2002 p1 = Ok (v2, p2) /\
  vblank (io p1) = false /\ Z.testbit v2 7 = true.
Proof.
  destruct (status_sticky (Bus.new_bus (fun _ => 0) 0) init_cartridge (on_io (set_vblank true) init_ppu))
    as (v1 & p1 & v2 & p2 & E1 & E2 & H1 & Hv & H2).
  - apply good_io; [apply init_ppu_ok |]. intros []. by constructor.
  - exists v1, p1, v2, p2. split; [exact E1 |]. split; [exact E2 |]. split; [exact Hv |].
    rewrite H2, H1. reflexivity.
Defined.

(** ** Scrolling *)

(** C29: while the background is shown, the scroll unit walks over the picture.
    The horizontal step moves one tile column to the right, over the two
    nametables side by side; the vertical step moves one pixel row down, into the
    other nametable after the 240th row, while rows of attributes wrap around
    within it; at the end of a line the column is taken from the scroll position.
    None of them changes the other coordinate, and while the background is hidden
    none has an effect. *)
Theorem scroll_steps p :
  let a := addr (vram p) in
  let h := addr (vram (inc_v_horzpos p)) in
  let v := addr (vram (inc_v_vertpos p)) in
  let c := addr (vram (copy_v_horzpos p)) in
  if bg_show (io p)
  then (hpos h = (hpos a + 1) mod 64 /\ vpos h = vpos a /\ vtable h = vtable a) /\
       (hpos v = hpos a /\ (vpos v, vtable v) =
          if vpos a =? 239 then (0, 1 - vtable a)
          else if vpos a =? 255 then (0, vtable a) else (vpos a + 1, vtable a)) /\
       (hpos c = hpos (tmp (vram p)) /\ vpos c = vpos a /\ vtable c = vtable a)
  else h = a /\ v = a /\ c = a.
Proof.
  cbv zeta. destruct (bg_show (io p)) eqn:Hs.
  - split; [by apply inc_horz_spec |]. split; [by apply inc_vert_spec | by apply copy_horz_spec].
  - unfold inc_v_horzpos, inc_v_vertpos, copy_v_horzpos. by rewrite Hs.
Qed.

(** At the start of a frame the row should be taken from the scroll position
    as well.  The nametable is, but both parts of the row are taken from the bits
    that hold its column. *)
Theorem vertical_copy_takes_column p : bg_show (io p) = true ->
  let t := tmp (vram p) in
  let c := addr (vram (copy_v_vertpos p)) in
  vtable c = vtable t /\ hpos c = hpos (addr (vram p)) /\
  vpos c = 8 * coarse_x t + coarse_x t mod 8.
Proof.
  intros Hs. cbv zeta. destruct (copy_vert_spec p Hs) as (H1 & H2 & H3 & H4).
  unfold vpos. rewrite H2, H3. done.
Qed.

(** Column 5 of row 0 comes back as row 45. *)
Lemma vertical_copy_takes_column_witness :
  let p := on_io (set_bg_show true) (set_vtmp 5 init_ppu) in
  vpos (addr (vram (copy_v_vertpos p))) = 45 /\ vpos (tmp (vram p)) = 0.
Proof.
  set (p := on_io (set_bg_show true) (set_vtmp 5 init_ppu)).
  destruct (vertical_copy_takes_column p eq_refl) as (_ & _ & H). split; [exact H | reflexivity].
Defined.

(** ** Mirroring *)

(** [set_mirroring] folds the four nametables onto the 2 KiB of video memory:
    with horizontal mirroring each pair of neighbours side by side shares one
    KiB, with vertical mirroring each pair of neighbours on top of each other
    does; the result is always within the memory. *)
Theorem mirroring_folds a b : word a -> word b ->
  0 <= decode HORZ a < VRAM_SIZE /\ 0 <= decode VERT a < VRAM_SIZE /\
  (decode HORZ a = decode HORZ b <-> a / 0x800 mod 2 = b / 0x800 mod 2 /\ a mod 0x400 = b mod 0x400) /\
  (decode VERT a = decode VERT b <-> a mod 0x800 = b mod 0x800).
Proof.
  intros Ha Hb. split; [by apply decode_range |]. split; [by apply decode_range |].
  rewrite !decode_vert, !decode_horz by done. split; [| done].
  split; [intros H; split; dlia | by intros [-> ->]].
Qed.

Lemma mirroring_folds_witness : decode HORZ 0x2005 = decode HORZ 0x2405 /\ decode VERT 0x2005 = decode VERT 0x2805.
Proof.
  split; [apply (mirroring_folds 0x2005 0x2405) | apply (mirroring_folds 0x2005 0x2805)]; by split.
Defined.

(** ** The canvas *)

(** Drawing a pixel changes that pixel to the colour given and no other; the
    exception is the pixel in the corner that is stored first, which the
    assertion of the code rejects. *)
Theorem drawpixel_paints c x y color :
  canvas_ok c -> 0 <= x < tw (tex c) -> 0 <= y < th (tex c) -> 0 <= color < 2 ^ 32 ->
  if (x =? 0) && (y =? th (tex c) - 1) then drawpixel c x y color = Err AssertFailure
  else exists c', drawpixel c x y color = Ok c' /\ canvas_ok c' /\ tex c' = tex c /\
    pixel c' x y = color /\
    forall x' y', 0 <= x' < tw (tex c) -> (x', y') <> (x, y) -> pixel c' x' y' = pixel c x' y'.
Proof.
  intros Hc Hx Hy Hcol. destruct (Z.eqb_spec x 0) as [-> | Nx], (Z.eqb_spec y (th (tex c) - 1)) as [-> | Ny];
    cbn [andb]; [by apply drawpixel_corner | ..]; (apply drawpixel_spec; [done .. |]); congruence.
Qed.

Lemma drawpixel_paints_witness : exists c',
  drawpixel (new_canvas 1 (fun _ => 0) 256 240) 3 5 0xFFFFFFFF = Ok c' /\ pixel c' 3 5 = 0xFFFFFFFF.
Proof.
  destruct (drawpixel_paints (new_canvas 1 (fun _ => 0) 256 240) 3 5 0xFFFFFFFF) as (c' & E & _ & _ & Hp & _).
  - by apply new_canvas_ok.
  - simpl. lia.
  - simpl. lia.
  - lia.
  - exists c'. split; [exact E | exact Hp].
Defined.

(** ** Bit fields *)

(** A [BitField] of a 16-bit word behaves as a variable of its width: it
    holds what was assigned, modulo its width, and assigning another field that
    does not overlap leaves it alone.  Copying one field from another of the same
    position, however, assigns the low bits of the whole word copied from. *)
Theorem bitfield_laws b1 n1 b2 n2 data val :
  0 <= b1 -> 0 <= n1 -> b1 + n1 <= 16 -> 0 <= b2 -> 0 <= n2 -> b2 + n2 <= 16 ->
  bf_get b1 n1 (bf_set b1 n1 data val) = val mod 2 ^ n1 /\
  (b1 + n1 <= b2 \/ b2 + n2 <= b1 -> bf_get b1 n1 (bf_set b2 n2 data val) = bf_get b1 n1 data) /\
  bf_get b1 n1 (bf_copy b1 n1 data val) = val mod 2 ^ n1.
Proof.
  intros H1 H2 H3 H4 H5 H6. rewrite bf_copy_set by done. split_and!.
  - by apply bf_get_set.
  - by apply bf_get_set_disjoint.
  - by apply bf_get_set.
Qed.

Lemma bitfield_laws_witness :
  bf_get 5 5 (bf_set 5 5 0x7FFF 9) = 9 /\ bf_get 0 5 (bf_set 5 5 0x7FFF 9) = bf_get 0 5 0x7FFF.
Proof.
  destruct (bitfield_laws 5 5 0 5 0x7FFF 9) as (H1 & _); [lia .. |].
  destruct (bitfield_laws 0 5 5 5 0x7FFF 9) as (_ & H2 & _); [lia .. |].
  split; [exact H1 | apply H2; lia].
Defined.

(** ** The picture *)

(** C6: a frame of the PPU draws the background.  From the vertical blank, with
    the background shown, a scroll within a tile of at most 6 and no access of
    the CPU in between, calls of [PPU::run] reach line 240 without a fault and
    without an interrupt, and then the screen shows in each row, from column 4
    on, the bits of the rows of tiles that [bg_pixel] finds directly in the
    nametables and the pattern tables, from the scroll position: a position moves
    right over two nametables and down by one row per line.  Columns 0 to 3 keep
    what they showed. *)
Theorem background_frame {X} (fire : X -> X) vb cart shl c y p pic x :
  vbus_ok vb -> chr_ok cart -> rendering p -> shows p pic -> at_dot c y p -> blanking c y ->
  exists n p', calls vb cart shl fire n (p, x) = Ok (p', x) /\ at_dot 0 240 p' /\ rendering p' /\
    shows p' (fun x y => if x <? 4 then pic x y
                         else bg_pixel vb cart p (Nat.iter (Z.to_nat y) down (top p)) x).
Proof.
  intros Hb Hc Hr Hs Hd Hbl.
  destruct (background_rest vb cart p c y pic Hb Hc Hr Hs Hd Hbl shl fire x) as (n & q & E & Hq & _ & Hdq & Hsq).
  by exists n, q.
Qed.

(** A PPU at the start of the line before the picture, on a blank canvas. *)
Definition demo_frame : PPU :=
  Ppu.set_screen (Some (new_canvas 1 (fun _ => 0) 256 240))
    (set_p_lines 261 (set_p_cycles 89001 (on_io (set_bg_show true) init_ppu))).

Lemma background_frame_witness : exists vb cart n p',
  calls vb cart (fun _ _ => 0) S n (demo_frame, 0%nat) = Ok (p', 0%nat) /\ at_dot 0 240 p' /\
  exists scr, screen p' = Some scr /\
    pixel scr 200 100 = bg_pixel vb cart demo_frame (mkPos 0 100 0) 200.
Proof.
  destruct demo_ppu as (vb & cart & Hb & Hc & _). exists vb, cart.
  destruct (background_frame S vb cart (fun _ _ => 0) 0 261 demo_frame
    (pixel (new_canvas 1 (fun _ => 0) 256 240)) 0%nat Hb Hc) as (n & p' & E & Hd & _ & (scr & Es & Hpx)).
  - constructor; [| reflexivity | reflexivity | split; [reflexivity | by left]].
    destruct init_ppu_ok as [H _]. destruct H. constructor; try done.
    intros cv [= <-]. split; [by apply new_canvas_ok | done].
  - by eexists.
  - exists 89001. split; [by constructor | done].
  - unfold blanking. lia.
  - exists n, p'. split; [exact E |]. split; [exact Hd |]. exists scr. split; [exact Es |].
    rewrite (Hpx 200 100) by lia. reflexivity.
Defined.

(** C22: the attribute tables do not reach the picture.  No operation of the PPU
    ever puts a palette number in the attribute registers: from a zeroed PPU on,
    the low one is clear and the high one holds at most bit 7, which pixels show
    for a fine scroll of 7 only.  Every other pixel is taken from the first four
    entries of the palette. *)
Theorem attributes_unused vb cart shl p : stuck (shift p) ->
  (forall {X} (f : option (X -> X)) x q x', Ppu.run vb cart shl f (p, x) = Ok (q, x') -> stuck (shift q)) /\
  (forall which v q, readreg vb cart which p = Ok (v, q) -> stuck (shift q)) /\
  (forall which d q, writereg vb which d p = Ok q -> stuck (shift q)) /\
  (forall q, Ppu.power p = Ok q \/ Ppu.reset p = Ok q -> stuck (shift q)) /\
  (vbus_ok vb -> ppu_ok p -> fine_x (vram p) < 7 -> exists i, 0 <= i < 4 /\
    bg_output vb cart p = Ok (cell (palmem p) i)).
Proof.
  intros Hs. split_and!.
  - intros X f x q x'. by apply run_stuck.
  - intros which v q E. by rewrite (readreg_keeps _ _ _ _ _ _ E).
  - intros which d q E. by rewrite (writereg_keeps _ _ _ _ _ E).
  - intros q [E | E]; [by rewrite (power_keeps _ _ E) | by rewrite (reset_keeps _ _ E)].
  - intros Hb Hp Hf. eexists. split; [| by apply bg_output_entry].
    destruct (Z.testbit _ _), (Z.testbit _ _); cbn [Z.b2z]; lia.
Qed.

Lemma attributes_unused_witness : exists vb cart q,
  Ppu.run vb cart (fun _ _ => 0) (Some S) (init_ppu, 0%nat) = Ok (q, 0%nat) /\ stuck (shift q).
Proof.
  destruct demo_ppu as (vb & cart & Hb & Hc & _). exists vb, cart.
  destruct (run_tick vb cart (fun _ _ => 0) Hb Hc S 0 init_ppu 0%nat) as (q & E & _);
    [apply init_ppu_ok | apply init_ppu_ok |].
  exists q. split; [exact E |].
  destruct (attributes_unused vb cart (fun _ _ => 0) init_ppu) as (H & _); [split; [reflexivity | by left] |].
  exact (H nat (Some S) 0%nat q 0%nat E).
Defined.
