(* ===== verification/Main.v ===== *)
(** * The program ([emu/main.cpp], [emu/version.hpp])

    [main] and [mainloop].  The graphics library is behind [VideoImpl]; SDL's
    events are the parameter [polls]: what [SDL_PollEvent] returns, one list for
    each round of the loop.  The files that exist are [fopen], the standard input
    [stdin].  What is printed is collected in the [World] of the emulator, in
    order.  [Util::seed] has no effect: nothing calls the random generator. *)

From Stdlib Require Import Ascii.
From stdpp Require Import strings.
From S2P Require Import Prelude HeapArray StringOps Fmt InstrInfo Cpu File Cartridge Video Emulator.
From S2P Require Ppu Debugger CliDbg CmdLine.
Open Scope Z_scope.

Definition progname : string := "yanesemu".
Definition version : string := "0.1".

Definition SCREEN_WIDTH : Z := 256.
Definition SCREEN_HEIGHT : Z := 240.

Definition cmdflags : list CmdLine.Argument := [
  CmdLine.argument "h" "help" "Print this help text and quit";
  CmdLine.argument "v" "version" "Shows the program's version";
  CmdLine.argument "d" "debugger" "Use command-line debugger" ].

(** The events that the loop distinguishes. *)
Inductive SDL_Event :=
| SDL_QUIT
| SDL_WINDOWEVENT_RESIZED (data1 data2 : Z)
| SDL_OTHER.

Section Main.
Context `{F : Fmt} {G : Type} `{Impl : VideoImpl G}.
Variable fopen : string -> FileMode -> option FILE.
Variable strerror : string.
Variable stdin : list Z.
Variable polls : nat -> list SDL_Event.
Variable shl_undefined : Z -> Z -> Z.
Variable garbage : Z -> Z.                 (** the content of new allocations *)
Variable fuel : nat.                       (** of the loops of the command line *)

(** The emulator and the video context, both static objects. *)
Definition State : Type := Emulator * Context G.

Definition say (o : list Output) (e : Emulator) : Emulator :=
  mkEmulator (cpu e) (fold_left (fun w o => add_output o w) o (world e)) (ecycle e) (nmi e).

(** The callback that [mainloop] gives to [enable_debugger]. *)
Definition debugger_callback (ev : Debugger.Event) (c : CPU) (w : World) : Res World :=
  CliDbg.repl fopen strerror fuel ev c w.

(** [while (SDL_PollEvent(&ev)) switch (ev.type) ...] *)
Fixpoint handle_events (evs : list SDL_Event) (running : bool) (ctx : Context G) : Res (bool * Context G) :=
  match evs with
  | [] => Ok (running, ctx)
  | SDL_QUIT :: evs => handle_events evs false ctx
  | SDL_WINDOWEVENT_RESIZED w h :: evs => let? ctx := resize_context w h ctx in handle_events evs running ctx
  | SDL_OTHER :: evs => handle_events evs running ctx
  end.

(** [screen.update()]: the canvas is the one that the PPU draws into. *)
Definition update_screen (e : Emulator) (ctx : Context G) : Res (Context G) :=
  match Ppu.screen (ppu (world e)) with
  | Some c => update_canvas c ctx
  | None => Err OutOfBounds
  end.

Section Loop.
Variable cb : option (CPU -> Status -> Z -> AccessMode -> World -> Res World).

(** One round of the loop, and whether there is another. *)
Definition round (i : nat) (s : State) : Res (bool * State) :=
  let '(e, ctx) := s in
  let? '(running, ctx) := handle_events (polls i) true ctx in
  let running := if debugger_has_quit e then false else running in
  let? e := run_frame cb shl_undefined frame_fuel e in
  let? ctx := update_screen e ctx in
  let? ctx := draw_context ctx in
  Ok (running, (e, ctx)).

(** [while (running)], which holds at first. *)
Fixpoint rounds (n i : nat) (s : State) : Res State :=
  match n with
  | O => Err OutOfFuel
  | S n' => let? '(running, s) := round i s in if running : bool then rounds n' (S i) s else Ok s
  end.
End Loop.

(** [mainloop]; [n] bounds the rounds of its loop. *)
Definition mainloop (n : nat) (debug : bool) (s : State) : Res State :=
  let '(e, ctx) := s in
  let? '(screen, ctx) := make_canvas garbage SCREEN_WIDTH SCREEN_HEIGHT ctx in
  let e := mkEmulator (cpu e) (set_console (CliDbg.init_console stdin) (world e)) (ecycle e) (nmi e) in
  let e := set_screen (Some screen) e in
  let cb := if debug then enable_debugger debugger_callback else None in
  let? e := power cb e in
  let e := say [Stderr (getinfo (cartridge (world e)) +:+ newline)] e in
  rounds cb n 0 (e, ctx).

(** The flags and the ROM file: an exit status, or what [main] goes on with. *)
Inductive Start := Exit (status : Z) (e : Emulator) | Go (debug : bool) (e : Emulator).

Definition flag (c : ascii) (res : CmdLine.ArgResult) : bool := default false (CmdLine.has res !! c).

(** [main] up to the initialisation of the video. *)
Definition start (argv : list string) (e : Emulator) : Res Start :=
  if (length argv <? 2)%nat then
    let? usage := CmdLine.print_usage progname cmdflags in Ok (Exit 1 (say [Stdout usage] e))
  else
    let? '(flags, out) := CmdLine.parse argv cmdflags in
    let e := say out e in
    if flag "h" flags then
      let? usage := CmdLine.print_usage progname cmdflags in Ok (Exit 0 (say [Stdout usage] e))
    else if flag "v" flags then Ok (Exit 0 (say [Stdout (CmdLine.print_version progname version)] e))
    else
      match CmdLine.items flags with
      | [] => Ok (Exit 1 (say (error ("ROM file not specified" +:+ newline)) e))
      | item :: more =>
          let e := match more with
                   | [] => e
                   | _ => say (warning ("Multiple ROM files specified, only the first will be chosen" +:+ newline)) e
                   end in
          let '(ok, romfile) := File.open fopen strerror default_file item READ in
          if negb ok then Ok (Exit 1 (say (error (item +:+ ": " +:+ errstr romfile +:+ newline)) e))
          else
            let? '(ok, e, romfile) := insert_rom garbage e romfile in
            if negb ok then Ok (Exit 1 (say (error ("invalid ROM format" +:+ newline)) e))
            else Ok (Go (flag "d" flags) e)
      end.

(** [main]: the exit status and the two static objects at the end. *)
Definition main (n : nat) (argv : list string) : Res (Z * State) :=
  let? e := new_emulator garbage garbage in
  let? s := start argv e in
  match s with
  | Exit status e => Ok (status, (e, new_context))
  | Go debug e =>
      let? '(ok, ctx) := init_context new_context in
      if negb ok then Ok (1, (say (error ("can't initialize video" +:+ newline)) e, ctx))
      else let? s := mainloop n debug (e, ctx) in Ok (0, s)
  end.
End Main.
