(* ===== verification/MainRun.v ===== *)
(** * The main loop of the program

    A frame of the emulator followed by an update of the screen; the loop runs
    one for each list of events, up to and including the one that holds a request
    to quit. *)

From Stdlib Require Import Ascii.
From stdpp Require Import strings.
From S2P Require Import Prelude HeapArray StringOps Fmt InstrInfo Cpu CpuInv File Cartridge Video Ppu PpuInv PpuSched.
From S2P Require Import Emulator EmulatorInv EmulatorRun Main.
From S2P Require Debugger CliDbg CmdLine.
Open Scope Z_scope.

(** The most cycles that one frame can take. *)
Definition frame_max : Z := 7 * 29781.

(** One frame, from any machine in its invariant. *)
Lemma frame_step shl lag t e : emu_at lag t e -> lag < max_lag -> nmi e = false -> debugger_has_quit e = false ->
  ecycle e + lag + frame_max < 2 ^ 31 ->
  (exists e' t', run_frame None shl frame_fuel e = Ok e' /\ emu_at 0 t' e' /\ nmi e' = false /\
     beside (world e') = beside (world e) /\ ecycle e' <= ecycle e + lag + frame_max) \/
  run_frame None shl frame_fuel e = Err OutOfBounds.
Proof.
  intros He Hl Hn Hq Hov. pose proof (until_nmi_bound t (pa_range _ _ (ea_pos _ _ _ He))) as Hb.
  assert (E3 : Z.of_nat frame_fuel = 29781) by (by apply Z2Nat.id). unfold frame_max in *.
  unfold run_frame. rewrite Hq.
  destruct (loop_ends shl frame_fuel lag t e He Hl)
    as [(k & e1 & Hk & _ & -> & Hn1 & Hat & Hbe & Hc) | (k & e1 & _ & _ & _ & ->)].
  - intros _. rewrite E3. unfold frame_cycles in Hb. lia.
  - rewrite E3. exact Hov.
  - left. destruct (Hat Hn) as [t' He1]. exists (mkEmulator (cpu e1) (world e1) (ecycle e1) false), t'.
    cbn [rbind world ecycle nmi]. split; [reflexivity |].
    split; [destruct He1; by constructor |]. split; [reflexivity |]. split; [exact Hbe |].
    clear -Hc Hk E3. lia.
  - by right.
Qed.

Section Loop.
Context `{F : Fmt} {G : Type} `{Impl : VideoImpl G}.
Variable polls : nat -> list SDL_Event.
Variable shl : Z -> Z -> Z.
Implicit Types (g : G) (ctx : Context G).

Abbreviation round := (round polls shl None).
Abbreviation rounds := (rounds polls shl None).

(** ** Events *)

(** What the events of a round do to the graphics library. *)
Definition resized (evs : list SDL_Event) g : G :=
  fold_left (fun g ev => match ev with SDL_WINDOWEVENT_RESIZED w h => impl_resize w h g | _ => g end) evs g.

Definition wants_quit (evs : list SDL_Event) : bool :=
  existsb (fun ev => match ev with SDL_QUIT => true | _ => false end) evs.

Lemma handle_events_run evs running ctx g : ptr ctx = Some g ->
  exists ctx', handle_events evs running ctx = Ok (running && negb (wants_quit evs), ctx') /\
    ptr ctx' = Some (resized evs g).
Proof.
  revert running ctx g. induction evs as [| ev evs IH]; intros running ctx g Hp; simpl.
  - exists ctx. by rewrite andb_true_r.
  - destruct ev as [| w h |]; simpl.
    + destruct (IH false ctx g Hp) as (ctx' & -> & H). exists ctx'. by rewrite andb_false_r.
    + unfold resize_context, through_, through. cbn [ptr]. rewrite Hp. cbn [rbind wnd_width wnd_height].
      destruct (IH running (mkContext (Some (impl_resize w h g)) (u32 w) (u32 h)) (impl_resize w h g) eq_refl)
        as (ctx' & -> & H). by exists ctx'.
    + by apply IH.
Qed.

(** ** Rounds *)

(** The frames that the rounds show, one each: the graphics library after them. *)
Definition show (t : Texture) (evs : list SDL_Event) (fr : HeapArray) g : G :=
  impl_draw (update_texture (tex_id t) (tw t) (th t) fr (resized evs g)).

Fixpoint shows (t : Texture) (i : nat) (frames : list HeapArray) g : G :=
  match frames with
  | [] => g
  | fr :: frames => shows t (S i) frames (show t (polls i) fr g)
  end.

(** The contents of the screen after each of the next frames, and the machine
    after them. *)
Fixpoint play (n : nat) (e : Emulator) : Res (list HeapArray * Emulator) :=
  match n with
  | O => Ok ([], e)
  | S n' =>
      let? e := run_frame None shl frame_fuel e in
      match screen (ppu (world e)) with
      | Some cv => let? '(frames, e') := play n' e in Ok (frame cv :: frames, e')
      | None => Err OutOfBounds
      end
  end.

(** The state at the head of the loop: a machine in its invariant, with a screen
    that shows the texture [tx], and cycles left for [n] more frames. *)
Record at_loop (n : nat) (lag : Z) (tx : Texture) (s : State (G := G)) g : Prop := {
  al_emu : exists t, emu_at lag t (fst s);
  al_lag : lag < max_lag;
  al_nmi : nmi (fst s) = false;
  al_quit : debugger_has_quit (fst s) = false;
  al_screen : shown (ppu (world (fst s))) = Some tx;
  al_cycles : ecycle (fst s) + lag + frame_max * Z.of_nat n < 2 ^ 31;
  al_ctx : ptr (snd s) = Some g;
}.

Lemma round_run n lag tx i s g : at_loop (S n) lag tx s g ->
  (exists e' ctx' cv, run_frame None shl frame_fuel (fst s) = Ok e' /\ screen (ppu (world e')) = Some cv /\
     round i s = Ok (negb (wants_quit (polls i)), (e', ctx')) /\
     at_loop n 0 tx (e', ctx') (show tx (polls i) (frame cv) g)) \/
  (run_frame None shl frame_fuel (fst s) = Err OutOfBounds /\ round i s = Err OutOfBounds).
Proof.
  destruct s as [e ctx]. intros [(t & He) Hl Hn Hq Hs Hc Hp]. simpl in *.
  destruct (handle_events_run (polls i) true ctx g Hp) as (ctx1 & E1 & Hp1).
  unfold Main.round. rewrite E1. cbn [rbind andb]. rewrite Hq.
  destruct (frame_step shl lag t e He Hl Hn Hq) as [(e' & t' & -> & He' & Hn' & Hb & Hc') | ->];
    [unfold frame_max in *; lia | | by right].
  injection Hb as Hd Hsh. rewrite Hs in Hsh. unfold shown in Hsh. unfold update_screen.
  destruct (screen (ppu (world e'))) as [cv |] eqn:Escr; [| done]. injection Hsh as Ht.
  left. unfold update_canvas, update_tex, draw_context, through_, through. cbn [rbind]. rewrite Escr, Hp1. cbn [rbind ptr].
  eexists _, _, cv. split; [reflexivity |]. split; [exact Escr |]. split; [reflexivity |].
  constructor; cbn [fst snd ptr]; try done.
  - by exists t'.
  - unfold debugger_has_quit in *. by rewrite Hd.
  - unfold shown. rewrite Escr. simpl. by rewrite Ht.
  - unfold frame_max in *. lia.
  - unfold show. by rewrite Ht.
Qed.

Lemma play_S n e : play (S n) e =
  (let? e := run_frame None shl frame_fuel e in
   match screen (ppu (world e)) with
   | Some cv => let? '(frames, e') := play n e in Ok (frame cv :: frames, e')
   | None => Err OutOfBounds
   end).
Proof. done. Qed.

(** The loop ends at the round that asks to quit, having shown a frame in each
    round up to it. *)
Lemma rounds_end k fuel lag tx i s g : (k < fuel)%nat -> at_loop (S k) lag tx s g ->
  (forall j, (i <= j < i + k)%nat -> wants_quit (polls j) = false) -> wants_quit (polls (i + k)) = true ->
  (exists s' frames, rounds fuel i s = Ok s' /\ play (S k) (fst s) = Ok (frames, fst s') /\
     length frames = S k /\ at_loop 0 0 tx s' (shows tx i frames g)) \/
  (rounds fuel i s = Err OutOfBounds /\ play (S k) (fst s) = Err OutOfBounds).
Proof.
  revert fuel lag i s g. induction k as [| k IH]; intros fuel lag i s g Hf Hs Hno Hyes;
    (destruct fuel as [| fuel]; [lia |]); cbn [Main.rounds]; rewrite play_S.
  - rewrite Nat.add_0_r in Hyes.
    destruct (round_run 0 lag tx i s g Hs) as [(e' & ctx' & cv & -> & Ecv & -> & Hs') | [-> ->]]; [| by right].
    left. cbn [rbind]. rewrite Hyes, Ecv. by exists (e', ctx'), [frame cv].
  - destruct (round_run (S k) lag tx i s g Hs) as [(e' & ctx' & cv & -> & Ecv & -> & Hs') | [-> ->]]; [| by right].
    cbn [rbind]. rewrite (Hno i ltac:(lia)), Ecv. cbn [negb].
    destruct (IH fuel 0 (S i) (e', ctx') (show tx (polls i) (frame cv) g)) as [(s2 & frames & -> & E2 & Hlen & Hs2) | [-> E2]].
    + lia.
    + exact Hs'.
    + intros j Hj. apply Hno. lia.
    + by replace (S i + k)%nat with (i + S k)%nat by lia.
    + left. cbn [fst] in E2. rewrite E2. cbn [rbind]. exists s2, (frame cv :: frames). simpl. by rewrite Hlen.
    + right. cbn [fst] in E2. by rewrite E2.
Qed.

(** ** From the command line on *)

Variable fopen : string -> FileMode -> option FILE.
Variable strerror : string.
Variable stdin : list Z.
Variable garbage : Z -> Z.
Variable fuel : nat.

(** What is printed is beside the machine. *)
Lemma say_at lag t o e : emu_at lag t e -> emu_at lag t (say o e).
Proof.
  intros [Hc Hs Hw Hp Hcy Hlag].
  assert (K : forall o w, world_ok w -> pos_at t (ppu w) ->
    world_ok (fold_left (fun w o => add_output o w) o w) /\ pos_at t (ppu (fold_left (fun w o => add_output o w) o w))).
  { clear. induction o as [| x o IH]; intros w [] Hp; simpl; [by split |]. apply IH; [by constructor | done]. }
  destruct (K o (world e) Hw Hp). by constructor.
Qed.

Lemma say_beside o e : beside (world (say o e)) = beside (world e) /\ nmi (say o e) = nmi e /\
  ecycle (say o e) = ecycle e.
Proof.
  split; [| done]. cbn [say world]. generalize (world e). induction o as [| x o IH]; intros w; simpl; [done |].
  by rewrite IH.
Qed.

(** The screen that [mainloop] makes. *)
Definition main_texture (g : G) : Texture := mkTexture (fst (create_texture SCREEN_WIDTH SCREEN_HEIGHT None g)) 256 240.
Definition main_library (g : G) : G := snd (create_texture SCREEN_WIDTH SCREEN_HEIGHT None g).

(** [mainloop] without the debugger: it shows a frame for each list of events up
    to the one that asks to quit. *)
Lemma mainloop_ends k n t e ctx g : emu_at 0 t e -> ecycle e = 0 -> nmi e = false -> debugger_has_quit e = false ->
  ptr ctx = Some g -> 6 + frame_max * Z.of_nat (S k) < 2 ^ 31 -> (k < n)%nat ->
  (forall j, (j < k)%nat -> wants_quit (polls j) = false) -> wants_quit (polls k) = true ->
  exists e1, emu_at 6 0 e1 /\ pc (r (cpu e1)) = reset_target (world e) /\
  ((exists s' frames, mainloop fopen strerror stdin polls shl garbage fuel n false (e, ctx) = Ok s' /\
      play (S k) e1 = Ok (frames, fst s') /\ length frames = S k /\ (exists t', emu_at 0 t' (fst s')) /\
      ptr (snd s') = Some (shows (main_texture g) 0 frames (main_library g))) \/
   (mainloop fopen strerror stdin polls shl garbage fuel n false (e, ctx) = Err OutOfBounds /\
    play (S k) e1 = Err OutOfBounds)).
Proof.
  intros He Hcy Hn Hq Hp Hov Hk Hno Hyes. unfold mainloop, make_canvas, new_texture, through. rewrite Hp.
  destruct (create_texture SCREEN_WIDTH SCREEN_HEIGHT None g) as [id g1] eqn:Eg. cbn [rbind].
  set (cv := new_canvas (tex_id (mkTexture id SCREEN_WIDTH SCREEN_HEIGHT)) garbage SCREEN_WIDTH SCREEN_HEIGHT).
  set (e1 := mkEmulator (cpu e) (set_console (CliDbg.init_console stdin) (world e)) (ecycle e) (nmi e)).
  assert (He1 : emu_at 0 t e1) by (destruct He as [? ? [] ? ? ?]; constructor; try done; by constructor).
  assert (Hcv : screen_ok (Some cv)) by (intros c [= <-]; split; [by apply new_canvas_ok | done]).
  destruct (power_machine 0 t (set_screen (Some cv) e1) (screen_machine 0 t e1 (Some cv) He1 Hcv))
    as (e2 & -> & He2 & Hn2 & Hc2 & Hpc2 & _ & _ & Hb2).
  { change (ecycle (set_screen (Some cv) e1)) with (ecycle e). lia. }
  cbn [rbind]. set (e3 := say _ e2). injection Hb2 as Hd2 Hs2.
  assert (He3 : emu_at 6 0 e3) by (by apply say_at).
  destruct (say_beside [Stderr (getinfo (cartridge (world e2)) +:+ newline)] e2) as (Hb3 & Hn3 & Hc3).
  fold e3 in Hb3, Hn3, Hc3. pose proof (f_equal fst Hb3) as Hd3. pose proof (f_equal snd Hb3) as Hs3.
  cbn [beside fst snd] in Hd3, Hs3.
  exists e3. split; [exact He3 |]. split; [exact Hpc2 |].
  destruct (rounds_end k n 6 (main_texture g) 0 (e3, mkContext (Some g1) (wnd_width ctx) (wnd_height ctx)) g1 Hk)
    as [(s' & frames & E & Epl & Hlen & Hs') | E].
  - constructor; cbn [fst snd].
    + by exists 0.
    + done.
    + by rewrite Hn3, Hn2.
    + unfold debugger_has_quit in *. by rewrite Hd3, Hd2.
    + rewrite Hs3, Hs2. unfold main_texture. rewrite Eg. done.
    + rewrite Hc3, Hc2. change (ecycle (set_screen (Some cv) e1)) with (ecycle e). rewrite Hcy. exact Hov.
    + done.
  - intros j Hj. apply Hno. lia.
  - exact Hyes.
  - left. exists s', frames. split; [exact E |]. split; [exact Epl |]. split; [exact Hlen |]. split; [apply (al_emu _ _ _ _ _ Hs') |].
    rewrite (al_ctx _ _ _ _ _ Hs'). unfold main_library. by rewrite Eg.
  - right. exact E.
Qed.

(** The program started with the name of a ROM, up to [mainloop]. *)
Lemma start_plays prog rom im s : CmdLine.starts_dash rom = false ->
  fopen rom READ = Some (mkFILE false (ines_file im ++ s)) -> playable im ->
  exists e e', new_emulator garbage garbage = Ok e /\
    start fopen strerror garbage [prog; rom] e = Ok (Go false e') /\
    emu_at 0 0 e' /\ nmi e' = false /\ ecycle e' = 0 /\ debugger_has_quit e' = false /\
    holds (prgrom (cartridge (world e'))) (im_prg im) /\ holds (chrrom (cartridge (world e'))) (im_chr im).
Proof.
  intros Hr Hf Hp. destruct (new_emulator_spec garbage garbage) as (e & E & Hm).
  destruct (insert_rom_spec garbage garbage e im rom EmptyString false s Hm Hp)
    as (e' & Ei & Hw & Ec & Ep & Ecy & En & Hprg & Hchr & _ & Ed).
  exists e, e'. split; [exact E |]. split.
  - unfold start. cbn [length Nat.ltb Nat.leb]. unfold CmdLine.parse. cbn [tail CmdLine.parse_loop].
    assert (Hsay : say [] e = e) by (by destruct e).
    rewrite Hr. cbn [negb rbind CmdLine.has CmdLine.params CmdLine.items].
    replace (CmdLine.items (CmdLine.no_args cmdflags) ++ [rom]) with [rom] by (by rewrite CmdLine.no_args_items).
    assert (Hno : forall c l, flag c (CmdLine.mkArgResult (CmdLine.has (CmdLine.no_args cmdflags)) l [rom]) = false).
    { intros c l. unfold flag. cbn [CmdLine.has]. unfold CmdLine.no_args. cbn [fold_left cmdflags CmdLine.has CmdLine.short_opt CmdLine.argument].
      destruct (decide (c = "d"%char)) as [-> |]; [by rewrite lookup_insert_eq |]. rewrite lookup_insert_ne by congruence.
      destruct (decide (c = "v"%char)) as [-> |]; [by rewrite lookup_insert_eq |]. rewrite lookup_insert_ne by congruence.
      destruct (decide (c = "h"%char)) as [-> |]; [by rewrite lookup_insert_eq |]. rewrite lookup_insert_ne by congruence.
      by rewrite lookup_empty. }
    rewrite Hsay, !Hno. cbn [CmdLine.items]. unfold open. cbn [close default_file filbuf]. rewrite Hf. cbn [negb errstr].
    cbn [errstr default_file]. rewrite Ei. done.
  - split; [| split_and!; try assumption; unfold debugger_has_quit; by rewrite Ed].
    constructor; rewrite ?Ec, ?Ep, ?Ecy; [apply init_cpu_ok | by split | exact Hw | apply init_ppu_ok | reflexivity | reflexivity].
Qed.
End Loop.

(** The whole program, started with the name of a ROM. *)
Lemma main_ends `{F : Fmt} {G} `{Impl : VideoImpl G} fopen strerror stdin polls shl garbage fuel
    prog rom im s k n g :
  CmdLine.starts_dash rom = false -> fopen rom READ = Some (mkFILE false (ines_file im ++ s)) -> playable im ->
  impl_init new_impl = (true, g) ->
  (forall j, (j < k)%nat -> wants_quit (polls j) = false) -> wants_quit (polls k) = true -> (k < n)%nat ->
  6 + frame_max * Z.of_nat (S k) < 2 ^ 31 ->
  exists e0 e1, holds (prgrom (cartridge (world e0))) (im_prg im) /\ holds (chrrom (cartridge (world e0))) (im_chr im) /\
  emu_at 6 0 e1 /\ pc (r (cpu e1)) = reset_target (world e0) /\
  ((exists st frames, main fopen strerror stdin polls shl garbage fuel n [prog; rom] = Ok (0, st) /\
      play shl (S k) e1 = Ok (frames, fst st) /\ length frames = S k /\ (exists t, emu_at 0 t (fst st)) /\
      ptr (snd st) = Some (shows polls (main_texture g) 0 frames (main_library g))) \/
   (main fopen strerror stdin polls shl garbage fuel n [prog; rom] = Err OutOfBounds /\
    play shl (S k) e1 = Err OutOfBounds)).
Proof.
  intros Hr Hf Hp Hg Hno Hyes Hk Hov.
  destruct (start_plays fopen strerror garbage prog rom im s Hr Hf Hp)
    as (e & e' & En & Es & He & Hn & Hcy & Hq & Hprg & Hchr).
  set (ctx := mkContext (Some g) DEF_WIDTH DEF_HEIGTH).
  destruct (mainloop_ends polls shl fopen strerror stdin garbage fuel k n 0 e' ctx g
    He Hcy Hn Hq eq_refl Hov Hk Hno Hyes) as (e1 & He1 & Hpc & H).
  assert (E : main fopen strerror stdin polls shl garbage fuel n [prog; rom] =
    (let? s := mainloop fopen strerror stdin polls shl garbage fuel n false (e', ctx) in Ok (0, s))).
  { unfold main. rewrite En. cbn [rbind]. rewrite Es. cbn [rbind]. unfold init_context, through. cbn [ptr].
    by rewrite Hg. }
  rewrite E. exists e', e1. split; [exact Hprg |]. split; [exact Hchr |]. split; [exact He1 |].
  split; [exact Hpc |]. destruct H as [(st & frames & -> & H) | [-> H]].
  - left. exists st, frames. split; [reflexivity | exact H].
  - right. split; [reflexivity | exact H].
Qed.
