(* ===== verification/MainProps.v ===== *)
(** * Properties of the program and its utilities

    [main] from the command line to the last frame; the settings files and
    command-line arguments; the strings that they and the command line of the
    debugger are made of. *)

From Stdlib Require Import Ascii.
From stdpp Require Import strings.
From S2P Require Import Prelude HeapArray StringOps Fmt InstrInfo Cpu CpuInv File Cartridge Video Ppu PpuInv PpuSched.
From S2P Require Import Emulator EmulatorInv EmulatorRun MachineProps Main MainRun.
From S2P Require Settings CmdLine Debugger CliDbg.
Open Scope Z_scope.

(** ** The program *)

(** C1: started with the name of a ROM file, [main] plays it until it is asked to
    quit.  For any iNES image with one to four PRG banks and CHR ROM, any graphics
    library that initialises and any content of uninitialised memory, the machine
    holds the ROM and starts at its reset vector.  If the first request to quit
    comes in round [k] and the cycle counter does not overflow before, then [main]
    returns 0 after exactly [k + 1] frames of that machine, each of which was
    shown in its round, and leaves the machine in its invariant; or an access of
    the CPU is out of bounds on the way. *)
Theorem main_plays `{F : Fmt} {G} `{Impl : VideoImpl G} fopen strerror stdin polls shl garbage fuel
    prog rom im s k n g :
  CmdLine.starts_dash rom = false -> fopen rom READ = Some (mkFILE false (ines_file im ++ s)) -> playable im ->
  impl_init new_impl = (true, g) ->
  (forall j, (j < k)%nat -> wants_quit (polls j) = false) -> wants_quit (polls k) = true -> (k < n)%nat ->
  6 + frame_max * Z.of_nat (S k) < 2 ^ 31 ->
  exists e0 e1, holds (prgrom (cartridge (world e0))) (im_prg im) /\ holds (chrrom (cartridge (world e0))) (im_chr im) /\
  emu_at 6 0 e1 /\ pc (r (cpu e1)) = reset_target (world e0) /\
  ((exists st frames, main fopen strerror stdin polls shl garbage fuel n [prog; rom] = Ok (0, st) /\
      play shl (S k) e1 = Ok (frames, fst st) /\ length frames = S k /\ (exists t, emu_at 0 t (fst st)) /\
      ptr (snd st) = Some (shows polls (main_texture g) 0 frames (main_library g))) \/
   (main fopen strerror stdin polls shl garbage fuel n [prog; rom] = Err OutOfBounds /\
    play shl (S k) e1 = Err OutOfBounds)).
Proof. apply main_ends. Qed.

(** A graphics library that counts what it draws, and a request to quit in the
    third round. *)
Definition count_impl : VideoImpl nat := {|
  new_impl := 0%nat; impl_init g := (true, g); impl_resize _ _ g := g;
  create_texture _ _ _ g := (1, g); update_texture _ _ _ _ g := g; use_texture _ g := g; impl_draw := S |}.

Lemma main_plays_witness :
  let polls i := if (i =? 2)%nat then [SDL_QUIT] else [SDL_OTHER] in
  let fopen (name : string) (_ : FileMode) := if decide (name = "im0.nes"%string) then Some (mkFILE false (ines_file im0)) else None in
  let run := main (F := DigitFmt) (Impl := count_impl) fopen EmptyString [] polls (fun _ _ => 0) (fun _ => 7) 9 9
    ["yanesemu"; "im0.nes"]%string in
  (exists st, run = Ok (0, st) /\ ptr (snd st) = Some 3%nat) \/ run = Err OutOfBounds.
Proof.
  intros polls fopen run.
  destruct (main_plays (F := DigitFmt) (Impl := count_impl) fopen EmptyString [] polls (fun _ _ => 0) (fun _ => 7) 9
    "yanesemu" "im0.nes" im0 [] 2 9 0%nat) as (e0 & e1 & _ & _ & _ & _ & [(st & frames & E & _ & L & _ & P) | [E _]]).
  - reflexivity.
  - rewrite app_nil_r. reflexivity.
  - exact im0_playable.
  - reflexivity.
  - intros [| [| j]] Hj; [reflexivity | reflexivity | lia].
  - reflexivity.
  - apply Nat.ltb_lt. reflexivity.
  - reflexivity.
  - left. exists st. split; [exact E |]. rewrite P.
    destruct frames as [| f1 [| f2 [| f3 [| f4 frames]]]]; [discriminate L | discriminate L | discriminate L | reflexivity | discriminate L].
  - right. exact E.
Defined.

(** ** Settings *)

Import Settings.

(** C30: settings have their declared types.  Whatever the file, if the declared
    keys are distinct and each default has its declared type, [parse_conf] ends
    with a value of that type for every declared key, or [std::stoi] threw at a
    number too large.  A file written as lines [key=value] is read to its end, and
    each setting is then the last value of its key where that has the type, and
    the default otherwise. *)
Theorem settings_typed valid : NoDup (key <$> valid) -> Forall (fun v => index (def v) = type v) valid ->
  (forall s, (exists smap rest w, parse_conf s valid = Ok (smap, rest, w) /\
     forall v, v ∈ valid -> exists x, smap !! key v = Some x /\ index x = type v) \/
   parse_conf s valid = Err Uncaught) /\
  (forall kvs, Forall writable kvs -> let kv := conf_map kvs ∅ in
   (exists smap w, parse_conf (conf_file kvs) valid = Ok (smap, [], w) /\
      forall v, v ∈ valid -> smap !! key v = Some (chosen kv v)) \/
   (parse_conf (conf_file kvs) valid = Err Uncaught /\ exists v, v ∈ valid /\ overlong kv v)).
Proof.
  intros Hd Ht. split.
  - intros s. unfold parse_conf.
    destruct (parse_lines_total (S (length s)) s ∅) as (kv & s' & w1 & ->); [lia |]. cbn [rbind].
    destruct (choose_all_spec kv valid ∅ Hd) as [(smap & w2 & -> & H & _) | [-> _]]; [left | by right].
    do 3 eexists. split; [reflexivity |]. intros v Hv. exists (chosen kv v). split; [by apply H |].
    apply chosen_typed. by eapply Forall_forall in Ht.
  - intros kvs Hw kv. unfold parse_conf.
    rewrite parse_lines_file; [| done | pose proof (conf_file_length kvs); lia]. cbn [rbind]. fold kv.
    destruct (choose_all_spec kv valid ∅ Hd) as [(smap & w2 & -> & H & _) | [-> Ho]]; [left | by right].
    do 2 eexists. by split.
Qed.

(** A file with a scale, set twice, and a name of the wrong type. *)
Lemma settings_typed_witness : exists smap w,
  parse_conf (conf_file [("scale", "2"); ("scale", "3"); ("debug", "maybe")])
    [mkValid "scale" SETTINGTYPE_NUMBER (SInt 1); mkValid "debug" SETTINGTYPE_BOOL (SBool false)] = Ok (smap, [], w) /\
  smap !! "scale"%string = Some (SInt 3) /\ smap !! "debug"%string = Some (SBool false).
Proof.
  destruct (settings_typed [mkValid "scale" SETTINGTYPE_NUMBER (SInt 1); mkValid "debug" SETTINGTYPE_BOOL (SBool false)])
    as [_ H].
  - apply NoDup_cons. split; [| apply NoDup_singleton]. intros E. by apply list_elem_of_singleton in E.
  - repeat constructor.
  - destruct (H [("scale", "2"); ("scale", "3"); ("debug", "maybe")]%string) as [(smap & w & E & Hv) | [E _]].
    + repeat (constructor; [repeat split; done |]). constructor.
    + exists smap, w. split; [exact E |]. split.
      * refine (eq_trans (Hv (mkValid "scale" SETTINGTYPE_NUMBER (SInt 1)) _) _); [by left | by vm_compute].
      * refine (eq_trans (Hv (mkValid "debug" SETTINGTYPE_BOOL (SBool false)) _) _); [by right; left | by vm_compute].
    + vm_compute in E. discriminate E.
Defined.

(** ** Command-line arguments *)

(** C31: command-line arguments.  For a table of flags, as the program's, parsing
    any arguments but a dash alone collects the arguments without a dash, in
    order, and says of each option whether some argument selects it; a dash alone
    is read past its end.  For any table, a parameter that is returned was
    accepted by the validator of its option, and is an argument without a dash. *)
Theorem arguments_parsed valid argv :
  (Forall (fun a => CmdLine.paramt a = CmdLine.NONE) valid ->
   ("-"%string ∈ tail argv -> CmdLine.parse argv valid = Err OutOfBounds) /\
   (~ "-"%string ∈ tail argv -> exists res out, CmdLine.parse argv valid = Ok (res, out) /\
      CmdLine.items res = List.filter (fun s => negb (CmdLine.starts_dash s)) (tail argv) /\
      forall a, a ∈ valid -> CmdLine.has res !! CmdLine.short_opt a =
        Some (existsb (CmdLine.selects (CmdLine.short_opt a)) (tail argv)))) /\
  (forall res out c p, CmdLine.parse argv valid = Ok (res, out) -> CmdLine.params res !! c = Some p ->
     p = EmptyString \/ (exists a, CmdLine.is_valid c valid = Some a /\ CmdLine.validator a p = true) /\
       p ∈ tail argv /\ CmdLine.starts_dash p = false).
Proof.
  unfold CmdLine.parse. split.
  - intros Hf. split; [by apply CmdLine.parse_dash |]. intros Hd.
    destruct (CmdLine.parse_flags valid Hf (tail argv) (CmdLine.no_args valid) Hd) as (res & out & E & Hi & _ & Hh).
    exists res, out. rewrite CmdLine.no_args_items in Hi. split; [done |]. split; [done |].
    intros a Ha. rewrite (Hh a Ha), (CmdLine.no_args_has valid a Ha). by destruct (existsb _ _).
  - intros res out c p E. eapply (CmdLine.parse_params valid (tail argv)); [| | exact E]; [done |].
    intros d q Hq%CmdLine.no_args_params. by left.
Qed.

(** [yanesemu -d rom.nes --version] *)
Lemma arguments_parsed_witness : exists res out,
  CmdLine.parse ["yanesemu"; "-d"; "rom.nes"; "--version"]%string cmdflags = Ok (res, out) /\
  CmdLine.items res = ["rom.nes"%string] /\ CmdLine.has res !! "d"%char = Some true /\
  CmdLine.has res !! "v"%char = Some true /\ CmdLine.has res !! "h"%char = Some false.
Proof.
  destruct (arguments_parsed cmdflags ["yanesemu"; "-d"; "rom.nes"; "--version"]%string) as [H _].
  destruct (H ltac:(repeat constructor)) as [_ H1].
  destruct H1 as (res & out & E & Hi & Hh).
  - intros Hd. repeat (apply elem_of_cons in Hd as [Hd | Hd]; [discriminate Hd |]). by apply elem_of_nil in Hd.
  - exists res, out. split; [exact E |]. split; [exact Hi |].
    split; [apply (Hh (CmdLine.argument "d" "debugger" "Use command-line debugger")); do 2 right; by left |].
    split; [apply (Hh (CmdLine.argument "v" "version" "Shows the program's version")); right; by left |].
    apply (Hh (CmdLine.argument "h" "help" "Print this help text and quit")). by left.
Defined.

(** ** Strings *)

(** C37: splitting and converting strings.  [strsplit] always returns the fields
    of the reference definition, and inverts joining if no field holds the
    delimiter and the last is not empty; [strconv] reads back the hexadecimal
    digits that the program prints, and never returns more than its type holds. *)
Theorem strings_roundtrip `{FL : FmtLaws} delim :
  (forall s, strsplit s delim = Ok (split_on delim s)) /\
  (forall fs, Forall (fun f => lacks delim f = true) fs -> last fs <> Some EmptyString ->
     strsplit (join delim fs) delim = Ok fs) /\
  (forall w z, word z -> strconv16 (fmt_hex w z) = Some z) /\
  (forall w z, byte z -> strconv8 (fmt_hex w z) = Some z) /\
  (forall s v, (strconv16 s = Some v -> word v) /\ (strconv8 s = Some v -> byte v)).
Proof.
  split; [intros s; apply strsplit_split_on |]. split.
  { intros fs Hf Hl. rewrite strsplit_split_on. by rewrite split_join. }
  split; [intros w z; apply strconv16_hex |]. split; [intros w z; apply strconv8_hex |].
  intros s v. split; [apply strconv16_word | apply strconv8_byte].
Qed.

Lemma strings_roundtrip_witness :
  strsplit "break r 2000 2007" " " = Ok ["break"; "r"; "2000"; "2007"]%string /\
  strconv16 (fmt_hex (Fmt := DigitFmt) 4 0x2007) = Some 0x2007.
Proof.
  destruct (strings_roundtrip (FL := DigitFmtLaws) " ") as (_ & H1 & H2 & _). split.
  - apply (H1 ["break"; "r"; "2000"; "2007"]%string); [repeat constructor | discriminate].
  - apply H2. split; lia.
Defined.
