(* ===== verification/VideoProps.v ===== *)
(** * Properties of the picture on the window

    The OpenGL back end under the canvas and the main loop: what is presented are
    the frames, over the whole window and the right way up. *)

From Stdlib Require Import Ascii.
From stdpp Require Import strings.
From S2P Require Import Prelude HeapArray StringOps Fmt File Cartridge Video OpenGL OpenGLSpec.
From S2P Require Import Cpu CpuInv Ppu PpuInv PpuSched Emulator EmulatorInv EmulatorRun MachineProps Main MainRun.
From S2P Require CmdLine.
Open Scope Z_scope.

(** ** Frames *)

Section Frames.
Context {D : Type} `{GLSpec D} (d0 : D).
Implicit Types s : GLState D.

Abbreviation screen_of s := (view (drv s)).

(** A texture that the object can show: named, bound, and with storage of its size. *)
Record showing (t : Texture) (s : GLState D) : Prop := {
  sh_ready : ready (gl s) (screen_of s);
  sh_bound : bound (screen_of s) = tex_id t;
  sh_image : exists old, textures (screen_of s) !! tex_id t = Some (Some (mkImage (s32 (tw t)) (s32 (th t)) old));
}.

(** The quad with the bytes of a frame. *)
Definition frame_quad (o : OpenGL) (t : Texture) (fr : HeapArray) (d : Drawing) : Prop :=
  quad o (Some (Some (mkImage (s32 (tw t)) (s32 (th t)) (Some fr)))) d.

Lemma outcome_run {A} (m : GM D A) Q s : outcome m Q (gl s) (screen_of s) ->
  let '(a, s') := m s in Q a (gl s') (screen_of s').
Proof. destruct s as [o d l]. intros Hm. by apply Hm. Qed.

Lemma resized_showing t evs s : showing t s ->
  let s' := resized (Impl := opengl_impl d0) evs s in
  showing t s' /\ gl s' = gl s /\ presented (screen_of s') = presented (screen_of s).
Proof.
  cbv zeta. revert s. induction evs as [| ev evs IH]; intros s Hs; [done |].
  assert (Hev : forall w h, showing t (snd (resize w h s)) /\ gl (snd (resize w h s)) = gl s /\
    presented (screen_of (snd (resize w h s))) = presented (screen_of s)).
  { intros w h. pose proof (outcome_run _ _ s (resize_ready w h _ _ (sh_ready t s Hs))) as Ho.
    destruct (resize w h s) as [u s']. destruct Ho as [Eo Ev]. cbn [snd]. rewrite Eo, Ev. split; [| done].
    destruct Hs as [H1 H2 H3]. constructor; by rewrite ?Eo, Ev. }
  destruct ev as [| w h |]; [by apply IH | | by apply IH].
  destruct (Hev w h) as (Hs' & Eo & Ep). destruct (IH (snd (resize w h s)) Hs') as (R1 & R2 & R3).
  cbn [resized fold_left] in *. split; [exact R1 |]. by rewrite <- Eo, <- Ep.
Qed.

(** A round of the main loop presents its frame. *)
Lemma show_presents t evs fr s : showing t s ->
  let s' := show (Impl := opengl_impl d0) t evs fr s in
  showing t s' /\ gl s' = gl s /\ exists d, frame_quad (gl s) t fr d /\
    presented (screen_of s') = presented (screen_of s) ++ [[d]].
Proof.
  cbv zeta. intros Hs. destruct (resized_showing t evs s Hs) as ([Hr Hb (old & Him)] & Eo & Ep).
  unfold show. cbn [impl_draw Video.update_texture opengl_impl]. set (s1 := resized evs s) in *.
  pose proof (outcome_run _ _ s1 (update_ready (tex_id t) (tw t) (th t) fr old _ _ Hr Him)) as Hu.
  destruct (update_texture (tex_id t) (tw t) (th t) fr s1) as [u s2] eqn:E2. cbn [snd].
  destruct Hu as (Eo2 & Hr2 & Hb2 & Ht2 & Ep2). rewrite <- Eo2 in Hr2.
  pose proof (outcome_run _ _ s2 (draw_ready _ _ Hr2)) as Hd. destruct (draw s2) as [u3 s3]. cbn [snd].
  destruct Hd as (Eo3 & Hr3 & Ht3 & Hb3 & d & Hq & Ep3). rewrite Hb2, Ht2, lookup_insert_eq in Hq.
  rewrite Eo2, Eo in Hq. split; [| split; [congruence |]].
  - constructor; [by rewrite Eo3 | by rewrite Hb3 |]. rewrite Ht3, Ht2, lookup_insert_eq. by eexists.
  - exists d. split; [exact Hq |]. by rewrite Ep3, Ep2, Ep.
Qed.

Lemma shows_presents polls t frames i s : showing t s ->
  let s' := shows (Impl := opengl_impl d0) polls t i frames s in
  exists ds, Forall2 (frame_quad (gl s) t) frames ds /\ gl s' = gl s /\
    presented (screen_of s') = presented (screen_of s) ++ ((fun d => [d]) <$> ds).
Proof.
  cbv zeta. revert i s. induction frames as [| fr frames IH]; intros i s Hs.
  - exists []. split; [constructor |]. split; [done |]. by rewrite app_nil_r.
  - destruct (show_presents t (polls i) fr s Hs) as (Hs' & Eo & d & Hq & Ep).
    destruct (IH (S i) _ Hs') as (ds & Hf & Eo' & Ep'). exists (d :: ds). rewrite Eo in Hf.
    split; [by constructor |]. split; [etrans; [exact Eo' | exact Eo] |].
    cbn [shows]. rewrite Ep', Ep, <- app_assoc. done.
Qed.

(** After [init], the canvas of the main loop can be shown. *)
Lemma main_showing : capable D -> presented (view d0) = [] ->
  exists s, impl_init (VideoImpl := opengl_impl d0) (new_impl (VideoImpl := opengl_impl d0)) = (true, s) /\
    showing (main_texture (Impl := opengl_impl d0) s) (main_library (Impl := opengl_impl d0) s) /\
    gl (main_library (Impl := opengl_impl d0) s) = gl s /\
    presented (screen_of (main_library (Impl := opengl_impl d0) s)) = [].
Proof.
  intros Hc Hp. cbn [impl_init new_impl opengl_impl].
  pose proof (init_ready (view d0) Hc d0 [] eq_refl) as Hi.
  destruct (init (mkGL new_opengl d0 [])) as [b s] eqn:E. destruct Hi as (-> & Hr & Epr & _).
  exists s. split; [done |]. unfold main_texture, main_library. cbn [Video.create_texture opengl_impl].
  pose proof (outcome_run _ _ s (create_ready SCREEN_WIDTH SCREEN_HEIGHT None _ _ Hr)) as Ho.
  destruct (create_texture SCREEN_WIDTH SCREEN_HEIGHT None s) as [id s'] eqn:E2. cbn [fst snd].
  destruct Ho as (Eo & Hr' & Hb & Hnew & Ht & Ep). rewrite <- Eo in Hr'. split; [| split; [done | congruence]].
  constructor; [done | done |]. cbn [tex_id]. rewrite Ht, lookup_insert_eq. by eexists.
Qed.
End Frames.

(** C11: the window shows the frames.  Over any driver that behaves as SDL and
    OpenGL document, and on which nothing fails, the program started with the
    name of a ROM presents one picture for each frame of the machine, in order:
    the quad, drawn with the two shaders and with the texture of 256 by 240 that
    holds the bytes of that frame.  Nothing else is presented. *)
Theorem frames_presented {D} `{GLSpec D} `{F : Fmt} (d0 : D) fopen strerror stdin polls shl garbage fuel
    prog rom im s k n :
  capable D -> presented (view d0) = [] ->
  CmdLine.starts_dash rom = false -> fopen rom READ = Some (mkFILE false (ines_file im ++ s)) -> playable im ->
  (forall j, (j < k)%nat -> wants_quit (polls j) = false) -> wants_quit (polls k) = true -> (k < n)%nat ->
  6 + frame_max * Z.of_nat (S k) < 2 ^ 31 ->
  let run := main (Impl := opengl_impl d0) fopen strerror stdin polls shl garbage fuel n [prog; rom] in
  (exists st e1 frames g ds, run = Ok (0, st) /\ play shl (S k) e1 = Ok (frames, fst st) /\ length frames = S k /\
     ptr (snd st) = Some g /\ presented (view (drv g)) = (fun d => [d]) <$> ds /\
     Forall2 (fun fr d => quad (gl g) (Some (Some (mkImage 256 240 (Some fr)))) d) frames ds) \/
  run = Err OutOfBounds.
Proof.
  intros Hc Hp Hr Hf Hpl Hno Hyes Hk Hov. cbv zeta.
  destruct (main_showing d0 Hc Hp) as (g & Hi & Hs & Eg & Hpg).
  destruct (main_ends (Impl := opengl_impl d0) fopen strerror stdin polls shl garbage fuel prog rom im s k n g
    Hr Hf Hpl Hi Hno Hyes Hk Hov) as (e0 & e1 & _ & _ & _ & _ & [(st & frames & E & Epl & L & _ & P) | [E _]]);
    [left | by right].
  destruct (shows_presents d0 polls _ frames 0 _ Hs) as (ds & Hfr & Eo & Epr).
  eexists st, e1, frames, _, ds. split; [exact E |]. split; [exact Epl |]. split; [exact L |]. split; [exact P |].
  rewrite Eo. split; [by rewrite Epr, Hpg |]. exact Hfr.
Qed.

Lemma frames_presented_witness :
  let polls i := if (i =? 1)%nat then [SDL_QUIT] else [SDL_WINDOWEVENT_RESIZED 640 480] in
  let fopen (name : string) (_ : FileMode) := if decide (name = "im0.nes"%string) then Some (mkFILE false (ines_file im0)) else None in
  let run := main (F := DigitFmt) (Impl := opengl_impl blank_view) fopen EmptyString [] polls (fun _ _ => 0) (fun _ => 7)
    9 9 ["yanesemu"; "im0.nes"]%string in
  (exists st g, run = Ok (0, st) /\ ptr (snd st) = Some g /\ length (presented (drv g)) = 2%nat) \/ run = Err OutOfBounds.
Proof.
  intros polls fopen run.
  destruct (frames_presented (F := DigitFmt) blank_view fopen EmptyString [] polls (fun _ _ => 0) (fun _ => 7) 9
    "yanesemu" "im0.nes" im0 [] 1 9) as [(st & e1 & frames & g & ds & E & _ & L & P & Ep & Hf) | E].
  - exact soft_capable.
  - reflexivity.
  - reflexivity.
  - rewrite app_nil_r. reflexivity.
  - exact im0_playable.
  - intros [| j] Hj; [reflexivity | lia].
  - reflexivity.
  - apply Nat.ltb_lt. reflexivity.
  - reflexivity.
  - left. exists st, g. split; [exact E |]. split; [exact P |]. cbn [view soft_spec] in Ep. rewrite Ep, length_fmap.
    apply Forall2_length in Hf. rewrite <- Hf. exact L.
  - right. exact E.
Defined.

(** ** The quad *)

(** The corners of a triangle, as indices into the vertices. *)
Definition corners (tri : nat) : list nat := (fun i => Z.to_nat (nth i indices 0)) <$> [3 * tri; 3 * tri + 1; 3 * tri + 2]%nat.

(** Component [i] of corner [k]: 0 and 1 are the position, 3 and 4 the place in
    the texture. *)
Definition component (k i : nat) : Z := nth (5 * k + i) vertices 0.

(** The weighted sum of a component over the corners of a triangle. *)
Definition weighted (tri i : nat) (w : Z * Z * Z) : Z :=
  let '(w0, w1, w2) := w in
  match corners tri with
  | [k0; k1; k2] => w0 * component k0 i + w1 * component k1 i + w2 * component k2 i
  | _ => 0
  end.

Lemma weighted_corners i w0 w1 w2 :
  weighted 0 i (w0, w1, w2) = w0 * component 0 i + w1 * component 1 i + w2 * component 2 i /\
  weighted 1 i (w0, w1, w2) = w0 * component 1 i + w1 * component 2 i + w2 * component 3 i.
Proof. split; reflexivity. Qed.

(** The texel that nearest sampling takes at the point [(a/n, b/n)] of a window,
    on a texture of size [w] by [h]. *)
Definition texel (a b n w h : Z) : Z * Z := ((a + n) * w / (2 * n), (b + n) * h / (2 * n)).

(** C38: the quad covers the window, with the canvas the right way up.  Every
    point [(a/n, b/n)] of the window lies in one of the two triangles, and the
    place in the texture interpolated there is [((a/n + 1)/2, (b/n + 1)/2)].  The
    texel sampled holds the pixel that [drawpixel] puts in the column and in the
    row at the same distance from the left and from the top of the canvas. *)
Theorem quad_covers a b n cv x y : 0 < n -> - n <= a < n -> - n <= b < n -> canvas_ok cv ->
  texel a b n (tw (tex cv)) (th (tex cv)) = (x, th (tex cv) - 1 - y) ->
  (exists tri w0 w1 w2, (tri < 2)%nat /\ 0 <= w0 /\ 0 <= w1 /\ 0 <= w2 /\ w0 + w1 + w2 = 2 * n /\
     weighted tri 0 (w0, w1, w2) = 2 * a /\ weighted tri 1 (w0, w1, w2) = 2 * b /\
     weighted tri 3 (w0, w1, w2) = a + n /\ weighted tri 4 (w0, w1, w2) = b + n) /\
  0 <= x < tw (tex cv) /\ 0 <= y < th (tex cv) /\
  pixel_pos (tex cv) x y = (snd (texel a b n (tw (tex cv)) (th (tex cv))) * tw (tex cv) + x) * 4.
Proof.
  intros Hn Ha Hb Hcv Ht. split.
  - destruct (Z.le_gt_cases 0 (a + b)).
    + exists 0%nat, (a + b), (n - b), (n - a). rewrite !(proj1 (weighted_corners _ _ _ _)). cbn [component nth vertices Nat.add Nat.mul]. lia.
    + exists 1%nat, (n + a), (n + b), (- (a + b)). rewrite !(proj2 (weighted_corners _ _ _ _)). cbn [component nth vertices Nat.add Nat.mul]. lia.
  - pose proof Hcv as (Hw & Hh & _). rewrite Ht. unfold texel in Ht. injection Ht as Ex Ey. cbn [snd].
    set (w := tw (tex cv)) in *. set (h := th (tex cv)) in *.
    assert (Hx : 0 <= x < w) by (subst x; split; [apply Z.div_pos; nia | apply Z.div_lt_upper_bound; nia]).
    assert (Hy : 0 <= h - 1 - y < h)
      by (rewrite <- Ey; split; [apply Z.div_pos; nia | apply Z.div_lt_upper_bound; nia]).
    assert (Hy' : 0 <= y < h) by lia. split; [exact Hx |]. split; [exact Hy' |].
    by destruct (pixel_pos_spec cv x y Hcv Hx Hy') as [-> _].
Qed.

(** Left of the middle and near the top. *)
Lemma quad_covers_witness :
  pixel_pos (mkTexture 1 256 240) 64 11 = (228 * 256 + 64) * 4.
Proof.
  destruct (quad_covers (-50) 90 100 (new_canvas 1 (fun _ => 0) 256 240) 64 11) as (_ & _ & _ & E); [lia .. | | |].
  - by apply new_canvas_ok.
  - reflexivity.
  - exact E.
Defined.
