(* ===== verification/PictureProps.v ===== *)
(** * Properties of the picture of a running machine

    What a program that leaves the PPU alone shows, frame after frame. *)

From stdpp Require Import strings.
From S2P Require Import Prelude HeapArray Bus Cpu CpuInv Cartridge Video Ppu PpuInv PpuSched.
From S2P Require Import Emulator EmulatorInv EmulatorRun MainRun EmulatorPicture TinyMachine PpuPicture PpuLine PpuFrame.
Open Scope Z_scope.

(** ** The background on the screen *)

(** A pixel of a frame of the machine. *)
Definition frame_pixel (fr : HeapArray) (x y : Z) : Z := pixel (mkCanvas (mkTexture 0 256 240) fr) x y.

Lemma frame_pixel_screen p scr : ppu_ok p -> screen p = Some scr -> forall x y, frame_pixel (frame scr) x y = pixel scr x y.
Proof.
  intros Hp Es x y. destruct (ok_screen p Hp scr Es) as (_ & Ew & Eh).
  unfold frame_pixel, pixel. cbn [Video.tex Video.frame tw th]. by rewrite Ew, Eh.
Qed.

(** C5: a running machine shows the background.  Take any program that leaves
    the PPU alone (its instructions and interrupts touch no register of the PPU
    and do not fault), in the vertical blank after a frame, with the background
    shown.  Then [Emulator::run_frame] completes frame after frame, and each of
    them shows, from column 4 on, the picture that [bg_pixel] reads directly off
    the nametables and the pattern tables, however the loop of the emulator cuts
    the work of the PPU into the cycles of the instructions. *)
Theorem program_shows_background (Q : CPU -> World -> Prop) `{QuietProgram Q} shl n t e pic :
  between Q t e -> shows (ppu (world e)) pic -> ecycle e + 29788 * Z.of_nat n + 208467 < 2 ^ 31 ->
  exists frames e', play shl n e = Ok (frames, e') /\ length frames = n /\
    (exists t', between Q t' e') /\
    Forall (fun fr => forall x y, 0 <= x < 256 -> 0 <= y < 240 -> frame_pixel fr x y =
      if x <? 4 then pic x y
      else bg_pixel (vrambus (world e)) (cartridge (world e)) (ppu (world e)) (Nat.iter (Z.to_nat y) down (top (ppu (world e)))) x) frames.
Proof.
  intros Hb Hs Hov. assert (Hg : exists frames e', play shl n e = Ok (frames, e') /\ length frames = n /\
    (exists t', between Q t' e') /\ Forall (fun fr => forall x y, 0 <= x < 256 -> 0 <= y < 240 ->
      frame_pixel fr x y = background (vrambus (world e)) (cartridge (world e)) (ppu (world e)) pic x y) frames);
    [| exact Hg].
  revert t e pic Hb Hs Hov. induction n as [| n IH]; intros t e pic Hb Hs Hov.
  - exists [], e. split; [done |]. split; [done |]. split; [by exists t | constructor].
  - destruct (quiet_frame shl Q t e pic Hb Hs ltac:(lia)) as (t1 & e1 & E & Hb1 & [Ev Ec] & Es & _ & Hs1 & Hcy).
    destruct (IH t1 e1 _ Hb1 Hs1 ltac:(lia)) as (frames & e' & Epl & L & Hb' & Hf).
    pose proof Hs1 as (scr & Escr & Hpx). exists (frame scr :: frames), e'. rewrite play_S, E. cbn [rbind].
    rewrite Escr, Epl. split; [done |]. split; [by simpl; rewrite L |]. split; [done |]. constructor.
    + intros x y Hx Hy. rewrite (frame_pixel_screen _ scr (re_ok _ (be_render _ _ _ Hb1)) Escr). by apply Hpx.
    + eapply Forall_impl; [exact Hf |]. intros fr Hfr x y Hx Hy. rewrite Hfr by done.
      rewrite Ev, Ec, (background_setup _ _ _ _ _ Es). unfold background. by destruct (x <? 4).
Qed.

(** The program that jumps to itself, after its first interrupt. *)
Definition spinning_machine : Emulator :=
  tiny spin_prog EmptyString (Ppu.set_screen (Some (new_canvas 1 (fun _ => 0) 256 240))
    (set_p_lines 241 (set_p_cycles (241 * 341 + 2) (on_io (set_bg_show true) init_ppu)))).

Lemma program_shows_background_witness : exists frames e',
  play (fun _ _ => 0) 3 spinning_machine = Ok (frames, e') /\ length frames = 3%nat.
Proof.
  set (p := ppu (world spinning_machine)).
  assert (Hp : ppu_ok p).
  { destruct init_ppu_ok as [H0 _]. destruct H0. constructor; try done.
    intros cv [= <-]. split; [by apply new_canvas_ok | done]. }
  destruct (program_shows_background spinning (fun _ _ => 0) 3 (241 * 341 + 2) spinning_machine
    (pixel (new_canvas 1 (fun _ => 0) 256 240))) as (frames & e' & E & L & _).
  - constructor; [| reflexivity | reflexivity | |
      change ((241 * 341 + 2) mod 341) with 2; change (((241 * 341 + 2) / 341) mod 262) with 241; unfold blanking; lia].
    + constructor; [| apply tiny_spinning]. apply tiny_at; [repeat constructor; unfold byte; lia | exact Hp | by constructor].
    + constructor; [exact Hp | reflexivity | reflexivity | split; [reflexivity | by left]].
  - by eexists.
  - reflexivity.
  - exists frames, e'. split; [exact E | exact L].
Defined.
